(** * NRI validation layer: [DeviceVal]

    A shallow embedding of [Source/Validation/DeviceVal.cpp], the device
    facade of the validation layer that sits between a client and a GPU
    backend, together with the properties of its memory-binding, pipeline
    and view validation.

    Conventions of the embedding.
    - Unsigned C++ integers are [N]; where the source computes in a fixed
      width the wrap-around is written out ([u32], [u64]).
    - A pointer is [option addr]: [None] is [nullptr]. The validation
      proxies live in one heap, a [gmap] from addresses to proxies.
    - A function of the source is a computation in the monad [M]: it
      threads the [World] (heap, backend call log, error reports), may leave
      early through [RETURN_ON_FAILURE], and is undefined when it
      dereferences a pointer that holds no live proxy of the expected type.
    - The backend is external: the answer of every backend entry point is
      an argument of the operation that calls it, and every call is logged.
    - Constants of the NRI headers that the source only names
      ([StageBits::GRAPHICS_SHADERS], [Format::MAX_NUM], ...) are fields of
      one record [Constants], a parameter of the development. *)

From stdpp Require Import base numbers option list strings gmap sets fin_maps.
From Stdlib Require Import QArith.QArith_base.
From Stdlib Require Import Lia.

#[local] Open Scope string_scope.
#[local] Open Scope N_scope.

(** ** Machine integers *)

Definition u32 (x : N) : N := x mod 2 ^ 32.
Definition u64 (x : N) : N := x mod 2 ^ 64.

(** ** Basic types *)

Definition addr := N.
Definition handle := N.
Definition Ptr := option addr.

(** [nri::Result]: the codes the layer produces itself, and the failures of
    the backend, which pass through unchanged. *)
Inductive Result : Type :=
| SUCCESS
| FAILURE
| INVALID_ARGUMENT
| BACKEND_FAILURE (code : N).

#[global] Instance Result_eq_dec : EqDecision Result.
Proof. solve_decision. Defined.

(** A C array argument, a pointer together with an element count: the null
    pointer with whatever count the caller passed, or an array that holds
    exactly [count] elements. *)
Inductive carray (A : Type) : Type :=
| NullArray (num : N)
| Array (elems : list A).
Arguments NullArray {A} num.
Arguments Array {A} elems.

Definition is_null {A} (a : carray A) : bool :=
  match a with NullArray _ => true | Array _ => false end.

Definition count {A} (a : carray A) : N :=
  match a with NullArray n => n | Array l => N.of_nat (length l) end.

(** A C++ [float]: the only operations of the source on it are comparisons
    with constants. *)
Inductive float32 : Type :=
| FNaN
| FInf (negative : bool)
| FFinite (q : Q).

Definition float_le_const (x : float32) (c : Q) : bool :=
  match x with
  | FNaN => false
  | FInf negative => negative
  | FFinite q => Qle_bool q c
  end.

Definition float_ge_const (x : float32) (c : Q) : bool :=
  match x with
  | FNaN => false
  | FInf negative => negb negative
  | FFinite q => Qle_bool c q
  end.

(** ** Descriptors (plain data of the NRI headers, the fields the source reads) *)

Record BufferDesc := { bd_size : N }.

Record AllocateBufferDesc := { abd_desc : BufferDesc; abd_memoryLocation : N }.

Record TextureDesc := {
  td_format : N;
  td_width : N;
  td_height : N;
  td_depth : N;
  td_mipNum : N;
  td_layerNum : N;
  td_sampleNum : N
}.

Record AllocateTextureDesc := { atd_desc : TextureDesc; atd_memoryLocation : N }.

Record Texture2DViewDesc := {
  tv_texture : Ptr;
  tv_viewType : N;
  tv_format : N;
  tv_mipOffset : N;
  tv_mipNum : N;
  tv_layerOffset : N;
  tv_layerNum : N
}.

Record DescriptorRangeDesc := {
  dr_isDescriptorNumVariable : bool;
  dr_isArray : bool;
  dr_descriptorNum : N;
  dr_descriptorType : N;
  dr_shaderStages : N
}.

Record DescriptorSetDesc := { ds_ranges : list DescriptorRangeDesc }.

Record PipelineLayoutDesc := {
  pl_shaderStages : N;
  pl_descriptorSets : list DescriptorSetDesc
}.

Record ShaderDesc := {
  sh_stage : N;
  sh_bytecode : Ptr;
  sh_size : N
}.

Record ColorAttachmentDesc := { ca_format : N }.

Record VertexAttributeDesc := {
  va_offset : N;
  va_format : N;
  va_streamIndex : N
}.

Record VertexStreamDesc := { vs_stride : N }.

Record VertexInputDesc := {
  vi_attributes : list VertexAttributeDesc;
  vi_streams : list VertexStreamDesc
}.

Record GraphicsPipelineDesc := {
  gp_pipelineLayout : Ptr;
  gp_vertexInput : option VertexInputDesc;
  gp_color : list ColorAttachmentDesc;
  gp_shaders : carray ShaderDesc
}.

Record AllocateMemoryDesc := {
  am_size : N;
  am_type : N;
  am_priority : float32
}.

Record MemoryDesc := {
  md_size : N;
  md_alignment : N;
  md_mustBeDedicated : bool
}.

(** [BufferMemoryBindingDesc], [TextureMemoryBindingDesc] and
    [AccelerationStructureMemoryBindingDesc] have the same three fields. *)
Record MemoryBindingDesc := {
  mb_memory : Ptr;
  mb_resource : Ptr;
  mb_offset : N
}.

(** A binding descriptor after [GetImpl]: backend handles, same offset. *)
Record MemoryBindingImplDesc := {
  mbi_memory : handle;
  mbi_resource : handle;
  mbi_offset : N
}.

Record ResourceGroupDesc := {
  rg_memoryLocation : N;
  rg_buffers : carray Ptr;
  rg_textures : carray Ptr
}.

Record AccelerationStructureDesc := {
  asd_isBottomLevel : bool;
  asd_instanceOrGeometryObjectNum : N
}.

(** ** Constants of the NRI headers *)

Record Constants := {
  StageBits_ALL : N;
  StageBits_NONE : N;
  VERTEX_SHADER : N;
  MESH_CONTROL_SHADER : N;
  GRAPHICS_SHADERS : N;
  COMPUTE_SHADER : N;
  RAY_TRACING_SHADERS : N;
  Format_UNKNOWN : N;
  Format_BC1_RGBA_UNORM : N;
  Format_MAX_NUM : N;
  Texture2DViewType_MAX_NUM : N;
  DescriptorType_MAX_NUM : N;
  MemoryLocation_DEVICE : N;
  MemoryLocation_MAX_NUM : N;
  GetFormatProps_stride : N → N
}.

(** A concrete instance with the bit layout of NRI's [StageBits] (graphics
    stages on bits 1 to 7, compute on bit 10, ray tracing on bits 11 to 16),
    used to run the model on concrete inputs. *)
Definition nri : Constants := {|
  StageBits_ALL := 0;
  StageBits_NONE := 0x7FFFFFFF;
  VERTEX_SHADER := 2;
  MESH_CONTROL_SHADER := 32;
  GRAPHICS_SHADERS := 254;
  COMPUTE_SHADER := 1024;
  RAY_TRACING_SHADERS := 129024;
  Format_UNKNOWN := 0;
  Format_BC1_RGBA_UNORM := 53;
  Format_MAX_NUM := 70;
  Texture2DViewType_MAX_NUM := 8;
  DescriptorType_MAX_NUM := 9;
  MemoryLocation_DEVICE := 0;
  MemoryLocation_MAX_NUM := 4;
  GetFormatProps_stride := λ _, 4
|}.

(** ** Validation proxies and the world *)

Record BufferVal := {
  buffer_impl : handle;
  buffer_isBoundToMemory : bool;
  buffer_desc : BufferDesc
}.

Record TextureVal := {
  texture_impl : handle;
  texture_isBoundToMemory : bool;
  texture_desc : TextureDesc
}.

Record AccelerationStructureVal := {
  as_impl : handle;
  as_isBoundToMemory : bool;
  as_memoryDesc : MemoryDesc
}.

(** Modelled from the spec: [MemoryVal] is declared in [MemoryVal.h], which
    is not part of the sources at hand. Per the data model a Memory has a
    size (zero when unknown), a location class (the sentinel
    [MemoryLocation::MAX_NUM] when imported) and the set of resources
    currently bound to it. *)
Record MemoryVal := {
  memory_impl : handle;
  memory_size : N;
  memory_location : N;
  memory_bound : gset addr
}.

Record DescriptorVal := { descriptor_impl : handle }.

Record PipelineLayoutVal := {
  layout_impl : handle;
  layout_desc : PipelineLayoutDesc
}.

Record PipelineVal := { pipeline_impl : handle }.

Inductive Proxy : Type :=
| PBuffer (b : BufferVal)
| PTexture (t : TextureVal)
| PAccelerationStructure (a : AccelerationStructureVal)
| PMemory (m : MemoryVal)
| PDescriptor (d : DescriptorVal)
| PPipelineLayout (l : PipelineLayoutVal)
| PPipeline (p : PipelineVal).

(** The entry points of the backend function tables the source calls. *)
Inductive BackendCall : Type :=
| Core_CreateBuffer (d : BufferDesc)
| ResourceAllocator_AllocateBuffer (d : AllocateBufferDesc)
| Core_CreateTexture (d : TextureDesc)
| ResourceAllocator_AllocateTexture (d : AllocateTextureDesc)
| Core_CreateTexture2DView (texture : handle) (d : Texture2DViewDesc)
| Core_CreatePipelineLayout (d : PipelineLayoutDesc)
| Core_CreateGraphicsPipeline (layout : handle) (d : GraphicsPipelineDesc)
| Core_AllocateMemory (d : AllocateMemoryDesc)
| Core_GetBufferMemoryDesc (d : BufferDesc) (location : N)
| Core_GetTextureMemoryDesc (d : TextureDesc) (location : N)
| Core_BindBufferMemory (descs : list MemoryBindingImplDesc)
| Core_BindTextureMemory (descs : list MemoryBindingImplDesc)
| RayTracing_BindAccelerationStructureMemory (descs : list MemoryBindingImplDesc)
| Core_FreeMemory (memory : handle)
| Helper_CalculateAllocationNumber (location : N) (buffers textures : list handle)
| Helper_AllocateAndBindMemory (location : N) (buffers textures : list handle)
| RayTracing_CreateAccelerationStructure (d : AccelerationStructureDesc)
| ResourceAllocator_AllocateAccelerationStructure (d : AccelerationStructureDesc)
| RayTracing_GetAccelerationStructureMemoryDesc (d : AccelerationStructureDesc) (location : N)
| Core_DestroyBuffer (buffer : handle)
| Core_DestroyTexture (texture : handle)
| Core_DestroyDescriptor (descriptor : handle).

(** A message sent to the diagnostic callback: the format string and its
    integer arguments. *)
Record Report := { report_message : string; report_args : list N }.

Record World := {
  heap : gmap addr Proxy;
  m_MemoryTypeMap : gmap N N;
  next : addr;
  calls : list BackendCall;
  reports : list Report
}.

Definition set_heap (f : gmap addr Proxy → gmap addr Proxy) (w : World) : World :=
  {| heap := f (heap w); m_MemoryTypeMap := m_MemoryTypeMap w; next := next w;
     calls := calls w; reports := reports w |}.

Definition set_memoryTypeMap (f : gmap N N → gmap N N) (w : World) : World :=
  {| heap := heap w; m_MemoryTypeMap := f (m_MemoryTypeMap w); next := next w;
     calls := calls w; reports := reports w |}.

Definition set_next (n : addr) (w : World) : World :=
  {| heap := heap w; m_MemoryTypeMap := m_MemoryTypeMap w; next := n;
     calls := calls w; reports := reports w |}.

Definition log_call (c : BackendCall) (w : World) : World :=
  {| heap := heap w; m_MemoryTypeMap := m_MemoryTypeMap w; next := next w;
     calls := calls w ++ [c]; reports := reports w |}.

Definition log_report (r : Report) (w : World) : World :=
  {| heap := heap w; m_MemoryTypeMap := m_MemoryTypeMap w; next := next w;
     calls := calls w; reports := reports w ++ [r] |}.

Definition empty_world : World :=
  {| heap := ∅; m_MemoryTypeMap := ∅; next := 1; calls := []; reports := [] |}.

(** ** The monad of the source's functions

    A computation started in a world ends in one of three ways: it is
    undefined (a dereference of a pointer that holds no live proxy of the
    expected type, or an array read out of range), it left the enclosing
    function early with a return value, or it ran to its end. *)

Inductive Outcome (R A : Type) : Type :=
| Undefined
| Returned (r : R) (w : World)
| Normal (a : A) (w : World).
Arguments Undefined {R A}.
Arguments Returned {R A} r w.
Arguments Normal {R A} a w.

Definition M (R A : Type) : Type := World → Outcome R A.

Definition ret {R A} (a : A) : M R A := λ w, Normal a w.

Definition bind {R A B} (m : M R A) (k : A → M R B) : M R B :=
  λ w, match m w with
       | Undefined => Undefined
       | Returned r w' => Returned r w'
       | Normal a w' => k a w'
       end.

Notation "x <-- m ;; k" := (bind m (λ x, k))
  (at level 100, m at next level, right associativity).
Notation "m ;;; k" := (bind m (λ _, k))
  (at level 100, right associativity).

Definition undefined {R A} : M R A := λ _, Undefined.

(** [REPORT_ERROR] *)
Definition REPORT_ERROR {R} (message : string) (args : list N) : M R unit :=
  λ w, Normal tt (log_report {| report_message := message; report_args := args |} w).

(** Modelled from the spec: the macro [RETURN_ON_FAILURE] is defined in
    [SharedVal.h], which is not part of the sources at hand. Per the spec
    a failed check reports a descriptive error and returns the given result
    without going further. *)
Definition RETURN_ON_FAILURE {R} (condition : bool) (result : R)
    (message : string) (args : list N) : M R unit :=
  λ w, if condition then Normal tt w
       else Returned result (log_report {| report_message := message; report_args := args |} w).

(** A call of a backend entry point: logged, answered by [answer]. *)
Definition backend {R A} (c : BackendCall) (answer : A) : M R A :=
  λ w, Normal answer (log_call c w).

(** [Allocate<T>]: a new proxy at a fresh address. *)
Definition Allocate {R} (p : Proxy) : M R addr :=
  λ w, Normal (next w) (set_next (next w + 1) (set_heap (insert (next w) p) w)).

(** [Destroy]: the proxy is released. *)
Definition Destroy {R} (a : addr) : M R unit :=
  λ w, Normal tt (set_heap (delete a) w).

(** [m_MemoryTypeMap.find], under the lock. *)
Definition find_memoryType {R} (memoryType : N) : M R (option N) :=
  λ w, Normal (m_MemoryTypeMap w !! memoryType) w.

Definition project {R A} (o : option A) : M R A :=
  match o with Some a => ret a | None => undefined end.

(** Dereferences: [*(BufferVal* )p] and the like. *)
Definition as_buffer (p : option Proxy) : option BufferVal :=
  match p with Some (PBuffer b) => Some b | _ => None end.
Definition as_texture (p : option Proxy) : option TextureVal :=
  match p with Some (PTexture t) => Some t | _ => None end.
Definition as_accelerationStructure (p : option Proxy) : option AccelerationStructureVal :=
  match p with Some (PAccelerationStructure a) => Some a | _ => None end.
Definition as_memory (p : option Proxy) : option MemoryVal :=
  match p with Some (PMemory m) => Some m | _ => None end.
Definition as_pipelineLayout (p : option Proxy) : option PipelineLayoutVal :=
  match p with Some (PPipelineLayout l) => Some l | _ => None end.
Definition as_descriptor (p : option Proxy) : option DescriptorVal :=
  match p with Some (PDescriptor d) => Some d | _ => None end.

Definition deref {R A} (cast : option Proxy → option A) (p : Ptr) : M R (addr * A) :=
  λ w, match p with
       | None => Undefined
       | Some a => match cast (heap w !! a) with
                   | Some v => Normal (a, v) w
                   | None => Undefined
                   end
       end.

(** The result of a function with return type [R]: [None] when undefined. *)
Definition run {R} (m : M R R) (w : World) : option (R * World) :=
  match m w with
  | Undefined => None
  | Returned r w' => Some (r, w')
  | Normal r w' => Some (r, w')
  end.

(** The result of a function with an out parameter of pointer type: the
    body yields the return value and the final value of the caller's
    variable; a function left early has not assigned it. *)
Definition run_out (m : M Result (Result * Ptr)) (old : Ptr) (w : World)
    : option (Result * Ptr * World) :=
  match m w with
  | Undefined => None
  | Returned r w' => Some (r, old, w')
  | Normal (r, p) w' => Some (r, p, w')
  end.

Definition return_ {R A} (r : R) : M R A := λ w, Returned r w.

(** A call of another function of the layer: its early returns end the
    callee, not the caller. *)
Definition call {R R'} (m : M R R) : M R' R :=
  λ w, match m w with
       | Undefined => Undefined
       | Returned r w' => Normal r w'
       | Normal r w' => Normal r w'
       end.

Definition modify_heap {R} (f : gmap addr Proxy → gmap addr Proxy) : M R unit :=
  λ w, Normal tt (set_heap f w).

(** [for (uint32_t i = 0; i < num; i++)] over an array, with the variables
    the body updates as the loop state. *)
Fixpoint for_loop {R A S} (i : N) (l : list A) (s : S) (body : N → A → S → M R S)
    : M R S :=
  match l with
  | [] => ret s
  | x :: l' => s' <-- body i x s ;; for_loop (i + 1) l' s' body
  end.

(** ** The two static helpers *)

(** [while (x) { n += x & 1; x >>= 1; }]: the loop state after at most
    [fuel] iterations. *)
Fixpoint popcount_loop (fuel : nat) (x n : N) : N * N :=
  match fuel with
  | O => (x, n)
  | S fuel' =>
      if x =? 0 then (x, n)
      else popcount_loop fuel' (N.shiftr x 1) (n + N.land x 1)
  end.

(** [IsShaderStageValid]: the returned flag and the new value of the
    reference parameter [uniqueShaderStages]. A 32-bit [x] is zero after 32
    shifts ([popcount_loop_exits]). *)
Definition IsShaderStageValid (shaderStages uniqueShaderStages allowedStages : N)
    : bool * N :=
  let x := u32 (N.land shaderStages allowedStages) in
  let n := snd (popcount_loop 32 x 0) in
  let x := u32 shaderStages in
  let isUnique := N.land uniqueShaderStages x =? 0 in
  let uniqueShaderStages := N.lor uniqueShaderStages x in
  ((n =? 1) && isUnique, uniqueShaderStages).

(** The loop of [GetMaxMipNum]: the state [(w, h, d, mipNum)] after at most
    [fuel] iterations. *)
Fixpoint GetMaxMipNum_loop (fuel : nat) (w h d mipNum : N) : N * N * N * N :=
  match fuel with
  | O => (w, h, d, mipNum)
  | S fuel' =>
      if (1 <? w) || (1 <? h) || (1 <? d) then
        let w := if 1 <? w then N.shiftr w 1 else w in
        let h := if 1 <? h then N.shiftr h 1 else h in
        let d := if 1 <? d then N.shiftr d 1 else d in
        GetMaxMipNum_loop fuel' w h d (mipNum + 1)
      else (w, h, d, mipNum)
  end.

(** [GetMaxMipNum]: the arguments are 16-bit, so 16 iterations are enough
    ([GetMaxMipNum_loop_exits]). *)
Definition GetMaxMipNum (w h d : N) : N :=
  snd (GetMaxMipNum_loop 16 w h d 1).

(** ** The operations of [DeviceVal] *)

Section DeviceVal.

Context (K : Constants).

(** The memory requirement the backend reports for a buffer or a texture
    with a given descriptor in a given memory location. *)
Context (Backend_GetBufferMemoryDesc : BufferDesc → N → MemoryDesc).
Context (Backend_GetTextureMemoryDesc : TextureDesc → N → MemoryDesc).

(** [RegisterMemoryType] *)
Definition RegisterMemoryType (memoryType memoryLocation : N) : M unit unit :=
  λ w, Normal tt (set_memoryTypeMap (insert memoryType memoryLocation) w).

(** *** Buffers and textures *)

Definition CreateBuffer_body (bufferDesc : BufferDesc)
    (backendResult : Result) (bufferImpl : handle) (buffer : Ptr)
    : M Result (Result * Ptr) :=
  RETURN_ON_FAILURE (negb (bd_size bufferDesc =? 0)) INVALID_ARGUMENT
    "'bufferDesc.size' is 0" [] ;;;
  result <-- backend (Core_CreateBuffer bufferDesc) backendResult ;;
  if decide (result = SUCCESS) then
    a <-- Allocate (PBuffer {| buffer_impl := bufferImpl;
                               buffer_isBoundToMemory := false;
                               buffer_desc := bufferDesc |}) ;;
    ret (result, Some a)
  else ret (result, buffer).

Definition CreateBuffer bufferDesc backendResult bufferImpl (buffer : Ptr) :=
  run_out (CreateBuffer_body bufferDesc backendResult bufferImpl buffer) buffer.

Definition AllocateBuffer_body (bufferDesc : AllocateBufferDesc)
    (backendResult : Result) (bufferImpl : handle) (buffer : Ptr)
    : M Result (Result * Ptr) :=
  RETURN_ON_FAILURE (negb (bd_size (abd_desc bufferDesc) =? 0)) INVALID_ARGUMENT
    "'bufferDesc.size' is 0" [] ;;;
  result <-- backend (ResourceAllocator_AllocateBuffer bufferDesc) backendResult ;;
  if decide (result = SUCCESS) then
    a <-- Allocate (PBuffer {| buffer_impl := bufferImpl;
                               buffer_isBoundToMemory := true;
                               buffer_desc := abd_desc bufferDesc |}) ;;
    ret (result, Some a)
  else ret (result, buffer).

Definition AllocateBuffer bufferDesc backendResult bufferImpl (buffer : Ptr) :=
  run_out (AllocateBuffer_body bufferDesc backendResult bufferImpl buffer) buffer.

(** The checks shared, line for line, by [CreateTexture] and
    [AllocateTexture]. *)
Definition TextureDesc_checks (textureDesc : TextureDesc) : M Result unit :=
  let maxMipNum := GetMaxMipNum (td_width textureDesc) (td_height textureDesc)
                                (td_depth textureDesc) in
  RETURN_ON_FAILURE ((Format_UNKNOWN K <? td_format textureDesc)
                     && (td_format textureDesc <? Format_MAX_NUM K))
    INVALID_ARGUMENT "'textureDesc.format' is invalid" [] ;;;
  RETURN_ON_FAILURE (negb (td_width textureDesc =? 0)) INVALID_ARGUMENT
    "'textureDesc.width' is 0" [] ;;;
  RETURN_ON_FAILURE (negb (td_height textureDesc =? 0)) INVALID_ARGUMENT
    "'textureDesc.height' is 0" [] ;;;
  RETURN_ON_FAILURE (negb (td_depth textureDesc =? 0)) INVALID_ARGUMENT
    "'textureDesc.depth' is 0" [] ;;;
  RETURN_ON_FAILURE (negb (td_mipNum textureDesc =? 0)) INVALID_ARGUMENT
    "'textureDesc.mipNum' is 0" [] ;;;
  RETURN_ON_FAILURE (td_mipNum textureDesc <=? maxMipNum) INVALID_ARGUMENT
    "'textureDesc.mipNum = %u' can't be > %u" [td_mipNum textureDesc; maxMipNum] ;;;
  RETURN_ON_FAILURE (negb (td_layerNum textureDesc =? 0)) INVALID_ARGUMENT
    "'textureDesc.layerNum' is 0" [] ;;;
  RETURN_ON_FAILURE (negb (td_sampleNum textureDesc =? 0)) INVALID_ARGUMENT
    "'textureDesc.sampleNum' is 0" [].

Definition CreateTexture_body (textureDesc : TextureDesc)
    (backendResult : Result) (textureImpl : handle) (texture : Ptr)
    : M Result (Result * Ptr) :=
  TextureDesc_checks textureDesc ;;;
  result <-- backend (Core_CreateTexture textureDesc) backendResult ;;
  if decide (result = SUCCESS) then
    a <-- Allocate (PTexture {| texture_impl := textureImpl;
                                texture_isBoundToMemory := false;
                                texture_desc := textureDesc |}) ;;
    ret (result, Some a)
  else ret (result, texture).

Definition CreateTexture textureDesc backendResult textureImpl (texture : Ptr) :=
  run_out (CreateTexture_body textureDesc backendResult textureImpl texture) texture.

Definition AllocateTexture_body (textureDesc : AllocateTextureDesc)
    (backendResult : Result) (textureImpl : handle) (texture : Ptr)
    : M Result (Result * Ptr) :=
  TextureDesc_checks (atd_desc textureDesc) ;;;
  result <-- backend (ResourceAllocator_AllocateTexture textureDesc) backendResult ;;
  if decide (result = SUCCESS) then
    a <-- Allocate (PTexture {| texture_impl := textureImpl;
                                texture_isBoundToMemory := true;
                                texture_desc := atd_desc textureDesc |}) ;;
    ret (result, Some a)
  else ret (result, texture).

Definition AllocateTexture textureDesc backendResult textureImpl (texture : Ptr) :=
  run_out (AllocateTexture_body textureDesc backendResult textureImpl texture) texture.

(** *** Texture views *)

(** [CreateDescriptor(const Texture2DViewDesc&, Descriptor*&)]. The sums
    [mipOffset + mipNum] and [layerOffset + layerNum] are sums of operands
    narrower than [int], computed in [int] without wrap-around. *)
Definition CreateDescriptor_Texture2DView_body (textureViewDesc : Texture2DViewDesc)
    (backendResult : Result) (descriptorImpl : handle) (textureView : Ptr)
    : M Result (Result * Ptr) :=
  RETURN_ON_FAILURE (bool_decide (tv_texture textureViewDesc ≠ None)) INVALID_ARGUMENT
    "'textureViewDesc.texture' is NULL" [] ;;;
  RETURN_ON_FAILURE (tv_viewType textureViewDesc <? Texture2DViewType_MAX_NUM K)
    INVALID_ARGUMENT "'textureViewDesc.viewType' is invalid" [] ;;;
  RETURN_ON_FAILURE ((Format_UNKNOWN K <? tv_format textureViewDesc)
                     && (tv_format textureViewDesc <? Format_MAX_NUM K))
    INVALID_ARGUMENT "'textureViewDesc.format' is invalid" [] ;;;
  t <-- deref as_texture (tv_texture textureViewDesc) ;;
  let textureDesc := texture_desc (snd t) in
  RETURN_ON_FAILURE (tv_mipOffset textureViewDesc <? td_mipNum textureDesc)
    INVALID_ARGUMENT "'textureViewDesc.mipOffset' is invalid. (textureViewDesc.mipOffset=%hu, textureDesc.mipNum=%hu)"
    [tv_mipOffset textureViewDesc; td_mipNum textureDesc] ;;;
  RETURN_ON_FAILURE (tv_mipOffset textureViewDesc + tv_mipNum textureViewDesc
                     <=? td_mipNum textureDesc)
    INVALID_ARGUMENT "'textureViewDesc.mipNum' is invalid. (textureViewDesc.mipOffset=%hu, textureViewDesc.mipNum=%hu, textureDesc.mipNum=%hu)"
    [tv_mipOffset textureViewDesc; tv_mipNum textureViewDesc; td_mipNum textureDesc] ;;;
  RETURN_ON_FAILURE (tv_layerOffset textureViewDesc <? td_layerNum textureDesc)
    INVALID_ARGUMENT "'textureViewDesc.layerOffset' is invalid. (textureViewDesc.layerOffset=%hu, textureDesc.layerNum=%hu)"
    [tv_layerOffset textureViewDesc; td_layerNum textureDesc] ;;;
  RETURN_ON_FAILURE (tv_layerOffset textureViewDesc + tv_layerNum textureViewDesc
                     <=? td_layerNum textureDesc)
    INVALID_ARGUMENT "'textureViewDesc.layerNum' is invalid. (textureViewDesc.layerOffset=%hu, textureViewDesc.layerNum=%hu, textureDesc.layerNum=%hu)"
    [tv_layerOffset textureViewDesc; tv_layerNum textureViewDesc; td_layerNum textureDesc] ;;;
  result <-- backend (Core_CreateTexture2DView (texture_impl (snd t)) textureViewDesc)
                     backendResult ;;
  if decide (result = SUCCESS) then
    a <-- Allocate (PDescriptor {| descriptor_impl := descriptorImpl |}) ;;
    ret (result, Some a)
  else ret (result, textureView).

Definition CreateDescriptor_Texture2DView textureViewDesc backendResult descriptorImpl
    (textureView : Ptr) :=
  run_out (CreateDescriptor_Texture2DView_body textureViewDesc backendResult
             descriptorImpl textureView) textureView.

(** [DestroyDescriptor] *)
Definition DestroyDescriptor_body (descriptor : addr) : M unit unit :=
  d <-- deref as_descriptor (Some descriptor) ;;
  backend (Core_DestroyDescriptor (descriptor_impl (snd d))) tt ;;;
  Destroy descriptor.

Definition DestroyDescriptor (descriptor : addr) := run (DestroyDescriptor_body descriptor).

(** *** Pipeline layouts and graphics pipelines *)

(** The first three checks of [CreatePipelineLayout], on the stage mask. *)
Definition PipelineLayout_stage_checks (pipelineLayoutDesc : PipelineLayoutDesc)
    : M Result unit :=
  let isGraphics :=
    negb (N.land (pl_shaderStages pipelineLayoutDesc) (GRAPHICS_SHADERS K) =? 0) in
  let isCompute :=
    negb (N.land (pl_shaderStages pipelineLayoutDesc) (COMPUTE_SHADER K) =? 0) in
  let isRayTracing :=
    negb (N.land (pl_shaderStages pipelineLayoutDesc) (RAY_TRACING_SHADERS K) =? 0) in
  let supportedTypes :=
    N.b2n isGraphics + N.b2n isCompute + N.b2n isRayTracing in
  RETURN_ON_FAILURE (negb (pl_shaderStages pipelineLayoutDesc =? StageBits_NONE K))
    INVALID_ARGUMENT "'pipelineLayoutDesc.shaderStages' can't be NONE" [] ;;;
  RETURN_ON_FAILURE (0 <? supportedTypes)
    INVALID_ARGUMENT "'pipelineLayoutDesc.shaderStages' doesn't include any shader stages" [] ;;;
  RETURN_ON_FAILURE (supportedTypes =? 1)
    INVALID_ARGUMENT "'pipelineLayoutDesc.shaderStages' is invalid, it can't be compatible with more than one type of pipeline" [].

(** The body of the inner loop, on one descriptor range. *)
Definition PipelineLayout_range_checks (pipelineLayoutDesc : PipelineLayoutDesc)
    (i j : N) (range : DescriptorRangeDesc) : M Result unit :=
  RETURN_ON_FAILURE (negb (dr_isDescriptorNumVariable range) || dr_isArray range)
    INVALID_ARGUMENT "'pipelineLayoutDesc.descriptorSets[%u].ranges[%u]' is invalid, 'isArray' can't be false if 'isDescriptorNumVariable' is true" [i; j] ;;;
  RETURN_ON_FAILURE (0 <? dr_descriptorNum range)
    INVALID_ARGUMENT "'pipelineLayoutDesc.descriptorSets[%u].ranges[%u].descriptorNum' is 0" [i; j] ;;;
  RETURN_ON_FAILURE (dr_descriptorType range <? DescriptorType_MAX_NUM K)
    INVALID_ARGUMENT "'pipelineLayoutDesc.descriptorSets[%u].ranges[%u].descriptorType' is invalid" [i; j] ;;;
  if negb (dr_shaderStages range =? StageBits_ALL K) then
    let filteredVisibilityMask :=
      N.land (dr_shaderStages range) (pl_shaderStages pipelineLayoutDesc) in
    RETURN_ON_FAILURE (u32 (dr_shaderStages range) =? filteredVisibilityMask)
      INVALID_ARGUMENT "'pipelineLayoutDesc.descriptorSets[%u].ranges[%u].shaderStages' is not compatible with 'pipelineLayoutDesc.shaderStages'" [i; j]
  else ret tt.

Definition CreatePipelineLayout_body (pipelineLayoutDesc : PipelineLayoutDesc)
    (backendResult : Result) (pipelineLayoutImpl : handle) (pipelineLayout : Ptr)
    : M Result (Result * Ptr) :=
  PipelineLayout_stage_checks pipelineLayoutDesc ;;;
  for_loop 0 (pl_descriptorSets pipelineLayoutDesc) tt
    (λ i descriptorSetDesc _,
       for_loop 0 (ds_ranges descriptorSetDesc) tt
         (λ j range _, PipelineLayout_range_checks pipelineLayoutDesc i j range)) ;;;
  result <-- backend (Core_CreatePipelineLayout pipelineLayoutDesc) backendResult ;;
  if decide (result = SUCCESS) then
    a <-- Allocate (PPipelineLayout {| layout_impl := pipelineLayoutImpl;
                                       layout_desc := pipelineLayoutDesc |}) ;;
    ret (result, Some a)
  else ret (result, pipelineLayout).

Definition CreatePipelineLayout pipelineLayoutDesc backendResult pipelineLayoutImpl
    (pipelineLayout : Ptr) :=
  run_out (CreatePipelineLayout_body pipelineLayoutDesc backendResult
             pipelineLayoutImpl pipelineLayout) pipelineLayout.

(** The body of the shader loop of [CreatePipeline(GraphicsPipelineDesc)]:
    the loop state is [(hasEntryPoint, uniqueShaderStages)]. *)
Definition GraphicsPipeline_shader_checks (shaderStages : N) (i : N)
    (shaderDesc : ShaderDesc) (st : bool * N) : M Result (bool * N) :=
  let hasEntryPoint :=
    if (sh_stage shaderDesc =? VERTEX_SHADER K)
       || (sh_stage shaderDesc =? MESH_CONTROL_SHADER K)
    then true else fst st in
  RETURN_ON_FAILURE (negb (N.land (sh_stage shaderDesc) shaderStages =? 0))
    INVALID_ARGUMENT "'graphicsPipelineDesc.shaders[%u].stage' is not enabled in the pipeline layout" [i] ;;;
  RETURN_ON_FAILURE (bool_decide (sh_bytecode shaderDesc ≠ None))
    INVALID_ARGUMENT "'graphicsPipelineDesc.shaders[%u].bytecode' is invalid" [i] ;;;
  RETURN_ON_FAILURE (negb (sh_size shaderDesc =? 0))
    INVALID_ARGUMENT "'graphicsPipelineDesc.shaders[%u].size' is 0" [i] ;;;
  let valid := IsShaderStageValid (sh_stage shaderDesc) (snd st) (GRAPHICS_SHADERS K) in
  RETURN_ON_FAILURE (fst valid)
    INVALID_ARGUMENT "'graphicsPipelineDesc.shaders[%u].stage' must include only 1 graphics shader stage, unique for the entire pipeline" [i] ;;;
  ret (hasEntryPoint, snd valid).

(** The checks on the shader list, up to the entry-point check. *)
Definition GraphicsPipeline_stage_checks (shaderStages : N) (shaders : list ShaderDesc)
    : M Result unit :=
  st <-- for_loop 0 shaders (false, 0) (GraphicsPipeline_shader_checks shaderStages) ;;
  RETURN_ON_FAILURE (fst st)
    INVALID_ARGUMENT "a VERTEX or MESH_CONTROL shader is not provided" [].

Definition elems_of {A} (a : carray A) : list A :=
  match a with NullArray _ => [] | Array l => l end.

Definition CreatePipeline_Graphics_body (graphicsPipelineDesc : GraphicsPipelineDesc)
    (backendResult : Result) (pipelineImpl : handle) (pipeline : Ptr)
    : M Result (Result * Ptr) :=
  RETURN_ON_FAILURE (bool_decide (gp_pipelineLayout graphicsPipelineDesc ≠ None))
    INVALID_ARGUMENT "'graphicsPipelineDesc.pipelineLayout' is NULL" [] ;;;
  RETURN_ON_FAILURE (negb (is_null (gp_shaders graphicsPipelineDesc)))
    INVALID_ARGUMENT "'graphicsPipelineDesc.shaders' is NULL" [] ;;;
  RETURN_ON_FAILURE (0 <? count (gp_shaders graphicsPipelineDesc))
    INVALID_ARGUMENT "'graphicsPipelineDesc.shaderNum' is 0" [] ;;;
  l <-- deref as_pipelineLayout (gp_pipelineLayout graphicsPipelineDesc) ;;
  let shaderStages := pl_shaderStages (layout_desc (snd l)) in
  GraphicsPipeline_stage_checks shaderStages (elems_of (gp_shaders graphicsPipelineDesc)) ;;;
  for_loop 0 (gp_color graphicsPipelineDesc) tt
    (λ i color _,
       RETURN_ON_FAILURE ((Format_UNKNOWN K <? ca_format color)
                          && (ca_format color <? Format_BC1_RGBA_UNORM K))
         INVALID_ARGUMENT "'graphicsPipelineDesc.outputMerger->color[%u].format = %u' is invalid"
         [i; ca_format color]) ;;;
  match gp_vertexInput graphicsPipelineDesc with
  | Some vertexInput =>
      for_loop 0 (vi_attributes vertexInput) tt
        (λ i attribute _,
           let size := GetFormatProps_stride K (va_format attribute) in
           s <-- project (vi_streams vertexInput !! N.to_nat (va_streamIndex attribute)) ;;
           let stride := vs_stride s in
           RETURN_ON_FAILURE (u32 (va_offset attribute + size) <=? stride)
             INVALID_ARGUMENT "'graphicsPipelineDesc.inputAssembly->attributes[%u]' is out of bounds of 'graphicsPipelineDesc.inputAssembly->streams[%u]' (stride = %u)"
             [i; va_streamIndex attribute; stride])
  | None => ret tt
  end ;;;
  result <-- backend (Core_CreateGraphicsPipeline (layout_impl (snd l)) graphicsPipelineDesc)
                     backendResult ;;
  if decide (result = SUCCESS) then
    a <-- Allocate (PPipeline {| pipeline_impl := pipelineImpl |}) ;;
    ret (result, Some a)
  else ret (result, pipeline).

Definition CreatePipeline_Graphics graphicsPipelineDesc backendResult pipelineImpl
    (pipeline : Ptr) :=
  run_out (CreatePipeline_Graphics_body graphicsPipelineDesc backendResult
             pipelineImpl pipeline) pipeline.

(** *** Memory *)

Definition AllocateMemory_body (allocateMemoryDesc : AllocateMemoryDesc)
    (backendResult : Result) (memoryImpl : handle) (memory : Ptr)
    : M Result (Result * Ptr) :=
  RETURN_ON_FAILURE (0 <? am_size allocateMemoryDesc) INVALID_ARGUMENT
    "'allocateMemoryDesc.size' is 0" [] ;;;
  RETURN_ON_FAILURE (float_ge_const (am_priority allocateMemoryDesc) (-1)%Q
                     && float_le_const (am_priority allocateMemoryDesc) 1%Q)
    INVALID_ARGUMENT "'allocateMemoryDesc.priority' outside of [-1; 1] range" [] ;;;
  it <-- find_memoryType (am_type allocateMemoryDesc) ;;
  RETURN_ON_FAILURE (bool_decide (it ≠ None)) FAILURE "'memoryType' is invalid" [] ;;;
  location <-- project it ;;
  result <-- backend (Core_AllocateMemory allocateMemoryDesc) backendResult ;;
  if decide (result = SUCCESS) then
    a <-- Allocate (PMemory {| memory_impl := memoryImpl;
                               memory_size := am_size allocateMemoryDesc;
                               memory_location := location;
                               memory_bound := ∅ |}) ;;
    ret (result, Some a)
  else ret (result, memory).

Definition AllocateMemory allocateMemoryDesc backendResult memoryImpl (memory : Ptr) :=
  run_out (AllocateMemory_body allocateMemoryDesc backendResult memoryImpl memory) memory.

(** Modelled from the spec: the methods of [MemoryVal], [BufferVal],
    [TextureVal] and [AccelerationStructureVal] are defined in files that are
    not part of the sources at hand. Per the spec a Memory refuses to be
    freed while its bound-set is not empty, a successful bind records the
    resource in the bound-set of the memory and sets the bound flag of the
    resource, and destroying a resource takes it out of the bound-set. *)
Definition HasBoundResources (m : MemoryVal) : bool :=
  bool_decide (memory_bound m ≠ ∅).

Definition ReportBoundResources {R} (m : MemoryVal) : M R unit :=
  for_loop 0 (elements (memory_bound m)) tt
    (λ _ resource _, REPORT_ERROR "resource is still bound to the memory" [resource]).

Definition add_bound (resource : addr) (m : MemoryVal) : MemoryVal :=
  {| memory_impl := memory_impl m; memory_size := memory_size m;
     memory_location := memory_location m;
     memory_bound := {[resource]} ∪ memory_bound m |}.

Definition remove_bound (resource : addr) (p : Proxy) : Proxy :=
  match p with
  | PMemory m =>
      PMemory {| memory_impl := memory_impl m; memory_size := memory_size m;
                 memory_location := memory_location m;
                 memory_bound := memory_bound m ∖ {[resource]} |}
  | _ => p
  end.

Definition BufferVal_SetBoundToMemory (b : BufferVal) : BufferVal :=
  {| buffer_impl := buffer_impl b; buffer_isBoundToMemory := true;
     buffer_desc := buffer_desc b |}.

Definition TextureVal_SetBoundToMemory (t : TextureVal) : TextureVal :=
  {| texture_impl := texture_impl t; texture_isBoundToMemory := true;
     texture_desc := texture_desc t |}.

Definition AccelerationStructureVal_SetBoundToMemory (a : AccelerationStructureVal)
    : AccelerationStructureVal :=
  {| as_impl := as_impl a; as_isBoundToMemory := true;
     as_memoryDesc := as_memoryDesc a |}.

Definition MemoryVal_BindBuffer {R} (memory : Ptr) (buffer : Ptr) : M R unit :=
  m <-- deref as_memory memory ;;
  b <-- deref as_buffer buffer ;;
  modify_heap (λ h, <[fst b := PBuffer (BufferVal_SetBoundToMemory (snd b))]>
                      (<[fst m := PMemory (add_bound (fst b) (snd m))]> h)).

Definition MemoryVal_BindTexture {R} (memory : Ptr) (texture : Ptr) : M R unit :=
  m <-- deref as_memory memory ;;
  t <-- deref as_texture texture ;;
  modify_heap (λ h, <[fst t := PTexture (TextureVal_SetBoundToMemory (snd t))]>
                      (<[fst m := PMemory (add_bound (fst t) (snd m))]> h)).

Definition MemoryVal_BindAccelerationStructure {R} (memory : Ptr)
    (accelerationStructure : Ptr) : M R unit :=
  m <-- deref as_memory memory ;;
  a <-- deref as_accelerationStructure accelerationStructure ;;
  modify_heap (λ h, <[fst a := PAccelerationStructure
                                 (AccelerationStructureVal_SetBoundToMemory (snd a))]>
                      (<[fst m := PMemory (add_bound (fst a) (snd m))]> h)).

(** *** Binding resources to memory *)

(** The body of the validation loop of [BindBufferMemory]; the loop state
    is the array [memoryBindingDescsImpl] filled so far. *)
Definition BindBufferMemory_entry (i : N) (srcDesc : MemoryBindingDesc)
    (impl : list MemoryBindingImplDesc) : M Result (list MemoryBindingImplDesc) :=
  RETURN_ON_FAILURE (bool_decide (mb_resource srcDesc ≠ None)) INVALID_ARGUMENT
    "'memoryBindingDescs[%u].buffer' is NULL" [i] ;;;
  RETURN_ON_FAILURE (bool_decide (mb_memory srcDesc ≠ None)) INVALID_ARGUMENT
    "'memoryBindingDescs[%u].memory' is NULL" [i] ;;;
  memory <-- deref as_memory (mb_memory srcDesc) ;;
  buffer <-- deref as_buffer (mb_resource srcDesc) ;;
  RETURN_ON_FAILURE (negb (buffer_isBoundToMemory (snd buffer))) INVALID_ARGUMENT
    "'memoryBindingDescs[%u].buffer' is already bound to memory" [i] ;;;
  let destDesc := {| mbi_memory := memory_impl (snd memory);
                     mbi_resource := buffer_impl (snd buffer);
                     mbi_offset := mb_offset srcDesc |} in
  if memory_location (snd memory) =? MemoryLocation_MAX_NUM K
  then ret (impl ++ [destDesc])%list
  else
    memoryDesc <-- backend (Core_GetBufferMemoryDesc (buffer_desc (snd buffer))
                                                     (memory_location (snd memory)))
                           (Backend_GetBufferMemoryDesc (buffer_desc (snd buffer))
                                                        (memory_location (snd memory))) ;;
    RETURN_ON_FAILURE (negb (md_mustBeDedicated memoryDesc) || (mb_offset srcDesc =? 0))
      INVALID_ARGUMENT "'memoryBindingDescs[%u].offset' must be zero for dedicated allocation" [i] ;;;
    RETURN_ON_FAILURE (negb (md_alignment memoryDesc =? 0))
      INVALID_ARGUMENT "'memoryBindingDescs[%u].alignment' is 0" [i] ;;;
    RETURN_ON_FAILURE (mb_offset srcDesc mod md_alignment memoryDesc =? 0)
      INVALID_ARGUMENT "'memoryBindingDescs[%u].offset' is misaligned" [i] ;;;
    let rangeMax := u64 (mb_offset srcDesc + md_size memoryDesc) in
    let memorySizeIsUnknown := memory_size (snd memory) =? 0 in
    RETURN_ON_FAILURE (memorySizeIsUnknown || (rangeMax <=? memory_size (snd memory)))
      INVALID_ARGUMENT "'memoryBindingDescs[%u].offset' is invalid" [i] ;;;
    ret (impl ++ [destDesc])%list.

Definition BindBufferMemory_body (memoryBindingDescs : carray MemoryBindingDesc)
    (backendResult : Result) : M Result Result :=
  RETURN_ON_FAILURE (negb (is_null memoryBindingDescs)) INVALID_ARGUMENT
    "'memoryBindingDescs' is NULL" [] ;;;
  memoryBindingDescsImpl <--
    for_loop 0 (elems_of memoryBindingDescs) [] BindBufferMemory_entry ;;
  result <-- backend (Core_BindBufferMemory memoryBindingDescsImpl) backendResult ;;
  (if decide (result = SUCCESS) then
     for_loop 0 (elems_of memoryBindingDescs) tt
       (λ _ desc _, MemoryVal_BindBuffer (mb_memory desc) (mb_resource desc))
   else ret tt) ;;;
  ret result.

Definition BindBufferMemory memoryBindingDescs backendResult :=
  run (BindBufferMemory_body memoryBindingDescs backendResult).

Definition BindTextureMemory_entry (i : N) (srcDesc : MemoryBindingDesc)
    (impl : list MemoryBindingImplDesc) : M Result (list MemoryBindingImplDesc) :=
  RETURN_ON_FAILURE (bool_decide (mb_resource srcDesc ≠ None)) INVALID_ARGUMENT
    "'memoryBindingDescs[%u].texture' is NULL" [i] ;;;
  RETURN_ON_FAILURE (bool_decide (mb_memory srcDesc ≠ None)) INVALID_ARGUMENT
    "'memoryBindingDescs[%u].memory' is NULL" [i] ;;;
  memory <-- deref as_memory (mb_memory srcDesc) ;;
  texture <-- deref as_texture (mb_resource srcDesc) ;;
  RETURN_ON_FAILURE (negb (texture_isBoundToMemory (snd texture))) INVALID_ARGUMENT
    "'memoryBindingDescs[%u].texture' is already bound to memory" [i] ;;;
  let destDesc := {| mbi_memory := memory_impl (snd memory);
                     mbi_resource := texture_impl (snd texture);
                     mbi_offset := mb_offset srcDesc |} in
  if memory_location (snd memory) =? MemoryLocation_MAX_NUM K
  then ret (impl ++ [destDesc])%list
  else
    memoryDesc <-- backend (Core_GetTextureMemoryDesc (texture_desc (snd texture))
                                                      (memory_location (snd memory)))
                           (Backend_GetTextureMemoryDesc (texture_desc (snd texture))
                                                         (memory_location (snd memory))) ;;
    RETURN_ON_FAILURE (negb (md_mustBeDedicated memoryDesc) || (mb_offset srcDesc =? 0))
      INVALID_ARGUMENT "'memoryBindingDescs[%u].offset' must be zero for dedicated allocation" [i] ;;;
    RETURN_ON_FAILURE (negb (md_alignment memoryDesc =? 0))
      INVALID_ARGUMENT "'memoryBindingDescs[%u].alignment' is 0" [i] ;;;
    RETURN_ON_FAILURE (mb_offset srcDesc mod md_alignment memoryDesc =? 0)
      INVALID_ARGUMENT "'memoryBindingDescs[%u].offset' is misaligned" [i] ;;;
    let rangeMax := u64 (mb_offset srcDesc + md_size memoryDesc) in
    let memorySizeIsUnknown := memory_size (snd memory) =? 0 in
    RETURN_ON_FAILURE (memorySizeIsUnknown || (rangeMax <=? memory_size (snd memory)))
      INVALID_ARGUMENT "'memoryBindingDescs[%u].offset' is invalid" [i] ;;;
    ret (impl ++ [destDesc])%list.

Definition BindTextureMemory_body (memoryBindingDescs : carray MemoryBindingDesc)
    (backendResult : Result) : M Result Result :=
  RETURN_ON_FAILURE (negb (is_null memoryBindingDescs)) INVALID_ARGUMENT
    "'memoryBindingDescs' is a NULL" [] ;;;
  memoryBindingDescsImpl <--
    for_loop 0 (elems_of memoryBindingDescs) [] BindTextureMemory_entry ;;
  result <-- backend (Core_BindTextureMemory memoryBindingDescsImpl) backendResult ;;
  (if decide (result = SUCCESS) then
     for_loop 0 (elems_of memoryBindingDescs) tt
       (λ _ desc _, MemoryVal_BindTexture (mb_memory desc) (mb_resource desc))
   else ret tt) ;;;
  ret result.

Definition BindTextureMemory memoryBindingDescs backendResult :=
  run (BindTextureMemory_body memoryBindingDescs backendResult).

(** The body of the validation loop of [BindAccelerationStructureMemory]:
    no null checks, and the requirement is the one recorded in the proxy. *)
Definition BindAccelerationStructureMemory_entry (i : N) (srcDesc : MemoryBindingDesc)
    (impl : list MemoryBindingImplDesc) : M Result (list MemoryBindingImplDesc) :=
  memory <-- deref as_memory (mb_memory srcDesc) ;;
  accelerationStructure <-- deref as_accelerationStructure (mb_resource srcDesc) ;;
  let memoryDesc := as_memoryDesc (snd accelerationStructure) in
  RETURN_ON_FAILURE (negb (as_isBoundToMemory (snd accelerationStructure)))
    INVALID_ARGUMENT "'memoryBindingDescs[%u].accelerationStructure' is already bound to memory" [i] ;;;
  RETURN_ON_FAILURE (negb (md_mustBeDedicated memoryDesc) || (mb_offset srcDesc =? 0))
    INVALID_ARGUMENT "'memoryBindingDescs[%u].offset' must be 0 for dedicated allocation" [i] ;;;
  RETURN_ON_FAILURE (negb (md_alignment memoryDesc =? 0))
    INVALID_ARGUMENT "'memoryBindingDescs[%u].alignment' is 0" [i] ;;;
  RETURN_ON_FAILURE (mb_offset srcDesc mod md_alignment memoryDesc =? 0)
    INVALID_ARGUMENT "'memoryBindingDescs[%u].offset' is misaligned" [i] ;;;
  let rangeMax := u64 (mb_offset srcDesc + md_size memoryDesc) in
  let memorySizeIsUnknown := memory_size (snd memory) =? 0 in
  RETURN_ON_FAILURE (memorySizeIsUnknown || (rangeMax <=? memory_size (snd memory)))
    INVALID_ARGUMENT "'memoryBindingDescs[%u].offset' is invalid" [i] ;;;
  let destDesc := {| mbi_memory := memory_impl (snd memory);
                     mbi_resource := as_impl (snd accelerationStructure);
                     mbi_offset := mb_offset srcDesc |} in
  ret (impl ++ [destDesc])%list.

Definition BindAccelerationStructureMemory_body
    (memoryBindingDescs : carray MemoryBindingDesc) (backendResult : Result)
    : M Result Result :=
  RETURN_ON_FAILURE (negb (is_null memoryBindingDescs)) INVALID_ARGUMENT
    "'memoryBindingDescs' is NULL" [] ;;;
  memoryBindingDescsImpl <--
    for_loop 0 (elems_of memoryBindingDescs) [] BindAccelerationStructureMemory_entry ;;
  result <-- backend (RayTracing_BindAccelerationStructureMemory memoryBindingDescsImpl)
                     backendResult ;;
  (if decide (result = SUCCESS) then
     for_loop 0 (elems_of memoryBindingDescs) tt
       (λ _ desc _, MemoryVal_BindAccelerationStructure (mb_memory desc) (mb_resource desc))
   else ret tt) ;;;
  ret result.

Definition BindAccelerationStructureMemory memoryBindingDescs backendResult :=
  run (BindAccelerationStructureMemory_body memoryBindingDescs backendResult).

(** [FreeMemory] *)
Definition FreeMemory_body (memory : addr) : M unit unit :=
  memoryVal <-- deref as_memory (Some memory) ;;
  (if HasBoundResources (snd memoryVal) then
     ReportBoundResources (snd memoryVal) ;;;
     REPORT_ERROR "FreeMemory: some resources are still bound to the memory" [] ;;;
     return_ tt
   else ret tt) ;;;
  backend (Core_FreeMemory (memory_impl (snd memoryVal))) tt ;;;
  Destroy memory.

Definition FreeMemory (memory : addr) := run (FreeMemory_body memory).

(** *** Resource groups *)

(** The loops of [CalculateAllocationNumber] and [AllocateAndBindMemory]
    that fill [buffersImpl] and [texturesImpl]; [failure] is the value
    returned when an entry is null. *)
Definition ResourceGroup_buffers {R} (failure : R) (buffers : list Ptr)
    : M R (list handle) :=
  for_loop 0 buffers []
    (λ i buffer buffersImpl,
       RETURN_ON_FAILURE (bool_decide (buffer ≠ None)) failure
         "'resourceGroupDesc.buffers[%u]' is NULL" [i] ;;;
       bufferVal <-- deref as_buffer buffer ;;
       ret (buffersImpl ++ [buffer_impl (snd bufferVal)])%list).

Definition ResourceGroup_textures {R} (failure : R) (textures : list Ptr)
    : M R (list handle) :=
  for_loop 0 textures []
    (λ i texture texturesImpl,
       RETURN_ON_FAILURE (bool_decide (texture ≠ None)) failure
         "'resourceGroupDesc.textures[%u]' is NULL" [i] ;;;
       textureVal <-- deref as_texture texture ;;
       ret (texturesImpl ++ [texture_impl (snd textureVal)])%list).

Definition CalculateAllocationNumber_body (resourceGroupDesc : ResourceGroupDesc)
    (backendNumber : N) : M N N :=
  RETURN_ON_FAILURE (rg_memoryLocation resourceGroupDesc <? MemoryLocation_MAX_NUM K) 0
    "'resourceGroupDesc.memoryLocation' is invalid" [] ;;;
  RETURN_ON_FAILURE ((count (rg_buffers resourceGroupDesc) =? 0)
                     || negb (is_null (rg_buffers resourceGroupDesc))) 0
    "'resourceGroupDesc.buffers' is NULL" [] ;;;
  RETURN_ON_FAILURE ((count (rg_textures resourceGroupDesc) =? 0)
                     || negb (is_null (rg_textures resourceGroupDesc))) 0
    "'resourceGroupDesc.textures' is NULL" [] ;;;
  buffersImpl <-- ResourceGroup_buffers 0 (elems_of (rg_buffers resourceGroupDesc)) ;;
  texturesImpl <-- ResourceGroup_textures 0 (elems_of (rg_textures resourceGroupDesc)) ;;
  backend (Helper_CalculateAllocationNumber (rg_memoryLocation resourceGroupDesc)
             buffersImpl texturesImpl) backendNumber.

(** [AllocateAndBindMemory], up to the call of the backend: the checks, the
    arrays [buffersImpl] and [texturesImpl], and [allocationNum]. *)
Definition AllocateAndBindMemory_prepare (resourceGroupDesc : ResourceGroupDesc)
    (allocationsIsNull : bool) (backendNumber : N)
    : M Result (list handle * list handle * N) :=
  RETURN_ON_FAILURE (negb allocationsIsNull) INVALID_ARGUMENT "'allocations' is NULL" [] ;;;
  RETURN_ON_FAILURE (rg_memoryLocation resourceGroupDesc <? MemoryLocation_MAX_NUM K)
    INVALID_ARGUMENT "'resourceGroupDesc.memoryLocation' is invalid" [] ;;;
  RETURN_ON_FAILURE ((count (rg_buffers resourceGroupDesc) =? 0)
                     || negb (is_null (rg_buffers resourceGroupDesc)))
    INVALID_ARGUMENT "'resourceGroupDesc.buffers' is NULL" [] ;;;
  RETURN_ON_FAILURE ((count (rg_textures resourceGroupDesc) =? 0)
                     || negb (is_null (rg_textures resourceGroupDesc)))
    INVALID_ARGUMENT "'resourceGroupDesc.textures' is NULL" [] ;;;
  buffersImpl <-- ResourceGroup_buffers INVALID_ARGUMENT
                    (elems_of (rg_buffers resourceGroupDesc)) ;;
  texturesImpl <-- ResourceGroup_textures INVALID_ARGUMENT
                     (elems_of (rg_textures resourceGroupDesc)) ;;
  allocationNum <-- call (CalculateAllocationNumber_body resourceGroupDesc backendNumber) ;;
  ret (buffersImpl, texturesImpl, allocationNum).

(** [AllocateAndBindMemory], after a successful call of the backend: the
    flags of the buffers and textures are set and the first [allocationNum]
    entries of the caller's array [allocations], which the backend has
    written ([backendAllocations]), are replaced by new proxies. *)
Definition AllocateAndBindMemory_record (resourceGroupDesc : ResourceGroupDesc)
    (allocationNum : N) (backendAllocations : list handle) : M Result (list addr) :=
  for_loop 0 (elems_of (rg_buffers resourceGroupDesc)) tt
    (λ _ buffer _,
       bufferVal <-- deref as_buffer buffer ;;
       modify_heap (insert (fst bufferVal)
                      (PBuffer (BufferVal_SetBoundToMemory (snd bufferVal))))) ;;;
  for_loop 0 (elems_of (rg_textures resourceGroupDesc)) tt
    (λ _ texture _,
       textureVal <-- deref as_texture texture ;;
       modify_heap (insert (fst textureVal)
                      (PTexture (TextureVal_SetBoundToMemory (snd textureVal))))) ;;;
  for_loop 0 (seq 0 (N.to_nat allocationNum)) []
    (λ _ i memories,
       allocation <-- project (backendAllocations !! i) ;;
       a <-- Allocate (PMemory {| memory_impl := allocation;
                                  memory_size := 0;
                                  memory_location := rg_memoryLocation resourceGroupDesc;
                                  memory_bound := ∅ |}) ;;
       ret (memories ++ [a])%list).

(** [AllocateAndBindMemory]: the body yields the result and the new
    proxies. *)
Definition AllocateAndBindMemory_body (resourceGroupDesc : ResourceGroupDesc)
    (allocationsIsNull : bool) (backendNumber : N) (backendResult : Result)
    (backendAllocations : list handle) : M Result (Result * list addr) :=
  prepared <-- AllocateAndBindMemory_prepare resourceGroupDesc allocationsIsNull
                 backendNumber ;;
  result <-- backend (Helper_AllocateAndBindMemory (rg_memoryLocation resourceGroupDesc)
                        (fst (fst prepared)) (snd (fst prepared))) backendResult ;;
  if decide (result = SUCCESS) then
    memories <-- AllocateAndBindMemory_record resourceGroupDesc (snd prepared)
                   backendAllocations ;;
    ret (result, memories)
  else ret (result, []).

Definition AllocateAndBindMemory resourceGroupDesc allocationsIsNull backendNumber
    backendResult backendAllocations (w : World) : option (Result * list addr * World) :=
  match AllocateAndBindMemory_body resourceGroupDesc allocationsIsNull backendNumber
          backendResult backendAllocations w with
  | Undefined => None
  | Returned r w' => Some (r, [], w')
  | Normal x w' => Some (x, w')
  end.

(** *** Acceleration structures *)

Definition CreateAccelerationStructure_body
    (accelerationStructureDesc : AccelerationStructureDesc)
    (backendResult : Result) (accelerationStructureImpl : handle)
    (backendMemoryDesc : MemoryDesc) (accelerationStructure : Ptr)
    : M Result (Result * Ptr) :=
  RETURN_ON_FAILURE (negb (asd_instanceOrGeometryObjectNum accelerationStructureDesc =? 0))
    INVALID_ARGUMENT "'accelerationStructureDesc.instanceOrGeometryObjectNum' is 0" [] ;;;
  result <-- backend (RayTracing_CreateAccelerationStructure accelerationStructureDesc)
                     backendResult ;;
  if decide (result = SUCCESS) then
    memoryDesc <-- backend (RayTracing_GetAccelerationStructureMemoryDesc
                              accelerationStructureDesc (MemoryLocation_DEVICE K))
                           backendMemoryDesc ;;
    a <-- Allocate (PAccelerationStructure
                      {| as_impl := accelerationStructureImpl;
                         as_isBoundToMemory := false;
                         as_memoryDesc := memoryDesc |}) ;;
    ret (result, Some a)
  else ret (result, accelerationStructure).

Definition CreateAccelerationStructure accelerationStructureDesc backendResult
    accelerationStructureImpl backendMemoryDesc (accelerationStructure : Ptr) :=
  run_out (CreateAccelerationStructure_body accelerationStructureDesc backendResult
             accelerationStructureImpl backendMemoryDesc accelerationStructure)
          accelerationStructure.

Definition AllocateAccelerationStructure_body
    (accelerationStructureDesc : AccelerationStructureDesc)
    (backendResult : Result) (accelerationStructureImpl : handle)
    (backendMemoryDesc : MemoryDesc) (accelerationStructure : Ptr)
    : M Result (Result * Ptr) :=
  RETURN_ON_FAILURE (negb (asd_instanceOrGeometryObjectNum accelerationStructureDesc =? 0))
    INVALID_ARGUMENT "'accelerationStructureDesc.instanceOrGeometryObjectNum' is 0" [] ;;;
  result <-- backend (ResourceAllocator_AllocateAccelerationStructure
                        accelerationStructureDesc) backendResult ;;
  if decide (result = SUCCESS) then
    memoryDesc <-- backend (RayTracing_GetAccelerationStructureMemoryDesc
                              accelerationStructureDesc (MemoryLocation_DEVICE K))
                           backendMemoryDesc ;;
    a <-- Allocate (PAccelerationStructure
                      {| as_impl := accelerationStructureImpl;
                         as_isBoundToMemory := true;
                         as_memoryDesc := memoryDesc |}) ;;
    ret (result, Some a)
  else ret (result, accelerationStructure).

Definition AllocateAccelerationStructure accelerationStructureDesc backendResult
    accelerationStructureImpl backendMemoryDesc (accelerationStructure : Ptr) :=
  run_out (AllocateAccelerationStructure_body accelerationStructureDesc backendResult
             accelerationStructureImpl backendMemoryDesc accelerationStructure)
          accelerationStructure.

(** *** Destruction of resources *)

Definition DestroyBuffer_body (buffer : addr) : M unit unit :=
  b <-- deref as_buffer (Some buffer) ;;
  backend (Core_DestroyBuffer (buffer_impl (snd b))) tt ;;;
  modify_heap (fmap (remove_bound buffer)) ;;;
  Destroy buffer.

Definition DestroyBuffer (buffer : addr) := run (DestroyBuffer_body buffer).

Definition DestroyTexture_body (texture : addr) : M unit unit :=
  t <-- deref as_texture (Some texture) ;;
  backend (Core_DestroyTexture (texture_impl (snd t))) tt ;;;
  modify_heap (fmap (remove_bound texture)) ;;;
  Destroy texture.

Definition DestroyTexture (texture : addr) := run (DestroyTexture_body texture).

Definition DestroyAccelerationStructure_body (accelerationStructure : addr) : M unit unit :=
  a <-- deref as_accelerationStructure (Some accelerationStructure) ;;
  modify_heap (fmap (remove_bound accelerationStructure)) ;;;
  Destroy accelerationStructure.

Definition DestroyAccelerationStructure (accelerationStructure : addr) :=
  run (DestroyAccelerationStructure_body accelerationStructure).

(** *** The device as a transition system

    One call of the public surface, with the answers of the backend, is a
    step; a step whose call is undefined does not exist. *)
Inductive Op : Type :=
| OpRegisterMemoryType (memoryType memoryLocation : N)
| OpCreateBuffer (d : BufferDesc) (r : Result) (impl : handle) (out : Ptr)
| OpAllocateBuffer (d : AllocateBufferDesc) (r : Result) (impl : handle) (out : Ptr)
| OpCreateTexture (d : TextureDesc) (r : Result) (impl : handle) (out : Ptr)
| OpAllocateTexture (d : AllocateTextureDesc) (r : Result) (impl : handle) (out : Ptr)
| OpCreateDescriptor_Texture2DView (d : Texture2DViewDesc) (r : Result) (impl : handle)
    (out : Ptr)
| OpDestroyDescriptor (descriptor : addr)
| OpCreatePipelineLayout (d : PipelineLayoutDesc) (r : Result) (impl : handle) (out : Ptr)
| OpCreatePipeline_Graphics (d : GraphicsPipelineDesc) (r : Result) (impl : handle)
    (out : Ptr)
| OpAllocateMemory (d : AllocateMemoryDesc) (r : Result) (impl : handle) (out : Ptr)
| OpBindBufferMemory (descs : carray MemoryBindingDesc) (r : Result)
| OpBindTextureMemory (descs : carray MemoryBindingDesc) (r : Result)
| OpBindAccelerationStructureMemory (descs : carray MemoryBindingDesc) (r : Result)
| OpFreeMemory (memory : addr)
| OpAllocateAndBindMemory (d : ResourceGroupDesc) (allocationsIsNull : bool)
    (number : N) (r : Result) (allocations : list handle)
| OpCreateAccelerationStructure (d : AccelerationStructureDesc) (r : Result)
    (impl : handle) (memoryDesc : MemoryDesc) (out : Ptr)
| OpAllocateAccelerationStructure (d : AccelerationStructureDesc) (r : Result)
    (impl : handle) (memoryDesc : MemoryDesc) (out : Ptr)
| OpDestroyBuffer (buffer : addr)
| OpDestroyTexture (texture : addr)
| OpDestroyAccelerationStructure (accelerationStructure : addr).

Definition exec (op : Op) (w : World) : option World :=
  match op with
  | OpRegisterMemoryType t l => snd <$> run (RegisterMemoryType t l) w
  | OpCreateBuffer d r impl out => snd <$> CreateBuffer d r impl out w
  | OpAllocateBuffer d r impl out => snd <$> AllocateBuffer d r impl out w
  | OpCreateTexture d r impl out => snd <$> CreateTexture d r impl out w
  | OpAllocateTexture d r impl out => snd <$> AllocateTexture d r impl out w
  | OpCreateDescriptor_Texture2DView d r impl out =>
      snd <$> CreateDescriptor_Texture2DView d r impl out w
  | OpDestroyDescriptor d => snd <$> DestroyDescriptor d w
  | OpCreatePipelineLayout d r impl out => snd <$> CreatePipelineLayout d r impl out w
  | OpCreatePipeline_Graphics d r impl out => snd <$> CreatePipeline_Graphics d r impl out w
  | OpAllocateMemory d r impl out => snd <$> AllocateMemory d r impl out w
  | OpBindBufferMemory descs r => snd <$> BindBufferMemory descs r w
  | OpBindTextureMemory descs r => snd <$> BindTextureMemory descs r w
  | OpBindAccelerationStructureMemory descs r =>
      snd <$> BindAccelerationStructureMemory descs r w
  | OpFreeMemory m => snd <$> FreeMemory m w
  | OpAllocateAndBindMemory d isNull number r allocations =>
      snd <$> AllocateAndBindMemory d isNull number r allocations w
  | OpCreateAccelerationStructure d r impl memoryDesc out =>
      snd <$> CreateAccelerationStructure d r impl memoryDesc out w
  | OpAllocateAccelerationStructure d r impl memoryDesc out =>
      snd <$> AllocateAccelerationStructure d r impl memoryDesc out w
  | OpDestroyBuffer b => snd <$> DestroyBuffer b w
  | OpDestroyTexture t => snd <$> DestroyTexture t w
  | OpDestroyAccelerationStructure a => snd <$> DestroyAccelerationStructure a w
  end.

(** The worlds the device can be in: from the empty world by defined calls. *)
Inductive reachable : World → Prop :=
| reachable_empty : reachable empty_world
| reachable_step w op w' : reachable w → exec op w = Some w' → reachable w'.



End DeviceVal.

(** ** Observations on worlds *)

(** The bound-to-memory flag of the resource at an address; [None] when the
    address holds no live buffer, texture or acceleration structure. *)
Definition proxy_flag (p : Proxy) : option bool :=
  match p with
  | PBuffer b => Some (buffer_isBoundToMemory b)
  | PTexture t => Some (texture_isBoundToMemory t)
  | PAccelerationStructure s => Some (as_isBoundToMemory s)
  | _ => None
  end.

Definition bound_flag (h : gmap addr Proxy) (a : addr) : option bool :=
  h !! a ≫= proxy_flag.

(** The bound-set of the memory at an address. *)
Definition bound_set (h : gmap addr Proxy) (a : addr) : option (gset addr) :=
  memory_bound <$> as_memory (h !! a).

Definition is_bind_call (c : BackendCall) : bool :=
  match c with
  | Core_BindBufferMemory _ | Core_BindTextureMemory _
  | RayTracing_BindAccelerationStructureMemory _
  | Helper_AllocateAndBindMemory _ _ _ => true
  | _ => false
  end.

(** The entry points that only ask the backend for a memory requirement. *)
Definition is_query (c : BackendCall) : bool :=
  match c with
  | Core_GetBufferMemoryDesc _ _ | Core_GetTextureMemoryDesc _ _ => true
  | _ => false
  end.

(** How a computation ended. *)
Inductive Kind : Type := KUndefined | KReturned | KNormal.

Definition kind {R A} (o : Outcome R A) : Kind :=
  match o with
  | Undefined => KUndefined
  | Returned _ _ => KReturned
  | Normal _ _ => KNormal
  end.

(** ** Vocabulary of the properties *)

#[local] Close Scope string_scope.

(** Only error reports were added: no proxy, no backend call. *)
Definition untouched (w w' : World) : Prop :=
  heap w' = heap w ∧ m_MemoryTypeMap w' = m_MemoryTypeMap w
  ∧ next w' = next w ∧ calls w' = calls w.

(** Validation only: the proxies are as they were and the backend was asked
    for memory requirements at most. *)
Definition validated (w w' : World) : Prop :=
  heap w' = heap w ∧ m_MemoryTypeMap w' = m_MemoryTypeMap w ∧ next w' = next w
  ∧ ∃ queries, calls w' = calls w ++ queries ∧ forallb is_query queries = true.

(** One step of the halving of [GetMaxMipNum] on one dimension. *)
Definition halve_dim (x : N) : N := if 1 <? x then N.shiftr x 1 else x.

(** The number of bits set in a number. *)
Fixpoint Pos_popcount (p : positive) : N :=
  match p with
  | xH => 1
  | xO p' => Pos_popcount p'
  | xI p' => 1 + Pos_popcount p'
  end.

Definition popcount (x : N) : N :=
  match x with N0 => 0 | Npos p => Pos_popcount p end.



(** ** A world to run the model in

    A buffer, a texture and an acceleration structure that are not bound, a
    memory of 2048 bytes in a known location, an imported memory, a buffer
    bound to a third memory, a graphics pipeline layout and a view. *)
Definition example_heap : gmap addr Proxy :=
  list_to_map
    [ (1, PBuffer {| buffer_impl := 101; buffer_isBoundToMemory := false;
                     buffer_desc := {| bd_size := 1024 |} |});
      (2, PTexture {| texture_impl := 102; texture_isBoundToMemory := false;
                      texture_desc := {| td_format := 1; td_width := 8; td_height := 8;
                                         td_depth := 1; td_mipNum := 4; td_layerNum := 1;
                                         td_sampleNum := 1 |} |});
      (3, PAccelerationStructure
            {| as_impl := 103; as_isBoundToMemory := false;
               as_memoryDesc := {| md_size := 512; md_alignment := 256;
                                   md_mustBeDedicated := false |} |});
      (4, PMemory {| memory_impl := 104; memory_size := 2048; memory_location := 0;
                     memory_bound := ∅ |});
      (5, PMemory {| memory_impl := 105; memory_size := 2048; memory_location := 4;
                     memory_bound := ∅ |});
      (6, PBuffer {| buffer_impl := 106; buffer_isBoundToMemory := true;
                     buffer_desc := {| bd_size := 256 |} |});
      (7, PMemory {| memory_impl := 107; memory_size := 4096; memory_location := 0;
                     memory_bound := {[6]} |});
      (8, PPipelineLayout {| layout_impl := 108;
                             layout_desc := {| pl_shaderStages := 254;
                                               pl_descriptorSets := [] |} |});
      (9, PDescriptor {| descriptor_impl := 109 |}) ].

Definition example_world : World :=
  {| heap := example_heap; m_MemoryTypeMap := {[7 := 0]}; next := 10;
     calls := []; reports := [] |}.

(** Backend requirements for the examples: a buffer needs its size, a
    texture 4096 bytes, both aligned to 256 bytes in a shared allocation. *)
Definition example_GetBufferMemoryDesc (d : BufferDesc) (location : N) : MemoryDesc :=
  {| md_size := bd_size d; md_alignment := 256; md_mustBeDedicated := false |}.

Definition example_GetTextureMemoryDesc (d : TextureDesc) (location : N) : MemoryDesc :=
  {| md_size := 4096; md_alignment := 256; md_mustBeDedicated := false |}.

Definition example_view (mipOffset mipNum : N) : Texture2DViewDesc :=
  {| tv_texture := Some 2; tv_viewType := 0; tv_format := 1;
     tv_mipOffset := mipOffset; tv_mipNum := mipNum;
     tv_layerOffset := 0; tv_layerNum := 1 |}.

Definition example_textureDesc : TextureDesc :=
  {| td_format := 1; td_width := 8; td_height := 8; td_depth := 1; td_mipNum := 4;
     td_layerNum := 1; td_sampleNum := 1 |}.






Definition example_shader (stage : N) : ShaderDesc :=
  {| sh_stage := stage; sh_bytecode := Some 500; sh_size := 64 |}.



Definition example_allocateMemoryDesc : AllocateMemoryDesc :=
  {| am_size := 2048; am_type := 7; am_priority := FFinite 0%Q |}.

(** A specification of a computation by a relation between the worlds
    before and after, and a predicate on the value of an early return;
    nothing is said of undefined runs. *)
Definition triple {R A} (I : World → World → Prop) (E : R → Prop) (m : M R A) : Prop :=
  ∀ w, match m w with
       | Undefined => True
       | Returned r w' => I w w' ∧ E r
       | Normal _ w' => I w w'
       end.

(** A relation between worlds that adding an error report does not leave. *)
Class ReportInsensitive (I : World → World → Prop) : Prop :=
  report_insensitive : ∀ w r, I w (log_report r w).

Definition example_boundMemory : MemoryVal :=
  {| memory_impl := 107; memory_size := 4096; memory_location := 0;
     memory_bound := {[6]} |}.

Definition example_freeMemory : MemoryVal :=
  {| memory_impl := 104; memory_size := 2048; memory_location := 0;
     memory_bound := ∅ |}.

(** The four conditions of the binding rule on a requirement, an offset and
    the size of the memory, in unbounded arithmetic. *)
Definition requirement_met (req : MemoryDesc) (offset memorySize : N) : Prop :=
  (md_mustBeDedicated req = true → offset = 0)
  ∧ md_alignment req ≠ 0
  ∧ offset mod md_alignment req = 0
  ∧ (memorySize = 0 ∨ offset + md_size req ≤ memorySize).

Definition example_binding (memory resource : addr) (offset : N) : MemoryBindingDesc :=
  {| mb_memory := Some memory; mb_resource := Some resource; mb_offset := offset |}.

(** The requirement checks of the binding rule as the spec words them
    (section 4.2, steps 4 and 5), the sum taken in 64 bits. *)
Definition spec_requirement_checks (req : MemoryDesc) (offset memorySize : N) : bool :=
  (negb (md_mustBeDedicated req) || (offset =? 0))
  && negb (md_alignment req =? 0)
  && (offset mod md_alignment req =? 0)
  && ((memorySize =? 0) || (u64 (offset + md_size req) <=? memorySize)).

(** The per-entry algorithm as the spec words it (section 4.2, steps 1 to
    5), for an entry whose pointers are present: the resource must not be
    bound, and the requirement checks are skipped for an imported memory. *)
Definition spec_entry_valid (K : Constants) (alreadyBound : bool)
    (location memorySize : N) (req : MemoryDesc) (offset : N) : bool :=
  negb alreadyBound
  && ((location =? MemoryLocation_MAX_NUM K)
      || spec_requirement_checks req offset memorySize).

(** ** The common shape of the three batched binds

    [BindBufferMemory], [BindTextureMemory] and
    [BindAccelerationStructureMemory] differ in the validation of an entry,
    in the backend entry point and in the kind of the resource; the rest of
    their bodies is the same text. *)
Section BindShape.

Context {A : Type}.
Context (cast : option Proxy → option A) (inj : A → Proxy) (setBound : A → A).
Context (entry : N → MemoryBindingDesc → list MemoryBindingImplDesc
                 → M Result (list MemoryBindingImplDesc)).
Context (entryPoint : list MemoryBindingImplDesc → BackendCall).
Context (nullMessage : string).

Definition bind_one (memory resource : Ptr) : M Result unit :=
  m <-- deref as_memory memory ;;
  r <-- deref cast resource ;;
  modify_heap (λ h, <[fst r := inj (setBound (snd r))]>
                      (<[fst m := PMemory (add_bound (fst r) (snd m))]> h)).

Definition Bind_shape (memoryBindingDescs : carray MemoryBindingDesc)
    (backendResult : Result) : M Result Result :=
  RETURN_ON_FAILURE (negb (is_null memoryBindingDescs)) INVALID_ARGUMENT nullMessage [] ;;;
  memoryBindingDescsImpl <-- for_loop 0 (elems_of memoryBindingDescs) [] entry ;;
  result <-- backend (entryPoint memoryBindingDescsImpl) backendResult ;;
  (if decide (result = SUCCESS) then
     for_loop 0 (elems_of memoryBindingDescs) tt
       (λ _ desc _, bind_one (mb_memory desc) (mb_resource desc))
   else ret tt) ;;;
  ret result.

End BindShape.

(** A pointer that holds a live proxy of the kind [cast] selects. *)
Definition live {A} (cast : option Proxy → option A) (h : gmap addr Proxy) (p : Ptr) : Prop :=
  ∃ a v, p = Some a ∧ cast (h !! a) = Some v.

(** The pointers of an entry that the validation of [BindBufferMemory] or
    [BindTextureMemory] dereferences are live: it dereferences them only
    when both are present. *)
Definition entry_pointers_ok {A} (cast : option Proxy → option A) (h : gmap addr Proxy)
    (d : MemoryBindingDesc) : Prop :=
  mb_resource d = None ∨ mb_memory d = None
  ∨ (live as_memory h (mb_memory d) ∧ live cast h (mb_resource d)).

(** The outcome of a batched bind, as C1 has it. [entry] is the validation
    of one entry and [pointers_ok] says that the pointers it dereferences
    are live. The call returns; if an entry fails validation the result is
    [INVALID_ARGUMENT], no proxy has changed and no binding entry point was
    called; a proxy has changed only if the backend answered [SUCCESS];
    when all entries pass, the backend entry point is called once, with
    one descriptor per entry, and its answer is the result; and after
    [SUCCESS] every entry's resource is flagged bound and is in the
    bound-set of its memory. *)
Definition batch_all_or_nothing
    (entry : N → MemoryBindingDesc → list MemoryBindingImplDesc
             → M Result (list MemoryBindingImplDesc))
    (entryPoint : list MemoryBindingImplDesc → BackendCall)
    (pointers_ok : gmap addr Proxy → MemoryBindingDesc → Prop)
    (Bind : carray MemoryBindingDesc → Result → World → option (Result * World)) : Prop :=
  ∀ (descs : list MemoryBindingDesc) (backendResult : Result) (w : World),
    (∀ d, d ∈ descs → pointers_ok (heap w) d) →
    ∃ result w',
      Bind (Array descs) backendResult w = Some (result, w')
      ∧ ((∃ d, d ∈ descs ∧ kind (entry 0 d [] w) = KReturned) →
         result = INVALID_ARGUMENT ∧ heap w' = heap w
         ∧ ∃ cs, calls w' = calls w ++ cs ∧ ∀ c, c ∈ cs → is_bind_call c = false)
      ∧ (heap w' ≠ heap w → backendResult = SUCCESS ∧ result = SUCCESS)
      ∧ ((∀ d, d ∈ descs → kind (entry 0 d [] w) = KNormal) →
         result = backendResult
         ∧ ∃ queries impl,
             calls w' = calls w ++ queries ++ [entryPoint impl]
             ∧ (∀ c, c ∈ queries → is_bind_call c = false)
             ∧ length impl = length descs)
      ∧ (result = SUCCESS →
         ∀ d, d ∈ descs →
              ∃ memory resource s,
                mb_memory d = Some memory ∧ mb_resource d = Some resource
                ∧ bound_flag (heap w') resource = Some true
                ∧ bound_set (heap w') memory = Some s ∧ resource ∈ s).

(** A heap grows into another one, for resources of the kind [cast]
    selects: their proxies stay, bound flags stay set, bound-sets only gain
    members. *)
Definition grows {A} (cast : option Proxy → option A) (isBound : A → bool)
    (h h' : gmap addr Proxy) : Prop :=
  (∀ a v, cast (h !! a) = Some v →
          ∃ v', cast (h' !! a) = Some v' ∧ (isBound v = true → isBound v' = true))
  ∧ (∀ a m, as_memory (h !! a) = Some m →
            ∃ m', as_memory (h' !! a) = Some m' ∧ memory_bound m ⊆ memory_bound m').

(** Only the heap may differ. *)
Definition heap_only (w w' : World) : Prop :=
  m_MemoryTypeMap w' = m_MemoryTypeMap w ∧ next w' = next w
  ∧ calls w' = calls w ∧ reports w' = reports w.

(** ** Vocabulary of the lifetime of a resource *)

(** Every proxy lies below the next address [Allocate] hands out. *)
Definition fresh (w : World) : Prop :=
  ∀ a, is_Some (heap w !! a) → a < next w.

(** The flags of the resources of a heap are the same in another one. *)
Definition flags_kept (h h' : gmap addr Proxy) : Prop :=
  ∀ a b, bound_flag h a = Some b → bound_flag h' a = Some b.

(** The flags of the resources of a heap are the same or set in another
    one. *)
Definition flags_raised (h h' : gmap addr Proxy) : Prop :=
  ∀ a b, bound_flag h a = Some b → bound_flag h' a = Some b ∨ bound_flag h' a = Some true.

(** No resource appears with its flag set. *)
Definition no_bound_created (h h' : gmap addr Proxy) : Prop :=
  ∀ a, bound_flag h a = None → bound_flag h' a ≠ Some true.

(** No resource appears. *)
Definition no_resource_created (h h' : gmap addr Proxy) : Prop :=
  ∀ a, bound_flag h a = None → bound_flag h' a = None.

(** A part of a call that may call the backend but touches no proxy. *)
Definition asks (w w' : World) : Prop :=
  heap w' = heap w ∧ next w' = next w ∧ ∃ cs, calls w' = calls w ++ cs.

(** A part of a call that may call the backend and create proxies but sets
    no flag. *)
Definition keeps (w w' : World) : Prop :=
  (fresh w → fresh w' ∧ flags_kept (heap w) (heap w')
                      ∧ no_bound_created (heap w) (heap w'))
  ∧ ∃ cs, calls w' = calls w ++ cs.

(** A part of a call that may set flags but calls no backend entry point
    and creates no resource. *)
Definition raises (w w' : World) : Prop :=
  (fresh w → fresh w' ∧ flags_raised (heap w) (heap w')
                      ∧ no_resource_created (heap w) (heap w'))
  ∧ calls w' = calls w.



(** A call of a combined allocate-and-create entry point with backend
    answer [r]: no flag changes, and a resource appears with its flag set
    only if the answer is [SUCCESS]. *)
Definition creates_bound (r : Result) (w w' : World) : Prop :=
  fresh w → fresh w' ∧ flags_kept (heap w) (heap w')
            ∧ (r ≠ SUCCESS → no_bound_created (heap w) (heap w')).


(** A sequence of calls. *)
Fixpoint exec_all (K : Constants)
    (Backend_GetBufferMemoryDesc : BufferDesc → N → MemoryDesc)
    (Backend_GetTextureMemoryDesc : TextureDesc → N → MemoryDesc)
    (ops : list Op) (w : World) : option World :=
  match ops with
  | [] => Some w
  | op :: ops' =>
      match exec K Backend_GetBufferMemoryDesc Backend_GetTextureMemoryDesc op w with
      | Some w' => exec_all K Backend_GetBufferMemoryDesc Backend_GetTextureMemoryDesc ops' w'
      | None => None
      end
  end.

(** A run for the examples: a buffer is allocated together with its memory
    (address 1, born bound), a second buffer is created unbound (address 2),
    a memory type is registered and a memory allocated (address 3). *)
Definition example_ops : list Op :=
  [ OpAllocateBuffer {| abd_desc := {| bd_size := 256 |}; abd_memoryLocation := 0 |}
      SUCCESS 101 None;
    OpCreateBuffer {| bd_size := 1024 |} SUCCESS 102 None;
    OpRegisterMemoryType 7 0;
    OpAllocateMemory example_allocateMemoryDesc SUCCESS 103 None ].

(** What follows in the example: a failed bind of the second buffer, its
    bind, the release of the memory (refused), and the destruction of the
    second buffer. *)
Definition example_more_ops : list Op :=
  [ OpBindBufferMemory (Array [example_binding 3 2 0]) (BACKEND_FAILURE 1);
    OpBindBufferMemory (Array [example_binding 3 2 0]) SUCCESS;
    OpFreeMemory 3;
    OpDestroyBuffer 2 ].

(** * Further vocabulary

    Predicates for the properties of the entry points beyond the binding
    rules: memory allocation, descriptor ranges, colour attachments and
    vertex attributes, resource groups. *)

(** A priority within [-1, 1]: a number, neither an infinity nor a NaN. *)
Definition priority_in_range (p : float32) : Prop :=
  match p with
  | FFinite q => Qle (-1) q ∧ Qle q 1
  | _ => False
  end.

(** A Memory proxy just made: nothing is bound to it. *)
Definition new_memory (impl : handle) (size location : N) : Proxy :=
  PMemory {| memory_impl := impl; memory_size := size; memory_location := location;
             memory_bound := ∅ |}.

(** Every stage of a mask is a stage of another mask. *)
Definition stages_subset (mask other : N) : Prop :=
  ∀ k, N.testbit mask k = true → N.testbit other k = true.

(** A descriptor range that the inner loop of [CreatePipelineLayout]
    lets through: a range of variable size is an array, the range is not
    empty, its descriptor type is one of the enumeration, and it is visible
    to all stages or to stages of the layout only. *)
Definition range_ok (K : Constants) (layoutStages : N) (range : DescriptorRangeDesc) : Prop :=
  (dr_isDescriptorNumVariable range = true → dr_isArray range = true)
  ∧ dr_descriptorNum range ≠ 0
  ∧ dr_descriptorType range < DescriptorType_MAX_NUM K
  ∧ (dr_shaderStages range = StageBits_ALL K
     ∨ stages_subset (dr_shaderStages range) layoutStages).

Definition ranges_ok (K : Constants) (pipelineLayoutDesc : PipelineLayoutDesc) : Prop :=
  Forall (λ set, Forall (range_ok K (pl_shaderStages pipelineLayoutDesc)) (ds_ranges set))
         (pl_descriptorSets pipelineLayoutDesc).

(** A layout of the graphics family with one set of two ranges, the first
    visible to all stages and the second to the vertex stage. *)
Definition example_rangesDesc (stages : N) : PipelineLayoutDesc :=
  {| pl_shaderStages := 254;
     pl_descriptorSets :=
       [ {| ds_ranges :=
              [ {| dr_isDescriptorNumVariable := false; dr_isArray := false;
                   dr_descriptorNum := 1; dr_descriptorType := 0; dr_shaderStages := 0 |};
                {| dr_isDescriptorNumVariable := true; dr_isArray := true;
                   dr_descriptorNum := 4; dr_descriptorType := 2;
                   dr_shaderStages := stages |} ] |} ] |}.




(** [FreeMemory] is refused: it returns with nothing but error reports
    added, the Memory still live. *)
Definition free_refused (memory : addr) (w : World) : Prop :=
  ∃ w', FreeMemory memory w = Some (tt, w') ∧ untouched w w'.

(** A batched bind that names a resource whose bound flag is set is
    refused as a whole: no rebinding. *)
Definition rebind_refused
    (Bind : carray MemoryBindingDesc → Result → World → option (Result * World)) : Prop :=
  ∀ descs backendResult w result w' d resource,
    d ∈ elems_of descs → mb_resource d = Some resource →
    bound_flag (heap w) resource = Some true →
    Bind descs backendResult w = Some (result, w') →
    result = INVALID_ARGUMENT ∧ heap w' = heap w
    ∧ ∃ cs, calls w' = calls w ++ cs ∧ ∀ c, c ∈ cs → is_bind_call c = false.

(** After a batched bind that returned [SUCCESS], the Memory of every
    entry refuses to be freed. *)
Definition bound_memory_kept
    (Bind : carray MemoryBindingDesc → Result → World → option (Result * World)) : Prop :=
  ∀ descs backendResult w w' d,
    Bind descs backendResult w = Some (SUCCESS, w') →
    d ∈ elems_of descs →
    ∃ memory, mb_memory d = Some memory ∧ free_refused memory w'.

(** ** Resource groups *)

(** A resource group that [CalculateAllocationNumber] and
    [AllocateAndBindMemory] let through: the location is one of the
    enumeration, an array that is null has no elements, and no buffer or
    texture pointer is null. *)
Definition group_ok (K : Constants) (resourceGroupDesc : ResourceGroupDesc) : Prop :=
  rg_memoryLocation resourceGroupDesc < MemoryLocation_MAX_NUM K
  ∧ (is_null (rg_buffers resourceGroupDesc) = true → count (rg_buffers resourceGroupDesc) = 0)
  ∧ (is_null (rg_textures resourceGroupDesc) = true
     → count (rg_textures resourceGroupDesc) = 0)
  ∧ Forall (λ p, p ≠ None) (elems_of (rg_buffers resourceGroupDesc))
  ∧ Forall (λ p, p ≠ None) (elems_of (rg_textures resourceGroupDesc)).

(** The pointers of a group that are not null hold live proxies of the
    right kind. *)
Definition group_live (h : gmap addr Proxy) (resourceGroupDesc : ResourceGroupDesc) : Prop :=
  Forall (λ p, p = None ∨ live as_buffer h p) (elems_of (rg_buffers resourceGroupDesc))
  ∧ Forall (λ p, p = None ∨ live as_texture h p) (elems_of (rg_textures resourceGroupDesc)).

(** The backend handle behind a buffer or texture pointer. *)
Definition buffer_impl_at (h : gmap addr Proxy) (p : Ptr) : option handle :=
  p ≫= λ a, buffer_impl <$> as_buffer (h !! a).

Definition texture_impl_at (h : gmap addr Proxy) (p : Ptr) : option handle :=
  p ≫= λ a, texture_impl <$> as_texture (h !! a).

(** The arrays [buffersImpl] and [texturesImpl] of a group. *)
Definition group_impls (h : gmap addr Proxy) (resourceGroupDesc : ResourceGroupDesc)
    (buffersImpl texturesImpl : list handle) : Prop :=
  Forall2 (λ p impl, buffer_impl_at h p = Some impl)
          (elems_of (rg_buffers resourceGroupDesc)) buffersImpl
  ∧ Forall2 (λ p impl, texture_impl_at h p = Some impl)
            (elems_of (rg_textures resourceGroupDesc)) texturesImpl.

(** A group of the unbound buffer and the unbound texture of the example
    world, for a memory location. *)
Definition example_group (location : N) : ResourceGroupDesc :=
  {| rg_memoryLocation := location; rg_buffers := Array [Some 1];
     rg_textures := Array [Some 2] |}.

(** ** Bound-sets *)

(** Every member of the bound-set of a live Memory is a live resource whose
    bound flag is set. *)
Definition bound_sets_sound (h : gmap addr Proxy) : Prop :=
  ∀ memory s resource,
    bound_set h memory = Some s → resource ∈ s → bound_flag h resource = Some true.

(** A part of a call that keeps the bound-sets sound. *)
Definition sound_kept (w w' : World) : Prop :=
  fresh w → bound_sets_sound (heap w) → fresh w' ∧ bound_sets_sound (heap w').

(** ** Refusing and forwarding *)

(** A computation that only checks: it goes on in the world it was given,
    or returns a value that [E] allows with one error report added to it. *)
Definition checks_only {R A} (E : R → Prop) (m : M R A) : Prop :=
  ∀ w, match m w with
       | Undefined => True
       | Returned r w' => E r ∧ ∃ report, w' = log_report report w
       | Normal _ w' => w' = w
       end.

(** The result codes the layer produces itself. *)
Definition own_failure (r : Result) : Prop := r = INVALID_ARGUMENT ∨ r = FAILURE.

(** The body of a creation function either refuses, with one report
    added and nothing else changed, or forwards: it adds no report, calls
    the backend and yields its answer. *)
Definition refuses_or_forwards (backendResult : Result) (m : M Result (Result * Ptr))
    : Prop :=
  ∀ w, match m w with
       | Undefined => True
       | Returned r w' => own_failure r ∧ ∃ report, w' = log_report report w
       | Normal (r, _) w' =>
           r = backendResult ∧ reports w' = reports w
           ∧ ∃ c cs, calls w' = calls w ++ c :: cs
       end.

(** The same on a creation function with its out parameter. *)
Definition refused_or_forwarded (backendResult : Result)
    (f : Ptr → World → option (Result * Ptr * World)) : Prop :=
  ∀ out w result out' w',
    f out w = Some (result, out', w') →
    (own_failure result ∧ out' = out ∧ ∃ report, w' = log_report report w)
    ∨ (result = backendResult ∧ reports w' = reports w
       ∧ ∃ c cs, calls w' = calls w ++ c :: cs).

(** ** Creating and destroying *)

(** What the body of a creation function has done when it yields
    [SUCCESS]: one proxy that [P] describes has been made at the next free
    address, which is the new value of the handle variable. A failed check
    never returns [SUCCESS]. *)
Definition makes (P : Proxy → Prop) (m : M Result (Result * Ptr)) : Prop :=
  ∀ w, match m w with
       | Undefined => True
       | Returned r _ => r ≠ SUCCESS
       | Normal (r, out') w' =>
           r = SUCCESS →
           out' = Some (next w)
           ∧ ∃ p, P p ∧ heap w' = <[next w := p]> (heap w)
       end.

(** A creation function and the destruction function of its kind of
    proxy undo each other: after [create] has returned [SUCCESS], [destroy]
    on the new handle is defined, hands the backend handle [impl] of the
    creation to the entry point [destroyCall] of the backend, and leaves the
    proxies as they were before the creation. *)
Definition round_trip (create : Ptr → World → option (Result * Ptr * World))
    (destroy : addr → World → option (unit * World))
    (destroyCall : BackendCall) : Prop :=
  ∀ out w out' w1,
    fresh w → bound_sets_sound (heap w) →
    create out w = Some (SUCCESS, out', w1) →
    ∃ a w2, out' = Some a ∧ heap w !! a = None
            ∧ destroy a w1 = Some (tt, w2)
            ∧ heap w2 = heap w
            ∧ calls w2 = calls w1 ++ [destroyCall].

(** ** Translation of handles *)

(** An entry of a batched bind and its translation for the backend: the
    backend handles of the Memory and of the resource the entry names, and
    the offset of the entry. *)
Definition translates {A} (cast : option Proxy → option A) (impl_of : A → handle)
    (h : gmap addr Proxy) (d : MemoryBindingDesc) (dest : MemoryBindingImplDesc) : Prop :=
  ∃ memory m resource r,
    mb_memory d = Some memory ∧ as_memory (h !! memory) = Some m
    ∧ mb_resource d = Some resource ∧ cast (h !! resource) = Some r
    ∧ dest = {| mbi_memory := memory_impl m; mbi_resource := impl_of r;
                mbi_offset := mb_offset d |}.

(** What the backend sees of a batched bind: requirement queries only when
    the batch is refused; otherwise the queries and then one call of the
    binding entry point, on the translations of the entries in their
    order. *)
Definition batch_translated {A} (cast : option Proxy → option A) (impl_of : A → handle)
    (entryPoint : list MemoryBindingImplDesc → BackendCall)
    (Bind : carray MemoryBindingDesc → Result → World → option (Result * World)) : Prop :=
  ∀ descs backendResult w result w',
    Bind descs backendResult w = Some (result, w') →
    (result = INVALID_ARGUMENT
     ∧ ∃ queries, calls w' = calls w ++ queries ∧ forallb is_query queries = true)
    ∨ (result = backendResult
       ∧ ∃ queries impls,
           calls w' = calls w ++ queries ++ [entryPoint impls]
           ∧ forallb is_query queries = true
           ∧ Forall2 (translates cast impl_of (heap w)) (elems_of descs) impls).

(** * The rest of the public surface

    The entry points of [DeviceVal.cpp] that the sections above leave out:
    the views of buffers and of 1D and 3D textures, samplers, compute and
    ray-tracing pipelines, command queues and the other device objects,
    the wrappers of native objects, and the loading of the function tables.
    They need more state than a [World] holds: the backend entry points
    they call, the proxies of the other kinds with the cache of command
    queues, and the capability flags. A [Device] is a [World] together with
    that state, and the computations of this part run in the monad [DM] on
    it, into which those of [M] are lifted. *)

#[local] Open Scope string_scope.
#[local] Open Scope N_scope.

(** ** Descriptors *)

Record BufferViewDesc := {
  bv_buffer : Ptr;
  bv_viewType : N;
  bv_format : N;
  bv_offset : N;
  bv_size : N
}.

Record Texture1DViewDesc := {
  t1_texture : Ptr;
  t1_viewType : N;
  t1_format : N;
  t1_mipOffset : N;
  t1_mipNum : N;
  t1_layerOffset : N;
  t1_layerNum : N
}.

Record Texture3DViewDesc := {
  t3_texture : Ptr;
  t3_viewType : N;
  t3_format : N;
  t3_mipOffset : N;
  t3_mipNum : N;
  t3_sliceOffset : N;
  t3_sliceNum : N
}.

(** [SamplerDesc], the fields the source reads: [filters.min] and the
    like are flattened. *)
Record SamplerDesc := {
  sd_filters_min : N;
  sd_filters_mag : N;
  sd_filters_mip : N;
  sd_filters_ext : N;
  sd_addressModes_u : N;
  sd_addressModes_v : N;
  sd_addressModes_w : N;
  sd_compareFunc : N;
  sd_borderColor : N
}.

Record ComputePipelineDesc := {
  cp_pipelineLayout : Ptr;
  cp_shader : ShaderDesc
}.

(** [ShaderLibrary]: the array [shaders] with its length [shaderNum]. *)
Record ShaderLibrary := { sl_shaders : carray ShaderDesc }.

Record ShaderGroupDesc := { sg_shaderIndices : list N }.

Record RayTracingPipelineDesc := {
  rp_pipelineLayout : Ptr;
  rp_shaderLibrary : option ShaderLibrary;
  rp_shaderGroupDescs : carray ShaderGroupDesc;
  rp_recursionDepthMax : N
}.

Record SwapChainDesc := {
  sc_commandQueue : Ptr;
  sc_width : N;
  sc_height : N;
  sc_textureNum : N;
  sc_format : N
}.

Record DescriptorPoolDesc := { dp_descriptorSetMaxNum : N }.

Record QueryPoolDesc := { qp_queryType : N; qp_capacity : N }.

(** Descriptors of native objects; a native handle is a number, zero or
    [nullptr] when there is none. *)
Record BufferVKDesc := { bvk_vkBuffer : N; bvk_size : N }.

Record TextureVKDesc := {
  tvk_vkImage : N;
  tvk_vkFormat : N;
  tvk_sampleNum : N;
  tvk_layerNum : N;
  tvk_mipNum : N
}.

Record MemoryVKDesc := { mvk_vkDeviceMemory : N; mvk_size : N }.

Record AccelerationStructureVKDesc := { avk_vkAccelerationStructure : N }.

Record BufferD3D11Desc := { b11_d3d11Resource : Ptr }.
Record TextureD3D11Desc := { t11_d3d11Resource : Ptr }.
Record BufferD3D12Desc := { b12_d3d12Resource : Ptr }.
Record TextureD3D12Desc := { t12_d3d12Resource : Ptr }.
Record MemoryD3D12Desc := { m12_d3d12Heap : Ptr }.
Record AccelerationStructureD3D12Desc := { a12_d3d12Resource : Ptr }.

(** The bounds of the enumerations these entry points check, and
    [FilterExt::NONE]. *)
Record Enums := {
  BufferViewType_MAX_NUM : N;
  Texture1DViewType_MAX_NUM : N;
  Texture3DViewType_MAX_NUM : N;
  Filter_MAX_NUM : N;
  FilterExt_MAX_NUM : N;
  FilterExt_NONE : N;
  AddressMode_MAX_NUM : N;
  CompareFunc_MAX_NUM : N;
  BorderColor_MAX_NUM : N;
  CommandQueueType_MAX_NUM : N;
  SwapChainFormat_MAX_NUM : N;
  QueryType_MAX_NUM : N
}.

(** An instance to run the model on concrete inputs. *)
Definition nri_enums : Enums := {|
  BufferViewType_MAX_NUM := 3;
  Texture1DViewType_MAX_NUM := 6;
  Texture3DViewType_MAX_NUM := 3;
  Filter_MAX_NUM := 2;
  FilterExt_MAX_NUM := 3;
  FilterExt_NONE := 0;
  AddressMode_MAX_NUM := 4;
  CompareFunc_MAX_NUM := 9;
  BorderColor_MAX_NUM := 3;
  CommandQueueType_MAX_NUM := 3;
  SwapChainFormat_MAX_NUM := 4;
  QueryType_MAX_NUM := 5
|}.

(** The function tables [Create] asks the backend for. *)
Inductive Interface : Type :=
| CoreInterface
| HelperInterface
| StreamerInterface
| ResourceAllocatorInterface
| LowLatencyInterface
| MeshShaderInterface
| RayTracingInterface
| SwapChainInterface
| WrapperD3D11Interface
| WrapperD3D12Interface
| WrapperVKInterface.

#[global] Instance Interface_eq_dec : EqDecision Interface.
Proof. solve_decision. Defined.

(** ** The state of the device *)

(** The proxies of the kinds that are not in [Proxy]. *)
Record CommandQueueVal := { queue_impl : handle }.
Record SwapChainVal := { swapChain_impl : handle; swapChain_desc : SwapChainDesc }.
Record CommandAllocatorVal := { allocator_impl : handle }.
Record DescriptorPoolVal := { pool_impl : handle; pool_descriptorSetMaxNum : N }.
Record QueryPoolVal := { queryPool_impl : handle; queryPool_type : N; queryPool_capacity : N }.
Record FenceVal := { fence_impl : handle }.

Inductive Object : Type :=
| OCommandQueue (q : CommandQueueVal)
| OSwapChain (s : SwapChainVal)
| OCommandAllocator (a : CommandAllocatorVal)
| ODescriptorPool (p : DescriptorPoolVal)
| OQueryPool (p : QueryPoolVal)
| OFence (f : FenceVal).

(** The entry points of the backend function tables these functions
    call. *)
Inductive DeviceCall : Type :=
| FillFunctionTable (interface : Interface)
| SwapChain_CreateSwapChain (commandQueue : handle) (d : SwapChainDesc)
| SwapChain_DestroySwapChain (swapChain : handle)
| Core_GetCommandQueue (commandQueueType : N)
| Core_CreateCommandAllocator (commandQueue : handle)
| Core_CreateDescriptorPool (d : DescriptorPoolDesc)
| Core_CreateBufferView (buffer : handle) (d : BufferViewDesc)
| Core_CreateTexture1DView (texture : handle) (d : Texture1DViewDesc)
| Core_CreateTexture3DView (texture : handle) (d : Texture3DViewDesc)
| Core_CreateSampler (d : SamplerDesc)
| Core_CreateComputePipeline (layout : handle) (d : ComputePipelineDesc)
| Core_CreateQueryPool (d : QueryPoolDesc)
| Core_CreateFence (initialValue : N)
| Core_DestroyCommandAllocator (commandAllocator : handle)
| Core_DestroyDescriptorPool (descriptorPool : handle)
| Core_DestroyPipelineLayout (pipelineLayout : handle)
| Core_DestroyPipeline (pipeline : handle)
| Core_DestroyQueryPool (queryPool : handle)
| Core_DestroyFence (fence : handle)
| RayTracing_CreateRayTracingPipeline (layout : handle) (d : RayTracingPipelineDesc)
| WrapperVK_CreateBufferVK (d : BufferVKDesc)
| WrapperVK_CreateTextureVK (d : TextureVKDesc)
| WrapperVK_CreateMemoryVK (d : MemoryVKDesc)
| WrapperVK_CreateAccelerationStructureVK (d : AccelerationStructureVKDesc)
| WrapperD3D11_CreateBufferD3D11 (d : BufferD3D11Desc)
| WrapperD3D11_CreateTextureD3D11 (d : TextureD3D11Desc)
| WrapperD3D12_CreateBufferD3D12 (d : BufferD3D12Desc)
| WrapperD3D12_CreateTextureD3D12 (d : TextureD3D12Desc)
| WrapperD3D12_CreateMemoryD3D12 (d : MemoryD3D12Desc)
| WrapperD3D12_CreateAccelerationStructureD3D12 (d : AccelerationStructureD3D12Desc).

(** The capability flags [Create] sets. *)
Record Capabilities := {
  m_IsLowLatencySupported : bool;
  m_IsMeshShaderSupported : bool;
  m_IsRayTracingSupported : bool;
  m_IsSwapChainSupported : bool;
  m_IsWrapperD3D11Supported : bool;
  m_IsWrapperD3D12Supported : bool;
  m_IsWrapperVKSupported : bool
}.

(** Modelled from the spec: [m_CommandQueues] is declared in [DeviceVal.h],
    which is not part of the sources at hand. Per the data model it is a
    fixed-size array of command-queue proxies indexed by queue type, lazily
    populated, at most one per type: here a map from the queue type to the
    address of the proxy, without an entry while the element is null. *)
Record Device := {
  world : World;
  objects : gmap addr Object;
  m_CommandQueues : gmap N addr;
  capabilities : Capabilities;
  device_calls : list DeviceCall
}.

Definition set_world (w : World) (d : Device) : Device :=
  {| world := w; objects := objects d; m_CommandQueues := m_CommandQueues d;
     capabilities := capabilities d; device_calls := device_calls d |}.

Definition set_objects (f : gmap addr Object → gmap addr Object) (d : Device) : Device :=
  {| world := world d; objects := f (objects d); m_CommandQueues := m_CommandQueues d;
     capabilities := capabilities d; device_calls := device_calls d |}.

Definition set_commandQueues (f : gmap N addr → gmap N addr) (d : Device) : Device :=
  {| world := world d; objects := objects d; m_CommandQueues := f (m_CommandQueues d);
     capabilities := capabilities d; device_calls := device_calls d |}.

Definition set_capabilities (c : Capabilities) (d : Device) : Device :=
  {| world := world d; objects := objects d; m_CommandQueues := m_CommandQueues d;
     capabilities := c; device_calls := device_calls d |}.

Definition log_device_call (c : DeviceCall) (d : Device) : Device :=
  {| world := world d; objects := objects d; m_CommandQueues := m_CommandQueues d;
     capabilities := capabilities d; device_calls := device_calls d ++ [c] |}.

Definition no_capabilities : Capabilities :=
  {| m_IsLowLatencySupported := false; m_IsMeshShaderSupported := false;
     m_IsRayTracingSupported := false; m_IsSwapChainSupported := false;
     m_IsWrapperD3D11Supported := false; m_IsWrapperD3D12Supported := false;
     m_IsWrapperVKSupported := false |}.

(** The device around a world, with nothing else yet. *)
Definition device_of (w : World) : Device :=
  {| world := w; objects := ∅; m_CommandQueues := ∅; capabilities := no_capabilities;
     device_calls := [] |}.

(** ** The monad on devices *)

Inductive DOutcome (R A : Type) : Type :=
| DUndefined
| DReturned (r : R) (d : Device)
| DNormal (a : A) (d : Device).
Arguments DUndefined {R A}.
Arguments DReturned {R A} r d.
Arguments DNormal {R A} a d.

Definition DM (R A : Type) : Type := Device → DOutcome R A.

Definition dret {R A} (a : A) : DM R A := λ d, DNormal a d.

Definition dbind {R A B} (m : DM R A) (k : A → DM R B) : DM R B :=
  λ d, match m d with
       | DUndefined => DUndefined
       | DReturned r d' => DReturned r d'
       | DNormal a d' => k a d'
       end.

Notation "x <== m ;; k" := (dbind m (λ x, k))
  (at level 100, m at next level, right associativity).
Notation "m ;;= k" := (dbind m (λ _, k))
  (at level 100, right associativity).

(** A computation on the world is one on the device; [RETURN_ON_FAILURE],
    [REPORT_ERROR], [deref], [Allocate] and [Destroy] are used through this
    coercion. *)
Definition lift {R A} (m : M R A) : DM R A :=
  λ d, match m (world d) with
       | Undefined => DUndefined
       | Returned r w => DReturned r (set_world w d)
       | Normal a w => DNormal a (set_world w d)
       end.
Coercion lift : M >-> DM.

(** [return] in the middle of a function. *)
Definition dreturn_ {R A} (r : R) : DM R A := λ d, DReturned r d.

(** A call of a backend entry point: logged, answered by [answer]. *)
Definition device_backend {R A} (c : DeviceCall) (answer : A) : DM R A :=
  λ d, DNormal answer (log_device_call c d).

(** [Allocate<T>] for the proxies of the other kinds: the addresses come
    from the same allocator as those of the heap. *)
Definition AllocateObject {R} (o : Object) : DM R addr :=
  λ d, let a := next (world d) in
       DNormal a (set_objects (insert a o) (set_world (set_next (a + 1) (world d)) d)).

Definition DestroyObject {R} (a : addr) : DM R unit :=
  λ d, DNormal tt (set_objects (delete a) d).

Definition as_commandQueue (o : option Object) : option CommandQueueVal :=
  match o with Some (OCommandQueue q) => Some q | _ => None end.
Definition as_swapChain (o : option Object) : option SwapChainVal :=
  match o with Some (OSwapChain s) => Some s | _ => None end.
Definition as_commandAllocator (o : option Object) : option CommandAllocatorVal :=
  match o with Some (OCommandAllocator a) => Some a | _ => None end.
Definition as_descriptorPool (o : option Object) : option DescriptorPoolVal :=
  match o with Some (ODescriptorPool p) => Some p | _ => None end.
Definition as_queryPool (o : option Object) : option QueryPoolVal :=
  match o with Some (OQueryPool p) => Some p | _ => None end.
Definition as_fence (o : option Object) : option FenceVal :=
  match o with Some (OFence f) => Some f | _ => None end.
Definition as_pipeline (p : option Proxy) : option PipelineVal :=
  match p with Some (PPipeline v) => Some v | _ => None end.

Definition deref_object {R A} (cast : option Object → option A) (p : Ptr)
    : DM R (addr * A) :=
  λ d, match p with
       | None => DUndefined
       | Some a => match cast (objects d !! a) with
                   | Some v => DNormal (a, v) d
                   | None => DUndefined
                   end
       end.

(** [m_CommandQueues[index]] and the assignment to it. *)
Definition get_commandQueue {R} (index : N) : DM R Ptr :=
  λ d, DNormal (m_CommandQueues d !! index) d.

Definition put_commandQueue {R} (index : N) (queue : addr) : DM R unit :=
  λ d, DNormal tt (set_commandQueues (insert index queue) d).

Definition put_capabilities {R} (c : Capabilities) : DM R unit :=
  λ d, DNormal tt (set_capabilities c d).

Definition drun {R} (m : DM R R) (d : Device) : option (R * Device) :=
  match m d with
  | DUndefined => None
  | DReturned r d' => Some (r, d')
  | DNormal r d' => Some (r, d')
  end.

Definition drun_out (m : DM Result (Result * Ptr)) (old : Ptr) (d : Device)
    : option (Result * Ptr * Device) :=
  match m d with
  | DUndefined => None
  | DReturned r d' => Some (r, old, d')
  | DNormal (r, p) d' => Some (r, p, d')
  end.

(** ** The entry points *)

Section Surface.

Context (K : Constants) (E : Enums).

(** What the source takes from outside [DeviceVal.cpp]: the field
    [isTextureFilterMinMaxSupported] of the device description of the
    backend, and the helpers [nriConvertVKFormatToNRI] and
    [GetMemorySizeD3D12]. *)
Context (isTextureFilterMinMaxSupported : bool).
Context (nriConvertVKFormatToNRI : N → N).
Context (GetMemorySizeD3D12 : MemoryD3D12Desc → N).

(** *** The function tables *)

(** [Create]: the answers of [FillFunctionTable] are those of
    [tables]. *)
Definition Create_body (tables : Interface → Result) : DM bool bool :=
  r <== device_backend (FillFunctionTable CoreInterface) (tables CoreInterface) ;;
  (if decide (r ≠ SUCCESS) then
     REPORT_ERROR "Failed to get 'CoreInterface' interface" [] ;;= dreturn_ false
   else dret tt) ;;=
  r <== device_backend (FillFunctionTable HelperInterface) (tables HelperInterface) ;;
  (if decide (r ≠ SUCCESS) then
     REPORT_ERROR "Failed to get 'HelperInterface' interface" [] ;;= dreturn_ false
   else dret tt) ;;=
  r <== device_backend (FillFunctionTable StreamerInterface) (tables StreamerInterface) ;;
  (if decide (r ≠ SUCCESS) then
     REPORT_ERROR "Failed to get 'StreamerInterface' interface" [] ;;= dreturn_ false
   else dret tt) ;;=
  r <== device_backend (FillFunctionTable ResourceAllocatorInterface)
                       (tables ResourceAllocatorInterface) ;;
  (if decide (r ≠ SUCCESS) then
     REPORT_ERROR "Failed to get 'ResourceAllocatorInterface' interface" [] ;;=
     dreturn_ false
   else dret tt) ;;=
  lowLatency <== device_backend (FillFunctionTable LowLatencyInterface)
                                (tables LowLatencyInterface) ;;
  meshShader <== device_backend (FillFunctionTable MeshShaderInterface)
                                (tables MeshShaderInterface) ;;
  rayTracing <== device_backend (FillFunctionTable RayTracingInterface)
                                (tables RayTracingInterface) ;;
  swapChain <== device_backend (FillFunctionTable SwapChainInterface)
                               (tables SwapChainInterface) ;;
  wrapperD3D11 <== device_backend (FillFunctionTable WrapperD3D11Interface)
                                  (tables WrapperD3D11Interface) ;;
  wrapperD3D12 <== device_backend (FillFunctionTable WrapperD3D12Interface)
                                  (tables WrapperD3D12Interface) ;;
  wrapperVK <== device_backend (FillFunctionTable WrapperVKInterface)
                               (tables WrapperVKInterface) ;;
  put_capabilities
    {| m_IsLowLatencySupported := bool_decide (lowLatency = SUCCESS);
       m_IsMeshShaderSupported := bool_decide (meshShader = SUCCESS);
       m_IsRayTracingSupported := bool_decide (rayTracing = SUCCESS);
       m_IsSwapChainSupported := bool_decide (swapChain = SUCCESS);
       m_IsWrapperD3D11Supported := bool_decide (wrapperD3D11 = SUCCESS);
       m_IsWrapperD3D12Supported := bool_decide (wrapperD3D12 = SUCCESS);
       m_IsWrapperVKSupported := bool_decide (wrapperVK = SUCCESS) |} ;;=
  dret true.

Definition Create (tables : Interface → Result) := drun (Create_body tables).

(** *** Swap chains, command queues and the other device objects *)

Definition CreateSwapChain_body (swapChainDesc : SwapChainDesc)
    (backendResult : Result) (swapChainImpl : handle) (swapChain : Ptr)
    : DM Result (Result * Ptr) :=
  RETURN_ON_FAILURE (bool_decide (sc_commandQueue swapChainDesc ≠ None)) INVALID_ARGUMENT
    "'swapChainDesc.commandQueue' is NULL" [] ;;=
  RETURN_ON_FAILURE (negb (sc_width swapChainDesc =? 0)) INVALID_ARGUMENT
    "'swapChainDesc.width' is 0" [] ;;=
  RETURN_ON_FAILURE (negb (sc_height swapChainDesc =? 0)) INVALID_ARGUMENT
    "'swapChainDesc.height' is 0" [] ;;=
  RETURN_ON_FAILURE (0 <? sc_textureNum swapChainDesc) INVALID_ARGUMENT
    "'swapChainDesc.textureNum' is invalid" [] ;;=
  RETURN_ON_FAILURE (sc_format swapChainDesc <? SwapChainFormat_MAX_NUM E) INVALID_ARGUMENT
    "'swapChainDesc.format' is invalid" [] ;;=
  q <== deref_object as_commandQueue (sc_commandQueue swapChainDesc) ;;
  result <== device_backend (SwapChain_CreateSwapChain (queue_impl (snd q)) swapChainDesc)
                            backendResult ;;
  if decide (result = SUCCESS) then
    a <== AllocateObject (OSwapChain {| swapChain_impl := swapChainImpl;
                                        swapChain_desc := swapChainDesc |}) ;;
    dret (result, Some a)
  else dret (result, swapChain).

Definition CreateSwapChain swapChainDesc backendResult swapChainImpl (swapChain : Ptr) :=
  drun_out (CreateSwapChain_body swapChainDesc backendResult swapChainImpl swapChain)
           swapChain.

Definition DestroySwapChain_body (swapChain : addr) : DM unit unit :=
  s <== deref_object as_swapChain (Some swapChain) ;;
  device_backend (SwapChain_DestroySwapChain (swapChain_impl (snd s))) tt ;;=
  DestroyObject swapChain.

Definition DestroySwapChain (swapChain : addr) := drun (DestroySwapChain_body swapChain).

(** [GetCommandQueue]: the proxy of a queue type is made at the first
    successful call and kept in [m_CommandQueues]. *)
Definition GetCommandQueue_body (commandQueueType : N)
    (backendResult : Result) (commandQueueImpl : handle) (commandQueue : Ptr)
    : DM Result (Result * Ptr) :=
  RETURN_ON_FAILURE (commandQueueType <? CommandQueueType_MAX_NUM E) INVALID_ARGUMENT
    "'commandQueueType' is invalid" [] ;;=
  result <== device_backend (Core_GetCommandQueue commandQueueType) backendResult ;;
  if decide (result = SUCCESS) then
    let index := u32 commandQueueType in
    cached <== get_commandQueue index ;;
    (match cached with
     | None =>
         a <== AllocateObject (OCommandQueue {| queue_impl := commandQueueImpl |}) ;;
         put_commandQueue index a
     | Some _ => dret tt
     end) ;;=
    q <== get_commandQueue index ;;
    dret (result, q)
  else dret (result, commandQueue).

Definition GetCommandQueue commandQueueType backendResult commandQueueImpl
    (commandQueue : Ptr) :=
  drun_out (GetCommandQueue_body commandQueueType backendResult commandQueueImpl
              commandQueue) commandQueue.

Definition CreateCommandAllocator_body (commandQueue : addr)
    (backendResult : Result) (commandAllocatorImpl : handle) (commandAllocator : Ptr)
    : DM Result (Result * Ptr) :=
  q <== deref_object as_commandQueue (Some commandQueue) ;;
  result <== device_backend (Core_CreateCommandAllocator (queue_impl (snd q)))
                            backendResult ;;
  if decide (result = SUCCESS) then
    a <== AllocateObject (OCommandAllocator {| allocator_impl := commandAllocatorImpl |}) ;;
    dret (result, Some a)
  else dret (result, commandAllocator).

Definition CreateCommandAllocator commandQueue backendResult commandAllocatorImpl
    (commandAllocator : Ptr) :=
  drun_out (CreateCommandAllocator_body commandQueue backendResult commandAllocatorImpl
              commandAllocator) commandAllocator.

Definition CreateDescriptorPool_body (descriptorPoolDesc : DescriptorPoolDesc)
    (backendResult : Result) (descriptorPoolImpl : handle) (descriptorPool : Ptr)
    : DM Result (Result * Ptr) :=
  result <== device_backend (Core_CreateDescriptorPool descriptorPoolDesc) backendResult ;;
  if decide (result = SUCCESS) then
    a <== AllocateObject
            (ODescriptorPool
               {| pool_impl := descriptorPoolImpl;
                  pool_descriptorSetMaxNum := dp_descriptorSetMaxNum descriptorPoolDesc |}) ;;
    dret (result, Some a)
  else dret (result, descriptorPool).

Definition CreateDescriptorPool descriptorPoolDesc backendResult descriptorPoolImpl
    (descriptorPool : Ptr) :=
  drun_out (CreateDescriptorPool_body descriptorPoolDesc backendResult descriptorPoolImpl
              descriptorPool) descriptorPool.

Definition CreateQueryPool_body (queryPoolDesc : QueryPoolDesc)
    (backendResult : Result) (queryPoolImpl : handle) (queryPool : Ptr)
    : DM Result (Result * Ptr) :=
  RETURN_ON_FAILURE (qp_queryType queryPoolDesc <? QueryType_MAX_NUM E) INVALID_ARGUMENT
    "'queryPoolDesc.queryType' is invalid" [] ;;=
  RETURN_ON_FAILURE (0 <? qp_capacity queryPoolDesc) INVALID_ARGUMENT
    "'queryPoolDesc.capacity' is 0" [] ;;=
  result <== device_backend (Core_CreateQueryPool queryPoolDesc) backendResult ;;
  if decide (result = SUCCESS) then
    a <== AllocateObject (OQueryPool {| queryPool_impl := queryPoolImpl;
                                        queryPool_type := qp_queryType queryPoolDesc;
                                        queryPool_capacity := qp_capacity queryPoolDesc |}) ;;
    dret (result, Some a)
  else dret (result, queryPool).

Definition CreateQueryPool queryPoolDesc backendResult queryPoolImpl (queryPool : Ptr) :=
  drun_out (CreateQueryPool_body queryPoolDesc backendResult queryPoolImpl queryPool)
           queryPool.

Definition CreateFence_body (initialValue : N)
    (backendResult : Result) (fenceImpl : handle) (fence : Ptr)
    : DM Result (Result * Ptr) :=
  result <== device_backend (Core_CreateFence initialValue) backendResult ;;
  if decide (result = SUCCESS) then
    a <== AllocateObject (OFence {| fence_impl := fenceImpl |}) ;;
    dret (result, Some a)
  else dret (result, fence).

Definition CreateFence initialValue backendResult fenceImpl (fence : Ptr) :=
  drun_out (CreateFence_body initialValue backendResult fenceImpl fence) fence.

Definition DestroyCommandAllocator_body (commandAllocator : addr) : DM unit unit :=
  a <== deref_object as_commandAllocator (Some commandAllocator) ;;
  device_backend (Core_DestroyCommandAllocator (allocator_impl (snd a))) tt ;;=
  DestroyObject commandAllocator.

Definition DestroyCommandAllocator (commandAllocator : addr) :=
  drun (DestroyCommandAllocator_body commandAllocator).

Definition DestroyDescriptorPool_body (descriptorPool : addr) : DM unit unit :=
  p <== deref_object as_descriptorPool (Some descriptorPool) ;;
  device_backend (Core_DestroyDescriptorPool (pool_impl (snd p))) tt ;;=
  DestroyObject descriptorPool.

Definition DestroyDescriptorPool (descriptorPool : addr) :=
  drun (DestroyDescriptorPool_body descriptorPool).

Definition DestroyPipelineLayout_body (pipelineLayout : addr) : DM unit unit :=
  l <== deref as_pipelineLayout (Some pipelineLayout) ;;
  device_backend (Core_DestroyPipelineLayout (layout_impl (snd l))) tt ;;=
  Destroy pipelineLayout.

Definition DestroyPipelineLayout (pipelineLayout : addr) :=
  drun (DestroyPipelineLayout_body pipelineLayout).

Definition DestroyPipeline_body (pipeline : addr) : DM unit unit :=
  p <== deref as_pipeline (Some pipeline) ;;
  device_backend (Core_DestroyPipeline (pipeline_impl (snd p))) tt ;;=
  Destroy pipeline.

Definition DestroyPipeline (pipeline : addr) := drun (DestroyPipeline_body pipeline).

Definition DestroyQueryPool_body (queryPool : addr) : DM unit unit :=
  p <== deref_object as_queryPool (Some queryPool) ;;
  device_backend (Core_DestroyQueryPool (queryPool_impl (snd p))) tt ;;=
  DestroyObject queryPool.

Definition DestroyQueryPool (queryPool : addr) := drun (DestroyQueryPool_body queryPool).

Definition DestroyFence_body (fence : addr) : DM unit unit :=
  f <== deref_object as_fence (Some fence) ;;
  device_backend (Core_DestroyFence (fence_impl (snd f))) tt ;;=
  DestroyObject fence.

Definition DestroyFence (fence : addr) := drun (DestroyFence_body fence).

(** *** Views and samplers *)

(** [CreateDescriptor(const BufferViewDesc&, Descriptor*&)]: offsets and
    sizes are 64-bit, and so is the sum [offset + size]. *)
Definition CreateDescriptor_BufferView_body (bufferViewDesc : BufferViewDesc)
    (backendResult : Result) (descriptorImpl : handle) (bufferView : Ptr)
    : DM Result (Result * Ptr) :=
  RETURN_ON_FAILURE (bool_decide (bv_buffer bufferViewDesc ≠ None)) INVALID_ARGUMENT
    "'bufferViewDesc.buffer' is NULL" [] ;;=
  RETURN_ON_FAILURE (bv_format bufferViewDesc <? Format_MAX_NUM K) INVALID_ARGUMENT
    "'bufferViewDesc.format' is invalid" [] ;;=
  RETURN_ON_FAILURE (bv_viewType bufferViewDesc <? BufferViewType_MAX_NUM E)
    INVALID_ARGUMENT "'bufferViewDesc.viewType' is invalid" [] ;;=
  b <== deref as_buffer (bv_buffer bufferViewDesc) ;;
  let bufferDesc := buffer_desc (snd b) in
  RETURN_ON_FAILURE (bv_offset bufferViewDesc <? bd_size bufferDesc) INVALID_ARGUMENT
    "'bufferViewDesc.offset' is invalid. (bufferViewDesc.offset=%llu, bufferDesc.size=%llu)"
    [bv_offset bufferViewDesc; bd_size bufferDesc] ;;=
  RETURN_ON_FAILURE (u64 (bv_offset bufferViewDesc + bv_size bufferViewDesc)
                     <=? bd_size bufferDesc)
    INVALID_ARGUMENT "'bufferViewDesc.size' is invalid. (bufferViewDesc.offset=%llu, bufferViewDesc.size=%llu, bufferDesc.size=%llu)"
    [bv_offset bufferViewDesc; bv_size bufferViewDesc; bd_size bufferDesc] ;;=
  result <== device_backend (Core_CreateBufferView (buffer_impl (snd b)) bufferViewDesc)
                            backendResult ;;
  if decide (result = SUCCESS) then
    a <== Allocate (PDescriptor {| descriptor_impl := descriptorImpl |}) ;;
    dret (result, Some a)
  else dret (result, bufferView).

Definition CreateDescriptor_BufferView bufferViewDesc backendResult descriptorImpl
    (bufferView : Ptr) :=
  drun_out (CreateDescriptor_BufferView_body bufferViewDesc backendResult descriptorImpl
              bufferView) bufferView.

(** [CreateDescriptor(const Texture1DViewDesc&, Descriptor*&)]; the sums
    are computed in [int], as for 2D views. *)
Definition CreateDescriptor_Texture1DView_body (textureViewDesc : Texture1DViewDesc)
    (backendResult : Result) (descriptorImpl : handle) (textureView : Ptr)
    : DM Result (Result * Ptr) :=
  RETURN_ON_FAILURE (bool_decide (t1_texture textureViewDesc ≠ None)) INVALID_ARGUMENT
    "'textureViewDesc.texture' is NULL" [] ;;=
  RETURN_ON_FAILURE (t1_viewType textureViewDesc <? Texture1DViewType_MAX_NUM E)
    INVALID_ARGUMENT "'textureViewDesc.viewType' is invalid" [] ;;=
  RETURN_ON_FAILURE ((Format_UNKNOWN K <? t1_format textureViewDesc)
                     && (t1_format textureViewDesc <? Format_MAX_NUM K))
    INVALID_ARGUMENT "'textureViewDesc.format' is invalid" [] ;;=
  t <== deref as_texture (t1_texture textureViewDesc) ;;
  let textureDesc := texture_desc (snd t) in
  RETURN_ON_FAILURE (t1_mipOffset textureViewDesc <? td_mipNum textureDesc)
    INVALID_ARGUMENT "'textureViewDesc.mipOffset' is invalid (textureViewDesc.mipOffset=%hu, textureDesc.mipNum=%hu)"
    [t1_mipOffset textureViewDesc; td_mipNum textureDesc] ;;=
  RETURN_ON_FAILURE (t1_mipOffset textureViewDesc + t1_mipNum textureViewDesc
                     <=? td_mipNum textureDesc)
    INVALID_ARGUMENT "'textureViewDesc.mipNum' is invalid (textureViewDesc.mipOffset=%hu, textureViewDesc.mipNum=%hu, textureDesc.mipNum=%hu)"
    [t1_mipOffset textureViewDesc; t1_mipNum textureViewDesc; td_mipNum textureDesc] ;;=
  RETURN_ON_FAILURE (t1_layerOffset textureViewDesc <? td_layerNum textureDesc)
    INVALID_ARGUMENT "'textureViewDesc.layerOffset' is invalid (textureViewDesc.layerOffset=%hu, textureDesc.layerNum=%hu)"
    [t1_layerOffset textureViewDesc; td_layerNum textureDesc] ;;=
  RETURN_ON_FAILURE (t1_layerOffset textureViewDesc + t1_layerNum textureViewDesc
                     <=? td_layerNum textureDesc)
    INVALID_ARGUMENT "'textureViewDesc.layerNum' is invalid (textureViewDesc.layerOffset=%hu, textureViewDesc.layerNum=%hu, textureDesc.layerNum=%hu)"
    [t1_layerOffset textureViewDesc; t1_layerNum textureViewDesc; td_layerNum textureDesc] ;;=
  result <== device_backend (Core_CreateTexture1DView (texture_impl (snd t)) textureViewDesc)
                            backendResult ;;
  if decide (result = SUCCESS) then
    a <== Allocate (PDescriptor {| descriptor_impl := descriptorImpl |}) ;;
    dret (result, Some a)
  else dret (result, textureView).

Definition CreateDescriptor_Texture1DView textureViewDesc backendResult descriptorImpl
    (textureView : Ptr) :=
  drun_out (CreateDescriptor_Texture1DView_body textureViewDesc backendResult
              descriptorImpl textureView) textureView.

(** [CreateDescriptor(const Texture3DViewDesc&, Descriptor*&)]: the slices
    of the view are checked against the depth of the texture. *)
Definition CreateDescriptor_Texture3DView_body (textureViewDesc : Texture3DViewDesc)
    (backendResult : Result) (descriptorImpl : handle) (textureView : Ptr)
    : DM Result (Result * Ptr) :=
  RETURN_ON_FAILURE (bool_decide (t3_texture textureViewDesc ≠ None)) INVALID_ARGUMENT
    "'textureViewDesc.texture' is NULL" [] ;;=
  RETURN_ON_FAILURE (t3_viewType textureViewDesc <? Texture3DViewType_MAX_NUM E)
    INVALID_ARGUMENT "'textureViewDesc.viewType' is invalid" [] ;;=
  RETURN_ON_FAILURE ((Format_UNKNOWN K <? t3_format textureViewDesc)
                     && (t3_format textureViewDesc <? Format_MAX_NUM K))
    INVALID_ARGUMENT "'textureViewDesc.format' is invalid" [] ;;=
  t <== deref as_texture (t3_texture textureViewDesc) ;;
  let textureDesc := texture_desc (snd t) in
  RETURN_ON_FAILURE (t3_mipOffset textureViewDesc <? td_mipNum textureDesc)
    INVALID_ARGUMENT "'textureViewDesc.mipOffset' is invalid. (textureViewDesc.mipOffset=%hu, textureViewDesc.mipOffset=%hu)"
    [t3_mipOffset textureViewDesc; td_mipNum textureDesc] ;;=
  RETURN_ON_FAILURE (t3_mipOffset textureViewDesc + t3_mipNum textureViewDesc
                     <=? td_mipNum textureDesc)
    INVALID_ARGUMENT "'textureViewDesc.mipNum' is invalid. (textureViewDesc.mipOffset=%hu, textureViewDesc.mipNum=%hu, textureDesc.mipNum=%hu)"
    [t3_mipOffset textureViewDesc; t3_mipNum textureViewDesc; td_mipNum textureDesc] ;;=
  RETURN_ON_FAILURE (t3_sliceOffset textureViewDesc <? td_depth textureDesc)
    INVALID_ARGUMENT "'textureViewDesc.layerOffset' is invalid. (textureViewDesc.sliceOffset=%hu, textureDesc.depth=%hu)"
    [t3_sliceOffset textureViewDesc; td_depth textureDesc] ;;=
  RETURN_ON_FAILURE (t3_sliceOffset textureViewDesc + t3_sliceNum textureViewDesc
                     <=? td_depth textureDesc)
    INVALID_ARGUMENT "'textureViewDesc.layerNum' is invalid. (textureViewDesc.sliceOffset=%hu, textureViewDesc.sliceNum=%hu, textureDesc.depth=%hu)"
    [t3_sliceOffset textureViewDesc; t3_sliceNum textureViewDesc; td_depth textureDesc] ;;=
  result <== device_backend (Core_CreateTexture3DView (texture_impl (snd t)) textureViewDesc)
                            backendResult ;;
  if decide (result = SUCCESS) then
    a <== Allocate (PDescriptor {| descriptor_impl := descriptorImpl |}) ;;
    dret (result, Some a)
  else dret (result, textureView).

Definition CreateDescriptor_Texture3DView textureViewDesc backendResult descriptorImpl
    (textureView : Ptr) :=
  drun_out (CreateDescriptor_Texture3DView_body textureViewDesc backendResult
              descriptorImpl textureView) textureView.

(** [CreateDescriptor(const SamplerDesc&, Descriptor*&)] *)
Definition CreateDescriptor_Sampler_body (samplerDesc : SamplerDesc)
    (backendResult : Result) (samplerImpl : handle) (sampler : Ptr)
    : DM Result (Result * Ptr) :=
  RETURN_ON_FAILURE (sd_filters_mag samplerDesc <? Filter_MAX_NUM E) INVALID_ARGUMENT
    "'samplerDesc.filters.mag' is invalid" [] ;;=
  RETURN_ON_FAILURE (sd_filters_min samplerDesc <? Filter_MAX_NUM E) INVALID_ARGUMENT
    "'samplerDesc.filters.min' is invalid" [] ;;=
  RETURN_ON_FAILURE (sd_filters_mip samplerDesc <? Filter_MAX_NUM E) INVALID_ARGUMENT
    "'samplerDesc.filters.mip' is invalid" [] ;;=
  RETURN_ON_FAILURE (sd_filters_ext samplerDesc <? FilterExt_MAX_NUM E) INVALID_ARGUMENT
    "'samplerDesc.filters.ext' is invalid" [] ;;=
  RETURN_ON_FAILURE (sd_addressModes_u samplerDesc <? AddressMode_MAX_NUM E)
    INVALID_ARGUMENT "'samplerDesc.addressModes.u' is invalid" [] ;;=
  RETURN_ON_FAILURE (sd_addressModes_v samplerDesc <? AddressMode_MAX_NUM E)
    INVALID_ARGUMENT "'samplerDesc.addressModes.v' is invalid" [] ;;=
  RETURN_ON_FAILURE (sd_addressModes_w samplerDesc <? AddressMode_MAX_NUM E)
    INVALID_ARGUMENT "'samplerDesc.addressModes.w' is invalid" [] ;;=
  RETURN_ON_FAILURE (sd_compareFunc samplerDesc <? CompareFunc_MAX_NUM E)
    INVALID_ARGUMENT "'samplerDesc.compareFunc' is invalid" [] ;;=
  RETURN_ON_FAILURE (sd_borderColor samplerDesc <? BorderColor_MAX_NUM E)
    INVALID_ARGUMENT "'samplerDesc.borderColor' is invalid" [] ;;=
  (if negb isTextureFilterMinMaxSupported then
     lift (RETURN_ON_FAILURE (sd_filters_ext samplerDesc =? FilterExt_NONE E)
             INVALID_ARGUMENT "'isTextureFilterMinMaxSupported' is unsupported" [])
   else dret tt) ;;=
  result <== device_backend (Core_CreateSampler samplerDesc) backendResult ;;
  if decide (result = SUCCESS) then
    a <== Allocate (PDescriptor {| descriptor_impl := samplerImpl |}) ;;
    dret (result, Some a)
  else dret (result, sampler).

Definition CreateDescriptor_Sampler samplerDesc backendResult samplerImpl (sampler : Ptr) :=
  drun_out (CreateDescriptor_Sampler_body samplerDesc backendResult samplerImpl sampler)
           sampler.

(** *** Compute and ray-tracing pipelines *)

Definition CreatePipeline_Compute_body (computePipelineDesc : ComputePipelineDesc)
    (backendResult : Result) (pipelineImpl : handle) (pipeline : Ptr)
    : DM Result (Result * Ptr) :=
  RETURN_ON_FAILURE (bool_decide (cp_pipelineLayout computePipelineDesc ≠ None))
    INVALID_ARGUMENT "'computePipelineDesc.pipelineLayout' is NULL" [] ;;=
  RETURN_ON_FAILURE (negb (sh_size (cp_shader computePipelineDesc) =? 0))
    INVALID_ARGUMENT "'computePipelineDesc.shader.size' is 0" [] ;;=
  RETURN_ON_FAILURE (bool_decide (sh_bytecode (cp_shader computePipelineDesc) ≠ None))
    INVALID_ARGUMENT "'computePipelineDesc.shader.bytecode' is NULL" [] ;;=
  RETURN_ON_FAILURE (sh_stage (cp_shader computePipelineDesc) =? COMPUTE_SHADER K)
    INVALID_ARGUMENT "'computePipelineDesc.shader.stage' must be 'StageBits::COMPUTE_SHADER'" [] ;;=
  l <== deref as_pipelineLayout (cp_pipelineLayout computePipelineDesc) ;;
  result <== device_backend (Core_CreateComputePipeline (layout_impl (snd l))
                                                        computePipelineDesc)
                            backendResult ;;
  if decide (result = SUCCESS) then
    a <== Allocate (PPipeline {| pipeline_impl := pipelineImpl |}) ;;
    dret (result, Some a)
  else dret (result, pipeline).

Definition CreatePipeline_Compute computePipelineDesc backendResult pipelineImpl
    (pipeline : Ptr) :=
  drun_out (CreatePipeline_Compute_body computePipelineDesc backendResult pipelineImpl
              pipeline) pipeline.

(** The body of the shader loop of [CreatePipeline(RayTracingPipelineDesc)]:
    the loop state is [uniqueShaderStages]. *)
Definition RayTracingPipeline_shader_checks (i : N) (shaderDesc : ShaderDesc)
    (uniqueShaderStages : N) : M Result N :=
  RETURN_ON_FAILURE (bool_decide (sh_bytecode shaderDesc ≠ None))
    INVALID_ARGUMENT "'pipelineDesc.shaderLibrary->shaders[%u].bytecode' is invalid" [i] ;;;
  RETURN_ON_FAILURE (negb (sh_size shaderDesc =? 0))
    INVALID_ARGUMENT "'pipelineDesc.shaderLibrary->shaders[%u].size' is 0" [i] ;;;
  let valid := IsShaderStageValid (sh_stage shaderDesc) uniqueShaderStages
                 (RAY_TRACING_SHADERS K) in
  RETURN_ON_FAILURE (fst valid)
    INVALID_ARGUMENT "'pipelineDesc.shaderLibrary->shaders[%u].stage' must include only 1 ray tracing shader stage, unique for the entire pipeline" [i] ;;;
  ret (snd valid).

(** The loop over [shaderLibrary->shaders]: an array that is null is read
    as soon as [shaderNum] is not zero. *)
Definition RayTracingPipeline_stage_checks (shaders : carray ShaderDesc) : M Result N :=
  match shaders with
  | Array l => for_loop 0 l 0 RayTracingPipeline_shader_checks
  | NullArray shaderNum => if shaderNum =? 0 then ret 0 else undefined
  end.

Definition CreatePipeline_RayTracing_body (pipelineDesc : RayTracingPipelineDesc)
    (backendResult : Result) (pipelineImpl : handle) (pipeline : Ptr)
    : DM Result (Result * Ptr) :=
  RETURN_ON_FAILURE (bool_decide (rp_pipelineLayout pipelineDesc ≠ None))
    INVALID_ARGUMENT "'pipelineDesc.pipelineLayout' is NULL" [] ;;=
  RETURN_ON_FAILURE (bool_decide (rp_shaderLibrary pipelineDesc ≠ None))
    INVALID_ARGUMENT "'pipelineDesc.shaderLibrary' is NULL" [] ;;=
  RETURN_ON_FAILURE (negb (is_null (rp_shaderGroupDescs pipelineDesc)))
    INVALID_ARGUMENT "'pipelineDesc.shaderGroupDescs' is NULL" [] ;;=
  RETURN_ON_FAILURE (negb (count (rp_shaderGroupDescs pipelineDesc) =? 0))
    INVALID_ARGUMENT "'pipelineDesc.shaderGroupDescNum' is 0" [] ;;=
  RETURN_ON_FAILURE (negb (rp_recursionDepthMax pipelineDesc =? 0))
    INVALID_ARGUMENT "'pipelineDesc.recursionDepthMax' is 0" [] ;;=
  shaderLibrary <== project (rp_shaderLibrary pipelineDesc) ;;
  RayTracingPipeline_stage_checks (sl_shaders shaderLibrary) ;;=
  l <== deref as_pipelineLayout (rp_pipelineLayout pipelineDesc) ;;
  result <== device_backend (RayTracing_CreateRayTracingPipeline (layout_impl (snd l))
                                                                 pipelineDesc)
                            backendResult ;;
  if decide (result = SUCCESS) then
    a <== Allocate (PPipeline {| pipeline_impl := pipelineImpl |}) ;;
    dret (result, Some a)
  else dret (result, pipeline).

Definition CreatePipeline_RayTracing pipelineDesc backendResult pipelineImpl
    (pipeline : Ptr) :=
  drun_out (CreatePipeline_RayTracing_body pipelineDesc backendResult pipelineImpl
              pipeline) pipeline.

(** *** Wrappers of native objects

    The proxy of a wrapped buffer or texture is made by the constructor
    that the other creation functions use, with the bound flag set; the
    descriptor that it then answers with is the one the backend has for the
    wrapped object, an argument here. *)

Definition CreateBuffer_VK_body (bufferDesc : BufferVKDesc)
    (backendResult : Result) (bufferImpl : handle) (backendDesc : BufferDesc)
    (buffer : Ptr) : DM Result (Result * Ptr) :=
  RETURN_ON_FAILURE (negb (bvk_vkBuffer bufferDesc =? 0)) INVALID_ARGUMENT
    "'bufferDesc.vkBuffer' is NULL" [] ;;=
  RETURN_ON_FAILURE (0 <? bvk_size bufferDesc) INVALID_ARGUMENT
    "'bufferDesc.bufferSize' is 0" [] ;;=
  result <== device_backend (WrapperVK_CreateBufferVK bufferDesc) backendResult ;;
  if decide (result = SUCCESS) then
    a <== Allocate (PBuffer {| buffer_impl := bufferImpl; buffer_isBoundToMemory := true;
                               buffer_desc := backendDesc |}) ;;
    dret (result, Some a)
  else dret (result, buffer).

Definition CreateBuffer_VK bufferDesc backendResult bufferImpl backendDesc (buffer : Ptr) :=
  drun_out (CreateBuffer_VK_body bufferDesc backendResult bufferImpl backendDesc buffer)
           buffer.

Definition CreateTexture_VK_body (textureVKDesc : TextureVKDesc)
    (backendResult : Result) (textureImpl : handle) (backendDesc : TextureDesc)
    (texture : Ptr) : DM Result (Result * Ptr) :=
  RETURN_ON_FAILURE (negb (tvk_vkImage textureVKDesc =? 0)) INVALID_ARGUMENT
    "'textureVKDesc.vkImage' is NULL" [] ;;=
  RETURN_ON_FAILURE (negb (nriConvertVKFormatToNRI (tvk_vkFormat textureVKDesc)
                           =? Format_UNKNOWN K))
    INVALID_ARGUMENT "'textureVKDesc.sampleNum' is 0" [] ;;=
  RETURN_ON_FAILURE (0 <? tvk_sampleNum textureVKDesc) INVALID_ARGUMENT
    "'textureVKDesc.sampleNum' is 0" [] ;;=
  RETURN_ON_FAILURE (0 <? tvk_layerNum textureVKDesc) INVALID_ARGUMENT
    "'textureVKDesc.layerNum' is 0" [] ;;=
  RETURN_ON_FAILURE (0 <? tvk_mipNum textureVKDesc) INVALID_ARGUMENT
    "'textureVKDesc.mipNum' is 0" [] ;;=
  result <== device_backend (WrapperVK_CreateTextureVK textureVKDesc) backendResult ;;
  if decide (result = SUCCESS) then
    a <== Allocate (PTexture {| texture_impl := textureImpl;
                                texture_isBoundToMemory := true;
                                texture_desc := backendDesc |}) ;;
    dret (result, Some a)
  else dret (result, texture).

Definition CreateTexture_VK textureVKDesc backendResult textureImpl backendDesc
    (texture : Ptr) :=
  drun_out (CreateTexture_VK_body textureVKDesc backendResult textureImpl backendDesc
              texture) texture.

Definition CreateMemory_VK_body (memoryVKDesc : MemoryVKDesc)
    (backendResult : Result) (memoryImpl : handle) (memory : Ptr)
    : DM Result (Result * Ptr) :=
  RETURN_ON_FAILURE (negb (mvk_vkDeviceMemory memoryVKDesc =? 0)) INVALID_ARGUMENT
    "'memoryVKDesc.vkDeviceMemory' is NULL" [] ;;=
  RETURN_ON_FAILURE (0 <? mvk_size memoryVKDesc) INVALID_ARGUMENT
    "'memoryVKDesc.size' is 0" [] ;;=
  result <== device_backend (WrapperVK_CreateMemoryVK memoryVKDesc) backendResult ;;
  if decide (result = SUCCESS) then
    a <== Allocate (PMemory {| memory_impl := memoryImpl;
                               memory_size := mvk_size memoryVKDesc;
                               memory_location := MemoryLocation_MAX_NUM K;
                               memory_bound := ∅ |}) ;;
    dret (result, Some a)
  else dret (result, memory).

Definition CreateMemory_VK memoryVKDesc backendResult memoryImpl (memory : Ptr) :=
  drun_out (CreateMemory_VK_body memoryVKDesc backendResult memoryImpl memory) memory.

(** [MemoryDesc memoryDesc = {}] *)
Definition empty_MemoryDesc : MemoryDesc :=
  {| md_size := 0; md_alignment := 0; md_mustBeDedicated := false |}.

Definition CreateAccelerationStructure_VK_body
    (accelerationStructureDesc : AccelerationStructureVKDesc)
    (backendResult : Result) (accelerationStructureImpl : handle)
    (accelerationStructure : Ptr) : DM Result (Result * Ptr) :=
  RETURN_ON_FAILURE (negb (avk_vkAccelerationStructure accelerationStructureDesc =? 0))
    INVALID_ARGUMENT "'accelerationStructureDesc.vkAccelerationStructure' is NULL" [] ;;=
  result <== device_backend
               (WrapperVK_CreateAccelerationStructureVK accelerationStructureDesc)
               backendResult ;;
  if decide (result = SUCCESS) then
    a <== Allocate (PAccelerationStructure
                      {| as_impl := accelerationStructureImpl;
                         as_isBoundToMemory := true;
                         as_memoryDesc := empty_MemoryDesc |}) ;;
    dret (result, Some a)
  else dret (result, accelerationStructure).

Definition CreateAccelerationStructure_VK accelerationStructureDesc backendResult
    accelerationStructureImpl (accelerationStructure : Ptr) :=
  drun_out (CreateAccelerationStructure_VK_body accelerationStructureDesc backendResult
              accelerationStructureImpl accelerationStructure) accelerationStructure.

Definition CreateBuffer_D3D11_body (bufferDesc : BufferD3D11Desc)
    (backendResult : Result) (bufferImpl : handle) (backendDesc : BufferDesc)
    (buffer : Ptr) : DM Result (Result * Ptr) :=
  RETURN_ON_FAILURE (bool_decide (b11_d3d11Resource bufferDesc ≠ None)) INVALID_ARGUMENT
    "'bufferDesc.d3d11Resource' is NULL" [] ;;=
  result <== device_backend (WrapperD3D11_CreateBufferD3D11 bufferDesc) backendResult ;;
  if decide (result = SUCCESS) then
    a <== Allocate (PBuffer {| buffer_impl := bufferImpl; buffer_isBoundToMemory := true;
                               buffer_desc := backendDesc |}) ;;
    dret (result, Some a)
  else dret (result, buffer).

Definition CreateBuffer_D3D11 bufferDesc backendResult bufferImpl backendDesc
    (buffer : Ptr) :=
  drun_out (CreateBuffer_D3D11_body bufferDesc backendResult bufferImpl backendDesc buffer)
           buffer.

Definition CreateTexture_D3D11_body (textureDesc : TextureD3D11Desc)
    (backendResult : Result) (textureImpl : handle) (backendDesc : TextureDesc)
    (texture : Ptr) : DM Result (Result * Ptr) :=
  RETURN_ON_FAILURE (bool_decide (t11_d3d11Resource textureDesc ≠ None)) INVALID_ARGUMENT
    "'textureDesc.d3d11Resource' is NULL" [] ;;=
  result <== device_backend (WrapperD3D11_CreateTextureD3D11 textureDesc) backendResult ;;
  if decide (result = SUCCESS) then
    a <== Allocate (PTexture {| texture_impl := textureImpl;
                                texture_isBoundToMemory := true;
                                texture_desc := backendDesc |}) ;;
    dret (result, Some a)
  else dret (result, texture).

Definition CreateTexture_D3D11 textureDesc backendResult textureImpl backendDesc
    (texture : Ptr) :=
  drun_out (CreateTexture_D3D11_body textureDesc backendResult textureImpl backendDesc
              texture) texture.

Definition CreateBuffer_D3D12_body (bufferDesc : BufferD3D12Desc)
    (backendResult : Result) (bufferImpl : handle) (backendDesc : BufferDesc)
    (buffer : Ptr) : DM Result (Result * Ptr) :=
  RETURN_ON_FAILURE (bool_decide (b12_d3d12Resource bufferDesc ≠ None)) INVALID_ARGUMENT
    "'bufferDesc.d3d12Resource' is NULL" [] ;;=
  result <== device_backend (WrapperD3D12_CreateBufferD3D12 bufferDesc) backendResult ;;
  if decide (result = SUCCESS) then
    a <== Allocate (PBuffer {| buffer_impl := bufferImpl; buffer_isBoundToMemory := true;
                               buffer_desc := backendDesc |}) ;;
    dret (result, Some a)
  else dret (result, buffer).

Definition CreateBuffer_D3D12 bufferDesc backendResult bufferImpl backendDesc
    (buffer : Ptr) :=
  drun_out (CreateBuffer_D3D12_body bufferDesc backendResult bufferImpl backendDesc buffer)
           buffer.

Definition CreateTexture_D3D12_body (textureDesc : TextureD3D12Desc)
    (backendResult : Result) (textureImpl : handle) (backendDesc : TextureDesc)
    (texture : Ptr) : DM Result (Result * Ptr) :=
  RETURN_ON_FAILURE (bool_decide (t12_d3d12Resource textureDesc ≠ None)) INVALID_ARGUMENT
    "'textureDesc.d3d12Resource' is NULL" [] ;;=
  result <== device_backend (WrapperD3D12_CreateTextureD3D12 textureDesc) backendResult ;;
  if decide (result = SUCCESS) then
    a <== Allocate (PTexture {| texture_impl := textureImpl;
                                texture_isBoundToMemory := true;
                                texture_desc := backendDesc |}) ;;
    dret (result, Some a)
  else dret (result, texture).

Definition CreateTexture_D3D12 textureDesc backendResult textureImpl backendDesc
    (texture : Ptr) :=
  drun_out (CreateTexture_D3D12_body textureDesc backendResult textureImpl backendDesc
              texture) texture.

Definition CreateMemory_D3D12_body (memoryDesc : MemoryD3D12Desc)
    (backendResult : Result) (memoryImpl : handle) (memory : Ptr)
    : DM Result (Result * Ptr) :=
  RETURN_ON_FAILURE (bool_decide (m12_d3d12Heap memoryDesc ≠ None)) INVALID_ARGUMENT
    "'memoryDesc.d3d12Heap' is NULL" [] ;;=
  result <== device_backend (WrapperD3D12_CreateMemoryD3D12 memoryDesc) backendResult ;;
  let size := GetMemorySizeD3D12 memoryDesc in
  if decide (result = SUCCESS) then
    a <== Allocate (PMemory {| memory_impl := memoryImpl; memory_size := size;
                               memory_location := MemoryLocation_MAX_NUM K;
                               memory_bound := ∅ |}) ;;
    dret (result, Some a)
  else dret (result, memory).

Definition CreateMemory_D3D12 memoryDesc backendResult memoryImpl (memory : Ptr) :=
  drun_out (CreateMemory_D3D12_body memoryDesc backendResult memoryImpl memory) memory.

Definition CreateAccelerationStructure_D3D12_body
    (accelerationStructureDesc : AccelerationStructureD3D12Desc)
    (backendResult : Result) (accelerationStructureImpl : handle)
    (accelerationStructure : Ptr) : DM Result (Result * Ptr) :=
  RETURN_ON_FAILURE (bool_decide (a12_d3d12Resource accelerationStructureDesc ≠ None))
    INVALID_ARGUMENT "'accelerationStructureDesc.d3d12Resource' is NULL" [] ;;=
  result <== device_backend
               (WrapperD3D12_CreateAccelerationStructureD3D12 accelerationStructureDesc)
               backendResult ;;
  if decide (result = SUCCESS) then
    a <== Allocate (PAccelerationStructure
                      {| as_impl := accelerationStructureImpl;
                         as_isBoundToMemory := true;
                         as_memoryDesc := empty_MemoryDesc |}) ;;
    dret (result, Some a)
  else dret (result, accelerationStructure).

Definition CreateAccelerationStructure_D3D12 accelerationStructureDesc backendResult
    accelerationStructureImpl (accelerationStructure : Ptr) :=
  drun_out (CreateAccelerationStructure_D3D12_body accelerationStructureDesc
              backendResult accelerationStructureImpl accelerationStructure)
           accelerationStructure.

End Surface.

#[local] Close Scope string_scope.

(** ** Vocabulary for the rest of the surface *)

(** A call is refused: it returns [INVALID_ARGUMENT], the handle variable
    is as it was, and one error report is all that was added to the
    device. *)
Definition refused (run : option (Result * Ptr * Device)) (out : Ptr) (d : Device) : Prop :=
  ∃ report,
    run = Some (INVALID_ARGUMENT, out, set_world (log_report report (world d)) d).

(** A call is forwarded: the backend entry point [call] is called, once,
    its answer is the result, and no error is reported. *)
Definition forwarded (run : option (Result * Ptr * Device)) (backendResult : Result)
    (call : DeviceCall) (d : Device) : Prop :=
  ∃ out' d',
    run = Some (backendResult, out', d')
    ∧ device_calls d' = device_calls d ++ [call]
    ∧ reports (world d') = reports (world d).

(** A 1D view that nests in a texture: its mips are mips of the texture
    and its layers are layers of the texture. *)
Definition view1D_ok (K : Constants) (E : Enums) (textureDesc : TextureDesc)
    (v : Texture1DViewDesc) : Prop :=
  t1_viewType v < Texture1DViewType_MAX_NUM E
  ∧ Format_UNKNOWN K < t1_format v < Format_MAX_NUM K
  ∧ t1_mipOffset v < td_mipNum textureDesc
  ∧ t1_mipOffset v + t1_mipNum v ≤ td_mipNum textureDesc
  ∧ t1_layerOffset v < td_layerNum textureDesc
  ∧ t1_layerOffset v + t1_layerNum v ≤ td_layerNum textureDesc.

(** A 3D view that nests in a texture: its mips are mips of the texture
    and its slices lie within the depth of the texture. *)
Definition view3D_ok (K : Constants) (E : Enums) (textureDesc : TextureDesc)
    (v : Texture3DViewDesc) : Prop :=
  t3_viewType v < Texture3DViewType_MAX_NUM E
  ∧ Format_UNKNOWN K < t3_format v < Format_MAX_NUM K
  ∧ t3_mipOffset v < td_mipNum textureDesc
  ∧ t3_mipOffset v + t3_mipNum v ≤ td_mipNum textureDesc
  ∧ t3_sliceOffset v < td_depth textureDesc
  ∧ t3_sliceOffset v + t3_sliceNum v ≤ td_depth textureDesc.

(** A sampler descriptor within the enumerations, with no min/max filter
    on a device that does not support it. *)
Definition sampler_ok (E : Enums) (isTextureFilterMinMaxSupported : bool)
    (s : SamplerDesc) : Prop :=
  sd_filters_mag s < Filter_MAX_NUM E
  ∧ sd_filters_min s < Filter_MAX_NUM E
  ∧ sd_filters_mip s < Filter_MAX_NUM E
  ∧ sd_filters_ext s < FilterExt_MAX_NUM E
  ∧ sd_addressModes_u s < AddressMode_MAX_NUM E
  ∧ sd_addressModes_v s < AddressMode_MAX_NUM E
  ∧ sd_addressModes_w s < AddressMode_MAX_NUM E
  ∧ sd_compareFunc s < CompareFunc_MAX_NUM E
  ∧ sd_borderColor s < BorderColor_MAX_NUM E
  ∧ (isTextureFilterMinMaxSupported = false → sd_filters_ext s = FilterExt_NONE E).

(** The shader of a compute pipeline that is let through. *)
Definition compute_shader_ok (K : Constants) (s : ShaderDesc) : Prop :=
  sh_size s ≠ 0 ∧ sh_bytecode s ≠ None ∧ sh_stage s = COMPUTE_SHADER K.

(** A texture of the examples as a 3D texture of depth 4, and views of
    it. *)
Definition example_texture3D : TextureVal :=
  {| texture_impl := 120; texture_isBoundToMemory := false;
     texture_desc := {| td_format := 1; td_width := 8; td_height := 8; td_depth := 4;
                        td_mipNum := 4; td_layerNum := 1; td_sampleNum := 1 |} |}.

Definition example_device3D : Device :=
  device_of (set_heap (insert 20 (PTexture example_texture3D)) example_world).

Definition example_view3D (sliceOffset sliceNum : N) : Texture3DViewDesc :=
  {| t3_texture := Some 20; t3_viewType := 0; t3_format := 1; t3_mipOffset := 0;
     t3_mipNum := 1; t3_sliceOffset := sliceOffset; t3_sliceNum := sliceNum |}.

Definition example_sampler (ext : N) : SamplerDesc :=
  {| sd_filters_min := 1; sd_filters_mag := 1; sd_filters_mip := 0; sd_filters_ext := ext;
     sd_addressModes_u := 0; sd_addressModes_v := 0; sd_addressModes_w := 0;
     sd_compareFunc := 0; sd_borderColor := 0 |}.

(** The shaders of a ray-tracing pipeline that is let through: every
    shader has bytecode of a size that is not zero and exactly one stage of
    the ray-tracing family, and no two shaders have a stage in common, of
    any family, among the 32 bits of the stage mask the source keeps. *)
Definition rt_shaders_ok (K : Constants) (shaders : list ShaderDesc) : Prop :=
  (∀ s, s ∈ shaders →
        sh_bytecode s ≠ None ∧ sh_size s ≠ 0
        ∧ popcount (N.land (sh_stage s) (RAY_TRACING_SHADERS K)) = 1)
  ∧ (∀ i j si sj,
       (i < j)%nat → shaders !! i = Some si → shaders !! j = Some sj →
       N.land (u32 (sh_stage si)) (u32 (sh_stage sj)) = 0).

(** The same with the stages seen so far, as the loop computes it. *)
Fixpoint rt_shaders_pass (K : Constants) (unique : N) (shaders : list ShaderDesc) : Prop :=
  match shaders with
  | [] => True
  | s :: rest =>
      sh_bytecode s ≠ None ∧ sh_size s ≠ 0
      ∧ popcount (N.land (sh_stage s) (RAY_TRACING_SHADERS K)) = 1
      ∧ N.land unique (u32 (sh_stage s)) = 0
      ∧ rt_shaders_pass K (N.lor unique (u32 (sh_stage s))) rest
  end.

(** A ray-tracing pipeline for the examples, with the layout at address 8
    of the example world and one shader group. *)
Definition example_rayTracingDesc (stages : list N) : RayTracingPipelineDesc :=
  {| rp_pipelineLayout := Some 8;
     rp_shaderLibrary := Some {| sl_shaders := Array (example_shader <$> stages) |};
     rp_shaderGroupDescs := Array [ {| sg_shaderIndices := [1; 0; 0] |} ];
     rp_recursionDepthMax := 1 |}.

(** The function tables without which [Create] fails, in the order in
    which it asks for them, and the optional ones. *)
Definition mandatory_interfaces : list Interface :=
  [CoreInterface; HelperInterface; StreamerInterface; ResourceAllocatorInterface].

Definition optional_interfaces : list Interface :=
  [LowLatencyInterface; MeshShaderInterface; RayTracingInterface; SwapChainInterface;
   WrapperD3D11Interface; WrapperD3D12Interface; WrapperVKInterface].

(** The capability flags for the answers of the backend. *)
Definition capabilities_of (tables : Interface → Result) : Capabilities :=
  {| m_IsLowLatencySupported := bool_decide (tables LowLatencyInterface = SUCCESS);
     m_IsMeshShaderSupported := bool_decide (tables MeshShaderInterface = SUCCESS);
     m_IsRayTracingSupported := bool_decide (tables RayTracingInterface = SUCCESS);
     m_IsSwapChainSupported := bool_decide (tables SwapChainInterface = SUCCESS);
     m_IsWrapperD3D11Supported := bool_decide (tables WrapperD3D11Interface = SUCCESS);
     m_IsWrapperD3D12Supported := bool_decide (tables WrapperD3D12Interface = SUCCESS);
     m_IsWrapperVKSupported := bool_decide (tables WrapperVKInterface = SUCCESS) |}.

(** A backend for the examples: it has every table but those of the mesh
    shaders and of the D3D wrappers, or every table but the streamer. *)
Definition example_tables (streamer : Result) (i : Interface) : Result :=
  match i with
  | StreamerInterface => streamer
  | MeshShaderInterface | WrapperD3D11Interface | WrapperD3D12Interface => FAILURE
  | _ => SUCCESS
  end.

(** ** Refusing, forwarding and making proxies, on the device *)

(** A computation on the device that only checks: it goes on in the
    device it was given, or returns a value that [E] allows with one error
    report added. *)
Definition dchecks_only {R A} (E : R → Prop) (m : DM R A) : Prop :=
  ∀ d, match m d with
       | DUndefined => True
       | DReturned r d' =>
           E r ∧ ∃ report, d' = set_world (log_report report (world d)) d
       | DNormal _ d' => d' = d
       end.



(** What the body of a creation function has done when it yields
    [SUCCESS]: one proxy that [P] describes has been made in the heap at
    the next free address, the new value of the handle variable, and the
    other proxies of the heap and the objects are as they were. *)
Definition dmakes (P : Proxy → Prop) (m : DM Result (Result * Ptr)) : Prop :=
  ∀ d, match m d with
       | DUndefined => True
       | DReturned r _ => r ≠ SUCCESS
       | DNormal (r, out') d' =>
           r = SUCCESS →
           out' = Some (next (world d))
           ∧ objects d' = objects d
           ∧ ∃ p, P p ∧ heap (world d') = <[next (world d) := p]> (heap (world d))
       end.

(** The same for a proxy made among the objects. *)
Definition dmakes_object (P : Object → Prop) (m : DM Result (Result * Ptr)) : Prop :=
  ∀ d, match m d with
       | DUndefined => True
       | DReturned r _ => r ≠ SUCCESS
       | DNormal (r, out') d' =>
           r = SUCCESS →
           out' = Some (next (world d))
           ∧ heap (world d') = heap (world d)
           ∧ ∃ o, P o ∧ objects d' = <[next (world d) := o]> (objects d)
       end.

(** ** Wrapped objects *)

(** A resource that no bind accepts in a world: every batch that names it
    is refused, with no proxy changed. *)
Definition never_bindable
    (Bind : carray MemoryBindingDesc → Result → World → option (Result * World))
    (resource : addr) (w : World) : Prop :=
  ∀ descs backendResult result w' d,
    d ∈ elems_of descs → mb_resource d = Some resource →
    Bind descs backendResult w = Some (result, w') →
    result = INVALID_ARGUMENT ∧ heap w' = heap w.

(** A wrapper of a native buffer, texture or acceleration structure makes
    a resource whose bound flag is set, which no bind accepts. *)
Definition wraps_bound
    (Bind : carray MemoryBindingDesc → Result → World → option (Result * World))
    (create : Ptr → Device → option (Result * Ptr * Device)) : Prop :=
  ∀ out d out' d',
    create out d = Some (SUCCESS, out', d') →
    ∃ a, out' = Some a
         ∧ bound_flag (heap (world d')) a = Some true
         ∧ never_bindable Bind a (world d').

(** An entry of a batched bind passes the validation without a question to
    the backend, appending its translation to the array for the backend. *)
Definition passes_unasked
    (entry : N → MemoryBindingDesc → list MemoryBindingImplDesc
             → M Result (list MemoryBindingImplDesc))
    (d : MemoryBindingDesc) (w : World) : Prop :=
  ∀ i impl, ∃ dest, entry i d impl w = Normal (impl ++ [dest]) w
                    ∧ mbi_offset dest = mb_offset d.

(** A wrapper of a native memory makes a Memory of the given size whose
    location is the sentinel [MemoryLocation::MAX_NUM], with nothing bound:
    a buffer or texture that is not bound passes the validation of a bind to
    it at any offset, and the backend is not asked for a requirement. *)
Definition wraps_memory (K : Constants)
    (Backend_GetBufferMemoryDesc : BufferDesc → N → MemoryDesc)
    (Backend_GetTextureMemoryDesc : TextureDesc → N → MemoryDesc)
    (impl : handle) (size : N)
    (create : Ptr → Device → option (Result * Ptr * Device)) : Prop :=
  ∀ out d out' d',
    create out d = Some (SUCCESS, out', d') →
    ∃ a, out' = Some a
         ∧ heap (world d') !! a
           = Some (new_memory impl size (MemoryLocation_MAX_NUM K))
         ∧ ∀ resource offset,
             bound_flag (heap (world d')) resource = Some false →
             let entry := {| mb_memory := Some a; mb_resource := Some resource;
                             mb_offset := offset |} in
             (is_Some (as_buffer (heap (world d') !! resource)) →
              passes_unasked (BindBufferMemory_entry K Backend_GetBufferMemoryDesc)
                             entry (world d'))
             ∧ (is_Some (as_texture (heap (world d') !! resource)) →
                passes_unasked (BindTextureMemory_entry K Backend_GetTextureMemoryDesc)
                               entry (world d')).

(** Every proxy of the device, in the heap or among the objects, lies below
    the next address. *)
Definition dfresh (d : Device) : Prop :=
  fresh (world d) ∧ ∀ a, is_Some (objects d !! a) → a < next (world d).

(** A function on the world as a function on the device. *)
Definition on_world {A} (f : World → option (A * World)) (d : Device)
    : option (A * Device) :=
  match f (world d) with
  | Some (x, w) => Some (x, set_world w d)
  | None => None
  end.

(** A creation function and a destruction function undo each other on the
    device: after [create] has returned [SUCCESS], [destroy] on the new
    handle is defined, [called] says which entry point of the backend it
    called, and the proxies of the heap and the objects are as they were
    before the creation. *)
Definition dround_trip (create : Ptr → Device → option (Result * Ptr * Device))
    (destroy : addr → Device → option (unit * Device))
    (called : Device → Device → Prop) : Prop :=
  ∀ out d out' d1,
    dfresh d →
    create out d = Some (SUCCESS, out', d1) →
    ∃ a d2, out' = Some a
            ∧ destroy a d1 = Some (tt, d2)
            ∧ heap (world d2) = heap (world d) ∧ objects d2 = objects d
            ∧ called d1 d2.

(** The call of the device-level or world-level entry point that a
    destruction makes. *)
Definition called_device (c : DeviceCall) (d1 d2 : Device) : Prop :=
  device_calls d2 = device_calls d1 ++ [c] ∧ calls (world d2) = calls (world d1).

Definition called_world (c : BackendCall) (d1 d2 : Device) : Prop :=
  calls (world d2) = calls (world d1) ++ [c] ∧ device_calls d2 = device_calls d1.

(** ** The whole surface as a transition system *)

(** One call of the public surface with the answers of the backend: a call
    of the first part, on the world, or one of the rest of the surface. *)
Inductive DOp : Type :=
| DOpWorld (op : Op)
| DOpCreate (tables : Interface → Result)
| DOpCreateSwapChain (d : SwapChainDesc) (r : Result) (impl : handle) (out : Ptr)
| DOpDestroySwapChain (swapChain : addr)
| DOpGetCommandQueue (commandQueueType : N) (r : Result) (impl : handle) (out : Ptr)
| DOpCreateCommandAllocator (commandQueue : addr) (r : Result) (impl : handle) (out : Ptr)
| DOpCreateDescriptorPool (d : DescriptorPoolDesc) (r : Result) (impl : handle) (out : Ptr)
| DOpCreateQueryPool (d : QueryPoolDesc) (r : Result) (impl : handle) (out : Ptr)
| DOpCreateFence (initialValue : N) (r : Result) (impl : handle) (out : Ptr)
| DOpDestroyCommandAllocator (commandAllocator : addr)
| DOpDestroyDescriptorPool (descriptorPool : addr)
| DOpDestroyPipelineLayout (pipelineLayout : addr)
| DOpDestroyPipeline (pipeline : addr)
| DOpDestroyQueryPool (queryPool : addr)
| DOpDestroyFence (fence : addr)
| DOpCreateDescriptor_BufferView (d : BufferViewDesc) (r : Result) (impl : handle)
    (out : Ptr)
| DOpCreateDescriptor_Texture1DView (d : Texture1DViewDesc) (r : Result) (impl : handle)
    (out : Ptr)
| DOpCreateDescriptor_Texture3DView (d : Texture3DViewDesc) (r : Result) (impl : handle)
    (out : Ptr)
| DOpCreateDescriptor_Sampler (d : SamplerDesc) (r : Result) (impl : handle) (out : Ptr)
| DOpCreatePipeline_Compute (d : ComputePipelineDesc) (r : Result) (impl : handle)
    (out : Ptr)
| DOpCreatePipeline_RayTracing (d : RayTracingPipelineDesc) (r : Result) (impl : handle)
    (out : Ptr)
| DOpCreateBuffer_VK (d : BufferVKDesc) (r : Result) (impl : handle)
    (backendDesc : BufferDesc) (out : Ptr)
| DOpCreateTexture_VK (d : TextureVKDesc) (r : Result) (impl : handle)
    (backendDesc : TextureDesc) (out : Ptr)
| DOpCreateMemory_VK (d : MemoryVKDesc) (r : Result) (impl : handle) (out : Ptr)
| DOpCreateAccelerationStructure_VK (d : AccelerationStructureVKDesc) (r : Result)
    (impl : handle) (out : Ptr)
| DOpCreateBuffer_D3D11 (d : BufferD3D11Desc) (r : Result) (impl : handle)
    (backendDesc : BufferDesc) (out : Ptr)
| DOpCreateTexture_D3D11 (d : TextureD3D11Desc) (r : Result) (impl : handle)
    (backendDesc : TextureDesc) (out : Ptr)
| DOpCreateBuffer_D3D12 (d : BufferD3D12Desc) (r : Result) (impl : handle)
    (backendDesc : BufferDesc) (out : Ptr)
| DOpCreateTexture_D3D12 (d : TextureD3D12Desc) (r : Result) (impl : handle)
    (backendDesc : TextureDesc) (out : Ptr)
| DOpCreateMemory_D3D12 (d : MemoryD3D12Desc) (r : Result) (impl : handle) (out : Ptr)
| DOpCreateAccelerationStructure_D3D12 (d : AccelerationStructureD3D12Desc) (r : Result)
    (impl : handle) (out : Ptr).

Section DeviceOps.

Context (K : Constants) (E : Enums).
Context (isTextureFilterMinMaxSupported : bool).
Context (nriConvertVKFormatToNRI : N → N).
Context (GetMemorySizeD3D12 : MemoryD3D12Desc → N).
Context (Backend_GetBufferMemoryDesc : BufferDesc → N → MemoryDesc).
Context (Backend_GetTextureMemoryDesc : TextureDesc → N → MemoryDesc).

(** A step of the device; a step whose call is undefined does not exist. *)
Definition dexec (op : DOp) (d : Device) : option Device :=
  match op with
  | DOpWorld op =>
      (λ w, set_world w d)
        <$> exec K Backend_GetBufferMemoryDesc Backend_GetTextureMemoryDesc op (world d)
  | DOpCreate tables => snd <$> Create tables d
  | DOpCreateSwapChain x r impl out => snd <$> CreateSwapChain E x r impl out d
  | DOpDestroySwapChain a => snd <$> DestroySwapChain a d
  | DOpGetCommandQueue t r impl out => snd <$> GetCommandQueue E t r impl out d
  | DOpCreateCommandAllocator q r impl out =>
      snd <$> CreateCommandAllocator q r impl out d
  | DOpCreateDescriptorPool x r impl out => snd <$> CreateDescriptorPool x r impl out d
  | DOpCreateQueryPool x r impl out => snd <$> CreateQueryPool E x r impl out d
  | DOpCreateFence x r impl out => snd <$> CreateFence x r impl out d
  | DOpDestroyCommandAllocator a => snd <$> DestroyCommandAllocator a d
  | DOpDestroyDescriptorPool a => snd <$> DestroyDescriptorPool a d
  | DOpDestroyPipelineLayout a => snd <$> DestroyPipelineLayout a d
  | DOpDestroyPipeline a => snd <$> DestroyPipeline a d
  | DOpDestroyQueryPool a => snd <$> DestroyQueryPool a d
  | DOpDestroyFence a => snd <$> DestroyFence a d
  | DOpCreateDescriptor_BufferView x r impl out =>
      snd <$> CreateDescriptor_BufferView K E x r impl out d
  | DOpCreateDescriptor_Texture1DView x r impl out =>
      snd <$> CreateDescriptor_Texture1DView K E x r impl out d
  | DOpCreateDescriptor_Texture3DView x r impl out =>
      snd <$> CreateDescriptor_Texture3DView K E x r impl out d
  | DOpCreateDescriptor_Sampler x r impl out =>
      snd <$> CreateDescriptor_Sampler E isTextureFilterMinMaxSupported x r impl out d
  | DOpCreatePipeline_Compute x r impl out =>
      snd <$> CreatePipeline_Compute K x r impl out d
  | DOpCreatePipeline_RayTracing x r impl out =>
      snd <$> CreatePipeline_RayTracing K x r impl out d
  | DOpCreateBuffer_VK x r impl desc out => snd <$> CreateBuffer_VK x r impl desc out d
  | DOpCreateTexture_VK x r impl desc out =>
      snd <$> CreateTexture_VK K nriConvertVKFormatToNRI x r impl desc out d
  | DOpCreateMemory_VK x r impl out => snd <$> CreateMemory_VK K x r impl out d
  | DOpCreateAccelerationStructure_VK x r impl out =>
      snd <$> CreateAccelerationStructure_VK x r impl out d
  | DOpCreateBuffer_D3D11 x r impl desc out =>
      snd <$> CreateBuffer_D3D11 x r impl desc out d
  | DOpCreateTexture_D3D11 x r impl desc out =>
      snd <$> CreateTexture_D3D11 x r impl desc out d
  | DOpCreateBuffer_D3D12 x r impl desc out =>
      snd <$> CreateBuffer_D3D12 x r impl desc out d
  | DOpCreateTexture_D3D12 x r impl desc out =>
      snd <$> CreateTexture_D3D12 x r impl desc out d
  | DOpCreateMemory_D3D12 x r impl out =>
      snd <$> CreateMemory_D3D12 K GetMemorySizeD3D12 x r impl out d
  | DOpCreateAccelerationStructure_D3D12 x r impl out =>
      snd <$> CreateAccelerationStructure_D3D12 x r impl out d
  end.

Fixpoint dexec_all (ops : list DOp) (d : Device) : option Device :=
  match ops with
  | [] => Some d
  | op :: ops' =>
      match dexec op d with
      | Some d' => dexec_all ops' d'
      | None => None
      end
  end.

(** The states the device can be in: from the device around the empty
    world by defined calls. *)
Inductive dreachable : Device → Prop :=
| dreachable_empty : dreachable (device_of empty_world)
| dreachable_step d op d' : dreachable d → dexec op d = Some d' → dreachable d'.

End DeviceOps.

(** ** The command queues of the device *)

(** Every element of [m_CommandQueues] that is set is the address of a live
    command-queue proxy. *)
Definition queues_live (d : Device) : Prop :=
  ∀ commandQueueType a,
    m_CommandQueues d !! commandQueueType = Some a →
    is_Some (as_commandQueue (objects d !! a)).

(** No two elements of [m_CommandQueues] are the same proxy. *)
Definition queues_distinct (d : Device) : Prop :=
  ∀ type1 type2 a,
    m_CommandQueues d !! type1 = Some a → m_CommandQueues d !! type2 = Some a →
    type1 = type2.

(** What every call keeps. *)
Definition device_sound (d : Device) : Prop :=
  dfresh d ∧ bound_sets_sound (heap (world d)) ∧ queues_live d ∧ queues_distinct d.

(** The next address does not decrease. *)
Definition next_kept (w w' : World) : Prop := next w ≤ next w'.

(** The devices in which a creation function can end, from [d]: refused,
    with one report; forwarded without a new proxy; or forwarded with a new
    proxy in the heap or among the objects, at the next address. *)
Inductive created (d : Device) : Device → Prop :=
| created_refused report : created d (set_world (log_report report (world d)) d)
| created_nothing c : created d (log_device_call c d)
| created_proxy c p :
    (∀ m, p = PMemory m → memory_bound m = ∅) →
    created d
      (set_world (set_next (next (world d) + 1)
                    (set_heap (insert (next (world d)) p) (world d)))
                 (log_device_call c d))
| created_object c o :
    created d
      (set_objects (insert (next (world d)) o)
         (set_world (set_next (next (world d) + 1) (world d)) (log_device_call c d))).

Definition creates {A} (m : DM Result A) : Prop :=
  ∀ d, match m d with
       | DUndefined => True
       | DReturned _ d' => created d d'
       | DNormal _ d' => created d d'
       end.

(** A run on the device: the buffers and the memory of the example of the
    first part; then the queues of two types (one asked for twice), a fence
    that is made and destroyed and a command allocator; then the binds, the
    release and the destruction of the example of the first part. *)
Definition example_device_ops : list DOp :=
  (DOpWorld <$> example_ops)
  ++ [ DOpGetCommandQueue 0 SUCCESS 7 None;
       DOpCreateFence 0 SUCCESS 9 None;
       DOpGetCommandQueue 1 SUCCESS 8 None;
       DOpDestroyFence 5;
       DOpGetCommandQueue 0 SUCCESS 7 None;
       DOpCreateCommandAllocator 4 SUCCESS 10 None ]
  ++ (DOpWorld <$> example_more_ops).

(** * Properties *)

#[local] Ltac Zify.zify_post_hook ::= Z.div_mod_to_equations.

(** ** Equations of the monad *)

Lemma bind_ret {R A B} (a : A) (k : A → M R B) w : bind (ret a) k w = k a w.
Proof. done. Qed.

Lemma bind_bind {R A B C} (m : M R A) (k1 : A → M R B) (k2 : B → M R C) w :
  bind (bind m k1) k2 w = bind m (λ x, bind (k1 x) k2) w.
Proof. unfold bind. by destruct (m w). Qed.

Lemma bind_RETURN_ON_FAILURE {R B} c (r : R) message args (k : unit → M R B) w :
  bind (RETURN_ON_FAILURE c r message args) k w
  = if c then k tt w
    else Returned r (log_report {| report_message := message; report_args := args |} w).
Proof. unfold bind, RETURN_ON_FAILURE. by destruct c. Qed.

Lemma bind_REPORT_ERROR {R B} message args (k : unit → M R B) w :
  bind (REPORT_ERROR message args) k w
  = k tt (log_report {| report_message := message; report_args := args |} w).
Proof. done. Qed.

Lemma bind_backend {R A B} c (answer : A) (k : A → M R B) w :
  bind (backend c answer) k w = k answer (log_call c w).
Proof. done. Qed.

Lemma bind_Allocate {R B} p (k : addr → M R B) w :
  bind (Allocate p) k w
  = k (next w) (set_next (next w + 1) (set_heap (insert (next w) p) w)).
Proof. done. Qed.

Lemma bind_Destroy {R B} a (k : unit → M R B) w :
  bind (Destroy a) k w = k tt (set_heap (delete a) w).
Proof. done. Qed.

Lemma bind_modify_heap {R B} f (k : unit → M R B) w :
  bind (modify_heap f) k w = k tt (set_heap f w).
Proof. done. Qed.

Lemma bind_return_ {R A B} (r : R) (k : A → M R B) w :
  bind (return_ r) k w = Returned r w.
Proof. done. Qed.

Lemma bind_undefined {R A B} (k : A → M R B) w : bind undefined k w = Undefined.
Proof. done. Qed.

Lemma bind_deref {R A B} cast (a : addr) (v : A) (k : addr * A → M R B) w :
  cast (heap w !! a) = Some v → bind (deref cast (Some a)) k w = k (a, v) w.
Proof. intros H. unfold bind, deref. by rewrite H. Qed.

Lemma bind_deref_eq {R A B} cast (p : Ptr) (k : addr * A → M R B) w :
  bind (deref cast p) k w
  = match p with
    | None => Undefined
    | Some a => match cast (heap w !! a) with
                | Some v => k (a, v) w
                | None => Undefined
                end
    end.
Proof. unfold bind, deref. destruct p as [a|]; [|done]. by destruct (cast (heap w !! a)). Qed.

Lemma bind_if {R A B} (c : bool) (m1 m2 : M R A) (k : A → M R B) w :
  bind (if c then m1 else m2) k w = if c then bind m1 k w else bind m2 k w.
Proof. by destruct c. Qed.

Ltac msimpl :=
  repeat first
    [ rewrite bind_bind | rewrite bind_ret | rewrite bind_RETURN_ON_FAILURE
    | rewrite bind_REPORT_ERROR | rewrite bind_backend | rewrite bind_Allocate
    | rewrite bind_Destroy | rewrite bind_modify_heap | rewrite bind_return_
    | rewrite bind_undefined ].

(** Split on the first check of the goal that is still undecided. *)
Ltac check_split :=
  match goal with
  | |- context [if ?c then _ else Returned _ _] => destruct c eqn:?
  end.

(** Unfold a straight-line computation completely, dereferences and
    conditionals included. *)
Ltac mfull :=
  repeat first
    [ rewrite bind_bind | rewrite bind_ret | rewrite bind_RETURN_ON_FAILURE
    | rewrite bind_REPORT_ERROR | rewrite bind_backend | rewrite bind_deref_eq
    | rewrite bind_if | rewrite bind_return_ | rewrite bind_undefined ];
  cbv beta iota delta [ret];
  cbn [heap log_call log_report fst snd].

(** Decide the conditions a goal still branches on, innermost first. *)
Ltac branch_cases :=
  repeat match goal with
         | |- context [match ?p with Some _ => _ | None => _ end] =>
             lazymatch p with
             | context [match _ with _ => _ end] => fail
             | context [if _ then _ else _] => fail
             | _ => destruct p eqn:?
             end
         | |- context [if ?c then _ else _] =>
             lazymatch c with
             | context [match _ with _ => _ end] => fail
             | context [if _ then _ else _] => fail
             | _ => destruct c eqn:?
             end
         end.

Lemma untouched_refl w : untouched w w.
Proof. done. Qed.

Lemma untouched_report w r : untouched w (log_report r w).
Proof. done. Qed.

#[local] Hint Resolve untouched_refl untouched_report : core.

(** ** The mip count of a texture (C9) *)

Lemma halve_dim_max w h d :
  1 < N.max w (N.max h d) →
  N.max (halve_dim w) (N.max (halve_dim h) (halve_dim d)) = N.shiftr (N.max w (N.max h d)) 1.
Proof.
  unfold halve_dim. rewrite !N.shiftr_div_pow2. change (2 ^ 1) with 2.
  intros H.
  destruct (N.ltb_spec 1 w), (N.ltb_spec 1 h), (N.ltb_spec 1 d); lia.
Qed.

Lemma halve_dim_min x : N.min (halve_dim x) 1 = N.min x 1.
Proof.
  unfold halve_dim. rewrite N.shiftr_div_pow2. change (2 ^ 1) with 2.
  destruct (N.ltb_spec 1 x); lia.
Qed.

Lemma GetMaxMipNum_loop_spec fuel : ∀ w h d mipNum,
  N.max w (N.max h d) < 2 ^ N.of_nat fuel →
  GetMaxMipNum_loop fuel w h d mipNum
  = (N.min w 1, N.min h 1, N.min d 1, mipNum + N.log2 (N.max w (N.max h d))).
Proof.
  induction fuel as [|fuel IH]; intros w h d mipNum Hlt.
  - simpl in Hlt. assert (w = 0 ∧ h = 0 ∧ d = 0) as (-> & -> & ->) by lia.
    simpl. f_equal. lia.
  - cbn [GetMaxMipNum_loop].
    destruct ((1 <? w) || (1 <? h) || (1 <? d)) eqn:Hguard.
    + assert (1 < N.max w (N.max h d)) as Hmax.
      { apply orb_true_iff in Hguard as [Hguard|Hd].
        - apply orb_true_iff in Hguard as [Hw|Hh].
          + apply N.ltb_lt in Hw. lia.
          + apply N.ltb_lt in Hh. lia.
        - apply N.ltb_lt in Hd. lia. }
      fold (halve_dim w) (halve_dim h) (halve_dim d).
      rewrite IH.
      * rewrite !halve_dim_min, halve_dim_max by done.
        rewrite N.log2_shiftr. f_equal.
        assert (1 ≤ N.log2 (N.max w (N.max h d))) by (apply N.log2_le_pow2; simpl; lia).
        lia.
      * rewrite halve_dim_max by done. rewrite N.shiftr_div_pow2. change (2 ^ 1) with 2.
        rewrite Nat2N.inj_succ, N.pow_succ_r' in Hlt.
        apply N.Div0.div_lt_upper_bound. lia.
    + apply orb_false_iff in Hguard as [Hguard Hd].
      apply orb_false_iff in Hguard as [Hw Hh].
      apply N.ltb_ge in Hw, Hh, Hd.
      assert (N.log2 (N.max w (N.max h d)) = 0) as ->.
      { destruct (N.max w (N.max h d)) as [|[]] eqn:E; simpl; try done; lia. }
      repeat f_equal; lia.
Qed.

(** The loop of [GetMaxMipNum] has left its guard after 16 iterations: the
    fuel of the model is enough for 16-bit dimensions. *)
Lemma GetMaxMipNum_loop_exits w h d :
  w < 2 ^ 16 → h < 2 ^ 16 → d < 2 ^ 16 →
  let '(w', h', d', _) := GetMaxMipNum_loop 16 w h d 1 in
  (1 <? w') || (1 <? h') || (1 <? d') = false.
Proof.
  intros Hw Hh Hd. rewrite GetMaxMipNum_loop_spec by (simpl; lia).
  rewrite !orb_false_iff, !N.ltb_ge. lia.
Qed.

Lemma GetMaxMipNum_log2 w h d :
  w < 2 ^ 16 → h < 2 ^ 16 → d < 2 ^ 16 →
  GetMaxMipNum w h d = 1 + N.log2 (N.max w (N.max h d)).
Proof.
  intros Hw Hh Hd. unfold GetMaxMipNum.
  by rewrite GetMaxMipNum_loop_spec by (simpl; lia).
Qed.

(** C9. For a texture descriptor with nonzero 16-bit width, height and
    depth, [GetMaxMipNum] is [1 + log2 (max width height depth)] and its loop
    stops at 1x1x1; [CreateTexture] rejects a larger [mipNum] with
    [INVALID_ARGUMENT] without touching the backend, and with a nonzero
    [mipNum] up to that bound (and the other fields valid) it passes all
    checks and returns what the backend answers. *)
Theorem C9_CreateTexture_mip_bound (K : Constants) (textureDesc : TextureDesc) backendResult textureImpl
    (texture : Ptr) (w : World) :
  td_width textureDesc ≠ 0 → td_height textureDesc ≠ 0 → td_depth textureDesc ≠ 0 →
  td_width textureDesc < 2 ^ 16 → td_height textureDesc < 2 ^ 16 →
  td_depth textureDesc < 2 ^ 16 →
  let maxMipNum :=
    1 + N.log2 (N.max (td_width textureDesc)
                      (N.max (td_height textureDesc) (td_depth textureDesc))) in
  GetMaxMipNum (td_width textureDesc) (td_height textureDesc) (td_depth textureDesc)
    = maxMipNum
  ∧ fst (GetMaxMipNum_loop 16 (td_width textureDesc) (td_height textureDesc)
                              (td_depth textureDesc) 1) = (1, 1, 1)
  ∧ (maxMipNum < td_mipNum textureDesc →
     ∃ w', CreateTexture K textureDesc backendResult textureImpl texture w
           = Some (INVALID_ARGUMENT, texture, w')
           ∧ untouched w w')
  ∧ (td_mipNum textureDesc ≠ 0 → td_mipNum textureDesc ≤ maxMipNum →
     Format_UNKNOWN K < td_format textureDesc < Format_MAX_NUM K →
     td_layerNum textureDesc ≠ 0 → td_sampleNum textureDesc ≠ 0 →
     TextureDesc_checks K textureDesc w = Normal tt w
     ∧ ∃ texture' w', CreateTexture K textureDesc backendResult textureImpl texture w
                     = Some (backendResult, texture', w')
                     ∧ calls w' = calls w ++ [Core_CreateTexture textureDesc]).
Proof.
  intros Hw0 Hh0 Hd0 Hw Hh Hd maxMipNum.
  pose proof (GetMaxMipNum_log2 _ _ _ Hw Hh Hd) as Hmax. fold maxMipNum in Hmax.
  split; [done|]. split.
  { rewrite GetMaxMipNum_loop_spec by (simpl; lia). simpl. repeat f_equal; lia. }
  split.
  - intros Hgt. unfold CreateTexture, CreateTexture_body, TextureDesc_checks.
    rewrite Hmax. unfold run_out. msimpl.
    repeat (check_split; [|eexists; split; [reflexivity|apply untouched_report]]).
    repeat match goal with H : (_ <=? _) = true |- _ => apply N.leb_le in H end. lia.
  - intros Hm0 Hle [Hf1 Hf2] Hl0 Hs0.
    unfold CreateTexture, CreateTexture_body, TextureDesc_checks.
    rewrite Hmax. unfold run_out. msimpl.
    apply N.ltb_lt in Hf1, Hf2. rewrite Hf1, Hf2.
    apply N.eqb_neq in Hw0, Hh0, Hd0, Hm0, Hl0, Hs0.
    rewrite Hw0, Hh0, Hd0, Hm0, Hl0, Hs0. apply N.leb_le in Hle. rewrite Hle.
    simpl. split; [done|].
    destruct (decide (backendResult = SUCCESS)); eexists _, _; split; reflexivity || done.
Qed.

(** An 8x8x1 texture has at most 4 mips, and 4 are accepted. *)
Lemma C9_CreateTexture_mip_bound_witness :
  GetMaxMipNum 8 8 1 = 4
  ∧ ∃ texture' w', CreateTexture nri example_textureDesc SUCCESS 100 None empty_world
                   = Some (SUCCESS, texture', w')
                   ∧ calls w' = calls empty_world ++ [Core_CreateTexture example_textureDesc].
Proof.
  pose proof (C9_CreateTexture_mip_bound nri example_textureDesc SUCCESS 100 None empty_world)
    as H.
  destruct H as (H1 & _ & _ & H4); try (by vm_compute).
  split; [exact H1|].
  apply H4; vm_compute; first [done | by split].
Defined.

(** ** The mip range of a texture view (C8) *)

Lemma app_singleton_neq {A} (l : list A) x : l ≠ l ++ [x].
Proof.
  intros H. apply (f_equal length) in H. rewrite length_app in H. simpl in H. lia.
Qed.

(** C8, as amended. For a 2D view of a live texture with recorded mip count
    [P]: a mip sub-range that does not satisfy [mipOffset < P] and
    [mipOffset + mipNum <= P] is rejected with [INVALID_ARGUMENT], with one
    report and nothing else changed; when the other checks of the view pass,
    the backend is reached if and only if the sub-range satisfies both; and
    destroying a view checks nothing. So against [P = 4] the range
    [mipOffset = 3, mipNum = 1] is accepted, [3, 2] and [3, 3] are rejected. *)
Theorem C8_texture_view_mip_range (K : Constants) (textureViewDesc : Texture2DViewDesc)
    backendResult descriptorImpl (textureView : Ptr) (w : World) (a : addr)
    (t : TextureVal) :
  tv_texture textureViewDesc = Some a →
  as_texture (heap w !! a) = Some t →
  let P := td_mipNum (texture_desc t) in
  let in_range :=
    tv_mipOffset textureViewDesc < P
    ∧ tv_mipOffset textureViewDesc + tv_mipNum textureViewDesc ≤ P in
  (¬ in_range →
   ∃ w' report,
     CreateDescriptor_Texture2DView K textureViewDesc backendResult descriptorImpl
       textureView w = Some (INVALID_ARGUMENT, textureView, w')
     ∧ untouched w w' ∧ reports w' = reports w ++ [report])
  ∧ (tv_viewType textureViewDesc < Texture2DViewType_MAX_NUM K →
     Format_UNKNOWN K < tv_format textureViewDesc < Format_MAX_NUM K →
     tv_layerOffset textureViewDesc < td_layerNum (texture_desc t) →
     tv_layerOffset textureViewDesc + tv_layerNum textureViewDesc
       ≤ td_layerNum (texture_desc t) →
     (in_range ↔
      ∃ textureView' w',
        CreateDescriptor_Texture2DView K textureViewDesc backendResult descriptorImpl
          textureView w = Some (backendResult, textureView', w')
        ∧ calls w' = calls w ++ [Core_CreateTexture2DView (texture_impl t) textureViewDesc]))
  ∧ (∀ descriptor d,
       as_descriptor (heap w !! descriptor) = Some d →
       ∃ w', DestroyDescriptor descriptor w = Some (tt, w')
             ∧ reports w' = reports w
             ∧ calls w' = calls w ++ [Core_DestroyDescriptor (descriptor_impl d)]).
Proof.
  intros Htex Ht P in_range.
  assert (∀ (B : Type) (k : addr * TextureVal → M Result B) w0,
            heap w0 = heap w →
            bind (deref as_texture (tv_texture textureViewDesc)) k w0 = k (a, t) w0)
    as Hderef.
  { intros B k w0 Hw0. rewrite Htex. apply bind_deref. by rewrite Hw0. }
  split; [|split].
  - intros Hout.
    unfold CreateDescriptor_Texture2DView, CreateDescriptor_Texture2DView_body, run_out.
    msimpl.
    do 3 (check_split; [|eexists _, _; split; [reflexivity|split; [done|reflexivity]]]).
    rewrite Hderef by done. msimpl. cbn [snd].
    do 2 (check_split; [|eexists _, _; split; [reflexivity|split; [done|reflexivity]]]).
    exfalso. apply Hout. split; [by apply N.ltb_lt|by apply N.leb_le].
  - intros Hview [Hf1 Hf2] Hl1 Hl2.
    unfold CreateDescriptor_Texture2DView, CreateDescriptor_Texture2DView_body, run_out.
    msimpl.
    rewrite Htex. rewrite bool_decide_eq_true_2 by done.
    apply N.ltb_lt in Hview, Hf1, Hf2, Hl1. apply N.leb_le in Hl2.
    rewrite Hview, Hf1, Hf2. cbn [andb].
    rewrite bind_deref with (v := t) by done. msimpl. cbn [snd].
    fold P. rewrite Hl1, Hl2.
    split.
    + intros [Ho Hn]. apply N.ltb_lt in Ho. apply N.leb_le in Hn. rewrite Ho, Hn.
      destruct (decide (backendResult = SUCCESS)); msimpl;
        eexists _, _; (split; [reflexivity|done]).
    + intros (textureView' & w' & Heq & Hcalls).
      destruct (tv_mipOffset textureViewDesc <? P) eqn:Ho.
      2:{ injection Heq as _ _ <-. simpl in Hcalls. by apply app_singleton_neq in Hcalls. }
      destruct (tv_mipOffset textureViewDesc + tv_mipNum textureViewDesc <=? P) eqn:Hn.
      2:{ injection Heq as _ _ <-. simpl in Hcalls. by apply app_singleton_neq in Hcalls. }
      split; [by apply N.ltb_lt|by apply N.leb_le].
  - intros descriptor d Hd.
    unfold DestroyDescriptor, DestroyDescriptor_body, run.
    rewrite bind_deref with (v := d) by done. msimpl.
    eexists. split; [reflexivity|done].
Qed.

(** The range [mipOffset = 3, mipNum = 1] of a texture with 4 mips is
    accepted. *)
Lemma C8_texture_view_mip_range_witness :
  ∃ textureView' w',
    CreateDescriptor_Texture2DView nri (example_view 3 1) SUCCESS 110 None example_world
      = Some (SUCCESS, textureView', w')
    ∧ calls w' = calls example_world
                 ++ [Core_CreateTexture2DView 102 (example_view 3 1)].
Proof.
  refine (proj1 (proj1 (proj2 (C8_texture_view_mip_range nri (example_view 3 1) SUCCESS
                                 110 None example_world 2 _ eq_refl eq_refl)) _ _ _ _) _);
    vm_compute; try done; by split.
Defined.

(** The range [mipOffset = 3, mipNum = 2] reaches past the 4 mips of the
    texture ([3 + 2 = 5]) and is rejected, and so is [3, 3]. *)
Lemma C8_counterexample :
  (fst <$> CreateDescriptor_Texture2DView nri (example_view 3 2) SUCCESS 110 None
             example_world) = Some (INVALID_ARGUMENT, None)
  ∧ (fst <$> CreateDescriptor_Texture2DView nri (example_view 3 3) SUCCESS 110 None
               example_world) = Some (INVALID_ARGUMENT, None).
Proof. split; by vm_compute. Qed.

(** ** The stage mask of a pipeline layout (C6) *)




(** ** The shader stages of a graphics pipeline (C7) *)

Lemma popcount_step x :
  x ≠ 0 → popcount x = N.land x 1 + popcount (N.shiftr x 1).
Proof.
  destruct x as [|[p|p|]]; intros Hx; try done; simpl; lia.
Qed.

Lemma popcount_loop_spec fuel : ∀ x n,
  x < 2 ^ N.of_nat fuel → popcount_loop fuel x n = (0, n + popcount x).
Proof.
  induction fuel as [|fuel IH]; intros x n Hx.
  - simpl in Hx. assert (x = 0) as -> by lia. simpl. f_equal. lia.
  - cbn [popcount_loop]. destruct (N.eqb_spec x 0) as [->|Hx0].
    + simpl. f_equal. lia.
    + rewrite IH.
      * rewrite (popcount_step x) by done. f_equal. lia.
      * rewrite N.shiftr_div_pow2. change (2 ^ 1) with 2.
        rewrite Nat2N.inj_succ, N.pow_succ_r' in Hx.
        apply N.Div0.div_lt_upper_bound. lia.
Qed.

(** The loop of [IsShaderStageValid] has left its guard after 32
    iterations: the fuel of the model is enough for a 32-bit [x]. *)
Lemma popcount_loop_exits x n : fst (popcount_loop 32 (u32 x) n) = 0.
Proof.
  rewrite popcount_loop_spec; [done|]. unfold u32.
  change (2 ^ N.of_nat 32) with (2 ^ 32). by apply N.mod_lt.
Qed.




Lemma testbit_lt_pow2 x k n : x < 2 ^ n → N.testbit x k = true → k < n.
Proof.
  intros Hx Hb. destruct (N.lt_ge_cases k n) as [|Hge]; [done|].
  destruct (N.eq_dec x 0) as [->|Hx0]; [by rewrite N.bits_0 in Hb|].
  assert (N.log2 x < n) by (by apply N.log2_lt_pow2; [lia|]).
  rewrite N.bits_above_log2 in Hb; [done|lia].
Qed.


Lemma u32_small x : x < 2 ^ 32 → u32 x = x.
Proof. intros H. unfold u32. by apply N.mod_small. Qed.

Lemma land_lt_r x y n : y < 2 ^ n → N.land x y < 2 ^ n.
Proof.
  intros Hy. destruct (N.eq_dec (N.land x y) 0) as [->|Hne].
  { pose proof (N.pow_nonzero 2 n). lia. }
  apply N.log2_lt_pow2; [lia|].
  destruct (N.lt_ge_cases (N.log2 (N.land x y)) n) as [|Hge]; [done|].
  pose proof (N.bit_log2 _ Hne) as Hb. rewrite N.land_spec in Hb.
  apply andb_true_iff in Hb as [_ Hb].
  pose proof (testbit_lt_pow2 _ _ _ Hy Hb). lia.
Qed.

(** [IsShaderStageValid], for an allowed family that fits 32 bits. *)
Lemma IsShaderStageValid_spec shaderStages unique allowed :
  allowed < 2 ^ 32 →
  IsShaderStageValid shaderStages unique allowed
  = (bool_decide (popcount (N.land shaderStages allowed) = 1)
     && (N.land unique (u32 shaderStages) =? 0),
     N.lor unique (u32 shaderStages)).
Proof.
  intros Ha. unfold IsShaderStageValid.
  rewrite (u32_small (N.land _ allowed)) by (by apply land_lt_r).
  rewrite popcount_loop_spec by (by apply land_lt_r). cbn [snd]. rewrite N.add_0_l.
  f_equal. f_equal. destruct (N.eqb_spec (popcount (N.land shaderStages allowed)) 1).
  - by rewrite bool_decide_eq_true_2.
  - by rewrite bool_decide_eq_false_2.
Qed.









(** ** Out parameters (C10) *)







(** ** Rules for [triple] *)

Section Triple.
Context {R : Type} (I : World → World → Prop) `{!PreOrder I} (E : R → Prop).

Lemma triple_ret {A} (a : A) : triple I E (ret a : M R A).
Proof. intros w. simpl. reflexivity. Qed.

Lemma triple_bind {A B} (m : M R A) (k : A → M R B) :
  triple I E m → (∀ a, triple I E (k a)) → triple I E (bind m k).
Proof.
  intros Hm Hk w. unfold bind. specialize (Hm w).
  destruct (m w) as [|r w'|a w']; [done|done|].
  specialize (Hk a w'). destruct (k a w') as [|r w''|b w'']; [done| |].
  - destruct Hk. split; [by etrans|done].
  - by etrans.
Qed.

Lemma triple_for_loop {A S} (body : N → A → S → M R S) (l : list A) :
  (∀ i x s, x ∈ l → triple I E (body i x s)) →
  ∀ i s, triple I E (for_loop i l s body).
Proof.
  induction l as [|x l IH]; intros Hbody i s.
  - apply triple_ret.
  - cbn [for_loop]. apply triple_bind.
    + apply Hbody. by left.
    + intros s'. apply IH. intros. apply Hbody. by right.
Qed.

Lemma triple_RETURN_ON_FAILURE `{!ReportInsensitive I} c (r : R) message args :
  E r → triple I E (RETURN_ON_FAILURE c r message args).
Proof.
  intros Hr w. unfold RETURN_ON_FAILURE. destruct c; [reflexivity|].
  split; [apply report_insensitive|done].
Qed.

Lemma triple_REPORT_ERROR `{!ReportInsensitive I} message args :
  triple I E (REPORT_ERROR message args : M R unit).
Proof. intros w. apply report_insensitive. Qed.

Lemma triple_return_ {A} (r : R) : E r → triple I E (return_ r : M R A).
Proof. intros Hr w. by split. Qed.

Lemma triple_deref {A} cast (p : Ptr) : triple I E (deref cast p : M R (addr * A)).
Proof.
  intros w. unfold deref. destruct p as [a|]; [|done].
  by destruct (cast (heap w !! a)).
Qed.

Lemma triple_project {A} (o : option A) : triple I E (project o : M R A).
Proof. destruct o; [apply triple_ret|done]. Qed.

Lemma triple_backend {A} c (answer : A) :
  (∀ w, I w (log_call c w)) → triple I E (backend c answer : M R A).
Proof. intros Hc w. apply Hc. Qed.

Lemma triple_modify_heap f :
  (∀ w, I w (set_heap f w)) → triple I E (modify_heap f : M R unit).
Proof. intros Hf w. apply Hf. Qed.

Lemma triple_Allocate p :
  (∀ w, I w (set_next (next w + 1) (set_heap (insert (next w) p) w))) →
  triple I E (Allocate p : M R addr).
Proof. intros Hp w. apply Hp. Qed.

Lemma triple_Destroy a :
  (∀ w, I w (set_heap (delete a) w)) → triple I E (Destroy a : M R unit).
Proof. intros Ha w. apply Ha. Qed.

Lemma triple_find_memoryType t : triple I E (find_memoryType t : M R (option N)).
Proof. intros w. simpl. reflexivity. Qed.

Lemma triple_weaken {A} (I' : World → World → Prop) (E' : R → Prop) (m : M R A) :
  (∀ w w', I' w w' → I w w') → (∀ r, E' r → E r) → triple I' E' m → triple I E m.
Proof.
  intros HI HE Hm w. specialize (Hm w). destruct (m w); [done| |by apply HI].
  destruct Hm. split; [by apply HI|by apply HE].
Qed.

End Triple.

Lemma triple_call {R R' : Type} (I : World → World → Prop) (E : R → Prop) (E' : R' → Prop)
    (m : M R R) :
  triple I E m → triple I E' (call m : M R' R).
Proof.
  intros Hm w. unfold call. specialize (Hm w).
  destruct (m w); [done| |done]. by destruct Hm.
Qed.

#[local] Instance untouched_preorder : PreOrder untouched.
Proof.
  split.
  - done.
  - intros w1 w2 w3 (? & ? & ? & ?) (? & ? & ? & ?). repeat split; congruence.
Qed.

#[local] Instance untouched_report_insensitive : ReportInsensitive untouched.
Proof. done. Qed.

#[local] Instance validated_preorder : PreOrder validated.
Proof.
  split.
  - intros w. repeat split. exists []. by rewrite app_nil_r.
  - intros w1 w2 w3 (? & ? & ? & q1 & Hq1 & Hf1) (? & ? & ? & q2 & Hq2 & Hf2).
    repeat split; try congruence.
    exists (q1 ++ q2). split.
    + by rewrite Hq2, Hq1, app_assoc.
    + rewrite forallb_app. by rewrite Hf1, Hf2.
Qed.

#[local] Instance validated_report_insensitive : ReportInsensitive validated.
Proof. intros w r. repeat split. exists []. by rewrite app_nil_r. Qed.

Lemma validated_query w c : is_query c = true → validated w (log_call c w).
Proof. intros Hc. repeat split. exists [c]. simpl. by rewrite Hc. Qed.

(** Decompose a [triple] goal along the structure of the computation; the
    goals left are the side conditions on backend calls, heap updates and
    returned values. *)
Ltac triple_classes :=
  lazymatch goal with
  | |- PreOrder _ => apply _
  | |- ReportInsensitive _ => apply _
  | |- _ => idtac
  end.

Ltac triple_tac :=
  repeat match goal with
         | |- triple _ _ (bind _ _) => apply triple_bind; [..|intros]; triple_classes
         | |- triple _ _ (ret _) => apply triple_ret; triple_classes
         | |- triple _ _ (RETURN_ON_FAILURE _ _ _ _) =>
             apply triple_RETURN_ON_FAILURE; triple_classes
         | |- triple _ _ (REPORT_ERROR _ _) => apply triple_REPORT_ERROR; triple_classes
         | |- triple _ _ (return_ _) => apply triple_return_; triple_classes
         | |- triple _ _ (deref _ _) => apply triple_deref; triple_classes
         | |- triple _ _ (project _) => apply triple_project; triple_classes
         | |- triple _ _ (backend _ _) => apply triple_backend; triple_classes
         | |- triple _ _ (modify_heap _) => apply triple_modify_heap; triple_classes
         | |- triple _ _ (Allocate _) => apply triple_Allocate; triple_classes
         | |- triple _ _ (Destroy _) => apply triple_Destroy; triple_classes
         | |- triple _ _ (find_memoryType _) => apply triple_find_memoryType; triple_classes
         | |- triple _ _ (for_loop _ _ _ _) =>
             apply triple_for_loop; [..|intros]; triple_classes
         | |- triple _ _ (call _) => eapply triple_call
         | |- triple _ _ (if ?c then _ else _) => destruct c
         | |- triple _ _ (match ?c with _ => _ end) => destruct c
         end.

Ltac validated_tac :=
  triple_tac; try done; try (intros; apply validated_query; reflexivity).

(** ** Freeing memory (C5) *)

Lemma ReportBoundResources_spec {R} (m : MemoryVal) (w : World) :
  ∃ w' rs, ReportBoundResources m w = (Normal tt w' : Outcome R unit)
           ∧ untouched w w' ∧ reports w' = reports w ++ rs.
Proof.
  unfold ReportBoundResources. generalize 0 at 1.
  induction (elements (memory_bound m)) as [|x l IH] in w |- *; intros i.
  - exists w, []. by rewrite app_nil_r.
  - cbn [for_loop]. msimpl.
    destruct (IH (log_report {| report_message := "resource is still bound to the memory";
                                report_args := [x] |} w) (i + 1))
      as (w' & rs & Heq & Hw' & Hrs).
    eexists w', _. split; [done|]. split.
    + etrans; [|done]. apply untouched_report.
    + rewrite Hrs. simpl. by rewrite <- app_assoc.
Qed.

(** C5. For a live Memory: when its bound-set is not empty, [FreeMemory]
    returns having called no backend entry point and destroyed no proxy, the
    world as it was but for the error reports, the last of which is the
    error of [FreeMemory]; when its bound-set is empty, [FreeMemory] calls
    the backend free on the backend handle and destroys the proxy. *)
Theorem C5_FreeMemory (memory : addr) (m : MemoryVal) (w : World) :
  as_memory (heap w !! memory) = Some m →
  (memory_bound m ≠ ∅ →
   ∃ w' rs,
     FreeMemory memory w = Some (tt, w')
     ∧ untouched w w'
     ∧ reports w' = reports w ++ rs
                    ++ [{| report_message :=
                             "FreeMemory: some resources are still bound to the memory";
                           report_args := [] |}])
  ∧ (memory_bound m = ∅ →
     ∃ w', FreeMemory memory w = Some (tt, w')
           ∧ calls w' = calls w ++ [Core_FreeMemory (memory_impl m)]
           ∧ heap w' = delete memory (heap w)
           ∧ reports w' = reports w).
Proof.
  intros Hm. unfold FreeMemory, FreeMemory_body, run.
  rewrite bind_deref with (v := m) by done. cbn [snd]. unfold HasBoundResources.
  split; intros Hbound.
  - rewrite bool_decide_eq_true_2 by done. msimpl.
    destruct (ReportBoundResources_spec (R := unit) m w) as (w1 & rs & Heq & Hw1 & Hrs).
    unfold bind at 1. rewrite Heq. msimpl.
    eexists _, rs. split; [reflexivity|]. split.
    + etrans; [done|]. apply untouched_report.
    + simpl. by rewrite Hrs, <- app_assoc.
  - rewrite bool_decide_eq_false_2 by (by intros []). msimpl.
    eexists. by split.
Qed.

(** The memory at address 7 of the example world has a buffer bound to it
    and is not freed; the memory at address 4 has none and is freed. *)
Lemma C5_FreeMemory_witness :
  (∃ w' rs,
     FreeMemory 7 example_world = Some (tt, w')
     ∧ untouched example_world w'
     ∧ reports w' = reports example_world ++ rs
                    ++ [{| report_message :=
                             "FreeMemory: some resources are still bound to the memory";
                           report_args := [] |}])
  ∧ (∃ w', FreeMemory 4 example_world = Some (tt, w')
           ∧ calls w' = calls example_world ++ [Core_FreeMemory 104]
           ∧ heap w' = delete 4 (heap example_world)
           ∧ reports w' = reports example_world).
Proof.
  split.
  - apply (proj1 (C5_FreeMemory 7 example_boundMemory example_world eq_refl)).
    vm_compute. intros H. discriminate H.
  - apply (proj2 (C5_FreeMemory 4 example_freeMemory example_world eq_refl)).
    reflexivity.
Defined.

(** ** The requirement checks of a buffer binding (C2) *)

Lemma kind_Normal {R A} (o : Outcome R A) : kind o = KNormal ↔ ∃ a w, o = Normal a w.
Proof. destruct o; split; try done; eauto; by intros (? & ? & ?). Qed.

(** C2, as amended. For an entry of [BindBufferMemory] whose buffer is
    present and not yet bound, whose memory is present with a known
    location, and whose [offset + size] fits 64 bits, where
    [(size, alignment, mustBeDedicated)] is the requirement the backend
    reports: the entry passes validation if and only if [mustBeDedicated]
    implies [offset = 0], [alignment] is not zero, [offset] is a multiple of
    [alignment], and the size of the memory is zero or at least
    [offset + size]; otherwise it is rejected with [INVALID_ARGUMENT], the
    proxies untouched. *)
Theorem C2_buffer_binding_requirement (K : Constants)
    (Backend_GetBufferMemoryDesc : BufferDesc → N → MemoryDesc)
    (i : N) (srcDesc : MemoryBindingDesc) (impl : list MemoryBindingImplDesc)
    (w : World) (resource memory : addr) (b : BufferVal) (m : MemoryVal) :
  mb_resource srcDesc = Some resource →
  mb_memory srcDesc = Some memory →
  as_buffer (heap w !! resource) = Some b →
  as_memory (heap w !! memory) = Some m →
  buffer_isBoundToMemory b = false →
  memory_location m ≠ MemoryLocation_MAX_NUM K →
  let req := Backend_GetBufferMemoryDesc (buffer_desc b) (memory_location m) in
  mb_offset srcDesc + md_size req < 2 ^ 64 →
  (kind (BindBufferMemory_entry K Backend_GetBufferMemoryDesc i srcDesc impl w) = KNormal
   ↔ requirement_met req (mb_offset srcDesc) (memory_size m))
  ∧ (¬ requirement_met req (mb_offset srcDesc) (memory_size m) →
     ∃ w', BindBufferMemory_entry K Backend_GetBufferMemoryDesc i srcDesc impl w
           = Returned INVALID_ARGUMENT w'
           ∧ validated w w').
Proof.
  intros Hr Hm Hb Hmv Hunbound Hloc req Hfit.
  unfold BindBufferMemory_entry. msimpl. rewrite Hr, Hm.
  rewrite !bool_decide_eq_true_2 by done.
  rewrite bind_deref with (v := m) by done.
  rewrite bind_deref with (v := b) by done.
  msimpl. cbn [snd]. rewrite Hunbound. cbn [negb].
  apply N.eqb_neq in Hloc. rewrite Hloc. msimpl. fold req.
  unfold u64. rewrite (N.mod_small _ _ Hfit).
  pose (w1 := log_call (Core_GetBufferMemoryDesc (buffer_desc b) (memory_location m)) w).
  assert (validated w w1) as Hw1 by (by apply validated_query).
  assert (∀ r, validated w (log_report r w1)) as Hw2.
  { intros r. etrans; [exact Hw1|]. apply report_insensitive. }
  fold w1. unfold requirement_met.
  destruct (md_mustBeDedicated req) eqn:Hded; cbn [negb orb].
  - destruct (N.eqb_spec (mb_offset srcDesc) 0) as [H0|H0].
    2:{ split; [split; [done|intros (? & _); tauto]|]. intros _. eauto. }
    destruct (N.eqb_spec (md_alignment req) 0) as [Ha|Ha]; cbn [negb].
    { split; [split; [done|intros (_ & ? & _); tauto]|]. intros _. eauto. }
    destruct (N.eqb_spec (mb_offset srcDesc mod md_alignment req) 0) as [Hal|Hal].
    2:{ split; [split; [done|intros (_ & _ & ? & _); tauto]|]. intros _. eauto. }
    destruct (N.eqb_spec (memory_size m) 0) as [Hs|Hs]; cbn [orb].
    { split; [split; [tauto|done]|]. intros Hn. exfalso. apply Hn. tauto. }
    destruct (N.leb_spec (mb_offset srcDesc + md_size req) (memory_size m)) as [Hle|Hgt].
    + split; [split; [tauto|done]|]. intros Hn. exfalso. apply Hn. tauto.
    + split; [split; [done|intros (_ & _ & _ & [?|?]); [done|lia]]|]. intros _. eauto.
  - destruct (N.eqb_spec (md_alignment req) 0) as [Ha|Ha]; cbn [negb].
    { split; [split; [done|intros (_ & ? & _); tauto]|]. intros _. eauto. }
    destruct (N.eqb_spec (mb_offset srcDesc mod md_alignment req) 0) as [Hal|Hal].
    2:{ split; [split; [done|intros (_ & _ & ? & _); tauto]|]. intros _. eauto. }
    destruct (N.eqb_spec (memory_size m) 0) as [Hs|Hs]; cbn [orb].
    { split; [split; [intros _; repeat split; try done; tauto|done]|].
      intros Hn. exfalso. apply Hn. repeat split; try done. tauto. }
    destruct (N.leb_spec (mb_offset srcDesc + md_size req) (memory_size m)) as [Hle|Hgt].
    + split; [split; [intros _; repeat split; try done; tauto|done]|].
      intros Hn. exfalso. apply Hn. repeat split; try done. tauto.
    + split; [split; [done|intros (_ & _ & _ & [?|?]); [done|lia]]|]. intros _. eauto.
Qed.

(** The unbound buffer at address 1 (1024 bytes) fits at offset 0 of the
    memory at address 4 (2048 bytes). *)
Lemma C2_buffer_binding_requirement_witness :
  kind (BindBufferMemory_entry nri example_GetBufferMemoryDesc 0 (example_binding 4 1 0) []
          example_world) = KNormal.
Proof.
  refine (proj2 (proj1 (C2_buffer_binding_requirement nri example_GetBufferMemoryDesc 0
                          (example_binding 4 1 0) [] example_world 1 4 _ _
                          eq_refl eq_refl eq_refl eq_refl eq_refl _ _)) _).
  - by vm_compute.
  - by vm_compute.
  - repeat split; try (by vm_compute). right. by vm_compute.
Defined.

(** The claim as stated fails on two entries of known location. The buffer
    at address 6 is already bound: its entry is rejected although the four
    conditions hold. And at offset [2^64 - 256] the sum [offset + size] of
    the 1024-byte buffer at address 1 wraps around to 768: the entry passes
    although [offset + size] exceeds the 2048 bytes of the memory. *)
Lemma C2_counterexample :
  (kind (BindBufferMemory_entry nri example_GetBufferMemoryDesc 0 (example_binding 7 6 0) []
           example_world) = KReturned
   ∧ requirement_met (example_GetBufferMemoryDesc {| bd_size := 256 |} 0) 0 4096)
  ∧ (kind (BindBufferMemory_entry nri example_GetBufferMemoryDesc 0
             (example_binding 4 1 (2 ^ 64 - 256)) [] example_world) = KNormal
     ∧ ¬ requirement_met (example_GetBufferMemoryDesc {| bd_size := 1024 |} 0)
           (2 ^ 64 - 256) 2048).
Proof.
  split; split.
  - by vm_compute.
  - repeat split; try (by vm_compute). right. by vm_compute.
  - by vm_compute.
  - intros (_ & _ & _ & [H|H]); [done|]. by vm_compute in H.
Qed.

(** ** The three per-entry validations (C3) *)

Section Entries.
Context (K : Constants).
Context (Backend_GetBufferMemoryDesc : BufferDesc → N → MemoryDesc).
Context (Backend_GetTextureMemoryDesc : TextureDesc → N → MemoryDesc).

Lemma BindBufferMemory_entry_validates i srcDesc impl :
  triple validated (λ r, r = INVALID_ARGUMENT)
    (BindBufferMemory_entry K Backend_GetBufferMemoryDesc i srcDesc impl).
Proof. unfold BindBufferMemory_entry. validated_tac. Qed.

Lemma BindTextureMemory_entry_validates i srcDesc impl :
  triple validated (λ r, r = INVALID_ARGUMENT)
    (BindTextureMemory_entry K Backend_GetTextureMemoryDesc i srcDesc impl).
Proof. unfold BindTextureMemory_entry. validated_tac. Qed.

Lemma BindAccelerationStructureMemory_entry_validates i srcDesc impl :
  triple validated (λ r, r = INVALID_ARGUMENT)
    (BindAccelerationStructureMemory_entry i srcDesc impl).
Proof. unfold BindAccelerationStructureMemory_entry. validated_tac. Qed.

Ltac decide_checks :=
  unfold spec_entry_valid, spec_requirement_checks;
  repeat match goal with
         | |- context [negb ?b] => destruct b; cbn [negb andb orb kind]
         | |- context [if ?c then _ else _] => destruct c; cbn [negb andb orb kind]
         end;
  try done.

Lemma BindBufferMemory_entry_kind i srcDesc impl w resource memory b m :
  mb_resource srcDesc = Some resource → mb_memory srcDesc = Some memory →
  as_buffer (heap w !! resource) = Some b → as_memory (heap w !! memory) = Some m →
  kind (BindBufferMemory_entry K Backend_GetBufferMemoryDesc i srcDesc impl w)
  = if spec_entry_valid K (buffer_isBoundToMemory b) (memory_location m) (memory_size m)
         (Backend_GetBufferMemoryDesc (buffer_desc b) (memory_location m))
         (mb_offset srcDesc)
    then KNormal else KReturned.
Proof.
  intros Hr Hm Hb Hmv. unfold BindBufferMemory_entry. msimpl. rewrite Hr, Hm.
  rewrite !bool_decide_eq_true_2 by done.
  rewrite bind_deref with (v := m) by done.
  rewrite bind_deref with (v := b) by done.
  msimpl. cbn [snd].
  destruct (buffer_isBoundToMemory b); cbn [negb]; [done|].
  unfold spec_entry_valid. cbn [negb andb].
  destruct (memory_location m =? MemoryLocation_MAX_NUM K); [done|].
  msimpl. cbn [orb]. decide_checks.
Qed.

Lemma BindTextureMemory_entry_kind i srcDesc impl w resource memory t m :
  mb_resource srcDesc = Some resource → mb_memory srcDesc = Some memory →
  as_texture (heap w !! resource) = Some t → as_memory (heap w !! memory) = Some m →
  kind (BindTextureMemory_entry K Backend_GetTextureMemoryDesc i srcDesc impl w)
  = if spec_entry_valid K (texture_isBoundToMemory t) (memory_location m) (memory_size m)
         (Backend_GetTextureMemoryDesc (texture_desc t) (memory_location m))
         (mb_offset srcDesc)
    then KNormal else KReturned.
Proof.
  intros Hr Hm Ht Hmv. unfold BindTextureMemory_entry. msimpl. rewrite Hr, Hm.
  rewrite !bool_decide_eq_true_2 by done.
  rewrite bind_deref with (v := m) by done.
  rewrite bind_deref with (v := t) by done.
  msimpl. cbn [snd].
  destruct (texture_isBoundToMemory t); cbn [negb]; [done|].
  unfold spec_entry_valid. cbn [negb andb].
  destruct (memory_location m =? MemoryLocation_MAX_NUM K); [done|].
  msimpl. cbn [orb]. decide_checks.
Qed.

Lemma BindAccelerationStructureMemory_entry_kind i srcDesc impl w resource memory a m :
  mb_resource srcDesc = Some resource → mb_memory srcDesc = Some memory →
  as_accelerationStructure (heap w !! resource) = Some a →
  as_memory (heap w !! memory) = Some m →
  kind (BindAccelerationStructureMemory_entry i srcDesc impl w)
  = if negb (as_isBoundToMemory a)
       && spec_requirement_checks (as_memoryDesc a) (mb_offset srcDesc) (memory_size m)
    then KNormal else KReturned.
Proof.
  intros Hr Hm Ha Hmv. unfold BindAccelerationStructureMemory_entry. rewrite Hr, Hm.
  rewrite bind_deref with (v := m) by done.
  rewrite bind_deref with (v := a) by done.
  msimpl. cbn [snd].
  destruct (as_isBoundToMemory a); cbn [negb andb]; [done|].
  decide_checks.
Qed.

End Entries.

Lemma if_kind_Normal (c : bool) : (if c then KNormal else KReturned) = KNormal ↔ c = true.
Proof. by destruct c. Qed.

(** C3, as amended. [BindBufferMemory] and [BindTextureMemory] validate an
    entry by the same algorithm, the one of the spec: an absent resource or
    memory pointer is rejected, an already-bound resource is rejected, and
    the requirement checks are skipped exactly when the location of the
    memory is the imported sentinel; they differ only in the backend query
    that supplies the requirement. [BindAccelerationStructureMemory], on an
    entry whose two pointers are present, rejects an already-bound
    acceleration structure and applies the same requirement checks whatever
    the location of the memory, to the requirement recorded in the proxy when
    the acceleration structure was created. Every rejection is
    [INVALID_ARGUMENT] and leaves the proxies as they were. *)
Theorem C3_binding_entry_validation (K : Constants)
    (Backend_GetBufferMemoryDesc : BufferDesc → N → MemoryDesc)
    (Backend_GetTextureMemoryDesc : TextureDesc → N → MemoryDesc)
    (i : N) (srcDesc : MemoryBindingDesc) (impl : list MemoryBindingImplDesc) (w : World) :
  let bufferEntry := BindBufferMemory_entry K Backend_GetBufferMemoryDesc i srcDesc impl in
  let textureEntry := BindTextureMemory_entry K Backend_GetTextureMemoryDesc i srcDesc impl in
  let accelerationStructureEntry := BindAccelerationStructureMemory_entry i srcDesc impl in
  (mb_resource srcDesc = None ∨ mb_memory srcDesc = None →
   (∃ w', bufferEntry w = Returned INVALID_ARGUMENT w' ∧ untouched w w')
   ∧ (∃ w', textureEntry w = Returned INVALID_ARGUMENT w' ∧ untouched w w'))
  ∧ (∀ resource memory m,
       mb_resource srcDesc = Some resource → mb_memory srcDesc = Some memory →
       as_memory (heap w !! memory) = Some m →
       (∀ b, as_buffer (heap w !! resource) = Some b →
             kind (bufferEntry w) = KNormal
             ↔ spec_entry_valid K (buffer_isBoundToMemory b) (memory_location m)
                 (memory_size m)
                 (Backend_GetBufferMemoryDesc (buffer_desc b) (memory_location m))
                 (mb_offset srcDesc) = true)
       ∧ (∀ t, as_texture (heap w !! resource) = Some t →
               kind (textureEntry w) = KNormal
               ↔ spec_entry_valid K (texture_isBoundToMemory t) (memory_location m)
                   (memory_size m)
                   (Backend_GetTextureMemoryDesc (texture_desc t) (memory_location m))
                   (mb_offset srcDesc) = true)
       ∧ (∀ a, as_accelerationStructure (heap w !! resource) = Some a →
               kind (accelerationStructureEntry w) = KNormal
               ↔ as_isBoundToMemory a = false
                 ∧ spec_requirement_checks (as_memoryDesc a) (mb_offset srcDesc)
                     (memory_size m) = true))
  ∧ (∀ r w', bufferEntry w = Returned r w' ∨ textureEntry w = Returned r w'
             ∨ accelerationStructureEntry w = Returned r w' →
             r = INVALID_ARGUMENT ∧ validated w w').
Proof.
  intros bufferEntry textureEntry accelerationStructureEntry. split; [|split].
  - intros Hnull. unfold bufferEntry, textureEntry, BindBufferMemory_entry,
      BindTextureMemory_entry.
    msimpl.
    destruct (mb_resource srcDesc) as [resource|].
    + destruct Hnull as [|Hm]; [done|]. rewrite Hm.
      rewrite bool_decide_eq_true_2 by done.
      rewrite bool_decide_eq_false_2 by (by intros []). split; eauto.
    + rewrite bool_decide_eq_false_2 by (by intros []). split; eauto.
  - intros resource memory m Hr Hm Hmv. split; [|split].
    + intros b Hb. unfold bufferEntry.
      erewrite BindBufferMemory_entry_kind by done. apply if_kind_Normal.
    + intros t Ht. unfold textureEntry.
      erewrite BindTextureMemory_entry_kind by done. apply if_kind_Normal.
    + intros a Ha. unfold accelerationStructureEntry.
      erewrite BindAccelerationStructureMemory_entry_kind by done.
      rewrite if_kind_Normal, andb_true_iff, negb_true_iff. done.
  - intros r w' [H|[H|H]].
    + pose proof (BindBufferMemory_entry_validates K Backend_GetBufferMemoryDesc
                    i srcDesc impl w) as Ht.
      unfold bufferEntry in H. rewrite H in Ht. by destruct Ht.
    + pose proof (BindTextureMemory_entry_validates K Backend_GetTextureMemoryDesc
                    i srcDesc impl w) as Ht.
      unfold textureEntry in H. rewrite H in Ht. by destruct Ht.
    + pose proof (BindAccelerationStructureMemory_entry_validates i srcDesc impl w) as Ht.
      unfold accelerationStructureEntry in H. rewrite H in Ht. by destruct Ht.
Qed.

(** On the unbound buffer at address 1 and on the unbound acceleration
    structure at address 3, bound at offset 0 of the memory at address 4,
    the validations agree with the algorithm of the spec. *)
Lemma C3_binding_entry_validation_witness :
  kind (BindBufferMemory_entry nri example_GetBufferMemoryDesc 0 (example_binding 4 1 0) []
          example_world) = KNormal
  ∧ kind (BindAccelerationStructureMemory_entry 0 (example_binding 4 3 0) []
            example_world) = KNormal.
Proof.
  split.
  - apply (proj1 (proj1 (proj2 (C3_binding_entry_validation nri example_GetBufferMemoryDesc
                                   example_GetTextureMemoryDesc 0 (example_binding 4 1 0) []
                                   example_world)) 1 4 example_freeMemory
                          eq_refl eq_refl eq_refl) _ eq_refl).
    by vm_compute.
  - apply (proj2 (proj2 (proj1 (proj2 (C3_binding_entry_validation nri
                                         example_GetBufferMemoryDesc
                                         example_GetTextureMemoryDesc 0
                                         (example_binding 4 3 0) [] example_world))
                                 3 4 example_freeMemory eq_refl eq_refl eq_refl))
            _ eq_refl).
    by vm_compute.
Defined.

(** The claim as stated fails for acceleration structures: on the imported
    memory at address 5 and the misaligned offset 100, the algorithm of the
    spec skips the requirement checks, and so does [BindBufferMemory] for
    the buffer at address 1, but [BindAccelerationStructureMemory] applies
    them to the acceleration structure at address 3 and rejects the entry. *)
Lemma C3_counterexample :
  spec_entry_valid nri false 4 2048
    {| md_size := 512; md_alignment := 256; md_mustBeDedicated := false |} 100 = true
  ∧ kind (BindBufferMemory_entry nri example_GetBufferMemoryDesc 0
            (example_binding 5 1 100) [] example_world) = KNormal
  ∧ kind (BindAccelerationStructureMemory_entry 0 (example_binding 5 3 100) []
            example_world) = KReturned.
Proof. repeat split; by vm_compute. Qed.

(** ** Batched binds are all-or-nothing (C1) *)

Lemma as_memory_Some o m : as_memory o = Some m → o = Some (PMemory m).
Proof. destruct o as [[]|]; simpl; congruence. Qed.

Lemma as_buffer_Some o b : as_buffer o = Some b → o = Some (PBuffer b).
Proof. destruct o as [[]|]; simpl; congruence. Qed.

Lemma as_texture_Some o t : as_texture o = Some t → o = Some (PTexture t).
Proof. destruct o as [[]|]; simpl; congruence. Qed.

Lemma as_accelerationStructure_Some o a :
  as_accelerationStructure o = Some a → o = Some (PAccelerationStructure a).
Proof. destruct o as [[]|]; simpl; congruence. Qed.

Lemma is_query_not_bind c : is_query c = true → is_bind_call c = false.
Proof. by destruct c. Qed.

Section EntryFacts.
Context (K : Constants).
Context (Backend_GetBufferMemoryDesc : BufferDesc → N → MemoryDesc).
Context (Backend_GetTextureMemoryDesc : TextureDesc → N → MemoryDesc).

Ltac entry_cases := repeat first [progress mfull | progress branch_cases].

Ltac kind_heap_tac H :=
  repeat first [progress mfull | rewrite H | progress branch_cases]; done.

Ltac pass_live_tac :=
  entry_cases; cbn [kind]; intros; try discriminate;
  split; eexists _, _; split; (reflexivity || eassumption).

Ltac defined_tac :=
  intros [Hr|[Hm|[(m & mv & Hm & Hmv) (r & rv & Hr & Hrv)]]];
  [ rewrite Hr | rewrite Hm | rewrite Hr, Hm ];
  entry_cases; cbn [kind]; try done;
  try (by match goal with H : bool_decide _ = true |- _ => apply bool_decide_eq_true in H end);
  try congruence.

Ltac length_tac :=
  entry_cases; intros; try discriminate;
  match goal with H : Normal _ _ = Normal _ _ |- _ => injection H as <- _ end;
  rewrite length_app; simpl; lia.

Lemma BindBufferMemory_entry_kind_heap i j d impl1 impl2 w1 w2 :
  heap w1 = heap w2 →
  kind (BindBufferMemory_entry K Backend_GetBufferMemoryDesc i d impl1 w1)
  = kind (BindBufferMemory_entry K Backend_GetBufferMemoryDesc j d impl2 w2).
Proof. intros Hh. unfold BindBufferMemory_entry. kind_heap_tac Hh. Qed.

Lemma BindTextureMemory_entry_kind_heap i j d impl1 impl2 w1 w2 :
  heap w1 = heap w2 →
  kind (BindTextureMemory_entry K Backend_GetTextureMemoryDesc i d impl1 w1)
  = kind (BindTextureMemory_entry K Backend_GetTextureMemoryDesc j d impl2 w2).
Proof. intros Hh. unfold BindTextureMemory_entry. kind_heap_tac Hh. Qed.

Lemma BindAccelerationStructureMemory_entry_kind_heap i j d impl1 impl2 w1 w2 :
  heap w1 = heap w2 →
  kind (BindAccelerationStructureMemory_entry i d impl1 w1)
  = kind (BindAccelerationStructureMemory_entry j d impl2 w2).
Proof. intros Hh. unfold BindAccelerationStructureMemory_entry. kind_heap_tac Hh. Qed.

Lemma BindBufferMemory_entry_pass_live i d impl w :
  kind (BindBufferMemory_entry K Backend_GetBufferMemoryDesc i d impl w) = KNormal →
  live as_memory (heap w) (mb_memory d) ∧ live as_buffer (heap w) (mb_resource d).
Proof. unfold BindBufferMemory_entry. pass_live_tac. Qed.

Lemma BindTextureMemory_entry_pass_live i d impl w :
  kind (BindTextureMemory_entry K Backend_GetTextureMemoryDesc i d impl w) = KNormal →
  live as_memory (heap w) (mb_memory d) ∧ live as_texture (heap w) (mb_resource d).
Proof. unfold BindTextureMemory_entry. pass_live_tac. Qed.

Lemma BindAccelerationStructureMemory_entry_pass_live i d impl w :
  kind (BindAccelerationStructureMemory_entry i d impl w) = KNormal →
  live as_memory (heap w) (mb_memory d)
  ∧ live as_accelerationStructure (heap w) (mb_resource d).
Proof. unfold BindAccelerationStructureMemory_entry. pass_live_tac. Qed.

Lemma BindBufferMemory_entry_defined i d impl w :
  entry_pointers_ok as_buffer (heap w) d →
  kind (BindBufferMemory_entry K Backend_GetBufferMemoryDesc i d impl w) ≠ KUndefined.
Proof. unfold BindBufferMemory_entry. defined_tac. Qed.

Lemma BindTextureMemory_entry_defined i d impl w :
  entry_pointers_ok as_texture (heap w) d →
  kind (BindTextureMemory_entry K Backend_GetTextureMemoryDesc i d impl w) ≠ KUndefined.
Proof. unfold BindTextureMemory_entry. defined_tac. Qed.

Lemma BindAccelerationStructureMemory_entry_defined i d impl w :
  live as_memory (heap w) (mb_memory d)
  ∧ live as_accelerationStructure (heap w) (mb_resource d) →
  kind (BindAccelerationStructureMemory_entry i d impl w) ≠ KUndefined.
Proof.
  intros [(m & mv & Hm & Hmv) (r & rv & Hr & Hrv)].
  unfold BindAccelerationStructureMemory_entry. rewrite Hr, Hm.
  entry_cases; cbn [kind]; try done; congruence.
Qed.

Lemma BindBufferMemory_entry_length i d impl w impl' w' :
  BindBufferMemory_entry K Backend_GetBufferMemoryDesc i d impl w = Normal impl' w' →
  length impl' = S (length impl).
Proof. unfold BindBufferMemory_entry. length_tac. Qed.

Lemma BindTextureMemory_entry_length i d impl w impl' w' :
  BindTextureMemory_entry K Backend_GetTextureMemoryDesc i d impl w = Normal impl' w' →
  length impl' = S (length impl).
Proof. unfold BindTextureMemory_entry. length_tac. Qed.

Lemma BindAccelerationStructureMemory_entry_length i d impl w impl' w' :
  BindAccelerationStructureMemory_entry i d impl w = Normal impl' w' →
  length impl' = S (length impl).
Proof. unfold BindAccelerationStructureMemory_entry. length_tac. Qed.

End EntryFacts.

Section BindShapeFacts.

Context {A : Type}.
Context (cast : option Proxy → option A) (inj : A → Proxy) (setBound : A → A).
Context (isBound : A → bool).
Context (entry : N → MemoryBindingDesc → list MemoryBindingImplDesc
                 → M Result (list MemoryBindingImplDesc)).
Context (entryPoint : list MemoryBindingImplDesc → BackendCall).
Context (nullMessage : string).
Context (pointers_ok : gmap addr Proxy → MemoryBindingDesc → Prop).

Hypothesis cast_Some : ∀ o v, cast o = Some v → o = Some (inj v).
Hypothesis cast_inj : ∀ v, cast (Some (inj v)) = Some v.
Hypothesis inj_not_memory : ∀ v, as_memory (Some (inj v)) = None.
Hypothesis flag_inj : ∀ v, proxy_flag (inj v) = Some (isBound v).
Hypothesis setBound_bound : ∀ v, isBound (setBound v) = true.

Hypothesis entry_validates : ∀ i d impl,
  triple validated (λ r, r = INVALID_ARGUMENT) (entry i d impl).
Hypothesis entry_kind_heap : ∀ i j d impl1 impl2 w1 w2,
  heap w1 = heap w2 → kind (entry i d impl1 w1) = kind (entry j d impl2 w2).
Hypothesis entry_pass_live : ∀ i d impl w,
  kind (entry i d impl w) = KNormal →
  live as_memory (heap w) (mb_memory d) ∧ live cast (heap w) (mb_resource d).
Hypothesis entry_defined : ∀ i d impl w,
  pointers_ok (heap w) d → kind (entry i d impl w) ≠ KUndefined.
Hypothesis entry_length : ∀ i d impl w impl' w',
  entry i d impl w = Normal impl' w' → length impl' = S (length impl).

(** The validation loop. *)
Lemma validation_loop descs : ∀ i impl w0 w,
  heap w0 = heap w →
  (∀ d, d ∈ descs → pointers_ok (heap w) d) →
  match for_loop i descs impl entry w0 with
  | Undefined => False
  | Returned r w' =>
      r = INVALID_ARGUMENT ∧ validated w0 w'
      ∧ ∃ d, d ∈ descs ∧ kind (entry 0 d [] w) = KReturned
  | Normal impl' w' =>
      validated w0 w'
      ∧ (∀ d, d ∈ descs → kind (entry 0 d [] w) = KNormal)
      ∧ length impl' = (length impl + length descs)%nat
  end.
Proof.
  induction descs as [|d descs IH]; intros i impl w0 w Hh Hok.
  - simpl. split; [reflexivity|]. split; [by intros ? ?%elem_of_nil|lia].
  - cbn [for_loop]. unfold bind at 1.
    pose proof (entry_validates i d impl w0) as Hval.
    pose proof (entry_kind_heap i 0 d impl [] w0 w Hh) as Hkind.
    pose proof (entry_defined 0 d [] w (Hok d ltac:(by left))) as Hdef.
    destruct (entry i d impl w0) as [|r w1|impl1 w1] eqn:Hentry.
    + simpl in Hkind. congruence.
    + destruct Hval as [Hv ->]. split; [done|]. split; [done|].
      exists d. split; [by left|]. by rewrite <- Hkind.
    + assert (heap w1 = heap w) as Hh1 by (destruct Hval as [Hh1 _]; congruence).
      specialize (IH (i + 1) impl1 w1 w Hh1 (λ d' Hd', Hok d' ltac:(by right))).
      apply entry_length in Hentry.
      destruct (for_loop (i + 1) descs impl1 entry w1) as [|r w2|impl2 w2]; [done| |].
      * destruct IH as (-> & Hv & d' & Hd' & Hk). split; [done|]. split; [by etrans|].
        exists d'. split; [by right|done].
      * destruct IH as (Hv & Hall & Hlen). split; [by etrans|]. split.
        -- intros d' [->|Hd']%elem_of_cons; [by rewrite <- Hkind|by apply Hall].
        -- simpl. lia.
Qed.

#[local] Instance grows_preorder : PreOrder (grows cast isBound).
Proof.
  split.
  - intros h. split; eauto.
  - intros h1 h2 h3 [Hr12 Hm12] [Hr23 Hm23]. split.
    + intros a v Hv. destruct (Hr12 a v Hv) as (v2 & Hv2 & Hb2).
      destruct (Hr23 a v2 Hv2) as (v3 & Hv3 & Hb3). eauto.
    + intros a m Hm. destruct (Hm12 a m Hm) as (m2 & Hm2 & Hs2).
      destruct (Hm23 a m2 Hm2) as (m3 & Hm3 & Hs3). exists m3. split; [done|set_solver].
Qed.

(** One recorded binding. *)
Lemma bind_one_spec (memory resource : Ptr) (w : World) :
  live as_memory (heap w) memory → live cast (heap w) resource →
  ∃ w' m r v,
    bind_one cast inj setBound memory resource w = Normal tt w'
    ∧ memory = Some m ∧ resource = Some r
    ∧ heap_only w w'
    ∧ grows cast isBound (heap w) (heap w')
    ∧ cast (heap w' !! r) = Some v ∧ isBound v = true
    ∧ ∃ mv, as_memory (heap w' !! m) = Some mv ∧ r ∈ memory_bound mv.
Proof.
  intros (m & mv & -> & Hmv) (r & rv & -> & Hrv).
  unfold bind_one. rewrite bind_deref with (v := mv) by done.
  rewrite bind_deref with (v := rv) by done. cbn [fst snd].
  pose proof (as_memory_Some _ _ Hmv) as Hm. pose proof (cast_Some _ _ Hrv) as Hr.
  assert (m ≠ r) as Hne.
  { intros ->. rewrite Hm in Hr. injection Hr as Hr.
    pose proof (inj_not_memory rv) as Hn. by rewrite <- Hr in Hn. }
  eexists _, m, r, (setBound rv). split; [reflexivity|].
  cbn [heap set_heap]. repeat split; try done.
  - intros a v Hv. destruct (decide (a = r)) as [->|Har].
    + rewrite lookup_insert_eq, cast_inj. eauto.
    + rewrite lookup_insert_ne by done. destruct (decide (a = m)) as [->|Ham].
      * rewrite Hm in Hv. apply cast_Some in Hv. injection Hv as Hv.
        pose proof (inj_not_memory v) as Hn. by rewrite <- Hv in Hn.
      * rewrite lookup_insert_ne by done. eauto.
  - intros a m0 Hm0. destruct (decide (a = r)) as [->|Har].
    + rewrite Hr in Hm0. by rewrite inj_not_memory in Hm0.
    + rewrite lookup_insert_ne by done. destruct (decide (a = m)) as [->|Ham].
      * rewrite lookup_insert_eq. rewrite Hmv in Hm0. injection Hm0 as <-.
        eexists. split; [reflexivity|]. simpl. set_solver.
      * rewrite lookup_insert_ne by done. eauto.
  - by rewrite lookup_insert_eq, cast_inj.
  - rewrite lookup_insert_ne, lookup_insert_eq by done.
    eexists. split; [reflexivity|]. simpl. set_solver.
Qed.

#[local] Instance heap_only_preorder : PreOrder heap_only.
Proof.
  split; [done|].
  intros w1 w2 w3 (? & ? & ? & ?) (? & ? & ? & ?). repeat split; congruence.
Qed.

(** The loop that records the bindings after a successful backend call. *)
Lemma record_loop descs : ∀ i w,
  (∀ d, d ∈ descs →
        live as_memory (heap w) (mb_memory d) ∧ live cast (heap w) (mb_resource d)) →
  ∃ w',
    for_loop i descs tt
      (λ _ desc _, bind_one cast inj setBound (mb_memory desc) (mb_resource desc)) w
    = Normal tt w'
    ∧ heap_only w w'
    ∧ grows cast isBound (heap w) (heap w')
    ∧ ∀ d, d ∈ descs →
           ∃ m r v mv,
             mb_memory d = Some m ∧ mb_resource d = Some r
             ∧ cast (heap w' !! r) = Some v ∧ isBound v = true
             ∧ as_memory (heap w' !! m) = Some mv ∧ r ∈ memory_bound mv.
Proof.
  induction descs as [|d descs IH]; intros i w Hlive.
  - exists w. split; [done|]. split; [reflexivity|]. split; [reflexivity|].
    intros d Hd. by apply elem_of_nil in Hd.
  - cbn [for_loop]. destruct (Hlive d ltac:(by left)) as [Hm Hr].
    destruct (bind_one_spec _ _ w Hm Hr)
      as (w1 & m & r & v & Heq & Hdm & Hdr & Hho & Hg & Hv & Hb & mv & Hmv & Hin).
    unfold bind at 1. rewrite Heq.
    destruct (IH (i + 1) w1) as (w2 & Heq2 & Hho2 & Hg2 & Hall).
    { intros d' Hd'. destruct (Hlive d' ltac:(by right))
        as [(m' & mv' & Hm' & Hmv') (r' & rv' & Hr' & Hrv')].
      destruct Hg as [Hgr Hgm]. split.
      - destruct (Hgm _ _ Hmv') as (? & ? & _). by eexists _, _.
      - destruct (Hgr _ _ Hrv') as (? & ? & _). by eexists _, _. }
    exists w2. split; [done|]. split; [by etrans|]. split; [by etrans|].
    intros d' [->|Hd']%elem_of_cons; [|by apply Hall].
    destruct Hg2 as [Hgr2 Hgm2].
    destruct (Hgr2 _ _ Hv) as (v2 & Hv2 & Hb2).
    destruct (Hgm2 _ _ Hmv) as (mv2 & Hmv2 & Hs2).
    exists m, r, v2, mv2. repeat split; try done; [by apply Hb2|set_solver].
Qed.

(** A batched bind of the common shape is all-or-nothing. *)
Lemma Bind_shape_all_or_nothing :
  batch_all_or_nothing entry entryPoint pointers_ok
    (λ descs backendResult,
       run (Bind_shape cast inj setBound entry entryPoint nullMessage descs backendResult)).
Proof.
  intros descs backendResult w Hok. unfold run, Bind_shape. msimpl.
  cbn [is_null negb elems_of].
  pose proof (validation_loop descs 0 [] w w eq_refl Hok) as Hloop.
  unfold bind at 1.
  destruct (for_loop 0 descs [] entry w) as [|r w1|impl w1]; [done| |].
  - destruct Hloop as (-> & (Hh & _ & _ & queries & Hcalls & Hq) & d & Hd & Hk).
    eexists _, _. split; [reflexivity|]. split; [|split; [|split]].
    + intros _. split; [done|]. split; [done|]. exists queries. split; [done|].
      intros c Hc. apply is_query_not_bind.
      rewrite forallb_forall in Hq. apply Hq. by apply list_elem_of_In.
    + done.
    + intros Hall. rewrite (Hall d Hd) in Hk. done.
    + done.
  - destruct Hloop as ((Hh & Ht & Hn & queries & Hcalls & Hq) & Hall & Hlen).
    msimpl.
    assert (∀ c, c ∈ queries → is_bind_call c = false) as Hqb.
    { intros c Hc. apply is_query_not_bind.
      rewrite forallb_forall in Hq. apply Hq. by apply list_elem_of_In. }
    assert (∀ r' w', (∃ d, d ∈ descs ∧ kind (entry 0 d [] w) = KReturned) →
                     r' = INVALID_ARGUMENT ∧ heap w' = heap w
                     ∧ ∃ cs, calls w' = calls w ++ cs ∧ ∀ c, c ∈ cs → is_bind_call c = false)
      as Hnofail.
    { intros r' w' (d & Hd & Hk). rewrite (Hall d Hd) in Hk. done. }
    destruct (decide (backendResult = SUCCESS)) as [->|Hfail].
    + destruct (record_loop descs 0 (log_call (entryPoint impl) w1))
        as (w3 & Heq & (_ & _ & Hc3 & _) & _ & Hrec).
      { intros d Hd. cbn [heap log_call]. rewrite Hh.
        eapply entry_pass_live. by apply Hall. }
      unfold bind at 1. rewrite Heq. msimpl.
      eexists _, _. split; [reflexivity|]. split; [by apply Hnofail|].
      split; [done|]. split.
      * intros _. split; [done|]. exists queries, impl. split; [|split; [done|]].
        -- rewrite Hc3. cbn [calls log_call]. by rewrite Hcalls, <- app_assoc.
        -- simpl in Hlen. lia.
      * intros _ d Hd. destruct (Hrec d Hd) as (m & r & v & mv & Hm & Hr & Hv & Hb & Hmv & Hin).
        exists m, r, (memory_bound mv). split; [done|]. split; [done|]. split; [|split].
        -- unfold bound_flag. apply cast_Some in Hv. rewrite Hv. simpl.
           by rewrite flag_inj, Hb.
        -- unfold bound_set. by rewrite Hmv.
        -- done.
    + msimpl. eexists _, _. split; [reflexivity|]. split; [by apply Hnofail|].
      split; [|split].
      * intros Hne. by cbn [heap log_call] in Hne.
      * intros _. split; [done|]. exists queries, impl. split; [|split; [done|]].
        -- cbn [calls log_call]. by rewrite Hcalls, <- app_assoc.
        -- simpl in Hlen. lia.
      * done.
Qed.

End BindShapeFacts.

Lemma BindBufferMemory_body_shape K Backend_GetBufferMemoryDesc :
  BindBufferMemory_body K Backend_GetBufferMemoryDesc
  = Bind_shape as_buffer PBuffer BufferVal_SetBoundToMemory
      (BindBufferMemory_entry K Backend_GetBufferMemoryDesc) Core_BindBufferMemory
      "'memoryBindingDescs' is NULL".
Proof. reflexivity. Qed.

Lemma BindTextureMemory_body_shape K Backend_GetTextureMemoryDesc :
  BindTextureMemory_body K Backend_GetTextureMemoryDesc
  = Bind_shape as_texture PTexture TextureVal_SetBoundToMemory
      (BindTextureMemory_entry K Backend_GetTextureMemoryDesc) Core_BindTextureMemory
      "'memoryBindingDescs' is a NULL".
Proof. reflexivity. Qed.

Lemma BindAccelerationStructureMemory_body_shape :
  BindAccelerationStructureMemory_body
  = Bind_shape as_accelerationStructure PAccelerationStructure
      AccelerationStructureVal_SetBoundToMemory BindAccelerationStructureMemory_entry
      RayTracing_BindAccelerationStructureMemory "'memoryBindingDescs' is NULL".
Proof. reflexivity. Qed.

(** C1. Each of [BindBufferMemory], [BindTextureMemory] and
    [BindAccelerationStructureMemory], on any list of entries whose
    dereferenced pointers are live (for the first two: absent, or live; for
    acceleration structures, which are dereferenced unchecked: live), is
    all-or-nothing in the sense of [batch_all_or_nothing]: if an entry fails
    validation the call returns [INVALID_ARGUMENT] with no binding entry
    point of the backend called and no bound flag or bound-set changed; a
    flag or bound-set changes only if the single batched backend call
    answered [SUCCESS], and then those of every entry are updated. A null
    array is rejected the same way. *)
Theorem C1_batched_bind_all_or_nothing (K : Constants)
    (Backend_GetBufferMemoryDesc : BufferDesc → N → MemoryDesc)
    (Backend_GetTextureMemoryDesc : TextureDesc → N → MemoryDesc) :
  batch_all_or_nothing (BindBufferMemory_entry K Backend_GetBufferMemoryDesc)
    Core_BindBufferMemory (entry_pointers_ok as_buffer)
    (BindBufferMemory K Backend_GetBufferMemoryDesc)
  ∧ batch_all_or_nothing (BindTextureMemory_entry K Backend_GetTextureMemoryDesc)
      Core_BindTextureMemory (entry_pointers_ok as_texture)
      (BindTextureMemory K Backend_GetTextureMemoryDesc)
  ∧ batch_all_or_nothing BindAccelerationStructureMemory_entry
      RayTracing_BindAccelerationStructureMemory
      (λ h d, live as_memory h (mb_memory d)
              ∧ live as_accelerationStructure h (mb_resource d))
      BindAccelerationStructureMemory
  ∧ (∀ num backendResult w,
       (∃ w', untouched w w'
              ∧ BindBufferMemory K Backend_GetBufferMemoryDesc (NullArray num)
                  backendResult w = Some (INVALID_ARGUMENT, w'))
       ∧ (∃ w', untouched w w'
                ∧ BindTextureMemory K Backend_GetTextureMemoryDesc (NullArray num)
                    backendResult w = Some (INVALID_ARGUMENT, w'))
       ∧ (∃ w', untouched w w'
                ∧ BindAccelerationStructureMemory (NullArray num) backendResult w
                  = Some (INVALID_ARGUMENT, w'))).
Proof.
  split; [|split; [|split]].
  - unfold BindBufferMemory. rewrite BindBufferMemory_body_shape.
    apply (Bind_shape_all_or_nothing as_buffer PBuffer BufferVal_SetBoundToMemory
             buffer_isBoundToMemory); try done;
      first [ apply as_buffer_Some | apply BindBufferMemory_entry_validates
            | apply BindBufferMemory_entry_kind_heap
            | apply BindBufferMemory_entry_pass_live
            | apply BindBufferMemory_entry_defined
            | apply BindBufferMemory_entry_length ]; assumption.
  - unfold BindTextureMemory. rewrite BindTextureMemory_body_shape.
    apply (Bind_shape_all_or_nothing as_texture PTexture TextureVal_SetBoundToMemory
             texture_isBoundToMemory); try done;
      first [ apply as_texture_Some | apply BindTextureMemory_entry_validates
            | apply BindTextureMemory_entry_kind_heap
            | apply BindTextureMemory_entry_pass_live
            | apply BindTextureMemory_entry_defined
            | apply BindTextureMemory_entry_length ]; assumption.
  - unfold BindAccelerationStructureMemory. rewrite BindAccelerationStructureMemory_body_shape.
    apply (Bind_shape_all_or_nothing as_accelerationStructure PAccelerationStructure
             AccelerationStructureVal_SetBoundToMemory as_isBoundToMemory); try done;
      first [ apply as_accelerationStructure_Some | apply BindAccelerationStructureMemory_entry_validates
            | apply BindAccelerationStructureMemory_entry_kind_heap
            | apply BindAccelerationStructureMemory_entry_pass_live
            | apply BindAccelerationStructureMemory_entry_defined
            | apply BindAccelerationStructureMemory_entry_length ]; assumption.
  - intros num backendResult w.
    repeat split; eexists; (split; [|reflexivity]); apply untouched_report.
Qed.

(** In the example world the batch of the unbound buffer at address 1 and
    the bound buffer at address 6 is rejected as a whole. *)
Lemma C1_batched_bind_all_or_nothing_witness :
  ∃ w', BindBufferMemory nri example_GetBufferMemoryDesc
          (Array [example_binding 4 1 0; example_binding 7 6 0]) SUCCESS example_world
        = Some (INVALID_ARGUMENT, w')
        ∧ heap w' = heap example_world.
Proof.
  destruct (proj1 (C1_batched_bind_all_or_nothing nri example_GetBufferMemoryDesc
                     example_GetTextureMemoryDesc)
              [example_binding 4 1 0; example_binding 7 6 0] SUCCESS example_world)
    as (result & w' & Heq & Hfail & _).
  - intros d Hd. right. right.
    apply elem_of_cons in Hd as [->|Hd]; [|apply elem_of_cons in Hd as [->|Hd]].
    + split; eexists _, _; (split; [reflexivity|by vm_compute]).
    + split; eexists _, _; (split; [reflexivity|by vm_compute]).
    + by apply elem_of_nil in Hd.
  - destruct Hfail as (-> & Hheap & _).
    + exists (example_binding 7 6 0). split; [right; by left|by vm_compute].
    + by exists w'.
Defined.

(** ** The lifetime of a bound flag (C4) *)

Lemma flags_kept_refl h : flags_kept h h.
Proof. by intros a b Hb. Qed.

Lemma no_bound_created_refl h : no_bound_created h h.
Proof. intros a Ha. by rewrite Ha. Qed.

Lemma no_bound_created_trans h1 h2 h3 :
  flags_kept h2 h3 → no_bound_created h1 h2 → no_bound_created h2 h3 →
  no_bound_created h1 h3.
Proof.
  intros Hk H12 H23 a Ha. specialize (H12 a Ha).
  destruct (bound_flag h2 a) as [[]|] eqn:H2; [done| |by apply H23].
  by rewrite (Hk a false H2).
Qed.


Lemma keeps_same_heap w w' :
  heap w' = heap w → next w' = next w → (∃ cs, calls w' = calls w ++ cs) → keeps w w'.
Proof.
  intros Hh Hn Hc. split; [|done]. intros Hf. split; [|split].
  - intros a. rewrite Hh, Hn. apply Hf.
  - rewrite Hh. apply flags_kept_refl.
  - rewrite Hh. apply no_bound_created_refl.
Qed.

#[local] Instance keeps_preorder : PreOrder keeps.
Proof.
  split.
  - intros w. apply keeps_same_heap; try done. exists []. by rewrite app_nil_r.
  - intros w1 w2 w3 [H12 [c12 Hc12]] [H23 [c23 Hc23]]. split.
    + intros Hf. destruct (H12 Hf) as (Hf2 & Hk12 & Hn12).
      destruct (H23 Hf2) as (Hf3 & Hk23 & Hn23).
      split; [done|]. split; [|by eapply no_bound_created_trans].
      intros a b Hb. by apply Hk23, Hk12.
    + exists (c12 ++ c23). by rewrite Hc23, Hc12, app_assoc.
Qed.

#[local] Instance raises_preorder : PreOrder raises.
Proof.
  split.
  - intros w. split; [|done]. intros Hf. split; [done|]. split; [|by intros a Ha].
    intros a b Hb. by left.
  - intros w1 w2 w3 [H12 Hc12] [H23 Hc23]. split; [|congruence].
    intros Hf. destruct (H12 Hf) as (Hf2 & Hr12 & Hn12).
    destruct (H23 Hf2) as (Hf3 & Hr23 & Hn23).
    split; [done|]. split; [|intros a Ha; by apply Hn23, Hn12].
    intros a b Hb.
    destruct (Hr12 a b Hb) as [Hb2|Hb2].
    + by apply Hr23.
    + right. by destruct (Hr23 a true Hb2).
Qed.

#[local] Instance keeps_report_insensitive : ReportInsensitive keeps.
Proof. intros w r. apply keeps_same_heap; try done. exists []. by rewrite app_nil_r. Qed.

#[local] Instance raises_report_insensitive : ReportInsensitive raises.
Proof.
  intros w r. split; [|done]. intros Hf. split; [done|]. split; [|by intros a Ha].
  intros a b Hb. by left.
Qed.





Lemma fresh_Allocate w p :
  fresh w → fresh (set_next (next w + 1) (set_heap (insert (next w) p) w)).
Proof.
  intros Hf a. cbn [heap next set_next set_heap].
  destruct (decide (a = next w)) as [->|Hne]; [lia|].
  rewrite lookup_insert_ne by done. intros Ha. specialize (Hf a Ha). lia.
Qed.










Lemma fresh_insert_live w a p :
  is_Some (heap w !! a) → fresh w → fresh (set_heap (insert a p) w).
Proof.
  intros Ha Hf a'. cbn [heap next set_heap].
  destruct (decide (a' = a)) as [->|Hne]; [intros _; by apply Hf|].
  rewrite lookup_insert_ne by done. apply Hf.
Qed.

Lemma fresh_delete w a : fresh w → fresh (set_heap (delete a) w).
Proof.
  intros Hf a'. cbn [heap next set_heap]. intros Ha. apply Hf.
  destruct (decide (a' = a)) as [->|Hne].
  - rewrite lookup_delete_eq in Ha. by destruct Ha.
  - by rewrite lookup_delete_ne in Ha.
Qed.

Lemma fresh_fmap w f : fresh w → fresh (set_heap (fmap f) w).
Proof.
  intros Hf a. cbn [heap next set_heap]. rewrite lookup_fmap.
  intros Ha. apply Hf. destruct (heap w !! a); [done|by destruct Ha].
Qed.

Lemma bound_flag_remove_bound h a a' :
  bound_flag (remove_bound a <$> h) a' = bound_flag h a'.
Proof.
  unfold bound_flag. rewrite lookup_fmap. by destruct (h !! a') as [[]|].
Qed.

Lemma triple_run {R} (I : World → World → Prop) (E : R → Prop) (m : M R R) w r w' :
  triple I E m → run m w = Some (r, w') → I w w'.
Proof.
  intros Hm Hrun. specialize (Hm w). unfold run in Hrun.
  destruct (m w) as [|r0 w0|r0 w0]; [done| |]; injection Hrun as <- <-; [by destruct Hm|done].
Qed.

Lemma triple_run_out (I : World → World → Prop) (E : Result → Prop)
    (m : M Result (Result * Ptr)) out w r out' w' :
  triple I E m → run_out m out w = Some (r, out', w') → I w w'.
Proof.
  intros Hm Hrun. specialize (Hm w). unfold run_out in Hrun.
  destruct (m w) as [|r0 w0|[r0 p0] w0]; [done| |]; injection Hrun as <- <- <-;
    [by destruct Hm|done].
Qed.


Section Keeps.
Context (K : Constants).

Lemma keeps_creates_bound r w w' : keeps w w' → creates_bound r w w'.
Proof. intros [Hk _] Hf. destruct (Hk Hf) as (Hf' & Hkept & Hn). by repeat split. Qed.

#[local] Instance creates_bound_preorder r : PreOrder (creates_bound r).
Proof.
  split.
  - intros w. apply keeps_creates_bound. reflexivity.
  - intros w1 w2 w3 H12 H23 Hf. destruct (H12 Hf) as (Hf2 & Hk12 & Hn12).
    destruct (H23 Hf2) as (Hf3 & Hk23 & Hn23).
    split; [done|]. split.
    + intros a b Hb. by apply Hk23, Hk12.
    + intros Hr. eapply no_bound_created_trans; [exact Hk23|by apply Hn12|by apply Hn23].
Qed.

#[local] Instance creates_bound_report_insensitive r : ReportInsensitive (creates_bound r).
Proof. intros w rep. apply keeps_creates_bound, report_insensitive. Qed.












End Keeps.

Lemma bound_flag_memory h a m : as_memory (h !! a) = Some m → bound_flag h a = None.
Proof. intros Hm%as_memory_Some. unfold bound_flag. by rewrite Hm. Qed.

Lemma bound_flag_descriptor h a d : as_descriptor (h !! a) = Some d → bound_flag h a = None.
Proof.
  unfold bound_flag. destruct (h !! a) as [[]|]; simpl; congruence.
Qed.










Section RecordFacts.

Context {A : Type}.
Context (cast : option Proxy → option A) (inj : A → Proxy) (setBound : A → A).
Context (isBound : A → bool).

Hypothesis cast_Some : ∀ o v, cast o = Some v → o = Some (inj v).
Hypothesis flag_inj : ∀ v, proxy_flag (inj v) = Some (isBound v).
Hypothesis setBound_bound : ∀ v, isBound (setBound v) = true.


End RecordFacts.


#[local] Instance asks_preorder : PreOrder asks.
Proof.
  split.
  - intros w. repeat split. exists []. by rewrite app_nil_r.
  - intros w1 w2 w3 (Hh12 & Hn12 & c12 & Hc12) (Hh23 & Hn23 & c23 & Hc23).
    split; [congruence|]. split; [congruence|].
    exists (c12 ++ c23). by rewrite Hc23, Hc12, app_assoc.
Qed.

#[local] Instance asks_report_insensitive : ReportInsensitive asks.
Proof. intros w r. repeat split. exists []. by rewrite app_nil_r. Qed.

Lemma asks_call w c : asks w (log_call c w).
Proof. repeat split. by exists [c]. Qed.




Section BindShapeBinds.

Context {A : Type}.
Context (cast : option Proxy → option A) (inj : A → Proxy) (setBound : A → A).
Context (isBound : A → bool).
Context (entry : N → MemoryBindingDesc → list MemoryBindingImplDesc
                 → M Result (list MemoryBindingImplDesc)).
Context (entryPoint : list MemoryBindingImplDesc → BackendCall).
Context (nullMessage : string).

Hypothesis cast_Some : ∀ o v, cast o = Some v → o = Some (inj v).
Hypothesis flag_inj : ∀ v, proxy_flag (inj v) = Some (isBound v).
Hypothesis setBound_bound : ∀ v, isBound (setBound v) = true.
Hypothesis entry_validates : ∀ i d impl,
  triple validated (λ r, r = INVALID_ARGUMENT) (entry i d impl).
Hypothesis entryPoint_bind : ∀ impl, is_bind_call (entryPoint impl) = true.


End BindShapeBinds.

Section AllocateAndBind.
Context (K : Constants).

Lemma CalculateAllocationNumber_asks d n :
  triple asks (λ _, True) (CalculateAllocationNumber_body K d n).
Proof.
  unfold CalculateAllocationNumber_body, ResourceGroup_buffers, ResourceGroup_textures.
  triple_tac; try done; intros; apply asks_call.
Qed.

Lemma AllocateAndBindMemory_prepare_asks d isNull n :
  triple asks (λ _, True) (AllocateAndBindMemory_prepare K d isNull n).
Proof.
  unfold AllocateAndBindMemory_prepare, ResourceGroup_buffers, ResourceGroup_textures.
  triple_tac; try done; try (intros; apply asks_call). apply CalculateAllocationNumber_asks.
Qed.





End AllocateAndBind.

Section Steps.
Context (K : Constants).
Context (Backend_GetBufferMemoryDesc : BufferDesc → N → MemoryDesc).
Context (Backend_GetTextureMemoryDesc : TextureDesc → N → MemoryDesc).

Notation exec := (exec K Backend_GetBufferMemoryDesc Backend_GetTextureMemoryDesc).
Notation run_all := (exec_all K Backend_GetBufferMemoryDesc Backend_GetTextureMemoryDesc).
Notation reachable :=
  (reachable K Backend_GetBufferMemoryDesc Backend_GetTextureMemoryDesc).

Lemma fmap_snd_Some {A B} (o : option (A * B)) (b : B) :
  snd <$> o = Some b → ∃ a, o = Some (a, b).
Proof. destruct o as [[a b']|]; [|done]. intros [= <-]. by exists a. Qed.








End Steps.

Lemma reachable_exec_all K Backend_GetBufferMemoryDesc Backend_GetTextureMemoryDesc ops :
  ∀ w w',
    reachable K Backend_GetBufferMemoryDesc Backend_GetTextureMemoryDesc w →
    exec_all K Backend_GetBufferMemoryDesc Backend_GetTextureMemoryDesc ops w = Some w' →
    reachable K Backend_GetBufferMemoryDesc Backend_GetTextureMemoryDesc w'.
Proof.
  induction ops as [|op ops IH]; intros w w' Hreach Hexec.
  - by injection Hexec as <-.
  - cbn [exec_all] in Hexec.
    destruct (exec K Backend_GetBufferMemoryDesc Backend_GetTextureMemoryDesc op w)
      as [w1|] eqn:Hop; [|done].
    apply (IH w1); [|done]. by eapply reachable_step.
Defined.



(** * Further properties of the entry points *)

(** ** Memory types and allocation *)

Lemma float_in_range_spec (p : float32) :
  float_ge_const p (-1)%Q && float_le_const p 1%Q = true ↔ priority_in_range p.
Proof.
  destruct p as [|negative|q]; simpl.
  - done.
  - by destruct negative.
  - rewrite andb_true_iff, !Qle_bool_iff. done.
Qed.

Lemma bind_find_memoryType {R B} t (k : option N → M R B) w :
  bind (find_memoryType t) k w = k (m_MemoryTypeMap w !! t) w.
Proof. done. Qed.

(** X1. [AllocateMemory] calls the backend exactly when the size is not
    zero, the priority is a number within [-1, 1] (a NaN or an infinity is
    refused) and the memory type has been registered. A zero size or a bad
    priority gives [INVALID_ARGUMENT], an unregistered type gives [FAILURE];
    in both cases nothing but an error report is added and the handle
    variable is left as it was. Otherwise the answer of the backend is the
    result, and after [SUCCESS] the new Memory has the size of the
    descriptor, the location registered for its type and an empty
    bound-set. *)
Theorem X1_AllocateMemory_acceptance (allocateMemoryDesc : AllocateMemoryDesc)
    (backendResult : Result) (memoryImpl : handle) (memory : Ptr) (w : World) :
  (am_size allocateMemoryDesc = 0 ∨ ¬ priority_in_range (am_priority allocateMemoryDesc) →
   ∃ w', AllocateMemory allocateMemoryDesc backendResult memoryImpl memory w
         = Some (INVALID_ARGUMENT, memory, w')
         ∧ untouched w w')
  ∧ (am_size allocateMemoryDesc ≠ 0 → priority_in_range (am_priority allocateMemoryDesc) →
     (m_MemoryTypeMap w !! am_type allocateMemoryDesc = None →
      ∃ w', AllocateMemory allocateMemoryDesc backendResult memoryImpl memory w
            = Some (FAILURE, memory, w')
            ∧ untouched w w')
     ∧ (∀ location,
          m_MemoryTypeMap w !! am_type allocateMemoryDesc = Some location →
          ∃ memory' w',
            AllocateMemory allocateMemoryDesc backendResult memoryImpl memory w
            = Some (backendResult, memory', w')
            ∧ calls w' = calls w ++ [Core_AllocateMemory allocateMemoryDesc]
            ∧ reports w' = reports w
            ∧ (backendResult = SUCCESS →
               memory' = Some (next w)
               ∧ heap w' = <[next w := new_memory memoryImpl (am_size allocateMemoryDesc)
                                         location]> (heap w))
            ∧ (backendResult ≠ SUCCESS → memory' = memory ∧ heap w' = heap w))).
Proof.
  unfold AllocateMemory, run_out, AllocateMemory_body. split.
  - intros Hbad. msimpl.
    destruct (N.ltb_spec 0 (am_size allocateMemoryDesc)) as [Hsize|Hsize].
    2:{ eexists. by split. }
    destruct Hbad as [Hzero|Hprio]; [lia|].
    destruct (float_ge_const _ _ && float_le_const _ _) eqn:Hp.
    { by apply float_in_range_spec in Hp. }
    eexists. by split.
  - intros Hsize Hprio. msimpl.
    destruct (N.ltb_spec 0 (am_size allocateMemoryDesc)) as [_|?]; [|lia].
    apply float_in_range_spec in Hprio. rewrite Hprio.
    rewrite bind_find_memoryType. split.
    + intros Hnone. rewrite Hnone. msimpl. rewrite bool_decide_eq_false_2 by (by intros []).
      eexists. by split.
    + intros location Hsome. rewrite Hsome. msimpl.
      rewrite bool_decide_eq_true_2 by done. cbn [project]. msimpl.
      destruct (decide (backendResult = SUCCESS)) as [->|Hne].
      * msimpl. eexists _, _. split; [reflexivity|]. by repeat split.
      * eexists _, _. split; [reflexivity|]. by repeat split.
Qed.

(** A NaN priority is refused; in the example world, where type 7 is
    registered, the example descriptor reaches the backend. *)
Lemma X1_AllocateMemory_acceptance_witness :
  (∃ w', AllocateMemory {| am_size := 16; am_type := 7; am_priority := FNaN |}
           SUCCESS 110 None example_world = Some (INVALID_ARGUMENT, None, w')
         ∧ untouched example_world w')
  ∧ ∃ memory' w',
      AllocateMemory example_allocateMemoryDesc SUCCESS 110 None example_world
      = Some (SUCCESS, memory', w')
      ∧ memory' = Some 10.
Proof.
  pose proof (X1_AllocateMemory_acceptance {| am_size := 16; am_type := 7;
                                              am_priority := FNaN |}
                SUCCESS 110 None example_world) as [Hbad _].
  pose proof (X1_AllocateMemory_acceptance example_allocateMemoryDesc
                SUCCESS 110 None example_world) as [_ Hgood].
  split.
  - apply Hbad. right. simpl. tauto.
  - destruct (Hgood ltac:(done) ltac:(by vm_compute)) as [_ Hsome].
    destruct (Hsome 0 eq_refl) as (memory' & w' & Heq & _ & _ & Hsucc & _).
    exists memory', w'. split; [done|]. by apply Hsucc.
Defined.

(** X2. A memory type registered by [RegisterMemoryType] is the location of
    the memories allocated with that type afterwards: the last registration
    of a type wins, and registering one type changes nothing for a memory
    of another type. *)
Theorem X2_RegisterMemoryType_AllocateMemory (memoryType memoryLocation : N)
    (allocateMemoryDesc : AllocateMemoryDesc) (backendResult : Result)
    (memoryImpl : handle) (memory : Ptr) (w : World) :
  am_size allocateMemoryDesc ≠ 0 → priority_in_range (am_priority allocateMemoryDesc) →
  ∃ w1,
    run (RegisterMemoryType memoryType memoryLocation) w = Some (tt, w1)
    ∧ heap w1 = heap w ∧ calls w1 = calls w ∧ reports w1 = reports w ∧ next w1 = next w
    ∧ (am_type allocateMemoryDesc = memoryType →
       ∃ w2, AllocateMemory allocateMemoryDesc SUCCESS memoryImpl memory w1
             = Some (SUCCESS, Some (next w), w2)
             ∧ heap w2 = <[next w := new_memory memoryImpl (am_size allocateMemoryDesc)
                                       memoryLocation]> (heap w))
    ∧ (am_type allocateMemoryDesc ≠ memoryType →
       ∀ result memory' w2,
         AllocateMemory allocateMemoryDesc backendResult memoryImpl memory w
         = Some (result, memory', w2) →
         ∃ w2', AllocateMemory allocateMemoryDesc backendResult memoryImpl memory w1
                = Some (result, memory', w2')
                ∧ heap w2' = heap w2 ∧ calls w2' = calls w2 ∧ reports w2' = reports w2).
Proof.
  intros Hsize Hprio. eexists. split; [reflexivity|].
  cbn [heap calls reports next set_memoryTypeMap]. repeat split.
  - intros Htype.
    unfold AllocateMemory, run_out, AllocateMemory_body. msimpl.
    destruct (N.ltb_spec 0 (am_size allocateMemoryDesc)) as [_|?]; [|lia].
    apply float_in_range_spec in Hprio. rewrite Hprio.
    rewrite bind_find_memoryType. cbn [m_MemoryTypeMap set_memoryTypeMap].
    rewrite Htype, lookup_insert_eq. msimpl. rewrite bool_decide_eq_true_2 by done.
    cbn [project]. msimpl. rewrite decide_True by done. msimpl.
    eexists. by split.
  - intros Htype result memory' w2.
    unfold AllocateMemory, run_out, AllocateMemory_body. msimpl.
    destruct (0 <? am_size allocateMemoryDesc).
    2:{ intros [= <- <- <-]. eexists. by split. }
    destruct (float_ge_const _ _ && float_le_const _ _).
    2:{ intros [= <- <- <-]. eexists. by split. }
    rewrite !bind_find_memoryType. cbn [m_MemoryTypeMap set_memoryTypeMap].
    rewrite lookup_insert_ne by done.
    destruct (m_MemoryTypeMap w !! am_type allocateMemoryDesc) as [location|]; msimpl.
    2:{ rewrite bool_decide_eq_false_2 by (by intros []).
        intros [= <- <- <-]. eexists. by split. }
    rewrite bool_decide_eq_true_2 by done. cbn [project]. msimpl.
    destruct (decide (backendResult = SUCCESS)); msimpl;
      intros [= <- <- <-]; eexists; by split.
Qed.

(** Type 3 registered for location 2, twice over location 1: a memory of
    type 3 allocated afterwards is in location 2. *)
Lemma X2_RegisterMemoryType_AllocateMemory_witness :
  ∃ w0 w1 w2,
    run (RegisterMemoryType 3 1) example_world = Some (tt, w0)
    ∧ run (RegisterMemoryType 3 2) w0 = Some (tt, w1)
    ∧ AllocateMemory {| am_size := 64; am_type := 3; am_priority := FFinite 1%Q |}
        SUCCESS 110 None w1 = Some (SUCCESS, Some 10, w2)
    ∧ heap w2 !! 10 = Some (new_memory 110 64 2).
Proof.
  eexists. 
  destruct (X2_RegisterMemoryType_AllocateMemory 3 2
              {| am_size := 64; am_type := 3; am_priority := FFinite 1%Q |}
              SUCCESS 110 None
              (set_memoryTypeMap (insert 3 1) example_world)
              ltac:(done) ltac:(by vm_compute))
    as (w1 & Hreg & _ & _ & _ & _ & Halloc & _).
  destruct (Halloc eq_refl) as (w2 & Heq & Hheap).
  exists w1, w2. split; [reflexivity|]. split; [exact Hreg|]. split; [exact Heq|].
  rewrite Hheap. apply lookup_insert_eq.
Defined.

(** ** Loops of checks *)

Lemma bind_Normal {R A B} (m : M R A) (k : A → M R B) w a w' :
  m w = Normal a w' → bind m k w = k a w'.
Proof. intros H. unfold bind. by rewrite H. Qed.

Lemma bind_Returned {R A B} (m : M R A) (k : A → M R B) w r w' :
  m w = Returned r w' → bind m k w = Returned r w'.
Proof. intros H. unfold bind. by rewrite H. Qed.

Lemma bind_Undefined {R A B} (m : M R A) (k : A → M R B) w :
  m w = Undefined → bind m k w = Undefined.
Proof. intros H. unfold bind. by rewrite H. Qed.

(** A loop whose body only checks its element: it runs through exactly when
    every element passes, the world as it was, and otherwise returns with
    the world untouched. [Q] is what is known of the elements beforehand
    and [U] what an undefined run tells. *)
Lemma for_loop_checks {A} (U : Prop) (Q P : A → Prop)
    (body : N → A → unit → M Result unit) (l : list A) :
  (∀ i x w, Q x → match body i x tt w with
                  | Undefined => U
                  | Returned r w' => r = INVALID_ARGUMENT ∧ untouched w w' ∧ ¬ P x
                  | Normal _ w' => w' = w ∧ P x
                  end) →
  Forall Q l →
  ∀ i w, match for_loop i l tt body w with
         | Undefined => U
         | Returned r w' => r = INVALID_ARGUMENT ∧ untouched w w' ∧ ¬ Forall P l
         | Normal _ w' => w' = w ∧ Forall P l
         end.
Proof.
  intros Hbody. induction l as [|x l IH]; intros HQ i w.
  - simpl. by split.
  - apply Forall_cons in HQ as [HQx HQ].
    cbn [for_loop]. unfold bind at 1. specialize (Hbody i x w HQx).
    destruct (body i x tt w) as [|r w1|[] w1]; [done| |].
    + destruct Hbody as (-> & Hw & Hx). split; [done|]. split; [done|].
      intros Hall. by apply Forall_cons in Hall as [? _].
    + destruct Hbody as [-> Hx]. specialize (IH HQ (i + 1) w).
      destruct (for_loop (i + 1) l tt body w) as [|r w2|[] w2]; [done| |].
      * destruct IH as (-> & Hw & Hl). split; [done|]. split; [done|].
        intros Hall. by apply Forall_cons in Hall as [_ ?].
      * destruct IH as [-> Hl]. split; [done|]. by apply Forall_cons.
Qed.

(** ** The descriptor ranges of a pipeline layout *)

Lemma land_subset x y : x = N.land x y ↔ stages_subset x y.
Proof.
  unfold stages_subset. split.
  - intros Heq k Hk. rewrite Heq, N.land_spec in Hk. by apply andb_true_iff in Hk as [_ ?].
  - intros Hsub. apply N.bits_inj. intros k. rewrite N.land_spec.
    destruct (N.testbit x k) eqn:Hk; [|done]. by rewrite (Hsub k Hk).
Qed.

Lemma PipelineLayout_range_checks_spec K pipelineLayoutDesc i j range w :
  dr_shaderStages range < 2 ^ 32 →
  match PipelineLayout_range_checks K pipelineLayoutDesc i j range w with
  | Undefined => False
  | Returned r w' =>
      r = INVALID_ARGUMENT ∧ untouched w w'
      ∧ ¬ range_ok K (pl_shaderStages pipelineLayoutDesc) range
  | Normal _ w' => w' = w ∧ range_ok K (pl_shaderStages pipelineLayoutDesc) range
  end.
Proof.
  intros H32. unfold PipelineLayout_range_checks, range_ok. msimpl.
  destruct (dr_isDescriptorNumVariable range) eqn:Hvar, (dr_isArray range) eqn:Harr;
    cbn [negb orb];
    try (split; [done|]; split; [done|]; intros (Hv & _); by specialize (Hv eq_refl)).
  all: destruct (N.ltb_spec 0 (dr_descriptorNum range)) as [Hnum|Hnum];
    [|split; [done|]; split; [done|]; intros (_ & ? & _); lia].
  all: destruct (N.ltb_spec (dr_descriptorType range) (DescriptorType_MAX_NUM K))
         as [Hty|Hty];
    [|split; [done|]; split; [done|]; intros (_ & _ & ? & _); lia].
  all: destruct (N.eqb_spec (dr_shaderStages range) (StageBits_ALL K)) as [Hall|Hall];
    cbn [negb]; [cbv [ret]; split; [done|]; repeat split; try done; try lia; by left|].
  all: rewrite u32_small by done.
  all: destruct (N.eqb_spec (dr_shaderStages range)
                   (N.land (dr_shaderStages range) (pl_shaderStages pipelineLayoutDesc)))
         as [Hsub|Hsub].
  all: try (split; [done|]; repeat split; try done; try lia; right; by apply land_subset).
  all: split; [done|]; split; [done|]; intros (_ & _ & _ & [?|Hs]); [done|];
    by apply land_subset in Hs.
Qed.

(** X3. Once the stage mask of a pipeline-layout descriptor has passed,
    [CreatePipelineLayout] calls the backend exactly when every descriptor
    range of every set is well formed: a range of variable size is an
    array, no range is empty, every descriptor type is one of the
    enumeration, and every range is visible to all stages
    ([StageBits::ALL]) or to stages of the layout only. Otherwise the call
    returns [INVALID_ARGUMENT], the world untouched but for the report. *)
Theorem X3_CreatePipelineLayout_ranges (K : Constants)
    (pipelineLayoutDesc : PipelineLayoutDesc) (backendResult : Result)
    (pipelineLayoutImpl : handle) (pipelineLayout : Ptr) (w : World) :
  Forall (λ set, Forall (λ range, dr_shaderStages range < 2 ^ 32) (ds_ranges set))
         (pl_descriptorSets pipelineLayoutDesc) →
  PipelineLayout_stage_checks K pipelineLayoutDesc w = Normal tt w →
  (ranges_ok K pipelineLayoutDesc →
   ∃ pipelineLayout' w',
     CreatePipelineLayout K pipelineLayoutDesc backendResult pipelineLayoutImpl
       pipelineLayout w = Some (backendResult, pipelineLayout', w')
     ∧ calls w' = calls w ++ [Core_CreatePipelineLayout pipelineLayoutDesc])
  ∧ (¬ ranges_ok K pipelineLayoutDesc →
     ∃ w',
       CreatePipelineLayout K pipelineLayoutDesc backendResult pipelineLayoutImpl
         pipelineLayout w = Some (INVALID_ARGUMENT, pipelineLayout, w')
       ∧ untouched w w').
Proof.
  intros H32 Hstages.
  unfold CreatePipelineLayout, run_out, CreatePipelineLayout_body, ranges_ok.
  rewrite (bind_Normal _ _ _ _ _ Hstages).
  set (body := λ (i : N) (descriptorSetDesc : DescriptorSetDesc) (_ : unit),
         for_loop 0 (ds_ranges descriptorSetDesc) tt
           (λ j range _, PipelineLayout_range_checks K pipelineLayoutDesc i j range)).
  set (P := λ set : DescriptorSetDesc,
         Forall (range_ok K (pl_shaderStages pipelineLayoutDesc)) (ds_ranges set)).
  pose proof (for_loop_checks False
                (λ set, Forall (λ range, dr_shaderStages range < 2 ^ 32) (ds_ranges set))
                P body (pl_descriptorSets pipelineLayoutDesc)) as Hloop.
  specialize (Hloop (λ i set w0 Hset,
                       for_loop_checks False (λ range, dr_shaderStages range < 2 ^ 32)
                         (range_ok K (pl_shaderStages pipelineLayoutDesc)) _ (ds_ranges set)
                         (λ j range w1 Hrange,
                            PipelineLayout_range_checks_spec K pipelineLayoutDesc i j range
                              w1 Hrange)
                         Hset 0 w0)).
  specialize (Hloop H32 0 w).
  destruct (for_loop 0 (pl_descriptorSets pipelineLayoutDesc) tt body w)
    as [|r w1|[] w1] eqn:Hl; [done| |].
  - rewrite (bind_Returned _ _ _ _ _ Hl).
    destruct Hloop as (-> & Hw & Hn). split; [intros Hok; by destruct Hn|].
    intros _. eexists. by split.
  - rewrite (bind_Normal _ _ _ _ _ Hl).
    destruct Hloop as [-> Hall]. split; [|intros Hn; by destruct Hn]. intros _. msimpl.
    destruct (decide (backendResult = SUCCESS)); msimpl; eexists _, _; by split.
Qed.

(** In the example a second range visible to the vertex stage (bit 1) is
    let through, and one visible to the compute stage (bit 10) is refused:
    the layout is of the graphics family. *)
Lemma X3_CreatePipelineLayout_ranges_witness :
  (∃ pipelineLayout' w',
     CreatePipelineLayout nri (example_rangesDesc 2) SUCCESS 120 None example_world
     = Some (SUCCESS, pipelineLayout', w')
     ∧ calls w' = calls example_world ++ [Core_CreatePipelineLayout (example_rangesDesc 2)])
  ∧ (∃ w',
       CreatePipelineLayout nri (example_rangesDesc 1024) SUCCESS 120 None example_world
       = Some (INVALID_ARGUMENT, None, w')
       ∧ untouched example_world w').
Proof.
  split.
  - refine (proj1 (X3_CreatePipelineLayout_ranges nri (example_rangesDesc 2) SUCCESS 120
                     None example_world _ eq_refl) _).
    + repeat constructor; by vm_compute.
    + unfold ranges_ok. cbn. repeat (apply Forall_cons; split); try apply Forall_nil; try exact I.
      * split; [done|]. split; [done|]. split; [by vm_compute|]. by left.
      * split; [done|]. split; [done|]. split; [by vm_compute|]. right.
        intros k Hk. change (N.testbit (2 ^ 1) k = true) in Hk.
        rewrite N.pow2_bits_eqb in Hk. apply N.eqb_eq in Hk as <-. done.
  - refine (proj2 (X3_CreatePipelineLayout_ranges nri (example_rangesDesc 1024) SUCCESS 120
                     None example_world _ eq_refl) _).
    + repeat constructor; by vm_compute.
    + intros Hok. apply Forall_cons in Hok as [Hset _].
      apply Forall_cons in Hset as [_ Hset]. apply Forall_cons in Hset as [Hrange _].
      destruct Hrange as (_ & _ & _ & [Hall|Hsub]); [done|].
      specialize (Hsub 10 eq_refl). done.
Defined.

(** ** Colour attachments and vertex attributes of a graphics pipeline *)






(** ** Binding twice, and freeing what is bound *)

Section EntryUnbound.
Context (K : Constants).
Context (Backend_GetBufferMemoryDesc : BufferDesc → N → MemoryDesc).
Context (Backend_GetTextureMemoryDesc : TextureDesc → N → MemoryDesc).

Ltac pass_unbound_tac :=
  repeat first [progress mfull | progress branch_cases]; cbn [kind]; intros;
  try discriminate;
  eexists; (split; [reflexivity|]); unfold bound_flag;
  repeat match goal with
         | H : as_buffer _ = Some _ |- _ => apply as_buffer_Some in H; rewrite H
         | H : as_texture _ = Some _ |- _ => apply as_texture_Some in H; rewrite H
         | H : as_accelerationStructure _ = Some _ |- _ =>
             apply as_accelerationStructure_Some in H; rewrite H
         end;
  cbn;
  repeat match goal with
         | H : negb _ = true |- _ => apply negb_true_iff in H
         end;
  congruence.

Lemma BindBufferMemory_entry_pass_unbound i d impl w :
  kind (BindBufferMemory_entry K Backend_GetBufferMemoryDesc i d impl w) = KNormal →
  ∃ resource, mb_resource d = Some resource
              ∧ bound_flag (heap w) resource = Some false.
Proof. unfold BindBufferMemory_entry. pass_unbound_tac. Qed.

Lemma BindTextureMemory_entry_pass_unbound i d impl w :
  kind (BindTextureMemory_entry K Backend_GetTextureMemoryDesc i d impl w) = KNormal →
  ∃ resource, mb_resource d = Some resource
              ∧ bound_flag (heap w) resource = Some false.
Proof. unfold BindTextureMemory_entry. pass_unbound_tac. Qed.

Lemma BindAccelerationStructureMemory_entry_pass_unbound i d impl w :
  kind (BindAccelerationStructureMemory_entry i d impl w) = KNormal →
  ∃ resource, mb_resource d = Some resource
              ∧ bound_flag (heap w) resource = Some false.
Proof. unfold BindAccelerationStructureMemory_entry. pass_unbound_tac. Qed.

End EntryUnbound.

Lemma free_refused_intro (memory : addr) (m : MemoryVal) (w : World) :
  as_memory (heap w !! memory) = Some m → memory_bound m ≠ ∅ → free_refused memory w.
Proof.
  intros Hm Hbound. unfold free_refused, FreeMemory, FreeMemory_body, run.
  rewrite bind_deref with (v := m) by done. cbn [snd]. unfold HasBoundResources.
  rewrite bool_decide_eq_true_2 by done. msimpl.
  destruct (ReportBoundResources_spec (R := unit) m w) as (w1 & rs & Heq & Hw1 & _).
  unfold bind at 1. rewrite Heq. msimpl.
  eexists. split; [reflexivity|]. etrans; [done|]. apply untouched_report.
Qed.

Section BindShapeMore.

Context {A : Type}.
Context (cast : option Proxy → option A) (inj : A → Proxy) (setBound : A → A).
Context (isBound : A → bool).
Context (entry : N → MemoryBindingDesc → list MemoryBindingImplDesc
                 → M Result (list MemoryBindingImplDesc)).
Context (entryPoint : list MemoryBindingImplDesc → BackendCall).
Context (nullMessage : string).

Hypothesis cast_Some : ∀ o v, cast o = Some v → o = Some (inj v).
Hypothesis cast_inj : ∀ v, cast (Some (inj v)) = Some v.
Hypothesis inj_not_memory : ∀ v, as_memory (Some (inj v)) = None.
Hypothesis flag_inj : ∀ v, proxy_flag (inj v) = Some (isBound v).
Hypothesis setBound_bound : ∀ v, isBound (setBound v) = true.

Hypothesis entry_validates : ∀ i d impl,
  triple validated (λ r, r = INVALID_ARGUMENT) (entry i d impl).
Hypothesis entry_kind_heap : ∀ i j d impl1 impl2 w1 w2,
  heap w1 = heap w2 → kind (entry i d impl1 w1) = kind (entry j d impl2 w2).
Hypothesis entry_pass_live : ∀ i d impl w,
  kind (entry i d impl w) = KNormal →
  live as_memory (heap w) (mb_memory d) ∧ live cast (heap w) (mb_resource d).
Hypothesis entry_pass_unbound : ∀ i d impl w,
  kind (entry i d impl w) = KNormal →
  ∃ resource, mb_resource d = Some resource ∧ bound_flag (heap w) resource = Some false.
Hypothesis entry_length : ∀ i d impl w impl' w',
  entry i d impl w = Normal impl' w' → length impl' = S (length impl).

(** The validation loop, of a run that may be undefined. *)
Lemma validation_loop_partial descs : ∀ i impl w0 w,
  heap w0 = heap w →
  match for_loop i descs impl entry w0 with
  | Undefined => True
  | Returned r w' => r = INVALID_ARGUMENT ∧ validated w0 w'
  | Normal impl' w' =>
      validated w0 w' ∧ ∀ d, d ∈ descs → kind (entry 0 d [] w) = KNormal
  end.
Proof.
  induction descs as [|d descs IH]; intros i impl w0 w Hh.
  - simpl. split; [reflexivity|]. by intros ? ?%elem_of_nil.
  - cbn [for_loop]. unfold bind at 1.
    pose proof (entry_validates i d impl w0) as Hval.
    pose proof (entry_kind_heap i 0 d impl [] w0 w Hh) as Hkind.
    destruct (entry i d impl w0) as [|r w1|impl1 w1] eqn:Hentry; [done| |].
    + by destruct Hval as [Hv ->].
    + assert (heap w1 = heap w) as Hh1 by (destruct Hval as [Hh1 _]; congruence).
      specialize (IH (i + 1) impl1 w1 w Hh1).
      destruct (for_loop (i + 1) descs impl1 entry w1) as [|r w2|impl2 w2]; [done| |].
      * destruct IH as [-> Hv]. split; [done|]. by etrans.
      * destruct IH as [Hv Hall]. split; [by etrans|].
        intros d' [->|Hd']%elem_of_cons; [by rewrite <- Hkind|by apply Hall].
Qed.

(** The two ways a batched bind of the common shape returns: refused, with
    no proxy changed and no binding entry point called; or validated, with
    the answer of the backend, the bindings recorded after [SUCCESS] and
    no proxy changed otherwise. *)
Lemma Bind_shape_outcome descs backendResult w result w' :
  run (Bind_shape cast inj setBound entry entryPoint nullMessage descs backendResult) w
  = Some (result, w') →
  (result = INVALID_ARGUMENT ∧ heap w' = heap w
   ∧ ∃ cs, calls w' = calls w ++ cs ∧ ∀ c, c ∈ cs → is_bind_call c = false)
  ∨ (result = backendResult
     ∧ (∀ d, d ∈ elems_of descs → kind (entry 0 d [] w) = KNormal)
     ∧ (backendResult = SUCCESS →
        ∀ d, d ∈ elems_of descs →
             ∃ m r v mv,
               mb_memory d = Some m ∧ mb_resource d = Some r
               ∧ cast (heap w' !! r) = Some v ∧ isBound v = true
               ∧ as_memory (heap w' !! m) = Some mv ∧ r ∈ memory_bound mv)
     ∧ (backendResult ≠ SUCCESS → heap w' = heap w)).
Proof.
  unfold run, Bind_shape. msimpl. destruct (is_null descs); cbn [negb].
  { intros [= <- <-]. left. split; [done|]. split; [done|]. exists [].
    split; [by rewrite app_nil_r|]. by intros ? ?%elem_of_nil. }
  pose proof (validation_loop_partial (elems_of descs) 0 [] w w eq_refl) as Hloop.
  unfold bind at 1.
  destruct (for_loop 0 (elems_of descs) [] entry w) as [|r w1|impl w1]; [done| |].
  - intros [= <- <-]. destruct Hloop as (-> & Hh & _ & _ & queries & Hcalls & Hq).
    left. split; [done|]. split; [done|]. exists queries. split; [done|].
    intros c Hc. apply is_query_not_bind.
    rewrite forallb_forall in Hq. apply Hq. by apply list_elem_of_In.
  - destruct Hloop as ((Hh & Ht & Hn & queries & Hcalls & Hq) & Hall). msimpl.
    destruct (decide (backendResult = SUCCESS)) as [->|Hfail].
    + destruct (record_loop cast inj setBound isBound entry (λ _ _, False)
                  cast_Some cast_inj inj_not_memory flag_inj setBound_bound
                  entry_validates entry_kind_heap entry_pass_live
                  (λ _ _ _ _ (H : False), match H with end) entry_length
                  (elems_of descs) 0 (log_call (entryPoint impl) w1))
        as (w3 & Heq & _ & _ & Hrec).
      { intros d Hd. cbn [heap log_call]. rewrite Hh.
        eapply entry_pass_live. by apply Hall. }
      unfold bind at 1. rewrite Heq. msimpl. intros [= <- <-].
      right. split; [done|]. split; [done|]. split; [|done].
      intros _ d Hd. by apply Hrec.
    + msimpl. intros [= <- <-]. right. split; [done|]. split; [done|].
      split; [done|]. intros _. by cbn [heap log_call].
Qed.

Lemma Bind_shape_rebind_refused :
  rebind_refused (λ descs backendResult,
    run (Bind_shape cast inj setBound entry entryPoint nullMessage descs backendResult)).
Proof.
  intros descs backendResult w result w' d resource Hd Hr Hbound Hrun.
  apply Bind_shape_outcome in Hrun as [Hrefused|(_ & Hall & _)]; [done|].
  destruct (entry_pass_unbound 0 d [] w (Hall d Hd)) as (resource' & Hr' & Hfalse).
  congruence.
Qed.

Lemma Bind_shape_bound_memory_kept :
  bound_memory_kept (λ descs backendResult,
    run (Bind_shape cast inj setBound entry entryPoint nullMessage descs backendResult)).
Proof.
  intros descs backendResult w w' d Hrun Hd.
  apply Bind_shape_outcome in Hrun as [(? & _)|(<- & _ & Hrec & _)]; [done|].
  destruct (Hrec eq_refl d Hd) as (m & r & v & mv & Hm & _ & _ & _ & Hmv & Hin).
  exists m. split; [done|]. apply free_refused_intro with mv; [done|]. set_solver.
Qed.

End BindShapeMore.

(** X5. No rebinding: a batch of [BindBufferMemory], [BindTextureMemory]
    or [BindAccelerationStructureMemory] that names a resource whose bound
    flag is already set returns [INVALID_ARGUMENT] whenever it returns,
    whatever the other entries are, with no proxy changed and no binding
    entry point of the backend called. *)
Theorem X5_rebind_refused (K : Constants)
    (Backend_GetBufferMemoryDesc : BufferDesc → N → MemoryDesc)
    (Backend_GetTextureMemoryDesc : TextureDesc → N → MemoryDesc) :
  rebind_refused (BindBufferMemory K Backend_GetBufferMemoryDesc)
  ∧ rebind_refused (BindTextureMemory K Backend_GetTextureMemoryDesc)
  ∧ rebind_refused BindAccelerationStructureMemory.
Proof.
  split; [|split].
  - unfold BindBufferMemory. rewrite BindBufferMemory_body_shape.
    apply (Bind_shape_rebind_refused as_buffer PBuffer BufferVal_SetBoundToMemory
             buffer_isBoundToMemory); try done;
      first [ apply as_buffer_Some | apply BindBufferMemory_entry_validates
            | apply BindBufferMemory_entry_kind_heap
            | apply BindBufferMemory_entry_pass_live
            | apply BindBufferMemory_entry_pass_unbound
            | apply BindBufferMemory_entry_length ]; assumption.
  - unfold BindTextureMemory. rewrite BindTextureMemory_body_shape.
    apply (Bind_shape_rebind_refused as_texture PTexture TextureVal_SetBoundToMemory
             texture_isBoundToMemory); try done;
      first [ apply as_texture_Some | apply BindTextureMemory_entry_validates
            | apply BindTextureMemory_entry_kind_heap
            | apply BindTextureMemory_entry_pass_live
            | apply BindTextureMemory_entry_pass_unbound
            | apply BindTextureMemory_entry_length ]; assumption.
  - unfold BindAccelerationStructureMemory. rewrite BindAccelerationStructureMemory_body_shape.
    apply (Bind_shape_rebind_refused as_accelerationStructure PAccelerationStructure
             AccelerationStructureVal_SetBoundToMemory as_isBoundToMemory); try done;
      first [ apply as_accelerationStructure_Some
            | apply BindAccelerationStructureMemory_entry_validates
            | apply BindAccelerationStructureMemory_entry_kind_heap
            | apply BindAccelerationStructureMemory_entry_pass_live
            | apply BindAccelerationStructureMemory_entry_pass_unbound
            | apply BindAccelerationStructureMemory_entry_length ]; assumption.
Qed.

(** In the example world a batch of the unbound buffer 1 and the bound
    buffer 6 is refused. *)
Lemma X5_rebind_refused_witness :
  ∃ w', BindBufferMemory nri example_GetBufferMemoryDesc
          (Array [example_binding 4 1 0; example_binding 7 6 0]) SUCCESS example_world
        = Some (INVALID_ARGUMENT, w')
        ∧ heap w' = heap example_world.
Proof.
  destruct (BindBufferMemory nri example_GetBufferMemoryDesc
              (Array [example_binding 4 1 0; example_binding 7 6 0]) SUCCESS example_world)
    as [[result w']|] eqn:Hrun; [|by vm_compute in Hrun].
  destruct (proj1 (X5_rebind_refused nri example_GetBufferMemoryDesc
                     example_GetTextureMemoryDesc)
              (Array [example_binding 4 1 0; example_binding 7 6 0]) SUCCESS example_world
              result w' (example_binding 7 6 0) 6
              ltac:(set_solver) eq_refl eq_refl Hrun) as (-> & Hheap & _).
  by exists w'.
Defined.

(** X6. After a batched bind that returned [SUCCESS], [FreeMemory] on the
    Memory of any entry of the batch is refused: it returns having added
    error reports only, the Memory and every other proxy as they were and
    no backend entry point called. *)
Theorem X6_bound_memory_kept (K : Constants)
    (Backend_GetBufferMemoryDesc : BufferDesc → N → MemoryDesc)
    (Backend_GetTextureMemoryDesc : TextureDesc → N → MemoryDesc) :
  bound_memory_kept (BindBufferMemory K Backend_GetBufferMemoryDesc)
  ∧ bound_memory_kept (BindTextureMemory K Backend_GetTextureMemoryDesc)
  ∧ bound_memory_kept BindAccelerationStructureMemory.
Proof.
  split; [|split].
  - unfold BindBufferMemory. rewrite BindBufferMemory_body_shape.
    apply (Bind_shape_bound_memory_kept as_buffer PBuffer BufferVal_SetBoundToMemory
             buffer_isBoundToMemory); try done;
      first [ apply as_buffer_Some | apply BindBufferMemory_entry_validates
            | apply BindBufferMemory_entry_kind_heap
            | apply BindBufferMemory_entry_pass_live
            | apply BindBufferMemory_entry_pass_unbound
            | apply BindBufferMemory_entry_length ]; assumption.
  - unfold BindTextureMemory. rewrite BindTextureMemory_body_shape.
    apply (Bind_shape_bound_memory_kept as_texture PTexture TextureVal_SetBoundToMemory
             texture_isBoundToMemory); try done;
      first [ apply as_texture_Some | apply BindTextureMemory_entry_validates
            | apply BindTextureMemory_entry_kind_heap
            | apply BindTextureMemory_entry_pass_live
            | apply BindTextureMemory_entry_pass_unbound
            | apply BindTextureMemory_entry_length ]; assumption.
  - unfold BindAccelerationStructureMemory. rewrite BindAccelerationStructureMemory_body_shape.
    apply (Bind_shape_bound_memory_kept as_accelerationStructure PAccelerationStructure
             AccelerationStructureVal_SetBoundToMemory as_isBoundToMemory); try done;
      first [ apply as_accelerationStructure_Some
            | apply BindAccelerationStructureMemory_entry_validates
            | apply BindAccelerationStructureMemory_entry_kind_heap
            | apply BindAccelerationStructureMemory_entry_pass_live
            | apply BindAccelerationStructureMemory_entry_pass_unbound
            | apply BindAccelerationStructureMemory_entry_length ]; assumption.
Qed.

(** In the example world the texture at address 2 is bound to the imported
    memory at address 5, which then refuses to be freed. *)
Lemma X6_bound_memory_kept_witness :
  ∃ w', BindTextureMemory nri example_GetTextureMemoryDesc
          (Array [example_binding 5 2 0]) SUCCESS example_world = Some (SUCCESS, w')
        ∧ free_refused 5 w'.
Proof.
  destruct (BindTextureMemory nri example_GetTextureMemoryDesc
              (Array [example_binding 5 2 0]) SUCCESS example_world)
    as [[result w']|] eqn:Hrun; [|by vm_compute in Hrun].
  assert (result = SUCCESS) as ->.
  { vm_compute in Hrun. by injection Hrun as <- _. }
  exists w'. split; [done|].
  destruct (proj1 (proj2 (X6_bound_memory_kept nri example_GetBufferMemoryDesc
                            example_GetTextureMemoryDesc))
              (Array [example_binding 5 2 0]) SUCCESS example_world w'
              (example_binding 5 2 0) Hrun ltac:(set_solver)) as (memory & [= <-] & Hfree).
  done.
Defined.

(** ** Resource groups *)

Lemma ResourceGroup_buffers_loop {R} (failure : R) (buffers : list Ptr) :
  ∀ i buffersImpl w,
    Forall (λ p, p = None ∨ live as_buffer (heap w) p) buffers →
    match for_loop i buffers buffersImpl
            (λ i buffer buffersImpl,
               RETURN_ON_FAILURE (bool_decide (buffer ≠ None)) failure
                 "'resourceGroupDesc.buffers[%u]' is NULL" [i] ;;;
               bufferVal <-- deref as_buffer buffer ;;
               ret (buffersImpl ++ [buffer_impl (snd bufferVal)])%list) w with
    | Undefined => False
    | Returned r w' => r = failure ∧ untouched w w' ∧ ¬ Forall (λ p, p ≠ None) buffers
    | Normal impl' w' =>
        w' = w ∧ Forall (λ p, p ≠ None) buffers
        ∧ ∃ impls, impl' = (buffersImpl ++ impls)%list
                   ∧ Forall2 (λ p impl, buffer_impl_at (heap w) p = Some impl) buffers impls
    end.
Proof.
  induction buffers as [|p buffers IH]; intros i buffersImpl w Hlive.
  - simpl. split; [done|]. split; [done|]. exists []. by rewrite app_nil_r.
  - apply Forall_cons in Hlive as [Hp Hlive]. cbn [for_loop]. msimpl.
    destruct p as [a|].
    2:{ rewrite bool_decide_eq_false_2 by (by intros []).
        split; [done|]. split; [done|]. intros Hall. by apply Forall_cons in Hall as [? _]. }
    rewrite bool_decide_eq_true_2 by done.
    destruct Hp as [?|(a' & b & [= <-] & Hb)]; [done|].
    rewrite bind_deref with (v := b) by done. msimpl. cbn [snd].
    specialize (IH (i + 1) (buffersImpl ++ [buffer_impl b])%list w Hlive).
    destruct (for_loop (i + 1) buffers _ _ w) as [|r w1|impl1 w1]; [done| |].
    + destruct IH as (-> & Hw & Hn). split; [done|]. split; [done|].
      intros Hall. by apply Forall_cons in Hall as [_ ?].
    + destruct IH as (-> & Hall & impls & -> & Himpls). split; [done|].
      split; [by apply Forall_cons|]. exists (buffer_impl b :: impls).
      split; [by rewrite <- app_assoc|]. apply Forall2_cons. split; [|done].
      unfold buffer_impl_at. simpl. by rewrite Hb.
Qed.

Lemma ResourceGroup_textures_loop {R} (failure : R) (textures : list Ptr) :
  ∀ i texturesImpl w,
    Forall (λ p, p = None ∨ live as_texture (heap w) p) textures →
    match for_loop i textures texturesImpl
            (λ i texture texturesImpl,
               RETURN_ON_FAILURE (bool_decide (texture ≠ None)) failure
                 "'resourceGroupDesc.textures[%u]' is NULL" [i] ;;;
               textureVal <-- deref as_texture texture ;;
               ret (texturesImpl ++ [texture_impl (snd textureVal)])%list) w with
    | Undefined => False
    | Returned r w' => r = failure ∧ untouched w w' ∧ ¬ Forall (λ p, p ≠ None) textures
    | Normal impl' w' =>
        w' = w ∧ Forall (λ p, p ≠ None) textures
        ∧ ∃ impls, impl' = (texturesImpl ++ impls)%list
                   ∧ Forall2 (λ p impl, texture_impl_at (heap w) p = Some impl) textures impls
    end.
Proof.
  induction textures as [|p textures IH]; intros i texturesImpl w Hlive.
  - simpl. split; [done|]. split; [done|]. exists []. by rewrite app_nil_r.
  - apply Forall_cons in Hlive as [Hp Hlive]. cbn [for_loop]. msimpl.
    destruct p as [a|].
    2:{ rewrite bool_decide_eq_false_2 by (by intros []).
        split; [done|]. split; [done|]. intros Hall. by apply Forall_cons in Hall as [? _]. }
    rewrite bool_decide_eq_true_2 by done.
    destruct Hp as [?|(a' & t & [= <-] & Ht)]; [done|].
    rewrite bind_deref with (v := t) by done. msimpl. cbn [snd].
    specialize (IH (i + 1) (texturesImpl ++ [texture_impl t])%list w Hlive).
    destruct (for_loop (i + 1) textures _ _ w) as [|r w1|impl1 w1]; [done| |].
    + destruct IH as (-> & Hw & Hn). split; [done|]. split; [done|].
      intros Hall. by apply Forall_cons in Hall as [_ ?].
    + destruct IH as (-> & Hall & impls & -> & Himpls). split; [done|].
      split; [by apply Forall_cons|]. exists (texture_impl t :: impls).
      split; [by rewrite <- app_assoc|]. apply Forall2_cons. split; [|done].
      unfold texture_impl_at. simpl. by rewrite Ht.
Qed.

(** The checks and the two loops that [CalculateAllocationNumber] and
    [AllocateAndBindMemory] share. *)
Lemma ResourceGroup_checks {R B} (K : Constants) (failure : R)
    (resourceGroupDesc : ResourceGroupDesc) (k : list handle → list handle → M R B)
    (w : World) :
  group_live (heap w) resourceGroupDesc →
  (group_ok K resourceGroupDesc
   ∧ ∃ buffersImpl texturesImpl,
       group_impls (heap w) resourceGroupDesc buffersImpl texturesImpl
       ∧ (RETURN_ON_FAILURE (rg_memoryLocation resourceGroupDesc <? MemoryLocation_MAX_NUM K)
            failure "'resourceGroupDesc.memoryLocation' is invalid" [] ;;;
          RETURN_ON_FAILURE ((count (rg_buffers resourceGroupDesc) =? 0)
                             || negb (is_null (rg_buffers resourceGroupDesc)))
            failure "'resourceGroupDesc.buffers' is NULL" [] ;;;
          RETURN_ON_FAILURE ((count (rg_textures resourceGroupDesc) =? 0)
                             || negb (is_null (rg_textures resourceGroupDesc)))
            failure "'resourceGroupDesc.textures' is NULL" [] ;;;
          buffersImpl <-- ResourceGroup_buffers failure
                            (elems_of (rg_buffers resourceGroupDesc)) ;;
          texturesImpl <-- ResourceGroup_textures failure
                             (elems_of (rg_textures resourceGroupDesc)) ;;
          k buffersImpl texturesImpl) w
         = k buffersImpl texturesImpl w)
  ∨ (¬ group_ok K resourceGroupDesc
     ∧ ∃ w',
         (RETURN_ON_FAILURE (rg_memoryLocation resourceGroupDesc <? MemoryLocation_MAX_NUM K)
            failure "'resourceGroupDesc.memoryLocation' is invalid" [] ;;;
          RETURN_ON_FAILURE ((count (rg_buffers resourceGroupDesc) =? 0)
                             || negb (is_null (rg_buffers resourceGroupDesc)))
            failure "'resourceGroupDesc.buffers' is NULL" [] ;;;
          RETURN_ON_FAILURE ((count (rg_textures resourceGroupDesc) =? 0)
                             || negb (is_null (rg_textures resourceGroupDesc)))
            failure "'resourceGroupDesc.textures' is NULL" [] ;;;
          buffersImpl <-- ResourceGroup_buffers failure
                            (elems_of (rg_buffers resourceGroupDesc)) ;;
          texturesImpl <-- ResourceGroup_textures failure
                             (elems_of (rg_textures resourceGroupDesc)) ;;
          k buffersImpl texturesImpl) w
         = Returned failure w'
         ∧ untouched w w').
Proof.
  intros [Hb Ht]. unfold group_ok, group_impls. msimpl.
  destruct (N.ltb_spec (rg_memoryLocation resourceGroupDesc) (MemoryLocation_MAX_NUM K))
    as [Hloc|Hloc].
  2:{ right. split; [intros (? & _); lia|]. eexists. by split. }
  destruct (N.eqb_spec (count (rg_buffers resourceGroupDesc)) 0) as [Hcb|Hcb],
           (is_null (rg_buffers resourceGroupDesc)) eqn:Hnb; cbn [negb orb].
  3:{ right. split; [intros (_ & Hn & _); by specialize (Hn eq_refl)|].
      eexists. by split. }
  all: destruct (N.eqb_spec (count (rg_textures resourceGroupDesc)) 0) as [Hct|Hct],
                (is_null (rg_textures resourceGroupDesc)) eqn:Hnt; cbn [negb orb].
  all: try (right; split; [intros (_ & _ & Hn & _); by specialize (Hn eq_refl)|];
            eexists; by split).
  all: pose proof (ResourceGroup_buffers_loop failure
                     (elems_of (rg_buffers resourceGroupDesc)) 0 [] w Hb) as Hbl;
    change (for_loop 0 (elems_of (rg_buffers resourceGroupDesc)) [] _ w)
      with (ResourceGroup_buffers failure (elems_of (rg_buffers resourceGroupDesc)) w)
      in Hbl;
    destruct (ResourceGroup_buffers failure (elems_of (rg_buffers resourceGroupDesc)) w)
      as [|r1 w1|bs w1] eqn:Hbeq; [done| |];
    [ rewrite (bind_Returned _ _ _ _ _ Hbeq); destruct Hbl as (-> & Hw1 & Hn); right;
      split; [intros (_ & _ & _ & ? & _); done|]; eexists; by split
    | rewrite (bind_Normal _ _ _ _ _ Hbeq) ].
  all: destruct Hbl as (-> & Hball & bs' & -> & Hbs).
  all: pose proof (ResourceGroup_textures_loop failure
                     (elems_of (rg_textures resourceGroupDesc)) 0 [] w Ht) as Htl;
    change (for_loop 0 (elems_of (rg_textures resourceGroupDesc)) [] _ w)
      with (ResourceGroup_textures failure (elems_of (rg_textures resourceGroupDesc)) w)
      in Htl;
    destruct (ResourceGroup_textures failure (elems_of (rg_textures resourceGroupDesc)) w)
      as [|r2 w2|ts w2] eqn:Hteq; [done| |];
    [ rewrite (bind_Returned _ _ _ _ _ Hteq); destruct Htl as (-> & Hw2 & Hn); right;
      split; [intros (_ & _ & _ & _ & ?); done|]; eexists; by split
    | rewrite (bind_Normal _ _ _ _ _ Hteq) ].
  all: destruct Htl as (-> & Htall & ts' & -> & Hts).
  all: left; split; [repeat split; try done; intros; congruence|].
  all: by exists bs', ts'.
Qed.

(** X8. [CalculateAllocationNumber] returns the number the backend answers
    for the backend handles of the group when the group is well formed:
    the location is one of the enumeration, a null array has no elements and
    no buffer or texture pointer is null. Otherwise it reports an error and
    returns 0, without calling the backend. In both cases no proxy
    changes. *)
Theorem X8_CalculateAllocationNumber (K : Constants)
    (resourceGroupDesc : ResourceGroupDesc) (backendNumber : N) (w : World) :
  group_live (heap w) resourceGroupDesc →
  (group_ok K resourceGroupDesc →
   ∃ w' buffersImpl texturesImpl,
     run (CalculateAllocationNumber_body K resourceGroupDesc backendNumber) w
     = Some (backendNumber, w')
     ∧ group_impls (heap w) resourceGroupDesc buffersImpl texturesImpl
     ∧ calls w' = calls w ++ [Helper_CalculateAllocationNumber
                                (rg_memoryLocation resourceGroupDesc)
                                buffersImpl texturesImpl]
     ∧ heap w' = heap w ∧ reports w' = reports w)
  ∧ (¬ group_ok K resourceGroupDesc →
     ∃ w', run (CalculateAllocationNumber_body K resourceGroupDesc backendNumber) w
           = Some (0, w')
           ∧ untouched w w').
Proof.
  intros Hlive. unfold run, CalculateAllocationNumber_body.
  destruct (ResourceGroup_checks K 0 resourceGroupDesc
              (λ buffersImpl texturesImpl,
                 backend (Helper_CalculateAllocationNumber
                            (rg_memoryLocation resourceGroupDesc) buffersImpl texturesImpl)
                         backendNumber) w Hlive)
    as [(Hok & bs & ts & Himpls & ->)|(Hbad & w' & -> & Hw')].
  - split; [|done]. intros _. eexists _, bs, ts. split; [reflexivity|]. split; [done|]. by repeat split.
  - split; [done|]. intros _. exists w'. by split.
Qed.

(** The group of the example world: in location 0 the backend is asked; in
    the location 4, which is none, the function returns 0. *)
Lemma X8_CalculateAllocationNumber_witness :
  (∃ w', run (CalculateAllocationNumber_body nri (example_group 0) 2) example_world
         = Some (2, w')
         ∧ calls w' = calls example_world ++ [Helper_CalculateAllocationNumber 0 [101] [102]])
  ∧ (∃ w', run (CalculateAllocationNumber_body nri (example_group 4) 2) example_world
           = Some (0, w')
           ∧ untouched example_world w').
Proof.
  assert (∀ location, group_live (heap example_world) (example_group location)) as Hlive.
  { intros location. split; (apply Forall_cons_2; [|apply Forall_nil_2]); cbn beta;
      right; eexists _, _; by split. }
  split.
  - destruct (proj1 (X8_CalculateAllocationNumber nri (example_group 0) 2 example_world
                       (Hlive 0)))
      as (w' & bs & ts & Hrun & _ & Hcalls & _).
    { split; [by vm_compute|]. split; [done|]. split; [done|].
      split; (apply Forall_cons_2; [done|apply Forall_nil_2]). }
    exists w'. split; [done|].
    vm_compute in Hrun. injection Hrun as <-. reflexivity.
  - apply (proj2 (X8_CalculateAllocationNumber nri (example_group 4) 2 example_world
                    (Hlive 4))).
    intros (Hloc & _). by vm_compute in Hloc.
Defined.

(** *** The loops of [AllocateAndBindMemory] after the backend call *)

Section SetFlags.

Context {A : Type}.
Context (cast : option Proxy → option A) (inj : A → Proxy) (setBound : A → A).

Hypothesis cast_inj : ∀ v, cast (Some (inj v)) = Some v.
Hypothesis setBound_idemp : ∀ v, setBound (setBound v) = setBound v.

(** The loop that sets the flag of every resource of a list: afterwards
    the proxy of every listed resource is the one before with its flag set,
    and every other address holds what it held. *)
Lemma set_flags_loop (ps : list Ptr) : ∀ i w,
  Forall (live cast (heap w)) ps →
  ∃ w',
    for_loop i ps tt
      (λ _ p _, v <-- deref cast p ;;
                modify_heap (insert (fst v) (inj (setBound (snd v))))) w
    = (Normal tt w' : Outcome Result unit)
    ∧ heap_only w w'
    ∧ (∀ a, Some a ∈ ps →
            ∃ v, cast (heap w !! a) = Some v
                 ∧ heap w' !! a = Some (inj (setBound v)))
    ∧ (∀ a, Some a ∉ ps → heap w' !! a = heap w !! a).
Proof.
  induction ps as [|p ps IH]; intros i w Hlive.
  - exists w. split; [done|]. split; [done|]. split; [|done].
    intros a Ha. by apply elem_of_nil in Ha.
  - apply Forall_cons in Hlive as [(a0 & v0 & -> & Hv0) Hlive].
    cbn [for_loop]. rewrite bind_bind, bind_deref with (v := v0) by done.
    rewrite bind_modify_heap. cbn [fst snd].
    set (w1 := set_heap (insert a0 (inj (setBound v0))) w).
    destruct (IH (i + 1) w1) as (w' & Heq & Hho & Hin & Hout).
    { eapply Forall_impl; [exact Hlive|]. intros p (a & v & -> & Hv).
      unfold w1. cbn [heap set_heap]. destruct (decide (a = a0)) as [->|Hne].
      - eexists _, _. split; [done|]. by rewrite lookup_insert_eq, cast_inj.
      - eexists _, _. split; [done|]. by rewrite lookup_insert_ne. }
    exists w'. split; [done|]. split.
    { destruct Hho as (? & ? & ? & ?). by repeat split. }
    split.
    + intros a Ha. destruct (decide (a = a0)) as [->|Hne].
      * exists v0. split; [done|]. destruct (decide (Some a0 ∈ ps)) as [Hps|Hps].
        -- destruct (Hin a0 Hps) as (v & Hv & ->). unfold w1 in Hv. cbn [heap set_heap] in Hv.
           rewrite lookup_insert_eq, cast_inj in Hv. injection Hv as <-.
           by rewrite setBound_idemp.
        -- rewrite (Hout a0 Hps). unfold w1. cbn [heap set_heap]. by rewrite lookup_insert_eq.
      * apply elem_of_cons in Ha as [[= ->]|Ha]; [done|].
        destruct (Hin a Ha) as (v & Hv & ->). unfold w1 in Hv. cbn [heap set_heap] in Hv.
        rewrite lookup_insert_ne in Hv by done. by exists v.
    + intros a Ha. apply not_elem_of_cons in Ha as [Hne Ha].
      rewrite (Hout a Ha). unfold w1. cbn [heap set_heap].
      rewrite lookup_insert_ne; [done|]. congruence.
Qed.

End SetFlags.

(** The loop that replaces the backend allocations by new Memory proxies:
    they take the next addresses in turn. *)
Lemma allocate_memories_loop (location : N) (allocations : list handle) (len : nat) :
  ∀ (s : nat) (i : N) (memories : list addr) (w : World),
    (s + len ≤ length allocations)%nat →
    ∃ w',
      for_loop i (seq s len) memories
        (λ _ i memories,
           allocation <-- project (allocations !! i) ;;
           a <-- Allocate (new_memory allocation 0 location) ;;
           ret (memories ++ [a])%list) w
      = (Normal (memories ++ ((λ k, next w + N.of_nat k) <$> seq 0 len))%list w'
         : Outcome Result (list addr))
      ∧ next w' = next w + N.of_nat len
      ∧ calls w' = calls w ∧ reports w' = reports w
      ∧ m_MemoryTypeMap w' = m_MemoryTypeMap w
      ∧ (∀ a, a < next w → heap w' !! a = heap w !! a)
      ∧ (∀ k allocation,
           (k < len)%nat → allocations !! (s + k)%nat = Some allocation →
           heap w' !! (next w + N.of_nat k) = Some (new_memory allocation 0 location)).
Proof.
  induction len as [|len IH]; intros s i memories w Hlen.
  - exists w. simpl. rewrite app_nil_r, N.add_0_r. repeat split; try done. intros; lia.
  - cbn [seq for_loop].
    destruct (allocations !! s) as [allocation|] eqn:Hs.
    2:{ apply lookup_ge_None in Hs. lia. }
    cbn [project]. msimpl.
    set (w1 := set_next (next w + 1)
                 (set_heap (insert (next w) (new_memory allocation 0 location)) w)).
    destruct (IH (S s) (i + 1) (memories ++ [next w])%list w1 ltac:(lia))
      as (w' & Heq & Hnext & Hcalls & Hreports & Hmap & Hold & Hnew).
    exists w'. split.
    { rewrite Heq. f_equal. rewrite <- app_assoc. f_equal. cbn [fmap list_fmap app].
      rewrite N.add_0_r. f_equal. rewrite <- fmap_S_seq, <- list_fmap_compose.
      apply list_fmap_ext. intros _ k _. unfold w1. cbn [next set_next compose]. lia. }
    split; [unfold w1 in Hnext; cbn [next set_next] in Hnext; lia|].
    split; [done|]. split; [done|]. split; [done|]. split.
    + intros a Ha. rewrite Hold by (unfold w1; cbn [next set_next]; lia).
      unfold w1. cbn [heap set_next set_heap]. rewrite lookup_insert_ne; [done|lia].
    + intros k allocation' Hk Hk'. destruct k as [|k].
      * rewrite Nat.add_0_r in Hk'. rewrite Hs in Hk'. injection Hk' as <-.
        rewrite N.add_0_r, Hold by (unfold w1; cbn [next set_next]; lia).
        unfold w1. cbn [heap set_next set_heap]. by rewrite lookup_insert_eq.
      * replace (next w + N.of_nat (S k)) with (next w1 + N.of_nat k)
          by (unfold w1; cbn [next set_next]; lia).
        apply Hnew; [lia|]. by replace (S s + k)%nat with (s + S k)%nat by lia.
Qed.

Lemma group_impls_unique h resourceGroupDesc bs ts bs' ts' :
  group_impls h resourceGroupDesc bs ts → group_impls h resourceGroupDesc bs' ts' →
  bs' = bs ∧ ts' = ts.
Proof.
  assert (∀ (f : Ptr → option handle) ps l l',
            Forall2 (λ p impl, f p = Some impl) ps l →
            Forall2 (λ p impl, f p = Some impl) ps l' → l' = l) as Huniq.
  { intros f ps. induction ps as [|p ps IH]; intros l l' Hl Hl'.
    - apply Forall2_nil_inv_l in Hl as ->. by apply Forall2_nil_inv_l in Hl' as ->.
    - apply Forall2_cons_inv_l in Hl as (x & l0 & Hx & Hl & ->).
      apply Forall2_cons_inv_l in Hl' as (x' & l0' & Hx' & Hl' & ->).
      f_equal; [congruence|by apply IH]. }
  intros [Hb Ht] [Hb' Ht']. split; by eapply Huniq.
Qed.

Lemma call_Normal {R R'} (m : M R R) w a w' :
  m w = Normal a w' → (call m : M R' R) w = Normal a w'.
Proof. intros H. unfold call. by rewrite H. Qed.

Lemma AllocateAndBindMemory_prepare_spec (K : Constants)
    (resourceGroupDesc : ResourceGroupDesc) (allocationsIsNull : bool)
    (backendNumber : N) (w : World) :
  group_live (heap w) resourceGroupDesc →
  (allocationsIsNull = false ∧ group_ok K resourceGroupDesc
   ∧ ∃ buffersImpl texturesImpl,
       group_impls (heap w) resourceGroupDesc buffersImpl texturesImpl
       ∧ AllocateAndBindMemory_prepare K resourceGroupDesc allocationsIsNull backendNumber w
         = Normal (buffersImpl, texturesImpl, backendNumber)
             (log_call (Helper_CalculateAllocationNumber
                          (rg_memoryLocation resourceGroupDesc) buffersImpl texturesImpl) w))
  ∨ ((allocationsIsNull = true ∨ ¬ group_ok K resourceGroupDesc)
     ∧ ∃ w',
         AllocateAndBindMemory_prepare K resourceGroupDesc allocationsIsNull backendNumber w
         = Returned INVALID_ARGUMENT w'
         ∧ untouched w w').
Proof.
  intros Hlive. unfold AllocateAndBindMemory_prepare. rewrite bind_RETURN_ON_FAILURE.
  destruct allocationsIsNull; cbn [negb].
  { right. split; [by left|]. eexists. by split. }
  destruct (ResourceGroup_checks K INVALID_ARGUMENT resourceGroupDesc
              (λ buffersImpl texturesImpl,
                 allocationNum <-- call (CalculateAllocationNumber_body K resourceGroupDesc
                                           backendNumber) ;;
                 ret (buffersImpl, texturesImpl, allocationNum)) w Hlive)
    as [(Hok & bs & ts & Himpls & ->)|(Hbad & w' & -> & Hw')].
  2:{ right. split; [by right|]. by exists w'. }
  left. split; [done|]. split; [done|]. exists bs, ts. split; [done|].
  unfold CalculateAllocationNumber_body.
  destruct (ResourceGroup_checks K 0 resourceGroupDesc
              (λ buffersImpl texturesImpl,
                 backend (Helper_CalculateAllocationNumber
                            (rg_memoryLocation resourceGroupDesc) buffersImpl texturesImpl)
                         backendNumber) w Hlive)
    as [(_ & bs' & ts' & Himpls' & Heq)|(Hbad & _)]; [|done].
  destruct (group_impls_unique _ _ _ _ _ _ Himpls Himpls') as [-> ->].
  by rewrite (bind_Normal _ _ _ _ _
                (call_Normal _ w backendNumber
                   (log_call (Helper_CalculateAllocationNumber
                                (rg_memoryLocation resourceGroupDesc) bs ts) w) Heq)).
Qed.

Lemma BufferVal_SetBoundToMemory_idemp b :
  BufferVal_SetBoundToMemory (BufferVal_SetBoundToMemory b) = BufferVal_SetBoundToMemory b.
Proof. done. Qed.

Lemma TextureVal_SetBoundToMemory_idemp t :
  TextureVal_SetBoundToMemory (TextureVal_SetBoundToMemory t) = TextureVal_SetBoundToMemory t.
Proof. done. Qed.

(** X7. [AllocateAndBindMemory] on a group whose pointers are live: a null
    [allocations] array or a group that is not well formed gives
    [INVALID_ARGUMENT] with nothing but a report added. Otherwise the
    backend is asked for the number of allocations and then called once
    with the backend handles of the group; if it does not answer [SUCCESS]
    no proxy changes; if it does, the bound flag of every buffer and
    texture of the group is set, exactly as many Memory proxies as the
    backend counted are created, each around the allocation the backend
    wrote at its index, with unknown size (0), the location of the group
    and an empty bound-set, and no other proxy changes. *)
Theorem X7_AllocateAndBindMemory (K : Constants) (resourceGroupDesc : ResourceGroupDesc)
    (allocationsIsNull : bool) (backendNumber : N) (backendResult : Result)
    (backendAllocations : list handle) (w : World) :
  group_live (heap w) resourceGroupDesc → fresh w →
  (allocationsIsNull = true ∨ ¬ group_ok K resourceGroupDesc →
   ∃ w', AllocateAndBindMemory K resourceGroupDesc allocationsIsNull backendNumber
           backendResult backendAllocations w = Some (INVALID_ARGUMENT, [], w')
         ∧ untouched w w')
  ∧ (allocationsIsNull = false → group_ok K resourceGroupDesc →
     ∃ buffersImpl texturesImpl,
       group_impls (heap w) resourceGroupDesc buffersImpl texturesImpl
       ∧ (backendResult ≠ SUCCESS →
          ∃ w', AllocateAndBindMemory K resourceGroupDesc allocationsIsNull backendNumber
                  backendResult backendAllocations w = Some (backendResult, [], w')
                ∧ heap w' = heap w
                ∧ calls w' = calls w
                             ++ [Helper_CalculateAllocationNumber
                                   (rg_memoryLocation resourceGroupDesc)
                                   buffersImpl texturesImpl;
                                 Helper_AllocateAndBindMemory
                                   (rg_memoryLocation resourceGroupDesc)
                                   buffersImpl texturesImpl])
       ∧ (backendResult = SUCCESS →
          (N.to_nat backendNumber ≤ length backendAllocations)%nat →
          ∃ memories w',
            AllocateAndBindMemory K resourceGroupDesc allocationsIsNull backendNumber
              backendResult backendAllocations w = Some (SUCCESS, memories, w')
            ∧ calls w' = calls w
                         ++ [Helper_CalculateAllocationNumber
                               (rg_memoryLocation resourceGroupDesc)
                               buffersImpl texturesImpl;
                             Helper_AllocateAndBindMemory
                               (rg_memoryLocation resourceGroupDesc)
                               buffersImpl texturesImpl]
            ∧ (∀ a, Some a ∈ elems_of (rg_buffers resourceGroupDesc)
                    ∨ Some a ∈ elems_of (rg_textures resourceGroupDesc) →
                    bound_flag (heap w') a = Some true)
            ∧ length memories = N.to_nat backendNumber
            ∧ (∀ k memory allocation,
                 memories !! k = Some memory → backendAllocations !! k = Some allocation →
                 heap w !! memory = None
                 ∧ heap w' !! memory
                   = Some (new_memory allocation 0 (rg_memoryLocation resourceGroupDesc)))
            ∧ (∀ a, Some a ∉ elems_of (rg_buffers resourceGroupDesc) →
                    Some a ∉ elems_of (rg_textures resourceGroupDesc) →
                    a < next w → heap w' !! a = heap w !! a))).
Proof.
  intros Hlive Hfresh. unfold AllocateAndBindMemory, AllocateAndBindMemory_body.
  destruct (AllocateAndBindMemory_prepare_spec K resourceGroupDesc allocationsIsNull
              backendNumber w Hlive)
    as [(Hnull & Hok & bs & ts & Himpls & Hprep)|(Hbad & w' & Hprep & Hw')].
  2:{ rewrite (bind_Returned _ _ _ _ _ Hprep).
      split; [|intros Hn Hok; destruct Hbad; [congruence|done]].
      intros _. by exists w'. }
  rewrite (bind_Normal _ _ _ _ _ Hprep). cbn [fst snd]. rewrite bind_backend.
  split; [intros [?|?]; congruence|]. intros _ _. exists bs, ts. split; [done|].
  set (w1 := log_call _ (log_call _ w)). split.
  - intros Hfail. rewrite decide_False by done. eexists. split; [reflexivity|]. split; [done|].
    unfold w1. cbn [calls log_call]. by rewrite <- app_assoc.
  - intros -> Hlen. rewrite decide_True by done.
    unfold AllocateAndBindMemory_record. rewrite !bind_bind.
    destruct Hlive as [Hlb Hlt].
    assert (Forall (live as_buffer (heap w1)) (elems_of (rg_buffers resourceGroupDesc)))
      as Hlb1.
    { destruct Hok as (_ & _ & _ & Hnb & _).
      apply Forall_forall. intros p Hp. rewrite Forall_forall in Hlb, Hnb.
      by destruct (Hlb p Hp) as [?|?]; [destruct (Hnb p Hp)|]. }
    destruct (set_flags_loop as_buffer PBuffer BufferVal_SetBoundToMemory
                ltac:(done) BufferVal_SetBoundToMemory_idemp
                (elems_of (rg_buffers resourceGroupDesc)) 0 w1 Hlb1)
      as (w2 & Heq2 & (Hm2 & Hn2 & Hc2 & Hr2) & Hin2 & Hout2).
    erewrite bind_Normal; [|exact Heq2]. cbv beta. rewrite ?bind_bind.
    assert (∀ a, Some a ∈ elems_of (rg_textures resourceGroupDesc) →
                 Some a ∉ elems_of (rg_buffers resourceGroupDesc)) as Hdisj.
    { intros a Hat Hab. rewrite Forall_forall in Hlb, Hlt.
      destruct (Hlb _ Hab) as [?|(? & b & [= <-] & Hb)]; [done|].
      destruct (Hlt _ Hat) as [?|(? & t & [= <-] & Ht)]; [done|].
      apply as_buffer_Some in Hb. rewrite Hb in Ht. done. }
    assert (Forall (live as_texture (heap w2)) (elems_of (rg_textures resourceGroupDesc)))
      as Hlt2.
    { destruct Hok as (_ & _ & _ & _ & Hnt).
      apply Forall_forall. intros p Hp. rewrite Forall_forall in Hlt, Hnt.
      destruct (Hlt p Hp) as [?|(a & t & -> & Ht)]; [by destruct (Hnt p Hp)|].
      exists a, t. split; [done|]. by rewrite (Hout2 a (Hdisj a Hp)). }
    destruct (set_flags_loop as_texture PTexture TextureVal_SetBoundToMemory
                ltac:(done) TextureVal_SetBoundToMemory_idemp
                (elems_of (rg_textures resourceGroupDesc)) 0 w2 Hlt2)
      as (w3 & Heq3 & (Hm3 & Hn3 & Hc3 & Hr3) & Hin3 & Hout3).
    erewrite bind_Normal; [|exact Heq3]. cbv beta. rewrite ?bind_bind.
    destruct (allocate_memories_loop (rg_memoryLocation resourceGroupDesc)
                backendAllocations (N.to_nat backendNumber) 0 0 [] w3 ltac:(lia))
      as (w4 & Heq4 & Hn4 & Hc4 & Hr4 & Hm4 & Hold4 & Hnew4).
    erewrite bind_Normal; [|exact Heq4]. cbv [ret]. cbn [app].
    assert (next w3 = next w) as Hnext by (rewrite Hn3, Hn2; done).
    eexists _, w4. split; [reflexivity|]. split.
    { rewrite Hc4, Hc3, Hc2. unfold w1. cbn [calls log_call]. by rewrite <- app_assoc. }
    assert (∀ a, is_Some (heap w !! a) → heap w4 !! a = heap w3 !! a) as Hkeep.
    { intros a Ha. apply Hold4. rewrite Hnext. by apply Hfresh. }
    split; [|split; [|split]].
    + intros a [Ha|Ha].
      * destruct (Hin2 a Ha) as (b & Hb & Hb2). unfold bound_flag.
        rewrite Hkeep.
        -- rewrite Hout3.
           ++ by rewrite Hb2.
           ++ intros Hat. by apply (Hdisj a Hat).
        -- unfold w1 in Hb. cbn [heap log_call] in Hb.
           destruct (heap w !! a); [done|by simpl in Hb].
      * destruct (Hin3 a Ha) as (t & Ht & Ht3). unfold bound_flag.
        rewrite Hkeep; [by rewrite Ht3|].
        rewrite (Hout2 a (Hdisj a Ha)) in Ht. unfold w1 in Ht. cbn [heap log_call] in Ht.
        destruct (heap w !! a); [done|by simpl in Ht].
    + by rewrite length_fmap, length_seq.
    + intros k memory allocation Hk Hka.
      rewrite list_lookup_fmap in Hk.
      destruct (seq 0 (N.to_nat backendNumber) !! k) as [k'|] eqn:Hseq; [|done].
      apply lookup_seq in Hseq as [-> Hklt]. injection Hk as <-. split.
      * destruct (heap w !! (next w3 + N.of_nat k)) eqn:Hl; [|done].
        pose proof (Hfresh (next w3 + N.of_nat k) ltac:(by rewrite Hl)). lia.
      * by apply Hnew4.
    + intros a Hab Hat Ha. rewrite Hold4 by lia.
      etrans; [by apply Hout3|by apply Hout2].
Qed.

Lemma example_world_fresh : fresh example_world.
Proof.
  intros a [p Hp]. cbn [heap next example_world] in *. unfold example_heap in Hp.
  apply elem_of_list_to_map_2 in Hp.
  repeat (apply elem_of_cons in Hp as [[= -> _]|Hp]; [done|]).
  by apply elem_of_nil in Hp.
Qed.

Lemma example_group_live location : group_live (heap example_world) (example_group location).
Proof.
  split; (apply Forall_cons_2; [|apply Forall_nil_2]); cbn beta;
    right; eexists _, _; by split.
Qed.

Lemma example_group_ok : group_ok nri (example_group 0).
Proof.
  split; [by vm_compute|]. split; [done|]. split; [done|].
  split; (apply Forall_cons_2; [done|apply Forall_nil_2]).
Qed.

(** The buffer and the texture of the example group are bound by one call
    that makes one Memory, at address 10, around the allocation 500. *)
Lemma X7_AllocateAndBindMemory_witness :
  ∃ memories w',
    AllocateAndBindMemory nri (example_group 0) false 1 SUCCESS [500] example_world
    = Some (SUCCESS, memories, w')
    ∧ bound_flag (heap w') 1 = Some true
    ∧ bound_flag (heap w') 2 = Some true
    ∧ length memories = 1%nat.
Proof.
  destruct (proj2 (X7_AllocateAndBindMemory nri (example_group 0) false 1 SUCCESS [500]
                     example_world (example_group_live 0) example_world_fresh)
              eq_refl example_group_ok)
    as (bs & ts & _ & _ & Hsuccess).
  destruct (Hsuccess eq_refl ltac:(simpl; lia))
    as (memories & w' & Hrun & _ & Hflags & Hlen & _).
  exists memories, w'. split; [done|].
  split; [apply Hflags; left; set_solver|].
  split; [apply Hflags; right; set_solver|done].
Defined.

(** ** The memory requirement of an acceleration structure *)

Lemma spec_requirement_checks_met (req : MemoryDesc) (offset memorySize : N) :
  offset + md_size req < 2 ^ 64 →
  spec_requirement_checks req offset memorySize = true
  ↔ requirement_met req offset memorySize.
Proof.
  intros Hfit. unfold spec_requirement_checks, requirement_met, u64.
  rewrite (N.mod_small _ _ Hfit), !andb_true_iff, !orb_true_iff, !negb_true_iff.
  rewrite !N.eqb_eq, N.leb_le, N.eqb_neq.
  destruct (md_mustBeDedicated req); intuition congruence.
Qed.

(** X9. The requirement an acceleration structure is bound against is the
    one the backend reported when it was created, for the location
    [MemoryLocation::DEVICE]: after [CreateAccelerationStructure] has
    returned [SUCCESS], an entry that binds the new acceleration structure
    passes the validation of [BindAccelerationStructureMemory] exactly when
    that requirement is met at the offset, whatever the location of the
    memory is, an imported memory included. *)
Theorem X9_AccelerationStructure_requirement (K : Constants)
    (accelerationStructureDesc : AccelerationStructureDesc)
    (accelerationStructureImpl : handle) (backendMemoryDesc : MemoryDesc)
    (accelerationStructure : Ptr) (w : World)
    (memory : addr) (m : MemoryVal) (offset i : N) (impl : list MemoryBindingImplDesc) :
  asd_instanceOrGeometryObjectNum accelerationStructureDesc ≠ 0 →
  fresh w →
  as_memory (heap w !! memory) = Some m →
  offset + md_size backendMemoryDesc < 2 ^ 64 →
  ∃ w1,
    CreateAccelerationStructure K accelerationStructureDesc SUCCESS
      accelerationStructureImpl backendMemoryDesc accelerationStructure w
    = Some (SUCCESS, Some (next w), w1)
    ∧ calls w1 = calls w
                 ++ [RayTracing_CreateAccelerationStructure accelerationStructureDesc;
                     RayTracing_GetAccelerationStructureMemoryDesc
                       accelerationStructureDesc (MemoryLocation_DEVICE K)]
    ∧ bound_flag (heap w1) (next w) = Some false
    ∧ (kind (BindAccelerationStructureMemory_entry i
               {| mb_memory := Some memory; mb_resource := Some (next w);
                  mb_offset := offset |} impl w1) = KNormal
       ↔ requirement_met backendMemoryDesc offset (memory_size m)).
Proof.
  intros Hnum Hfresh Hm Hfit.
  unfold CreateAccelerationStructure, run_out, CreateAccelerationStructure_body. msimpl.
  apply N.eqb_neq in Hnum. rewrite Hnum. cbn [negb]. rewrite decide_True by done. msimpl.
  eexists. split; [reflexivity|]. split.
  { cbn [calls log_call set_next set_heap]. by rewrite <- app_assoc. }
  split.
  { unfold bound_flag. cbn [heap log_call set_next set_heap].
    by rewrite lookup_insert_eq. }
  assert (memory ≠ next w) as Hne.
  { intros ->. assert (is_Some (heap w !! next w)) as Hs.
    { destruct (heap w !! next w); [done|by simpl in Hm]. }
    specialize (Hfresh _ Hs). lia. }
  rewrite BindAccelerationStructureMemory_entry_kind with (resource := next w)
    (memory := memory) (m := m)
    (a := {| as_impl := accelerationStructureImpl; as_isBoundToMemory := false;
             as_memoryDesc := backendMemoryDesc |}); [| done | done | |].
  - cbn [as_isBoundToMemory as_memoryDesc negb andb mb_offset].
    rewrite if_kind_Normal. by apply spec_requirement_checks_met.
  - cbn [heap log_call set_next set_heap]. by rewrite lookup_insert_eq.
  - cbn [heap log_call set_next set_heap]. by rewrite lookup_insert_ne.
Qed.

(** An acceleration structure made in the example world with a requirement
    of 512 bytes aligned to 256 can be bound at offset 256 of the imported
    memory at address 5. *)
Lemma X9_AccelerationStructure_requirement_witness :
  ∃ w1,
    CreateAccelerationStructure nri
      {| asd_isBottomLevel := false; asd_instanceOrGeometryObjectNum := 1 |} SUCCESS 140
      {| md_size := 512; md_alignment := 256; md_mustBeDedicated := false |} None
      example_world = Some (SUCCESS, Some 10, w1)
    ∧ kind (BindAccelerationStructureMemory_entry 0 (example_binding 5 10 256) [] w1)
      = KNormal.
Proof.
  destruct (X9_AccelerationStructure_requirement nri
              {| asd_isBottomLevel := false; asd_instanceOrGeometryObjectNum := 1 |} 140
              {| md_size := 512; md_alignment := 256; md_mustBeDedicated := false |} None
              example_world 5
              {| memory_impl := 105; memory_size := 2048; memory_location := 4;
                 memory_bound := ∅ |}
              256 0 [] ltac:(done) example_world_fresh eq_refl ltac:(by vm_compute))
    as (w1 & Hrun & _ & _ & Hkind).
  exists w1. split; [exact Hrun|]. apply Hkind.
  split; [done|]. split; [done|]. split; [by vm_compute|]. right. by vm_compute.
Defined.

(** ** The members of a bound-set *)

#[local] Instance sound_kept_preorder : PreOrder sound_kept.
Proof.
  split.
  - by intros w Hf Hs.
  - intros w1 w2 w3 H12 H23 Hf Hs. destruct (H12 Hf Hs) as [Hf2 Hs2]. by apply H23.
Qed.

#[local] Instance sound_kept_report_insensitive : ReportInsensitive sound_kept.
Proof. by intros w r Hf Hs. Qed.

Lemma sound_kept_same_heap w w' :
  heap w' = heap w → next w' = next w → sound_kept w w'.
Proof.
  intros Hh Hn Hf Hs. split; [|by rewrite Hh]. intros a. rewrite Hh, Hn. apply Hf.
Qed.

Lemma sound_kept_call w c : sound_kept w (log_call c w).
Proof. by apply sound_kept_same_heap. Qed.

Lemma sound_kept_memoryTypeMap w f : sound_kept w (set_memoryTypeMap f w).
Proof. by apply sound_kept_same_heap. Qed.

Lemma validated_sound_kept w w' : validated w w' → sound_kept w w'.
Proof. intros (Hh & _ & Hn & _). by apply sound_kept_same_heap. Qed.

Lemma asks_sound_kept w w' : asks w w' → sound_kept w w'.
Proof. intros (Hh & Hn & _). by apply sound_kept_same_heap. Qed.

Lemma untouched_sound_kept w w' : untouched w w' → sound_kept w w'.
Proof. intros (Hh & _ & Hn & _). by apply sound_kept_same_heap. Qed.

Lemma bound_flag_live h a b : bound_flag h a = Some b → is_Some (h !! a).
Proof. unfold bound_flag. by destruct (h !! a). Qed.

Lemma bound_set_memory h a s :
  bound_set h a = Some s → ∃ m, h !! a = Some (PMemory m) ∧ memory_bound m = s.
Proof.
  unfold bound_set. destruct (as_memory (h !! a)) as [m|] eqn:Hm; [|done].
  intros [= <-]. exists m. split; [by apply as_memory_Some|done].
Qed.

Lemma bound_set_no_flag h a s : bound_set h a = Some s → bound_flag h a = None.
Proof. intros (m & Hm & _)%bound_set_memory. unfold bound_flag. by rewrite Hm. Qed.

(** A new proxy, a Memory with an empty bound-set if it is a Memory. *)
Lemma sound_kept_Allocate w p :
  (∀ m, p = PMemory m → memory_bound m = ∅) →
  sound_kept w (set_next (next w + 1) (set_heap (insert (next w) p) w)).
Proof.
  intros Hp Hf Hs. split; [by apply fresh_Allocate|].
  intros memory s resource Hset Hin. cbn [heap set_next set_heap] in *.
  assert (bound_set (heap w) memory = Some s) as Hset0.
  { unfold bound_set in *. destruct (decide (memory = next w)) as [->|Hne].
    - rewrite lookup_insert_eq in Hset. destruct p as [| | |m| | |]; try done.
      simpl in Hset. injection Hset as <-. rewrite (Hp m eq_refl) in Hin. set_solver.
    - by rewrite lookup_insert_ne in Hset. }
  pose proof (Hs memory s resource Hset0 Hin) as Hflag.
  pose proof (Hf resource (bound_flag_live _ _ _ Hflag)) as Hlt.
  unfold bound_flag in *. rewrite lookup_insert_ne; [done|lia].
Qed.

(** Setting the flag of a live resource. *)
Lemma sound_kept_set_flag w a p :
  is_Some (bound_flag (heap w) a) → proxy_flag p = Some true →
  sound_kept w (set_heap (insert a p) w).
Proof.
  intros [b0 Hb0] Hp Hf Hs. split.
  { apply fresh_insert_live; [|done]. by eapply bound_flag_live. }
  intros memory s resource Hset Hin. cbn [heap set_heap] in *.
  assert (bound_set (heap w) memory = Some s) as Hset0.
  { unfold bound_set in *. destruct (decide (memory = a)) as [->|Hne].
    - rewrite lookup_insert_eq in Hset. by destruct p.
    - by rewrite lookup_insert_ne in Hset. }
  pose proof (Hs memory s resource Hset0 Hin) as Hflag.
  unfold bound_flag in *. destruct (decide (resource = a)) as [->|Hne].
  - by rewrite lookup_insert_eq.
  - by rewrite lookup_insert_ne.
Qed.

(** Releasing a proxy that is no resource. *)
Lemma sound_kept_delete_other w a :
  bound_flag (heap w) a = None → sound_kept w (set_heap (delete a) w).
Proof.
  intros Hnone Hf Hs. split; [by apply fresh_delete|].
  intros memory s resource Hset Hin. cbn [heap set_heap] in *.
  assert (bound_set (heap w) memory = Some s) as Hset0.
  { unfold bound_set in *. destruct (decide (memory = a)) as [->|Hne].
    - by rewrite lookup_delete_eq in Hset.
    - by rewrite lookup_delete_ne in Hset. }
  pose proof (Hs memory s resource Hset0 Hin) as Hflag.
  unfold bound_flag in *. destruct (decide (resource = a)) as [->|Hne].
  - congruence.
  - by rewrite lookup_delete_ne.
Qed.

(** Destroying a resource: it leaves every bound-set first. *)
Lemma sound_kept_destroy w w1 a :
  heap w1 = heap w → next w1 = next w →
  sound_kept w (set_heap (delete a) (set_heap (fmap (remove_bound a)) w1)).
Proof.
  intros Hh Hn Hf Hs. split.
  { apply fresh_delete, fresh_fmap. intros a'. rewrite Hh, Hn. apply Hf. }
  intros memory s resource Hset Hin. cbn [heap set_heap] in *. rewrite Hh in *.
  destruct (decide (memory = a)) as [->|Hne].
  { unfold bound_set in Hset. by rewrite lookup_delete_eq in Hset. }
  unfold bound_set in Hset. rewrite lookup_delete_ne, lookup_fmap in Hset by done.
  destruct (heap w !! memory) as [[| | |m| | |]|] eqn:Hm; try done.
  simpl in Hset. injection Hset as <-.
  apply elem_of_difference in Hin as [Hin Hna].
  assert (resource ≠ a) as Hra by set_solver.
  pose proof (Hs memory (memory_bound m) resource) as Hflag.
  unfold bound_set in Hflag. rewrite Hm in Hflag. specialize (Hflag eq_refl Hin).
  unfold bound_flag. rewrite lookup_delete_ne by done.
  fold (bound_flag (remove_bound a <$> heap w) resource).
  by rewrite bound_flag_remove_bound.
Qed.

Ltac sound_tac :=
  triple_tac; try done;
  try (intros; first [ apply sound_kept_call | apply sound_kept_memoryTypeMap
                     | apply sound_kept_Allocate; by intros ? [= <-] ]).

Section SoundSteps.
Context (K : Constants).
Context (Backend_GetBufferMemoryDesc : BufferDesc → N → MemoryDesc).
Context (Backend_GetTextureMemoryDesc : TextureDesc → N → MemoryDesc).

Lemma CreateBuffer_sound d r impl out :
  triple sound_kept (λ _, True) (CreateBuffer_body d r impl out).
Proof. unfold CreateBuffer_body. sound_tac. Qed.

Lemma AllocateBuffer_sound d r impl out :
  triple sound_kept (λ _, True) (AllocateBuffer_body d r impl out).
Proof. unfold AllocateBuffer_body. sound_tac. Qed.

Lemma CreateTexture_sound d r impl out :
  triple sound_kept (λ _, True) (CreateTexture_body K d r impl out).
Proof. unfold CreateTexture_body, TextureDesc_checks. sound_tac. Qed.

Lemma AllocateTexture_sound d r impl out :
  triple sound_kept (λ _, True) (AllocateTexture_body K d r impl out).
Proof. unfold AllocateTexture_body, TextureDesc_checks. sound_tac. Qed.

Lemma CreateDescriptor_Texture2DView_sound d r impl out :
  triple sound_kept (λ _, True) (CreateDescriptor_Texture2DView_body K d r impl out).
Proof. unfold CreateDescriptor_Texture2DView_body. sound_tac. Qed.

Lemma CreatePipelineLayout_sound d r impl out :
  triple sound_kept (λ _, True) (CreatePipelineLayout_body K d r impl out).
Proof.
  unfold CreatePipelineLayout_body, PipelineLayout_stage_checks,
    PipelineLayout_range_checks.
  sound_tac.
Qed.

Lemma CreatePipeline_Graphics_sound d r impl out :
  triple sound_kept (λ _, True) (CreatePipeline_Graphics_body K d r impl out).
Proof.
  unfold CreatePipeline_Graphics_body, GraphicsPipeline_stage_checks,
    GraphicsPipeline_shader_checks.
  sound_tac.
Qed.

Lemma AllocateMemory_sound d r impl out :
  triple sound_kept (λ _, True) (AllocateMemory_body d r impl out).
Proof. unfold AllocateMemory_body. sound_tac. Qed.

Lemma CreateAccelerationStructure_sound d r impl md out :
  triple sound_kept (λ _, True) (CreateAccelerationStructure_body K d r impl md out).
Proof. unfold CreateAccelerationStructure_body. sound_tac. Qed.

Lemma AllocateAccelerationStructure_sound d r impl md out :
  triple sound_kept (λ _, True) (AllocateAccelerationStructure_body K d r impl md out).
Proof. unfold AllocateAccelerationStructure_body. sound_tac. Qed.

End SoundSteps.

Section BindShapeSound.

Context {A : Type}.
Context (cast : option Proxy → option A) (inj : A → Proxy) (setBound : A → A).
Context (isBound : A → bool).
Context (entry : N → MemoryBindingDesc → list MemoryBindingImplDesc
                 → M Result (list MemoryBindingImplDesc)).
Context (entryPoint : list MemoryBindingImplDesc → BackendCall).
Context (nullMessage : string).

Hypothesis cast_Some : ∀ o v, cast o = Some v → o = Some (inj v).
Hypothesis inj_not_memory : ∀ v, as_memory (Some (inj v)) = None.
Hypothesis flag_inj : ∀ v, proxy_flag (inj v) = Some (isBound v).
Hypothesis setBound_bound : ∀ v, isBound (setBound v) = true.
Hypothesis entry_validates : ∀ i d impl,
  triple validated (λ r, r = INVALID_ARGUMENT) (entry i d impl).

Lemma bind_one_sound memory resource :
  triple sound_kept (λ _ : Result, True) (bind_one cast inj setBound memory resource).
Proof.
  intros w. unfold bind_one. rewrite bind_deref_eq.
  destruct memory as [m|]; [|done].
  destruct (as_memory (heap w !! m)) as [mv|] eqn:Hmv; [|done].
  rewrite bind_deref_eq. destruct resource as [r|]; [|done].
  destruct (cast (heap w !! r)) as [rv|] eqn:Hrv; [|done].
  cbn [fst snd modify_heap].
  pose proof (as_memory_Some _ _ Hmv) as Hm. pose proof (cast_Some _ _ Hrv) as Hr.
  assert (m ≠ r) as Hne.
  { intros ->. rewrite Hm in Hr. injection Hr as Hr.
    pose proof (inj_not_memory rv) as Hn. by rewrite <- Hr in Hn. }
  intros Hf Hs. split.
  { intros a. cbn [heap next set_heap]. intros Ha. apply Hf.
    destruct (decide (a = r)) as [->|Har]; [by eexists|].
    rewrite lookup_insert_ne in Ha by done.
    destruct (decide (a = m)) as [->|Ham]; [by eexists|].
    by rewrite lookup_insert_ne in Ha. }
  assert (∀ x, bound_flag (heap w) x = Some true →
               bound_flag (<[r := inj (setBound rv)]>
                             (<[m := PMemory (add_bound r mv)]> (heap w))) x = Some true)
    as Hkeep.
  { intros x Hx. unfold bound_flag in *. destruct (decide (x = r)) as [->|Hxr].
    - rewrite lookup_insert_eq. simpl. by rewrite flag_inj, setBound_bound.
    - rewrite lookup_insert_ne by done. destruct (decide (x = m)) as [->|Hxm].
      + by rewrite Hm in Hx.
      + by rewrite lookup_insert_ne. }
  intros memory s resource Hset Hin. cbn [heap set_heap] in *.
  unfold bound_set in Hset. destruct (decide (memory = r)) as [->|Hmr].
  { rewrite lookup_insert_eq in Hset. by rewrite inj_not_memory in Hset. }
  rewrite lookup_insert_ne in Hset by done.
  destruct (decide (memory = m)) as [->|Hmm].
  - rewrite lookup_insert_eq in Hset. simpl in Hset. injection Hset as <-.
    apply elem_of_union in Hin as [Hin|Hin].
    + apply elem_of_singleton in Hin as ->. unfold bound_flag.
      rewrite lookup_insert_eq. simpl. by rewrite flag_inj, setBound_bound.
    + apply Hkeep. apply (Hs m (memory_bound mv)); [|done]. unfold bound_set. by rewrite Hmv.
  - rewrite lookup_insert_ne in Hset by done. apply Hkeep. by apply (Hs memory s).
Qed.

Lemma Bind_shape_sound descs backendResult :
  triple sound_kept (λ _ : Result, True)
    (Bind_shape cast inj setBound entry entryPoint nullMessage descs backendResult).
Proof.
  unfold Bind_shape. sound_tac.
  - eapply triple_weaken; [| |apply entry_validates]; [apply validated_sound_kept|done].
  - apply bind_one_sound.
Qed.

End BindShapeSound.

Section SoundOps.
Context (K : Constants).
Context (Backend_GetBufferMemoryDesc : BufferDesc → N → MemoryDesc).
Context (Backend_GetTextureMemoryDesc : TextureDesc → N → MemoryDesc).

Notation exec := (exec K Backend_GetBufferMemoryDesc Backend_GetTextureMemoryDesc).
Notation reachable :=
  (reachable K Backend_GetBufferMemoryDesc Backend_GetTextureMemoryDesc).

Lemma set_buffer_flag_sound (buffer : Ptr) :
  triple sound_kept (λ _ : Result, True)
    (bufferVal <-- deref as_buffer buffer ;;
     modify_heap (insert (fst bufferVal)
                    (PBuffer (BufferVal_SetBoundToMemory (snd bufferVal))))).
Proof.
  intros w. rewrite bind_deref_eq. destruct buffer as [a|]; [|done].
  destruct (as_buffer (heap w !! a)) as [b|] eqn:Hb; [|done]. cbn [fst snd modify_heap].
  apply sound_kept_set_flag; [|done].
  apply as_buffer_Some in Hb. unfold bound_flag. by rewrite Hb.
Qed.

Lemma set_texture_flag_sound (texture : Ptr) :
  triple sound_kept (λ _ : Result, True)
    (textureVal <-- deref as_texture texture ;;
     modify_heap (insert (fst textureVal)
                    (PTexture (TextureVal_SetBoundToMemory (snd textureVal))))).
Proof.
  intros w. rewrite bind_deref_eq. destruct texture as [a|]; [|done].
  destruct (as_texture (heap w !! a)) as [t|] eqn:Ht; [|done]. cbn [fst snd modify_heap].
  apply sound_kept_set_flag; [|done].
  apply as_texture_Some in Ht. unfold bound_flag. by rewrite Ht.
Qed.

Lemma AllocateAndBindMemory_record_sound d n allocations :
  triple sound_kept (λ _ : Result, True) (AllocateAndBindMemory_record d n allocations).
Proof.
  unfold AllocateAndBindMemory_record.
  apply triple_bind; [apply _| |intros _].
  { apply triple_for_loop; [apply _|]. intros. apply set_buffer_flag_sound. }
  apply triple_bind; [apply _| |intros _].
  { apply triple_for_loop; [apply _|]. intros. apply set_texture_flag_sound. }
  sound_tac.
Qed.

Lemma AllocateAndBindMemory_sound d isNull n backendResult allocations :
  triple sound_kept (λ _ : Result, True)
    (AllocateAndBindMemory_body K d isNull n backendResult allocations).
Proof.
  unfold AllocateAndBindMemory_body. apply triple_bind; [apply _| |intros prepared].
  { eapply triple_weaken; [| |apply AllocateAndBindMemory_prepare_asks];
      [apply asks_sound_kept|done]. }
  apply triple_bind; [apply _| |intros result].
  { apply triple_backend. intros w. apply sound_kept_call. }
  destruct (decide (result = SUCCESS)); [|by triple_tac].
  apply triple_bind; [apply _|apply AllocateAndBindMemory_record_sound|intros memories].
  by triple_tac.
Qed.

Lemma exec_sound op w w' : exec op w = Some w' → sound_kept w w'.
Proof.
  intros Hexec. destruct op; cbn [exec] in *;
    apply fmap_snd_Some in Hexec as [res Hexec].
  - unfold run, RegisterMemoryType in Hexec. injection Hexec as _ <-.
    apply sound_kept_memoryTypeMap.
  - destruct res as [r0 out']. eapply triple_run_out; [apply CreateBuffer_sound|exact Hexec].
  - destruct res as [r0 out']. eapply triple_run_out; [apply AllocateBuffer_sound|exact Hexec].
  - destruct res as [r0 out']. eapply triple_run_out; [apply CreateTexture_sound|exact Hexec].
  - destruct res as [r0 out'].
    eapply triple_run_out; [apply AllocateTexture_sound|exact Hexec].
  - destruct res as [r0 out'].
    eapply triple_run_out; [apply CreateDescriptor_Texture2DView_sound|exact Hexec].
  - revert Hexec. unfold DestroyDescriptor, run, DestroyDescriptor_body.
    rewrite bind_deref_eq.
    destruct (as_descriptor (heap w !! descriptor)) as [d|] eqn:Hd; [|done]. cbn [snd].
    msimpl. intros [= _ <-]. etrans; [apply sound_kept_call|].
    apply sound_kept_delete_other. cbn [heap log_call]. by apply bound_flag_descriptor with d.
  - destruct res as [r0 out'].
    eapply triple_run_out; [apply CreatePipelineLayout_sound|exact Hexec].
  - destruct res as [r0 out'].
    eapply triple_run_out; [apply CreatePipeline_Graphics_sound|exact Hexec].
  - destruct res as [r0 out'].
    eapply triple_run_out; [apply AllocateMemory_sound|exact Hexec].
  - unfold BindBufferMemory in Hexec. rewrite BindBufferMemory_body_shape in Hexec.
    eapply triple_run; [|exact Hexec].
    apply (Bind_shape_sound as_buffer PBuffer BufferVal_SetBoundToMemory
             buffer_isBoundToMemory); try done.
    + apply as_buffer_Some.
    + apply BindBufferMemory_entry_validates.
  - unfold BindTextureMemory in Hexec. rewrite BindTextureMemory_body_shape in Hexec.
    eapply triple_run; [|exact Hexec].
    apply (Bind_shape_sound as_texture PTexture TextureVal_SetBoundToMemory
             texture_isBoundToMemory); try done.
    + apply as_texture_Some.
    + apply BindTextureMemory_entry_validates.
  - unfold BindAccelerationStructureMemory in Hexec.
    rewrite BindAccelerationStructureMemory_body_shape in Hexec.
    eapply triple_run; [|exact Hexec].
    apply (Bind_shape_sound as_accelerationStructure PAccelerationStructure
             AccelerationStructureVal_SetBoundToMemory as_isBoundToMemory); try done.
    + apply as_accelerationStructure_Some.
    + apply BindAccelerationStructureMemory_entry_validates.
  - revert Hexec. unfold FreeMemory, run, FreeMemory_body. rewrite bind_deref_eq.
    destruct (as_memory (heap w !! memory)) as [m|] eqn:Hm; [|done]. cbn [snd].
    destruct (HasBoundResources m).
    + msimpl. destruct (ReportBoundResources_spec (R := unit) m w) as (w1 & rs & Heq & Hw1 & _).
      unfold bind at 1. rewrite Heq. msimpl. intros [= _ <-].
      apply untouched_sound_kept. etrans; [exact Hw1|]. apply untouched_report.
    + msimpl. intros [= _ <-]. etrans; [apply sound_kept_call|].
      apply sound_kept_delete_other. cbn [heap log_call]. by apply bound_flag_memory with m.
  - revert Hexec. unfold AllocateAndBindMemory.
    pose proof (AllocateAndBindMemory_sound d allocationsIsNull number r allocations w) as Hs.
    destruct (AllocateAndBindMemory_body K d allocationsIsNull number r allocations w)
      as [|r0 w0|x w0]; [done| |]; intros [= _ <-]; [by destruct Hs|done].
  - destruct res as [r0 out'].
    eapply triple_run_out; [apply CreateAccelerationStructure_sound|exact Hexec].
  - destruct res as [r0 out'].
    eapply triple_run_out; [apply AllocateAccelerationStructure_sound|exact Hexec].
  - revert Hexec. unfold DestroyBuffer, run, DestroyBuffer_body. rewrite bind_deref_eq.
    destruct (as_buffer (heap w !! buffer)) as [b|] eqn:Hb; [|done]. cbn [snd].
    msimpl. intros [= _ <-]. by apply sound_kept_destroy.
  - revert Hexec. unfold DestroyTexture, run, DestroyTexture_body. rewrite bind_deref_eq.
    destruct (as_texture (heap w !! texture)) as [t|] eqn:Ht; [|done]. cbn [snd].
    msimpl. intros [= _ <-]. by apply sound_kept_destroy.
  - revert Hexec. unfold DestroyAccelerationStructure, run, DestroyAccelerationStructure_body.
    rewrite bind_deref_eq.
    destruct (as_accelerationStructure (heap w !! accelerationStructure)) as [a|] eqn:Ha;
      [|done].
    msimpl. intros [= _ <-]. by apply sound_kept_destroy.
Qed.

Lemma reachable_sound w : reachable w → fresh w ∧ bound_sets_sound (heap w).
Proof.
  induction 1 as [|w op w' _ [Hf Hs] Hexec].
  - split.
    + intros a. cbn [heap empty_world]. rewrite lookup_empty. by intros [].
    + intros memory s resource Hset. unfold bound_set in Hset.
      cbn [heap empty_world] in Hset. by rewrite lookup_empty in Hset.
  - by apply (exec_sound op w w' Hexec).
Qed.

End SoundOps.

(** X10. In every world the device reaches, every member of the bound-set
    of a live Memory is a live buffer, texture or acceleration structure
    whose bound flag is set: no bound-set names a destroyed resource or
    one that is not bound. *)
Theorem X10_bound_sets_sound (K : Constants)
    (Backend_GetBufferMemoryDesc : BufferDesc → N → MemoryDesc)
    (Backend_GetTextureMemoryDesc : TextureDesc → N → MemoryDesc) (w : World) :
  reachable K Backend_GetBufferMemoryDesc Backend_GetTextureMemoryDesc w →
  bound_sets_sound (heap w).
Proof. intros Hreach. by apply reachable_sound in Hreach as [_ ?]. Qed.

(** After the two runs of the example, in which a buffer is bound to the
    memory at address 3 and then destroyed, the bound-sets are sound. *)
Lemma X10_bound_sets_sound_witness :
  ∃ w w',
    exec_all nri example_GetBufferMemoryDesc example_GetTextureMemoryDesc example_ops
      empty_world = Some w
    ∧ exec_all nri example_GetBufferMemoryDesc example_GetTextureMemoryDesc
        example_more_ops w = Some w'
    ∧ bound_sets_sound (heap w').
Proof.
  destruct (exec_all nri example_GetBufferMemoryDesc example_GetTextureMemoryDesc
              example_ops empty_world) as [w|] eqn:Hw; [|by vm_compute in Hw].
  destruct (exec_all nri example_GetBufferMemoryDesc example_GetTextureMemoryDesc
              example_more_ops w) as [w'|] eqn:Hw'.
  2:{ vm_compute in Hw. injection Hw as <-. by vm_compute in Hw'. }
  exists w, w'. split; [done|]. split; [done|].
  apply (X10_bound_sets_sound nri example_GetBufferMemoryDesc example_GetTextureMemoryDesc).
  eapply reachable_exec_all; [|exact Hw'].
  eapply reachable_exec_all; [apply reachable_empty|exact Hw].
Defined.

(** ** One report for a refusal, none for a forwarded call *)

Lemma checks_only_ret {R A} (E : R → Prop) (a : A) : checks_only E (ret a : M R A).
Proof. by intros w. Qed.

Lemma checks_only_bind {R A B} (E : R → Prop) (m : M R A) (k : A → M R B) :
  checks_only E m → (∀ a, checks_only E (k a)) → checks_only E (bind m k).
Proof.
  intros Hm Hk w. unfold bind. specialize (Hm w).
  destruct (m w) as [|r w'|a w']; [done|done|]. subst w'. apply Hk.
Qed.

Lemma checks_only_RETURN_ON_FAILURE {R} (E : R → Prop) c (r : R) message args :
  E r → checks_only E (RETURN_ON_FAILURE c r message args).
Proof. intros Hr w. unfold RETURN_ON_FAILURE. destruct c; [done|]. split; [done|by eexists]. Qed.

Lemma checks_only_deref {R A} (E : R → Prop) cast (p : Ptr) :
  checks_only E (deref cast p : M R (addr * A)).
Proof.
  intros w. unfold deref. destruct p as [a|]; [|done]. by destruct (cast (heap w !! a)).
Qed.

Lemma checks_only_project {R A} (E : R → Prop) (o : option A) :
  checks_only E (project o : M R A).
Proof. by destruct o. Qed.

Lemma checks_only_find_memoryType {R} (E : R → Prop) t :
  checks_only E (find_memoryType t : M R (option N)).
Proof. by intros w. Qed.

Lemma checks_only_for_loop {R A S} (E : R → Prop) (body : N → A → S → M R S) (l : list A) :
  (∀ i x s, checks_only E (body i x s)) → ∀ i s, checks_only E (for_loop i l s body).
Proof.
  intros Hbody. induction l as [|x l IH]; intros i s.
  - apply checks_only_ret.
  - cbn [for_loop]. apply checks_only_bind; [apply Hbody|]. intros s'. apply IH.
Qed.

Ltac checks_tac :=
  repeat match goal with
         | |- checks_only _ (bind _ _) => apply checks_only_bind; [|intros]
         | |- checks_only _ (ret _) => apply checks_only_ret
         | |- checks_only _ (RETURN_ON_FAILURE _ _ _ _) =>
             apply checks_only_RETURN_ON_FAILURE; try done; try (by left); try (by right)
         | |- checks_only _ (deref _ _) => apply checks_only_deref
         | |- checks_only _ (project _) => apply checks_only_project
         | |- checks_only _ (find_memoryType _) => apply checks_only_find_memoryType
         | |- checks_only _ (PipelineLayout_range_checks _ _ _ _ _) =>
             unfold PipelineLayout_range_checks; cbv zeta
         | |- checks_only _ (PipelineLayout_stage_checks _ _) =>
             unfold PipelineLayout_stage_checks; cbv zeta
         | |- checks_only _ (TextureDesc_checks _ _) =>
             unfold TextureDesc_checks; cbv zeta
         | |- checks_only _ (GraphicsPipeline_stage_checks _ _ _) =>
             unfold GraphicsPipeline_stage_checks; cbv zeta
         | |- checks_only _ (let _ := _ in _) => cbv zeta
         | |- checks_only _ (GraphicsPipeline_shader_checks _ _ _ _ _) =>
             unfold GraphicsPipeline_shader_checks; cbv zeta
         | |- checks_only _ (for_loop _ _ _ _) => apply checks_only_for_loop; intros
         | |- checks_only _ (if ?c then _ else _) => destruct c
         | |- checks_only _ (match ?c with _ => _ end) => destruct c
         end.

Lemma refuses_or_forwards_bind {A} backendResult (m : M Result A)
    (k : A → M Result (Result * Ptr)) :
  checks_only own_failure m → (∀ a, refuses_or_forwards backendResult (k a)) →
  refuses_or_forwards backendResult (bind m k).
Proof.
  intros Hm Hk w. unfold bind. specialize (Hm w).
  destruct (m w) as [|r w'|a w']; [done|done|]. subst w'. apply Hk.
Qed.

(** The end of every creation function: the backend is called, and a proxy
    is made after [SUCCESS]. *)
Lemma refuses_or_forwards_create backendResult c (p : Proxy) (out : Ptr) :
  refuses_or_forwards backendResult
    (result <-- backend c backendResult ;;
     if decide (result = SUCCESS) then a <-- Allocate p ;; ret (result, Some a)
     else ret (result, out)).
Proof.
  intros w. msimpl. destruct (decide (backendResult = SUCCESS)); msimpl; simpl.
  - split; [done|]. split; [done|]. by exists c, [].
  - split; [done|]. split; [done|]. by exists c, [].
Qed.

(** The same where the memory requirement is asked for before the proxy is
    made. *)
Lemma refuses_or_forwards_create_ask backendResult c q (md : MemoryDesc)
    (p : MemoryDesc → Proxy) (out : Ptr) :
  refuses_or_forwards backendResult
    (result <-- backend c backendResult ;;
     if decide (result = SUCCESS) then
       memoryDesc <-- backend q md ;; a <-- Allocate (p memoryDesc) ;; ret (result, Some a)
     else ret (result, out)).
Proof.
  intros w. msimpl. destruct (decide (backendResult = SUCCESS)); msimpl; simpl.
  - split; [done|]. split; [done|]. exists c, [q]. by rewrite <- app_assoc.
  - split; [done|]. split; [done|]. by exists c, [].
Qed.

Lemma run_out_refused_or_forwarded backendResult (body : Ptr → M Result (Result * Ptr)) :
  (∀ out, refuses_or_forwards backendResult (body out)) →
  refused_or_forwarded backendResult (λ out, run_out (body out) out).
Proof.
  intros Hbody out w result out' w' Hrun. unfold run_out in Hrun.
  specialize (Hbody out w).
  destruct (body out w) as [|r w1|[r p] w1]; [done| |].
  - injection Hrun as <- <- <-. left. by destruct Hbody.
  - injection Hrun as <- <- <-. by right.
Qed.

Ltac forwards_tac :=
  repeat first
    [ apply refuses_or_forwards_create
    | apply refuses_or_forwards_create_ask
    | apply refuses_or_forwards_bind; [checks_tac|intros] ].

(** X11. Every creation and allocation entry point either refuses or
    forwards. A call it refuses returns [INVALID_ARGUMENT] or [FAILURE],
    adds exactly one error report and changes nothing else, the caller's
    handle variable included. A call it forwards adds no report, calls the
    backend and returns the answer of the backend. So the layer never
    refuses silently and never reports on a call it lets through. *)
Theorem X11_refused_or_forwarded (K : Constants) (backendResult : Result) :
  (∀ d impl, refused_or_forwarded backendResult (CreateBuffer d backendResult impl))
  ∧ (∀ d impl, refused_or_forwarded backendResult (AllocateBuffer d backendResult impl))
  ∧ (∀ d impl, refused_or_forwarded backendResult (CreateTexture K d backendResult impl))
  ∧ (∀ d impl, refused_or_forwarded backendResult (AllocateTexture K d backendResult impl))
  ∧ (∀ d impl, refused_or_forwarded backendResult
                 (CreateDescriptor_Texture2DView K d backendResult impl))
  ∧ (∀ d impl, refused_or_forwarded backendResult
                 (CreatePipelineLayout K d backendResult impl))
  ∧ (∀ d impl, refused_or_forwarded backendResult
                 (CreatePipeline_Graphics K d backendResult impl))
  ∧ (∀ d impl, refused_or_forwarded backendResult (AllocateMemory d backendResult impl))
  ∧ (∀ d impl md, refused_or_forwarded backendResult
                    (CreateAccelerationStructure K d backendResult impl md))
  ∧ (∀ d impl md, refused_or_forwarded backendResult
                    (AllocateAccelerationStructure K d backendResult impl md)).
Proof.
  repeat split; intros; apply run_out_refused_or_forwarded; intros out;
    first [ unfold CreateBuffer_body | unfold AllocateBuffer_body
          | unfold CreateTexture_body | unfold AllocateTexture_body
          | unfold CreateDescriptor_Texture2DView_body
          | unfold CreatePipelineLayout_body | unfold CreatePipeline_Graphics_body
          | unfold AllocateMemory_body | unfold CreateAccelerationStructure_body
          | unfold AllocateAccelerationStructure_body ];
    forwards_tac.
Qed.

Lemma X11_refused_or_forwarded_witness :
  ∃ report,
    CreateBuffer {| bd_size := 0 |} SUCCESS 200 (Some 77) example_world
    = Some (INVALID_ARGUMENT, Some 77, log_report report example_world).
Proof.
  destruct (CreateBuffer {| bd_size := 0 |} SUCCESS 200 (Some 77) example_world)
    as [[[r o] w']|] eqn:Hrun; [|by vm_compute in Hrun].
  destruct (proj1 (X11_refused_or_forwarded nri SUCCESS) _ _ _ _ _ _ _ Hrun)
    as [(_ & -> & report & ->)|(-> & _)].
  - exists report. assert (r = INVALID_ARGUMENT) as ->; [|done].
    vm_compute in Hrun. by injection Hrun as <- _.
  - vm_compute in Hrun. by injection Hrun.
Defined.

(** ** Creation and destruction undo each other *)

Lemma makes_bind {A} (P : Proxy → Prop) (m : M Result A)
    (k : A → M Result (Result * Ptr)) :
  checks_only own_failure m → (∀ a, makes P (k a)) → makes P (bind m k).
Proof.
  intros Hm Hk w. unfold bind. specialize (Hm w).
  destruct (m w) as [|r w'|a w'].
  - done.
  - destruct Hm as [[-> | ->] _]; done.
  - subst w'. apply Hk.
Qed.

Lemma makes_create (P : Proxy → Prop) backendResult c (p : Proxy) (out : Ptr) :
  P p →
  makes P (result <-- backend c backendResult ;;
           if decide (result = SUCCESS) then a <-- Allocate p ;; ret (result, Some a)
           else ret (result, out)).
Proof.
  intros Hp w. msimpl. destruct (decide (backendResult = SUCCESS)); msimpl; simpl; [|done].
  intros _. split; [done|]. by exists p.
Qed.

Lemma makes_create_ask (P : Proxy → Prop) backendResult c q (md : MemoryDesc)
    (p : MemoryDesc → Proxy) (out : Ptr) :
  P (p md) →
  makes P (result <-- backend c backendResult ;;
           if decide (result = SUCCESS) then
             memoryDesc <-- backend q md ;; a <-- Allocate (p memoryDesc) ;;
             ret (result, Some a)
           else ret (result, out)).
Proof.
  intros Hp w. msimpl. destruct (decide (backendResult = SUCCESS)); msimpl; simpl; [|done].
  intros _. split; [done|]. by exists (p md).
Qed.

Ltac makes_tac :=
  repeat first
    [ apply makes_create
    | apply makes_create_ask
    | apply makes_bind; [checks_tac|intros] ].

Lemma run_out_makes (P : Proxy → Prop) (body : M Result (Result * Ptr)) out w out' w1 :
  makes P body → run_out body out w = Some (SUCCESS, out', w1) →
  out' = Some (next w) ∧ ∃ p, P p ∧ heap w1 = <[next w := p]> (heap w).
Proof.
  intros Hbody Hrun. unfold run_out in Hrun. specialize (Hbody w).
  destruct (body w) as [|r w'|[r p] w']; [done| |].
  - by injection Hrun as -> _ _.
  - injection Hrun as -> -> ->. by apply Hbody.
Qed.

(** A resource that is not live is in no bound-set, so taking it out of
    the bound-sets changes nothing. *)
Lemma remove_bound_absent (h : gmap addr Proxy) (a : addr) :
  h !! a = None → bound_sets_sound h → remove_bound a <$> h = h.
Proof.
  intros Ha Hsound. apply map_eq. intros a'. rewrite lookup_fmap.
  destruct (h !! a') as [p|] eqn:Hp; [|done]. cbn. f_equal.
  destruct p as [| | |m| | |]; try done. cbn [remove_bound].
  destruct m as [impl size location bound]. cbn. do 2 f_equal.
  assert (a ∉ bound) as Hnot; [|set_solver].
  intros Hin.
  assert (bound_flag h a = Some true) as Hflag.
  { apply (Hsound a' bound a); [|done]. unfold bound_set. by rewrite Hp. }
  unfold bound_flag in Hflag. by rewrite Ha in Hflag.
Qed.

Lemma fresh_next w : fresh w → heap w !! next w = None.
Proof.
  intros Hfresh. destruct (heap w !! next w) as [p|] eqn:Hp; [|done].
  assert (next w < next w); [|lia]. apply Hfresh. by eexists.
Qed.

Section RoundTrip.
Context (K : Constants).

Lemma CreateBuffer_DestroyBuffer d r impl :
  round_trip (CreateBuffer d r impl) DestroyBuffer (Core_DestroyBuffer impl).
Proof.
  intros out w out' w1 Hfresh Hsound Hrun.
  eapply (run_out_makes (λ p, ∃ b, p = PBuffer b ∧ buffer_impl b = impl)) in Hrun
    as (-> & p & (b & -> & Himpl) & Hheap).
  2:{ unfold CreateBuffer_body. makes_tac. by eexists. }
  pose proof (fresh_next w Hfresh) as Hnext.
  exists (next w). unfold DestroyBuffer, DestroyBuffer_body, run.
  rewrite bind_deref with (v := b) by (by rewrite Hheap, lookup_insert_eq).
  msimpl. cbn [snd]. eexists. split; [done|]. split; [done|].
  split; [reflexivity|]. split; [|by rewrite Himpl].
  cbn. rewrite Hheap, fmap_insert, delete_insert_eq. rewrite delete_id.
  - by apply remove_bound_absent.
  - rewrite lookup_fmap, fmap_None. exact Hnext.
Qed.

Lemma CreateTexture_DestroyTexture d r impl :
  round_trip (CreateTexture K d r impl) DestroyTexture (Core_DestroyTexture impl).
Proof.
  intros out w out' w1 Hfresh Hsound Hrun.
  eapply (run_out_makes (λ p, ∃ t, p = PTexture t ∧ texture_impl t = impl)) in Hrun
    as (-> & p & (t & -> & Himpl) & Hheap).
  2:{ unfold CreateTexture_body. makes_tac. by eexists. }
  pose proof (fresh_next w Hfresh) as Hnext.
  exists (next w). unfold DestroyTexture, DestroyTexture_body, run.
  rewrite bind_deref with (v := t) by (by rewrite Hheap, lookup_insert_eq).
  msimpl. cbn [snd]. eexists. split; [done|]. split; [done|].
  split; [reflexivity|]. split; [|by rewrite Himpl].
  cbn. rewrite Hheap, fmap_insert, delete_insert_eq. rewrite delete_id.
  - by apply remove_bound_absent.
  - rewrite lookup_fmap, fmap_None. exact Hnext.
Qed.

Lemma CreateDescriptor_DestroyDescriptor d r impl :
  round_trip (CreateDescriptor_Texture2DView K d r impl) DestroyDescriptor
             (Core_DestroyDescriptor impl).
Proof.
  intros out w out' w1 Hfresh Hsound Hrun.
  eapply (run_out_makes (λ p, p = PDescriptor {| descriptor_impl := impl |})) in Hrun
    as (-> & p & -> & Hheap).
  2:{ unfold CreateDescriptor_Texture2DView_body. makes_tac. done. }
  pose proof (fresh_next w Hfresh) as Hnext.
  exists (next w). unfold DestroyDescriptor, DestroyDescriptor_body, run.
  rewrite bind_deref with (v := {| descriptor_impl := impl |})
    by (by rewrite Hheap, lookup_insert_eq).
  msimpl. cbn [snd]. eexists. split; [done|]. split; [done|].
  split; [reflexivity|]. split; [|done].
  cbn. rewrite Hheap, delete_insert_eq. by apply delete_id.
Qed.

Lemma AllocateMemory_FreeMemory d r impl :
  round_trip (AllocateMemory d r impl) FreeMemory (Core_FreeMemory impl).
Proof.
  intros out w out' w1 Hfresh Hsound Hrun.
  eapply (run_out_makes (λ p, ∃ m, p = PMemory m ∧ memory_impl m = impl
                                   ∧ memory_bound m = ∅)) in Hrun
    as (-> & p & (m & -> & Himpl & Hbound) & Hheap).
  2:{ unfold AllocateMemory_body. makes_tac. by eexists. }
  pose proof (fresh_next w Hfresh) as Hnext.
  exists (next w). unfold FreeMemory, FreeMemory_body, run.
  rewrite bind_deref with (v := m) by (by rewrite Hheap, lookup_insert_eq).
  cbn [snd]. unfold HasBoundResources.
  rewrite bool_decide_eq_false_2 by (by intros []). msimpl.
  eexists. split; [done|]. split; [done|].
  split; [reflexivity|]. split; [|by rewrite Himpl].
  cbn. rewrite Hheap, delete_insert_eq. by apply delete_id.
Qed.

End RoundTrip.

Lemma example_world_sound : bound_sets_sound (heap example_world).
Proof.
  intros memory s resource Hset Hin. unfold bound_set in Hset.
  destruct (heap example_world !! memory) as [p|] eqn:Hp; [|done].
  cbn [heap example_world] in Hp. unfold example_heap in Hp.
  apply elem_of_list_to_map_2 in Hp.
  repeat (apply elem_of_cons in Hp as [[= -> ->]|Hp];
          [cbn in Hset; try done; injection Hset as <-;
           try (by apply elem_of_empty in Hin)|]).
  - apply elem_of_singleton in Hin as ->. reflexivity.
  - by apply elem_of_nil in Hp.
Qed.

(** X12. Creation and destruction undo each other, for buffers, textures,
    texture views and memories. In a world whose bound-sets are sound, after
    a creation call has returned [SUCCESS] the destruction call on the new
    handle is defined, passes to the backend the very handle the backend
    gave at creation, and leaves the proxies exactly as they were before
    the creation; a Memory just allocated has nothing bound and is freed at
    once. *)
Theorem X12_create_destroy_round_trip (K : Constants) (r : Result) (impl : handle) :
  (∀ d, round_trip (CreateBuffer d r impl) DestroyBuffer (Core_DestroyBuffer impl))
  ∧ (∀ d, round_trip (CreateTexture K d r impl) DestroyTexture (Core_DestroyTexture impl))
  ∧ (∀ d, round_trip (CreateDescriptor_Texture2DView K d r impl) DestroyDescriptor
                     (Core_DestroyDescriptor impl))
  ∧ (∀ d, round_trip (AllocateMemory d r impl) FreeMemory (Core_FreeMemory impl)).
Proof.
  split; [|split; [|split]]; intros d.
  - apply CreateBuffer_DestroyBuffer.
  - apply CreateTexture_DestroyTexture.
  - apply CreateDescriptor_DestroyDescriptor.
  - apply AllocateMemory_FreeMemory.
Qed.

(** A view of the texture of the example world is created at address 10
    and destroyed again. *)
Lemma X12_create_destroy_round_trip_witness :
  ∃ w1 w2,
    CreateDescriptor_Texture2DView nri (example_view 1 2) SUCCESS 110 None example_world
    = Some (SUCCESS, Some 10, w1)
    ∧ DestroyDescriptor 10 w1 = Some (tt, w2)
    ∧ heap w2 = heap example_world
    ∧ calls w2 = calls w1 ++ [Core_DestroyDescriptor 110].
Proof.
  destruct (CreateDescriptor_Texture2DView nri (example_view 1 2) SUCCESS 110 None
              example_world) as [[[r o] w1]|] eqn:Hrun; [|by vm_compute in Hrun].
  assert (r = SUCCESS ∧ o = Some 10) as [-> ->].
  { vm_compute in Hrun. by injection Hrun as <- <- _. }
  destruct (proj1 (proj2 (proj2 (X12_create_destroy_round_trip nri SUCCESS 110)))
              (example_view 1 2) None example_world (Some 10) w1
              example_world_fresh example_world_sound Hrun)
    as (a & w2 & [= <-] & _ & Hdestroy & Hheap & Hcalls).
  by exists w1, w2.
Defined.

(** ** What the backend is handed by a batched bind *)

Section EntryTranslates.
Context (K : Constants).
Context (Backend_GetBufferMemoryDesc : BufferDesc → N → MemoryDesc).
Context (Backend_GetTextureMemoryDesc : TextureDesc → N → MemoryDesc).

Ltac translates_tac :=
  repeat first [progress mfull | progress branch_cases]; intros;
  try discriminate;
  match goal with
  | H : Normal _ _ = Normal _ _ |- _ => injection H as <- <-
  end;
  eexists; (split; [reflexivity|]); eexists _, _, _, _; cbn [snd]; by repeat split.

Lemma BindBufferMemory_entry_translates i d impl w impl' w' :
  BindBufferMemory_entry K Backend_GetBufferMemoryDesc i d impl w = Normal impl' w' →
  ∃ dest, impl' = impl ++ [dest] ∧ translates as_buffer buffer_impl (heap w) d dest.
Proof. unfold BindBufferMemory_entry. translates_tac. Qed.

Lemma BindTextureMemory_entry_translates i d impl w impl' w' :
  BindTextureMemory_entry K Backend_GetTextureMemoryDesc i d impl w = Normal impl' w' →
  ∃ dest, impl' = impl ++ [dest] ∧ translates as_texture texture_impl (heap w) d dest.
Proof. unfold BindTextureMemory_entry. translates_tac. Qed.

Lemma BindAccelerationStructureMemory_entry_translates i d impl w impl' w' :
  BindAccelerationStructureMemory_entry i d impl w = Normal impl' w' →
  ∃ dest, impl' = impl ++ [dest]
          ∧ translates as_accelerationStructure as_impl (heap w) d dest.
Proof. unfold BindAccelerationStructureMemory_entry. translates_tac. Qed.

End EntryTranslates.

Section BindShapeTranslate.

Context {A : Type}.
Context (cast : option Proxy → option A) (inj : A → Proxy) (setBound : A → A).
Context (impl_of : A → handle).
Context (entry : N → MemoryBindingDesc → list MemoryBindingImplDesc
                 → M Result (list MemoryBindingImplDesc)).
Context (entryPoint : list MemoryBindingImplDesc → BackendCall).
Context (nullMessage : string).

Hypothesis entry_validates : ∀ i d impl,
  triple validated (λ r, r = INVALID_ARGUMENT) (entry i d impl).
Hypothesis entry_translates : ∀ i d impl w impl' w',
  entry i d impl w = Normal impl' w' →
  ∃ dest, impl' = impl ++ [dest] ∧ translates cast impl_of (heap w) d dest.

(** The validation loop fills the array for the backend entry by entry. *)
Lemma translate_loop descs : ∀ i impl w0,
  match for_loop i descs impl entry w0 with
  | Undefined => True
  | Returned r w' => r = INVALID_ARGUMENT ∧ validated w0 w'
  | Normal impl' w' =>
      validated w0 w'
      ∧ ∃ new, impl' = impl ++ new ∧ Forall2 (translates cast impl_of (heap w0)) descs new
  end.
Proof.
  induction descs as [|d descs IH]; intros i impl w0.
  - simpl. split; [reflexivity|]. exists []. by rewrite app_nil_r.
  - cbn [for_loop]. unfold bind at 1.
    pose proof (entry_validates i d impl w0) as Hval.
    destruct (entry i d impl w0) as [|r w1|impl1 w1] eqn:Hentry; [done| |].
    + by destruct Hval as [Hv ->].
    + apply entry_translates in Hentry as (dest & -> & Hdest).
      specialize (IH (i + 1) (impl ++ [dest]) w1).
      destruct (for_loop (i + 1) descs (impl ++ [dest]) entry w1) as [|r w2|impl2 w2];
        [done| |].
      * destruct IH as [-> Hv]. split; [done|]. by etrans.
      * destruct IH as (Hv & new & -> & Hnew). split; [by etrans|].
        exists (dest :: new). split; [by rewrite <- app_assoc|].
        constructor; [done|]. destruct Hval as (<- & _). done.
Qed.

(** Recording a binding calls no backend entry point. *)
Lemma record_loop_calls descs : ∀ i w,
  match for_loop i descs tt
          (λ _ desc _, bind_one cast inj setBound (mb_memory desc) (mb_resource desc)) w
  with
  | Undefined => True
  | Returned _ _ => False
  | Normal _ w' => calls w' = calls w
  end.
Proof.
  induction descs as [|d descs IH]; intros i w; [done|].
  cbn [for_loop]. unfold bind at 1, bind_one. rewrite bind_deref_eq.
  destruct (mb_memory d) as [m|]; [|done].
  destruct (as_memory (heap w !! m)) as [mv|]; [|done].
  rewrite bind_deref_eq. destruct (mb_resource d) as [r|]; [|done].
  destruct (cast (heap w !! r)) as [rv|]; [|done].
  cbn [modify_heap fst snd].
  match goal with |- context [for_loop _ _ _ _ ?w1] => specialize (IH (i + 1) w1) end.
  destruct (for_loop _ _ _ _ _); [done|done|]. by rewrite IH.
Qed.

Lemma Bind_shape_translated :
  batch_translated cast impl_of entryPoint (λ descs backendResult,
    run (Bind_shape cast inj setBound entry entryPoint nullMessage descs backendResult)).
Proof.
  intros descs backendResult w result w'. unfold run, Bind_shape. msimpl.
  destruct (is_null descs); cbn [negb].
  { intros [= <- <-]. left. split; [done|]. exists []. by rewrite app_nil_r. }
  pose proof (translate_loop (elems_of descs) 0 [] w) as Hloop.
  unfold bind at 1.
  destruct (for_loop 0 (elems_of descs) [] entry w) as [|r w1|impl w1]; [done| |].
  - intros [= <- <-]. destruct Hloop as (-> & _ & _ & _ & queries & Hcalls & Hq).
    left. split; [done|]. by exists queries.
  - destruct Hloop as ((_ & _ & _ & queries & Hcalls & Hq) & new & -> & Hnew). msimpl.
    change ([] ++ new) with new.
    assert (∀ w3, calls w3 = calls (log_call (entryPoint new) w1) →
                  ∃ queries0 impls,
                    calls w3 = calls w ++ queries0 ++ [entryPoint impls]
                    ∧ forallb is_query queries0 = true
                    ∧ Forall2 (translates cast impl_of (heap w)) (elems_of descs) impls)
      as Hdone.
    { intros w3 ->. exists queries, new. cbn [calls log_call].
      by rewrite Hcalls, <- app_assoc. }
    destruct (decide (backendResult = SUCCESS)) as [->|Hfail].
    + pose proof (record_loop_calls (elems_of descs) 0 (log_call (entryPoint new) w1))
        as Hrec.
      unfold bind at 1.
      destruct (for_loop 0 (elems_of descs) tt _ (log_call (entryPoint new) w1))
        as [|r3 w3|[] w3]; [done|done|].
      msimpl. intros [= <- <-]. right. split; [done|]. by apply Hdone.
    + msimpl. intros [= <- <-]. right. split; [done|]. by apply Hdone.
Qed.

End BindShapeTranslate.

(** X13. What the backend is handed by [BindBufferMemory],
    [BindTextureMemory] and [BindAccelerationStructureMemory]: a batch that
    is refused reaches the backend with requirement queries at most; a batch
    that is let through reaches the binding entry point once, as the last
    call, and the array it is given holds, entry by entry and in the order
    of the batch, the backend handle of the entry's Memory, the backend
    handle of the entry's resource and the entry's offset. *)
Theorem X13_bind_handles_translated (K : Constants)
    (Backend_GetBufferMemoryDesc : BufferDesc → N → MemoryDesc)
    (Backend_GetTextureMemoryDesc : TextureDesc → N → MemoryDesc) :
  batch_translated as_buffer buffer_impl Core_BindBufferMemory
    (BindBufferMemory K Backend_GetBufferMemoryDesc)
  ∧ batch_translated as_texture texture_impl Core_BindTextureMemory
      (BindTextureMemory K Backend_GetTextureMemoryDesc)
  ∧ batch_translated as_accelerationStructure as_impl
      RayTracing_BindAccelerationStructureMemory BindAccelerationStructureMemory.
Proof.
  split; [|split].
  - unfold BindBufferMemory. rewrite BindBufferMemory_body_shape.
    apply Bind_shape_translated.
    + intros. unfold BindBufferMemory_entry. validated_tac.
    + apply BindBufferMemory_entry_translates.
  - unfold BindTextureMemory. rewrite BindTextureMemory_body_shape.
    apply Bind_shape_translated.
    + intros. unfold BindTextureMemory_entry. validated_tac.
    + apply BindTextureMemory_entry_translates.
  - unfold BindAccelerationStructureMemory.
    rewrite BindAccelerationStructureMemory_body_shape.
    apply Bind_shape_translated.
    + intros. unfold BindAccelerationStructureMemory_entry. validated_tac.
    + apply BindAccelerationStructureMemory_entry_translates.
Qed.

(** The unbound buffer of the example world (address 1, backend handle
    101) is bound to the memory at address 4 (backend handle 104). *)
Lemma X13_bind_handles_translated_witness :
  ∃ w' queries,
    BindBufferMemory nri example_GetBufferMemoryDesc (Array [example_binding 4 1 0])
      SUCCESS example_world = Some (SUCCESS, w')
    ∧ calls w' = calls example_world ++ queries
                 ++ [Core_BindBufferMemory
                       [{| mbi_memory := 104; mbi_resource := 101; mbi_offset := 0 |}]].
Proof.
  destruct (BindBufferMemory nri example_GetBufferMemoryDesc
              (Array [example_binding 4 1 0]) SUCCESS example_world)
    as [[r w']|] eqn:Hrun; [|by vm_compute in Hrun].
  assert (r = SUCCESS) as ->.
  { vm_compute in Hrun. by injection Hrun as <- _. }
  destruct (proj1 (X13_bind_handles_translated nri example_GetBufferMemoryDesc
                     example_GetTextureMemoryDesc) _ _ _ _ _ Hrun)
    as [[[=] _]|(_ & queries & impls & Hcalls & _ & Himpls)].
  exists w', queries. split; [done|]. rewrite Hcalls. do 3 f_equal.
  cbn [elems_of] in Himpls.
  apply Forall2_cons_inv_l in Himpls as (dest & rest & Hdest & Hrest & ->).
  apply Forall2_nil_inv_l in Hrest as ->. f_equal.
  destruct Hdest as (memory & m & resource & b & [= <-] & Hm & [= <-] & Hb & ->).
  vm_compute in Hm, Hb. injection Hm as <-. injection Hb as <-. done.
Defined.

(** * Properties of the rest of the surface *)

(** ** Equations of the monad on devices *)

Lemma set_world_id d : set_world (world d) d = d.
Proof. by destruct d. Qed.

Lemma dbind_dret {R A B} (a : A) (k : A → DM R B) d : dbind (dret a) k d = k a d.
Proof. done. Qed.

Lemma dbind_dbind {R A B C} (m : DM R A) (k1 : A → DM R B) (k2 : B → DM R C) d :
  dbind (dbind m k1) k2 d = dbind m (λ x, dbind (k1 x) k2) d.
Proof. unfold dbind. by destruct (m d). Qed.

Lemma dbind_lift {R A B} (m : M R A) (k : A → DM R B) d :
  dbind (lift m) k d
  = match m (world d) with
    | Undefined => DUndefined
    | Returned r w => DReturned r (set_world w d)
    | Normal a w => k a (set_world w d)
    end.
Proof. unfold dbind, lift. by destruct (m (world d)). Qed.

Lemma dbind_RETURN_ON_FAILURE {R B} c (r : R) message args (k : unit → DM R B) d :
  dbind (lift (RETURN_ON_FAILURE c r message args)) k d
  = if c then k tt d
    else DReturned r (set_world
                        (log_report {| report_message := message; report_args := args |}
                                    (world d)) d).
Proof.
  rewrite dbind_lift. unfold RETURN_ON_FAILURE. destruct c; [|done].
  by rewrite set_world_id.
Qed.

Lemma dbind_REPORT_ERROR {R B} message args (k : unit → DM R B) d :
  dbind (lift (REPORT_ERROR message args)) k d
  = k tt (set_world (log_report {| report_message := message; report_args := args |}
                                (world d)) d).
Proof. by rewrite dbind_lift. Qed.

Lemma dbind_deref {R A B} cast (a : addr) (v : A) (k : addr * A → DM R B) d :
  cast (heap (world d) !! a) = Some v → dbind (lift (deref cast (Some a))) k d = k (a, v) d.
Proof.
  intros H. rewrite dbind_lift. unfold deref. rewrite H. by rewrite set_world_id.
Qed.

Lemma dbind_deref_eq {R A B} cast (p : Ptr) (k : addr * A → DM R B) d :
  dbind (lift (deref cast p)) k d
  = match p with
    | None => DUndefined
    | Some a => match cast (heap (world d) !! a) with
                | Some v => k (a, v) d
                | None => DUndefined
                end
    end.
Proof.
  rewrite dbind_lift. unfold deref. destruct p as [a|]; [|done].
  destruct (cast (heap (world d) !! a)); [|done]. by rewrite set_world_id.
Qed.

Lemma dbind_project {R A B} (o : option A) (k : A → DM R B) d :
  dbind (lift (project o)) k d
  = match o with Some a => k a d | None => DUndefined end.
Proof. rewrite dbind_lift. destruct o; [|done]. simpl. by rewrite set_world_id. Qed.

Lemma dbind_Allocate {R B} p (k : addr → DM R B) d :
  dbind (lift (Allocate p)) k d
  = k (next (world d))
      (set_world (set_next (next (world d) + 1)
                    (set_heap (insert (next (world d)) p) (world d))) d).
Proof. by rewrite dbind_lift. Qed.

Lemma dbind_Destroy {R B} a (k : unit → DM R B) d :
  dbind (lift (Destroy a)) k d = k tt (set_world (set_heap (delete a) (world d)) d).
Proof. by rewrite dbind_lift. Qed.

Lemma dbind_device_backend {R A B} c (answer : A) (k : A → DM R B) d :
  dbind (device_backend c answer) k d = k answer (log_device_call c d).
Proof. done. Qed.

Lemma dbind_AllocateObject {R B} o (k : addr → DM R B) d :
  dbind (AllocateObject o) k d
  = k (next (world d))
      (set_objects (insert (next (world d)) o)
         (set_world (set_next (next (world d) + 1) (world d)) d)).
Proof. done. Qed.

Lemma dbind_DestroyObject {R B} a (k : unit → DM R B) d :
  dbind (DestroyObject a) k d = k tt (set_objects (delete a) d).
Proof. done. Qed.

Lemma dbind_deref_object {R A B} cast (a : addr) (v : A) (k : addr * A → DM R B) d :
  cast (objects d !! a) = Some v → dbind (deref_object cast (Some a)) k d = k (a, v) d.
Proof. intros H. unfold dbind, deref_object. by rewrite H. Qed.

Lemma dbind_deref_object_eq {R A B} cast (p : Ptr) (k : addr * A → DM R B) d :
  dbind (deref_object cast p) k d
  = match p with
    | None => DUndefined
    | Some a => match cast (objects d !! a) with
                | Some v => k (a, v) d
                | None => DUndefined
                end
    end.
Proof.
  unfold dbind, deref_object. destruct p as [a|]; [|done].
  by destruct (cast (objects d !! a)).
Qed.

Lemma dbind_get_commandQueue {R B} index (k : Ptr → DM R B) d :
  dbind (get_commandQueue index) k d = k (m_CommandQueues d !! index) d.
Proof. done. Qed.

Lemma dbind_put_commandQueue {R B} index a (k : unit → DM R B) d :
  dbind (put_commandQueue index a) k d = k tt (set_commandQueues (insert index a) d).
Proof. done. Qed.

Lemma dbind_put_capabilities {R B} c (k : unit → DM R B) d :
  dbind (put_capabilities c) k d = k tt (set_capabilities c d).
Proof. done. Qed.

Lemma dbind_dreturn_ {R A B} (r : R) (k : A → DM R B) d :
  dbind (dreturn_ r) k d = DReturned r d.
Proof. done. Qed.

Lemma dbind_if {R A B} (c : bool) (m1 m2 : DM R A) (k : A → DM R B) d :
  dbind (if c then m1 else m2) k d = if c then dbind m1 k d else dbind m2 k d.
Proof. by destruct c. Qed.

Ltac dsimpl :=
  repeat first
    [ rewrite dbind_dbind | rewrite dbind_dret | rewrite dbind_RETURN_ON_FAILURE
    | rewrite dbind_REPORT_ERROR | rewrite dbind_device_backend | rewrite dbind_Allocate
    | rewrite dbind_Destroy | rewrite dbind_AllocateObject | rewrite dbind_DestroyObject
    | rewrite dbind_get_commandQueue | rewrite dbind_put_commandQueue
    | rewrite dbind_put_capabilities | rewrite dbind_dreturn_ ].

(** Split on the first check of the goal that is still undecided. *)
Ltac dcheck_split :=
  match goal with
  | |- context [if ?c then _ else DReturned _ _] => destruct c eqn:?
  end.

(** ** Views of buffers *)

(** The end of a view computed in 64 bits is within the buffer when the
    view is, and also whenever the sum wraps around. *)
Lemma u64_range_wraps (offset size bufferSize : N) :
  offset < 2 ^ 64 → size < 2 ^ 64 → offset < bufferSize →
  u64 (offset + size) ≤ bufferSize
  ↔ offset + size ≤ bufferSize ∨ 2 ^ 64 ≤ offset + size.
Proof.
  intros Ho Hs Hb. unfold u64.
  destruct (N.lt_ge_cases (offset + size) (2 ^ 64)) as [Hsmall|Hbig].
  - rewrite N.mod_small by done. lia.
  - assert ((offset + size) mod 2 ^ 64 = offset + size - 2 ^ 64) as ->.
    { symmetry. apply N.mod_unique with 1; lia. }
    lia.
Qed.

(** X14. A buffer view on a live buffer is handed to the backend exactly
    when its format is below [Format::MAX_NUM] ([UNKNOWN] is allowed), its
    view type is one of the enumeration, its offset lies within the buffer
    and its end [offset + size] either lies within the buffer or is past
    [2^64]: the sum is computed in 64 bits, so a view whose end wraps around
    passes the size check. Any other view is refused with
    [INVALID_ARGUMENT], one error report and nothing else changed. *)
Theorem X14_BufferView_range (K : Constants) (E : Enums) (bufferViewDesc : BufferViewDesc)
    (backendResult : Result) (descriptorImpl : handle) (bufferView : Ptr) (d : Device)
    (a : addr) (b : BufferVal) :
  bv_buffer bufferViewDesc = Some a →
  as_buffer (heap (world d) !! a) = Some b →
  bv_offset bufferViewDesc < 2 ^ 64 → bv_size bufferViewDesc < 2 ^ 64 →
  let bufferSize := bd_size (buffer_desc b) in
  let accepted :=
    bv_format bufferViewDesc < Format_MAX_NUM K
    ∧ bv_viewType bufferViewDesc < BufferViewType_MAX_NUM E
    ∧ bv_offset bufferViewDesc < bufferSize
    ∧ (bv_offset bufferViewDesc + bv_size bufferViewDesc ≤ bufferSize
       ∨ 2 ^ 64 ≤ bv_offset bufferViewDesc + bv_size bufferViewDesc) in
  (accepted →
   ∃ bufferView' d',
     CreateDescriptor_BufferView K E bufferViewDesc backendResult descriptorImpl
       bufferView d = Some (backendResult, bufferView', d')
     ∧ device_calls d'
       = device_calls d ++ [Core_CreateBufferView (buffer_impl b) bufferViewDesc]
     ∧ reports (world d') = reports (world d))
  ∧ (¬ accepted →
     ∃ report,
       CreateDescriptor_BufferView K E bufferViewDesc backendResult descriptorImpl
         bufferView d
       = Some (INVALID_ARGUMENT, bufferView, set_world (log_report report (world d)) d)).
Proof.
  intros Hbuffer Hb Ho Hs bufferSize accepted.
  unfold CreateDescriptor_BufferView, CreateDescriptor_BufferView_body, drun_out.
  rewrite Hbuffer. rewrite bool_decide_eq_true_2 by done. dsimpl.
  destruct (N.ltb_spec (bv_format bufferViewDesc) (Format_MAX_NUM K)) as [Hf|Hf].
  2:{ split; [intros (? & _); lia|]. intros _. by eexists. }
  destruct (N.ltb_spec (bv_viewType bufferViewDesc) (BufferViewType_MAX_NUM E)) as [Hv|Hv].
  2:{ split; [intros (_ & ? & _); lia|]. intros _. by eexists. }
  rewrite dbind_deref with (v := b) by done. cbn [snd]. dsimpl. fold bufferSize.
  destruct (N.ltb_spec (bv_offset bufferViewDesc) bufferSize) as [Hlt|Hlt].
  2:{ split; [intros (_ & _ & ? & _); lia|]. intros _. by eexists. }
  pose proof (u64_range_wraps _ _ bufferSize Ho Hs Hlt) as Hwrap.
  destruct (N.leb_spec (u64 (bv_offset bufferViewDesc + bv_size bufferViewDesc)) bufferSize)
    as [Hle|Hle].
  2:{ split; [intros (_ & _ & _ & Hend); apply Hwrap in Hend; lia|].
      intros _. by eexists. }
  split.
  - intros _. destruct (decide (backendResult = SUCCESS)); dsimpl; by eexists _, _.
  - intros Hnot. exfalso. apply Hnot. repeat split; try done. by apply Hwrap.
Qed.

(** The view of the buffer of 1024 bytes at address 1 that starts at
    offset 1 with size [2^64 - 1] ends at [2^64], which is [0] in 64 bits:
    it is accepted. *)
Lemma X14_BufferView_range_witness :
  ∃ bufferView' d',
    CreateDescriptor_BufferView nri nri_enums
      {| bv_buffer := Some 1; bv_viewType := 0; bv_format := 0; bv_offset := 1;
         bv_size := 2 ^ 64 - 1 |}
      SUCCESS 110 None (device_of example_world) = Some (SUCCESS, bufferView', d')
    ∧ device_calls d'
      = [Core_CreateBufferView 101
           {| bv_buffer := Some 1; bv_viewType := 0; bv_format := 0; bv_offset := 1;
              bv_size := 2 ^ 64 - 1 |}].
Proof.
  destruct (proj1 (X14_BufferView_range nri nri_enums
                     {| bv_buffer := Some 1; bv_viewType := 0; bv_format := 0;
                        bv_offset := 1; bv_size := 2 ^ 64 - 1 |}
                     SUCCESS 110 None (device_of example_world) 1
                     {| buffer_impl := 101; buffer_isBoundToMemory := false;
                        buffer_desc := {| bd_size := 1024 |} |}
                     eq_refl eq_refl ltac:(simpl; lia) ltac:(simpl; lia)))
    as (bufferView' & d' & Hrun & Hcalls & _).
  { simpl. lia. }
  by exists bufferView', d'.
Defined.

(** ** Views of 1D and 3D textures, samplers *)

Lemma refused_intro (out : Ptr) (d : Device) report :
  refused (Some (INVALID_ARGUMENT, out, set_world (log_report report (world d)) d)) out d.
Proof. by exists report. Qed.

(** Turn the boolean conditions among the hypotheses into propositions. *)
Ltac bools_to_props :=
  repeat match goal with
         | H : (_ && _) = true |- _ => apply andb_true_iff in H as [? ?]
         | H : (_ && _) = false |- _ => apply andb_false_iff in H as [?|?]
         | H : (_ || _) = true |- _ => apply orb_true_iff in H as [?|?]
         | H : (_ || _) = false |- _ => apply orb_false_iff in H as [? ?]
         | H : (_ <? _) = true |- _ => apply N.ltb_lt in H
         | H : (_ <? _) = false |- _ => apply N.ltb_ge in H
         | H : (_ <=? _) = true |- _ => apply N.leb_le in H
         | H : (_ <=? _) = false |- _ => apply N.leb_gt in H
         | H : (_ =? _) = true |- _ => apply N.eqb_eq in H
         | H : (_ =? _) = false |- _ => apply N.eqb_neq in H
         | H : negb _ = true |- _ => apply negb_true_iff in H
         | H : negb _ = false |- _ => apply negb_false_iff in H
         | H : bool_decide _ = true |- _ => apply bool_decide_eq_true in H
         | H : bool_decide _ = false |- _ => apply bool_decide_eq_false in H
         end.

(** Decide the checks of a straight-line creation function one after the
    other, on a goal that says it forwards when the descriptor is accepted
    and refuses otherwise: a check that fails contradicts the acceptance and
    gives the refusal. *)
Ltac view_checks :=
  repeat match goal with
         | |- context [if ?c then _ else DReturned _ _] =>
             destruct c eqn:?;
             [|split; [let Hok := fresh "Hok" in
                       intros Hok; exfalso; bools_to_props; destruct_and?;
                       first [lia | congruence | done | naive_solver lia]
                      |intros _; apply refused_intro]]
         end.

(** X15. Views of 1D and of 3D textures nest in their texture. On a live
    texture, [CreateDescriptor] hands a 1D view to the backend exactly when
    view type and format are valid, its mips are mips of the texture and its
    layers are layers of the texture; it hands a 3D view to the backend
    exactly when view type and format are valid, its mips are mips of the
    texture and its slices lie within the depth of the texture (the layer
    count plays no part). The backend is given its own handle of the
    texture. Any other view is refused with one report. *)
Theorem X15_texture_views_nest (K : Constants) (E : Enums) (backendResult : Result)
    (descriptorImpl : handle) (textureView : Ptr) (d : Device) (a : addr)
    (t : TextureVal) :
  as_texture (heap (world d) !! a) = Some t →
  (∀ v : Texture1DViewDesc,
     t1_texture v = Some a →
     let run := CreateDescriptor_Texture1DView K E v backendResult descriptorImpl
                  textureView d in
     (view1D_ok K E (texture_desc t) v →
      forwarded run backendResult (Core_CreateTexture1DView (texture_impl t) v) d)
     ∧ (¬ view1D_ok K E (texture_desc t) v → refused run textureView d))
  ∧ (∀ v : Texture3DViewDesc,
       t3_texture v = Some a →
       let run := CreateDescriptor_Texture3DView K E v backendResult descriptorImpl
                    textureView d in
       (view3D_ok K E (texture_desc t) v →
        forwarded run backendResult (Core_CreateTexture3DView (texture_impl t) v) d)
       ∧ (¬ view3D_ok K E (texture_desc t) v → refused run textureView d)).
Proof.
  intros Ht. split.
  - intros v Hv run. subst run.
    unfold CreateDescriptor_Texture1DView, CreateDescriptor_Texture1DView_body, drun_out.
    unfold view1D_ok. rewrite Hv. rewrite bool_decide_eq_true_2 by done. dsimpl.
    view_checks.
    rewrite dbind_deref with (v := t) by done. cbn [snd]. dsimpl.
    view_checks.
    split.
    + intros _. destruct (decide (backendResult = SUCCESS)); dsimpl; by eexists _, _.
    + intros Hnot. exfalso. apply Hnot. bools_to_props. repeat split; lia.
  - intros v Hv run. subst run.
    unfold CreateDescriptor_Texture3DView, CreateDescriptor_Texture3DView_body, drun_out.
    unfold view3D_ok. rewrite Hv. rewrite bool_decide_eq_true_2 by done. dsimpl.
    view_checks.
    rewrite dbind_deref with (v := t) by done. cbn [snd]. dsimpl.
    view_checks.
    split.
    + intros _. destruct (decide (backendResult = SUCCESS)); dsimpl; by eexists _, _.
    + intros Hnot. exfalso. apply Hnot. bools_to_props. repeat split; lia.
Qed.

(** The texture at address 20 of the example has depth 4 and one layer:
    the view of its slices 2 and 3 is handed to the backend. *)
Lemma X15_texture_views_nest_witness :
  forwarded (CreateDescriptor_Texture3DView nri nri_enums (example_view3D 2 2) SUCCESS 110
               None example_device3D)
            SUCCESS (Core_CreateTexture3DView 120 (example_view3D 2 2)) example_device3D.
Proof.
  apply (proj1 (proj2 (X15_texture_views_nest nri nri_enums SUCCESS 110 None
                         example_device3D 20 example_texture3D eq_refl)
                      (example_view3D 2 2) eq_refl)).
  unfold view3D_ok. simpl. lia.
Defined.

(** X16. [CreateDescriptor] hands a sampler to the backend exactly when
    its three filters, its extended filter, its three address modes, its
    comparison function and its border colour are values of their
    enumerations and, on a device without support for min/max filtering,
    the extended filter is [FilterExt::NONE]. Any other sampler is refused
    with one report. *)
Theorem X16_CreateSampler (E : Enums) (isTextureFilterMinMaxSupported : bool)
    (samplerDesc : SamplerDesc) (backendResult : Result) (samplerImpl : handle)
    (sampler : Ptr) (d : Device) :
  let run := CreateDescriptor_Sampler E isTextureFilterMinMaxSupported samplerDesc
               backendResult samplerImpl sampler d in
  (sampler_ok E isTextureFilterMinMaxSupported samplerDesc →
   forwarded run backendResult (Core_CreateSampler samplerDesc) d)
  ∧ (¬ sampler_ok E isTextureFilterMinMaxSupported samplerDesc → refused run sampler d).
Proof.
  intros run. subst run.
  unfold CreateDescriptor_Sampler, CreateDescriptor_Sampler_body, drun_out, sampler_ok.
  dsimpl. view_checks.
  destruct isTextureFilterMinMaxSupported; cbn [negb]; dsimpl; view_checks.
  - split.
    + intros _. destruct (decide (backendResult = SUCCESS)); dsimpl; by eexists _, _.
    + intros Hnot. exfalso. apply Hnot. bools_to_props. repeat split; (lia || done).
  - split.
    + intros _. destruct (decide (backendResult = SUCCESS)); dsimpl; by eexists _, _.
    + intros Hnot. exfalso. apply Hnot. bools_to_props. repeat split; (lia || done).
Qed.

(** A sampler with a min/max filter is refused on a device that does not
    support it, and handed to the backend on one that does. *)
Lemma X16_CreateSampler_witness :
  refused (CreateDescriptor_Sampler nri_enums false (example_sampler 1) SUCCESS 110 None
             (device_of example_world)) None (device_of example_world)
  ∧ forwarded (CreateDescriptor_Sampler nri_enums true (example_sampler 1) SUCCESS 110 None
                 (device_of example_world))
              SUCCESS (Core_CreateSampler (example_sampler 1)) (device_of example_world).
Proof.
  split.
  - apply (proj2 (X16_CreateSampler nri_enums false (example_sampler 1) SUCCESS 110 None
                    (device_of example_world))).
    unfold sampler_ok. simpl. intros (_ & _ & _ & _ & _ & _ & _ & _ & _ & Hext).
    by specialize (Hext eq_refl).
  - apply (proj1 (X16_CreateSampler nri_enums true (example_sampler 1) SUCCESS 110 None
                    (device_of example_world))).
    unfold sampler_ok. simpl. repeat split; (lia || done).
Defined.

(** ** Compute pipelines *)

(** X17. [CreatePipeline] hands a compute pipeline with a live layout to
    the backend exactly when the size of its shader is not zero, its
    bytecode is not null and its stage is [StageBits::COMPUTE_SHADER]
    itself; the stages of the pipeline layout play no part. The backend is
    given its own handle of the layout. Any other pipeline is refused with
    one report. *)
Theorem X17_CreatePipeline_Compute (K : Constants)
    (computePipelineDesc : ComputePipelineDesc) (backendResult : Result)
    (pipelineImpl : handle) (pipeline : Ptr) (d : Device) (a : addr)
    (l : PipelineLayoutVal) :
  cp_pipelineLayout computePipelineDesc = Some a →
  as_pipelineLayout (heap (world d) !! a) = Some l →
  let run := CreatePipeline_Compute K computePipelineDesc backendResult pipelineImpl
               pipeline d in
  (compute_shader_ok K (cp_shader computePipelineDesc) →
   forwarded run backendResult
             (Core_CreateComputePipeline (layout_impl l) computePipelineDesc) d)
  ∧ (¬ compute_shader_ok K (cp_shader computePipelineDesc) → refused run pipeline d).
Proof.
  intros Ha Hl run. subst run.
  unfold CreatePipeline_Compute, CreatePipeline_Compute_body, drun_out, compute_shader_ok.
  rewrite Ha. rewrite bool_decide_eq_true_2 by done. dsimpl. view_checks.
  rewrite dbind_deref with (v := l) by done. cbn [snd]. dsimpl.
  split.
  - intros _. destruct (decide (backendResult = SUCCESS)); dsimpl; by eexists _, _.
  - intros Hnot. exfalso. apply Hnot. bools_to_props. done.
Qed.

(** A compute shader is accepted with the layout at address 8 of the
    example world, whose stages are the graphics stages. *)
Lemma X17_CreatePipeline_Compute_witness :
  forwarded (CreatePipeline_Compute nri
               {| cp_pipelineLayout := Some 8; cp_shader := example_shader 1024 |}
               SUCCESS 130 None (device_of example_world))
            SUCCESS
            (Core_CreateComputePipeline 108
               {| cp_pipelineLayout := Some 8; cp_shader := example_shader 1024 |})
            (device_of example_world).
Proof.
  apply (proj1 (X17_CreatePipeline_Compute nri
                  {| cp_pipelineLayout := Some 8; cp_shader := example_shader 1024 |}
                  SUCCESS 130 None (device_of example_world) 8
                  {| layout_impl := 108;
                     layout_desc := {| pl_shaderStages := 254; pl_descriptorSets := [] |} |}
                  eq_refl eq_refl)).
  unfold compute_shader_ok. simpl. by repeat split.
Defined.

(** ** Ray-tracing pipelines *)

Lemma land_lor_zero (x y z : N) :
  N.land (N.lor x y) z = 0 ↔ N.land x z = 0 ∧ N.land y z = 0.
Proof. rewrite N.land_lor_distr_l. apply N.lor_eq_0_iff. Qed.

(** The check of the loop with an accumulator is the pairwise one. *)
Lemma rt_shaders_pass_spec (K : Constants) (shaders : list ShaderDesc) : ∀ unique,
  rt_shaders_pass K unique shaders
  ↔ rt_shaders_ok K shaders
    ∧ ∀ s, s ∈ shaders → N.land unique (u32 (sh_stage s)) = 0.
Proof.
  induction shaders as [|s rest IH]; intros unique; cbn [rt_shaders_pass].
  - split; [intros _|done]. split; [split|].
    + by intros ? ?%elem_of_nil.
    + intros i j si sj _ Hi. by rewrite lookup_nil in Hi.
    + by intros ? ?%elem_of_nil.
  - rewrite IH. unfold rt_shaders_ok. split.
    + intros (Hb & Hs & Hp & Hu & (Hall & Hpair) & Hrest). split; [split|].
      * intros s' [->|Hin]%elem_of_cons; [done|by apply Hall].
      * intros i j si sj Hij Hi Hj. destruct j as [|j]; [lia|]. cbn in Hj.
        destruct i as [|i]; cbn in Hi.
        -- injection Hi as <-. apply list_elem_of_lookup_2 in Hj.
           specialize (Hrest sj Hj). by apply land_lor_zero in Hrest as [_ ?].
        -- apply (Hpair i j); [lia|done|done].
      * intros s' [->|Hin]%elem_of_cons; [done|].
        specialize (Hrest s' Hin). by apply land_lor_zero in Hrest as [? _].
    + intros ((Hall & Hpair) & Hu).
      destruct (Hall s ltac:(by left)) as (Hb & Hs & Hp).
      split; [done|]. split; [done|]. split; [done|].
      split; [apply Hu; by left|]. split; [split|].
      * intros s' Hin. apply Hall. by right.
      * intros i j si sj Hij Hi Hj. apply (Hpair (S i) (S j)); [lia|done|done].
      * intros s' Hin. apply land_lor_zero. split; [apply Hu; by right|].
        apply list_elem_of_lookup_1 in Hin as [j Hj].
        by apply (Hpair 0%nat (S j) s s'); [lia| |].
Qed.

(** The shader loop: it goes on, in the world it was given, exactly when
    the shaders pass; otherwise it returns [INVALID_ARGUMENT] with one
    report. *)
Lemma RayTracingPipeline_loop_spec (K : Constants) (shaders : list ShaderDesc) :
  RAY_TRACING_SHADERS K < 2 ^ 32 →
  ∀ i unique w,
    match for_loop i shaders unique (RayTracingPipeline_shader_checks K) w with
    | Undefined => False
    | Returned r w' =>
        r = INVALID_ARGUMENT ∧ (∃ report, w' = log_report report w)
        ∧ ¬ rt_shaders_pass K unique shaders
    | Normal _ w' => w' = w ∧ rt_shaders_pass K unique shaders
    end.
Proof.
  intros HK. induction shaders as [|s rest IH]; intros i unique w; [done|].
  cbn [for_loop rt_shaders_pass]. unfold RayTracingPipeline_shader_checks at 1.
  rewrite IsShaderStageValid_spec by done. cbn [fst snd]. msimpl.
  destruct (bool_decide (sh_bytecode s ≠ None)) eqn:Hb.
  2:{ apply bool_decide_eq_false in Hb. split; [done|]. split; [by eexists|]. tauto. }
  apply bool_decide_eq_true in Hb.
  destruct (N.eqb_spec (sh_size s) 0) as [Hs|Hs]; cbn [negb].
  { split; [done|]. split; [by eexists|]. tauto. }
  destruct (bool_decide (popcount (N.land (sh_stage s) (RAY_TRACING_SHADERS K)) = 1))
    eqn:Hp; cbn [andb].
  2:{ apply bool_decide_eq_false in Hp. split; [done|]. split; [by eexists|]. tauto. }
  apply bool_decide_eq_true in Hp.
  destruct (N.eqb_spec (N.land unique (u32 (sh_stage s))) 0) as [Hu|Hu].
  2:{ split; [done|]. split; [by eexists|]. tauto. }
  specialize (IH (i + 1) (N.lor unique (u32 (sh_stage s))) w).
  destruct (for_loop (i + 1) rest _ _ w) as [|r w'|u w']; [done| |].
  - destruct IH as (-> & Hrep & Hnot). split; [done|]. split; [done|]. tauto.
  - destruct IH as [-> Hpass]. split; [done|]. tauto.
Qed.

(** X18. [CreatePipeline] hands a ray-tracing pipeline, with a live layout
    and a shader library, to the backend exactly when the array of shader
    groups is not null and not empty, the recursion depth is not zero, every
    shader of the library has bytecode of a size that is not zero and
    exactly one stage bit of the ray-tracing family, and no two shaders of
    the library have a stage bit in common. Any other pipeline is refused
    with one report. *)
Theorem X18_CreatePipeline_RayTracing (K : Constants)
    (pipelineDesc : RayTracingPipelineDesc) (backendResult : Result)
    (pipelineImpl : handle) (pipeline : Ptr) (d : Device) (a : addr)
    (l : PipelineLayoutVal) (shaderLibrary : ShaderLibrary) (shaders : list ShaderDesc) :
  RAY_TRACING_SHADERS K < 2 ^ 32 →
  rp_pipelineLayout pipelineDesc = Some a →
  as_pipelineLayout (heap (world d) !! a) = Some l →
  rp_shaderLibrary pipelineDesc = Some shaderLibrary →
  sl_shaders shaderLibrary = Array shaders →
  let run := CreatePipeline_RayTracing K pipelineDesc backendResult pipelineImpl
               pipeline d in
  let accepted :=
    is_null (rp_shaderGroupDescs pipelineDesc) = false
    ∧ count (rp_shaderGroupDescs pipelineDesc) ≠ 0
    ∧ rp_recursionDepthMax pipelineDesc ≠ 0
    ∧ rt_shaders_ok K shaders in
  (accepted →
   forwarded run backendResult
             (RayTracing_CreateRayTracingPipeline (layout_impl l) pipelineDesc) d)
  ∧ (¬ accepted → refused run pipeline d).
Proof.
  intros HK Ha Hl Hlib Hshaders run accepted. subst run accepted.
  unfold CreatePipeline_RayTracing, CreatePipeline_RayTracing_body, drun_out.
  rewrite Ha, Hlib. rewrite !bool_decide_eq_true_2 by done. dsimpl. view_checks.
  rewrite dbind_project. rewrite Hshaders. cbn [RayTracingPipeline_stage_checks].
  rewrite dbind_lift.
  pose proof (RayTracingPipeline_loop_spec K shaders HK 0 0 (world d)) as Hloop.
  destruct (for_loop 0 shaders 0 (RayTracingPipeline_shader_checks K) (world d))
    as [|r w'|u w']; [done| |].
  - destruct Hloop as (-> & [report ->] & Hnot). split; [|intros _; by exists report].
    intros (_ & _ & _ & Hok). exfalso. apply Hnot. apply rt_shaders_pass_spec.
    split; [done|]. intros s _. apply N.land_0_l.
  - destruct Hloop as [-> Hpass]. rewrite set_world_id.
    rewrite dbind_deref with (v := l) by done. cbn [snd]. dsimpl.
    split.
    + intros _. destruct (decide (backendResult = SUCCESS)); dsimpl; by eexists _, _.
    + intros Hnot. exfalso. apply Hnot. bools_to_props.
      apply rt_shaders_pass_spec in Hpass as [Hok _]. done.
Qed.

(** A library with a ray-generation shader (bit 11) and a miss shader
    (bit 12) is handed to the backend; one with two ray-generation shaders
    is refused. *)
Lemma X18_CreatePipeline_RayTracing_witness :
  forwarded (CreatePipeline_RayTracing nri (example_rayTracingDesc [2048; 4096]) SUCCESS
               130 None (device_of example_world))
            SUCCESS
            (RayTracing_CreateRayTracingPipeline 108 (example_rayTracingDesc [2048; 4096]))
            (device_of example_world)
  ∧ refused (CreatePipeline_RayTracing nri (example_rayTracingDesc [2048; 2048]) SUCCESS
               130 None (device_of example_world)) None (device_of example_world).
Proof.
  split.
  - apply (proj1 (X18_CreatePipeline_RayTracing nri (example_rayTracingDesc [2048; 4096])
                    SUCCESS 130 None (device_of example_world) 8
                    {| layout_impl := 108;
                       layout_desc := {| pl_shaderStages := 254;
                                         pl_descriptorSets := [] |} |}
                    _ _ ltac:(by vm_compute) eq_refl eq_refl eq_refl eq_refl)).
    split; [done|]. split; [done|]. split; [done|].
    apply (rt_shaders_pass_spec nri _ 0). by vm_compute.
  - apply (proj2 (X18_CreatePipeline_RayTracing nri (example_rayTracingDesc [2048; 2048])
                    SUCCESS 130 None (device_of example_world) 8
                    {| layout_impl := 108;
                       layout_desc := {| pl_shaderStages := 254;
                                         pl_descriptorSets := [] |} |}
                    _ _ ltac:(by vm_compute) eq_refl eq_refl eq_refl eq_refl)).
    intros (_ & _ & _ & _ & Hpair).
    by specialize (Hpair 0%nat 1%nat _ _ ltac:(lia) eq_refl eq_refl).
Defined.

(** ** The cache of command queues *)

Lemma u32_queue_type (E : Enums) (commandQueueType : N) :
  CommandQueueType_MAX_NUM E ≤ 2 ^ 32 →
  commandQueueType < CommandQueueType_MAX_NUM E → u32 commandQueueType = commandQueueType.
Proof. intros HE Ht. unfold u32. apply N.mod_small. lia. Qed.

(** The three ways [GetCommandQueue] ends on a valid queue type: the
    backend fails and nothing changes; the queue type has a proxy, which is
    the answer; it has none and one is made around the queue of the
    backend. *)
Lemma GetCommandQueue_spec (E : Enums) (commandQueueType : N) (backendResult : Result)
    (commandQueueImpl : handle) (commandQueue : Ptr) (d : Device) :
  CommandQueueType_MAX_NUM E ≤ 2 ^ 32 →
  commandQueueType < CommandQueueType_MAX_NUM E →
  let d1 := log_device_call (Core_GetCommandQueue commandQueueType) d in
  GetCommandQueue E commandQueueType backendResult commandQueueImpl commandQueue d
  = Some
      (if decide (backendResult = SUCCESS) then
         match m_CommandQueues d !! commandQueueType with
         | Some q => (SUCCESS, Some q, d1)
         | None =>
             (SUCCESS, Some (next (world d)),
              set_commandQueues (insert commandQueueType (next (world d)))
                (set_objects
                   (insert (next (world d))
                           (OCommandQueue {| queue_impl := commandQueueImpl |}))
                   (set_world (set_next (next (world d) + 1) (world d)) d1)))
         end
       else (backendResult, commandQueue, d1)).
Proof.
  intros HE Ht d1. subst d1. unfold GetCommandQueue, GetCommandQueue_body, drun_out.
  rewrite (u32_queue_type E) by done. dsimpl.
  apply N.ltb_lt in Ht. rewrite Ht.
  destruct (decide (backendResult = SUCCESS)) as [->|Hfail]; dsimpl; [|done].
  cbn [m_CommandQueues log_device_call].
  destruct (m_CommandQueues d !! commandQueueType) as [q|] eqn:Hq; dsimpl; unfold dret.
  - cbn [m_CommandQueues log_device_call]. by rewrite Hq.
  - cbn [m_CommandQueues set_commandQueues world log_device_call].
    by rewrite lookup_insert_eq.
Qed.

(** X19. [GetCommandQueue] keeps one proxy for each queue type. The first
    successful call for a queue type makes a proxy around the queue the
    backend gave and records it in [m_CommandQueues]; every later successful
    call for that type, in whatever device state it is made, answers with
    the recorded proxy, makes no proxy and changes none, whatever queue the
    backend gives then: two successful calls in a row for one type return
    the same handle. A call the backend fails changes neither the proxies
    nor the cache nor the handle variable, and a queue type outside the
    enumeration is refused with one report. *)
Theorem X19_GetCommandQueue_cache (E : Enums) (commandQueueType : N) (d : Device) :
  CommandQueueType_MAX_NUM E ≤ 2 ^ 32 →
  (commandQueueType < CommandQueueType_MAX_NUM E →
   (∀ q impl out,
      m_CommandQueues d !! commandQueueType = Some q →
      GetCommandQueue E commandQueueType SUCCESS impl out d
      = Some (SUCCESS, Some q, log_device_call (Core_GetCommandQueue commandQueueType) d))
   ∧ (∀ impl out,
        m_CommandQueues d !! commandQueueType = None →
        ∃ d1,
          GetCommandQueue E commandQueueType SUCCESS impl out d
          = Some (SUCCESS, Some (next (world d)), d1)
          ∧ objects d1 = <[next (world d) := OCommandQueue {| queue_impl := impl |}]>
                           (objects d)
          ∧ m_CommandQueues d1 = <[commandQueueType := next (world d)]> (m_CommandQueues d))
   ∧ (∀ impl1 impl2 out1 out2 q1 q2 d1 d2,
        GetCommandQueue E commandQueueType SUCCESS impl1 out1 d = Some (SUCCESS, q1, d1) →
        GetCommandQueue E commandQueueType SUCCESS impl2 out2 d1 = Some (SUCCESS, q2, d2) →
        q2 = q1 ∧ is_Some q1 ∧ objects d2 = objects d1
        ∧ m_CommandQueues d2 = m_CommandQueues d1)
   ∧ (∀ backendResult impl out,
        backendResult ≠ SUCCESS →
        GetCommandQueue E commandQueueType backendResult impl out d
        = Some (backendResult, out,
                log_device_call (Core_GetCommandQueue commandQueueType) d)))
  ∧ (CommandQueueType_MAX_NUM E ≤ commandQueueType →
     ∀ backendResult impl out,
       refused (GetCommandQueue E commandQueueType backendResult impl out d) out d).
Proof.
  intros HE. split.
  - intros Ht. split; [|split; [|split]].
    + intros q impl out Hq. rewrite GetCommandQueue_spec by done.
      rewrite decide_True by done. by rewrite Hq.
    + intros impl out Hq. rewrite GetCommandQueue_spec by done.
      rewrite decide_True by done. rewrite Hq. by eexists.
    + intros impl1 impl2 out1 out2 q1 q2 d1 d2.
      rewrite !GetCommandQueue_spec by done. rewrite !decide_True by done.
      destruct (m_CommandQueues d !! commandQueueType) as [q|] eqn:Hq.
      * intros [= <- <-]. cbn [m_CommandQueues log_device_call]. rewrite Hq.
        intros [= <- <-]. by repeat split.
      * intros [= <- <-]. cbn [m_CommandQueues set_commandQueues].
        rewrite lookup_insert_eq. intros [= <- <-]. by repeat split.
    + intros backendResult impl out Hfail. rewrite GetCommandQueue_spec by done.
      by rewrite decide_False by done.
  - intros Ht backendResult impl out.
    unfold GetCommandQueue, GetCommandQueue_body, drun_out. dsimpl.
    apply N.ltb_ge in Ht. rewrite Ht. apply refused_intro.
Qed.

(** On the device around the example world, the first call for queue type
    1 makes the proxy at address 10 around the backend queue 300, and the
    second call returns it, although the backend gives queue 301. *)
Lemma X19_GetCommandQueue_cache_witness :
  ∃ d1 d2,
    GetCommandQueue nri_enums 1 SUCCESS 300 None (device_of example_world)
    = Some (SUCCESS, Some 10, d1)
    ∧ GetCommandQueue nri_enums 1 SUCCESS 301 None d1 = Some (SUCCESS, Some 10, d2)
    ∧ objects d2 = objects d1.
Proof.
  destruct (X19_GetCommandQueue_cache nri_enums 1 (device_of example_world)
              ltac:(simpl; lia)) as [Hvalid _].
  destruct (Hvalid ltac:(simpl; lia)) as (_ & Hfirst & Htwice & _).
  destruct (Hfirst 300 None eq_refl) as (d1 & Hrun1 & _).
  destruct (GetCommandQueue nri_enums 1 SUCCESS 301 None d1) as [[[r q2] d2]|] eqn:Hrun2.
  2:{ vm_compute in Hrun1. injection Hrun1 as <-. by vm_compute in Hrun2. }
  assert (r = SUCCESS) as ->.
  { vm_compute in Hrun1. injection Hrun1 as <-. vm_compute in Hrun2.
    by injection Hrun2 as <- _ _. }
  destruct (Htwice 300 301 None None _ _ _ _ Hrun1 Hrun2) as (-> & _ & Hobjects & _).
  by exists d1, d2.
Defined.

(** ** Loading the function tables *)

(** X20. [Create] succeeds exactly when the backend has the four mandatory
    function tables. It then has asked for the eleven tables in order, has
    reported nothing, and each capability flag says whether the backend has
    the optional table of its name: a missing optional table never fails the
    creation. At the first mandatory table that is missing, [Create] returns
    [false] with one error report; it asks for no further table and leaves
    the capability flags as they were. *)
Theorem X20_Create (tables : Interface → Result) (d : Device) :
  ((∀ i, i ∈ mandatory_interfaces → tables i = SUCCESS) →
   ∃ d', Create tables d = Some (true, d')
         ∧ capabilities d' = capabilities_of tables
         ∧ device_calls d'
           = device_calls d
             ++ (FillFunctionTable <$> mandatory_interfaces ++ optional_interfaces)
         ∧ world d' = world d)
  ∧ (∀ before i after,
       mandatory_interfaces = before ++ i :: after →
       (∀ j, j ∈ before → tables j = SUCCESS) → tables i ≠ SUCCESS →
       ∃ d' report,
         Create tables d = Some (false, d')
         ∧ capabilities d' = capabilities d
         ∧ device_calls d' = device_calls d ++ (FillFunctionTable <$> before ++ [i])
         ∧ world d' = log_report report (world d)).
Proof.
  unfold Create, Create_body, drun. split.
  - intros Hall. dsimpl.
    rewrite !Hall by (unfold mandatory_interfaces; set_solver).
    repeat (rewrite decide_False by (by intros []); dsimpl).
    eexists. split; [reflexivity|]. destruct d as [w o q c cs]. cbn.
    split; [done|]. split; [|done]. by rewrite <- !app_assoc.
  - intros before i after Hsplit Hbefore Hi. unfold mandatory_interfaces in Hsplit.
    destruct before as [|b1 [|b2 [|b3 [|b4 rest]]]]; simplify_eq/=.
    + dsimpl. rewrite decide_True by done. dsimpl.
      eexists _, _. split; [reflexivity|]. by destruct d.
    + dsimpl. rewrite Hbefore by set_solver.
      rewrite decide_False by (by intros []). dsimpl.
      rewrite decide_True by done. dsimpl.
      eexists _, _. split; [reflexivity|]. destruct d. cbn.
      split; [done|]. split; [|done]. by rewrite <- !app_assoc.
    + dsimpl. rewrite !Hbefore by set_solver.
      repeat (rewrite decide_False by (by intros []); dsimpl).
      rewrite decide_True by done. dsimpl.
      eexists _, _. split; [reflexivity|]. destruct d. cbn.
      split; [done|]. split; [|done]. by rewrite <- !app_assoc.
    + dsimpl. rewrite !Hbefore by set_solver.
      repeat (rewrite decide_False by (by intros []); dsimpl).
      rewrite decide_True by done. dsimpl.
      eexists _, _. split; [reflexivity|]. destruct d. cbn.
      split; [done|]. split; [|done]. by rewrite <- !app_assoc.
    + by destruct rest.
Qed.

(** A backend without mesh shaders and D3D wrappers gives a device, and
    one without the streamer table does not. *)
Lemma X20_Create_witness :
  (∃ d', Create (example_tables SUCCESS) (device_of empty_world) = Some (true, d')
         ∧ capabilities d'
           = {| m_IsLowLatencySupported := true; m_IsMeshShaderSupported := false;
                m_IsRayTracingSupported := true; m_IsSwapChainSupported := true;
                m_IsWrapperD3D11Supported := false; m_IsWrapperD3D12Supported := false;
                m_IsWrapperVKSupported := true |})
  ∧ (∃ d', Create (example_tables FAILURE) (device_of empty_world) = Some (false, d')
           ∧ device_calls d'
             = FillFunctionTable <$> [CoreInterface; HelperInterface; StreamerInterface]).
Proof.
  split.
  - destruct (proj1 (X20_Create (example_tables SUCCESS) (device_of empty_world)))
      as (d' & Hrun & Hcaps & _).
    { intros i Hi. unfold mandatory_interfaces in Hi.
      repeat (apply elem_of_cons in Hi as [->|Hi]; [done|]). by apply elem_of_nil in Hi. }
    exists d'. split; [done|]. by rewrite Hcaps.
  - destruct (proj2 (X20_Create (example_tables FAILURE) (device_of empty_world))
                [CoreInterface; HelperInterface] StreamerInterface
                [ResourceAllocatorInterface] eq_refl)
      as (d' & report & Hrun & _ & Hcalls & _).
    { intros j Hj.
      repeat (apply elem_of_cons in Hj as [->|Hj]; [done|]). by apply elem_of_nil in Hj. }
    { done. }
    exists d'. split; [done|]. by rewrite Hcalls.
Defined.

(** ** Refusing or forwarding, for the rest of the surface *)

Lemma dchecks_only_lift {R A} (E : R → Prop) (m : M R A) :
  checks_only E m → dchecks_only E (lift m).
Proof.
  intros Hm d. unfold lift. specialize (Hm (world d)).
  destruct (m (world d)) as [|r w|a w]; [done| |].
  - destruct Hm as [Hr [report ->]]. split; [done|]. by exists report.
  - subst w. apply set_world_id.
Qed.

Lemma dchecks_only_dret {R A} (E : R → Prop) (a : A) : dchecks_only E (dret a : DM R A).
Proof. by intros d. Qed.

Lemma dchecks_only_dbind {R A B} (E : R → Prop) (m : DM R A) (k : A → DM R B) :
  dchecks_only E m → (∀ a, dchecks_only E (k a)) → dchecks_only E (dbind m k).
Proof.
  intros Hm Hk d. unfold dbind. specialize (Hm d).
  destruct (m d) as [|r d'|a d']; [done|done|]. subst d'. apply Hk.
Qed.

Lemma dchecks_only_deref_object {R A} (E : R → Prop) cast (p : Ptr) :
  dchecks_only E (deref_object cast p : DM R (addr * A)).
Proof.
  intros d. unfold deref_object. destruct p as [a|]; [|done].
  by destruct (cast (objects d !! a)).
Qed.

Ltac dchecks_tac :=
  repeat match goal with
         | |- dchecks_only _ (dbind _ _) => apply dchecks_only_dbind; [|intros]
         | |- dchecks_only _ (dret _) => apply dchecks_only_dret
         | |- dchecks_only _ (deref_object _ _) => apply dchecks_only_deref_object
         | |- dchecks_only _ (lift _) => apply dchecks_only_lift; checks_tac
         | |- dchecks_only _ (if ?c then _ else _) => destruct c
         end.







Lemma RayTracingPipeline_stage_checks_only (K : Constants) shaders :
  checks_only (λ r, r = INVALID_ARGUMENT) (RayTracingPipeline_stage_checks K shaders).
Proof.
  unfold RayTracingPipeline_stage_checks. destruct shaders as [n|l].
  - by destruct (n =? 0).
  - apply checks_only_for_loop. intros. unfold RayTracingPipeline_shader_checks.
    cbv zeta. checks_tac.
Qed.



(** ** Wrapped objects *)

Lemma dmakes_dbind {A} (P : Proxy → Prop) (m : DM Result A)
    (k : A → DM Result (Result * Ptr)) :
  dchecks_only (λ r, r = INVALID_ARGUMENT) m → (∀ a, dmakes P (k a)) →
  dmakes P (dbind m k).
Proof.
  intros Hm Hk d. unfold dbind. specialize (Hm d).
  destruct (m d) as [|r d'|a d'].
  - done.
  - by destruct Hm as [-> _].
  - subst d'. apply Hk.
Qed.

Lemma dmakes_create (P : Proxy → Prop) backendResult c (p : Proxy) (out : Ptr) :
  P p →
  dmakes P (result <== device_backend c backendResult ;;
            if decide (result = SUCCESS) then a <== Allocate p ;; dret (result, Some a)
            else dret (result, out)).
Proof.
  intros Hp d. dsimpl. destruct (decide (backendResult = SUCCESS)); dsimpl; simpl; [|done].
  intros _. split; [done|]. split; [done|]. by exists p.
Qed.

Lemma dmakes_object_dbind {A} (P : Object → Prop) (m : DM Result A)
    (k : A → DM Result (Result * Ptr)) :
  dchecks_only (λ r, r = INVALID_ARGUMENT) m → (∀ a, dmakes_object P (k a)) →
  dmakes_object P (dbind m k).
Proof.
  intros Hm Hk d. unfold dbind. specialize (Hm d).
  destruct (m d) as [|r d'|a d'].
  - done.
  - by destruct Hm as [-> _].
  - subst d'. apply Hk.
Qed.

Lemma dmakes_object_create (P : Object → Prop) backendResult c (o : Object) (out : Ptr) :
  P o →
  dmakes_object P
    (result <== device_backend c backendResult ;;
     if decide (result = SUCCESS) then a <== AllocateObject o ;; dret (result, Some a)
     else dret (result, out)).
Proof.
  intros Ho d. dsimpl. destruct (decide (backendResult = SUCCESS)); dsimpl; simpl; [|done].
  intros _. split; [done|]. split; [done|]. by exists o.
Qed.

Ltac dmakes_tac :=
  cbv zeta;
  repeat first
    [ apply dmakes_create
    | apply dmakes_object_create
    | apply dmakes_dbind; [dchecks_tac|intros]
    | apply dmakes_object_dbind; [dchecks_tac|intros] ].

Lemma drun_out_makes (P : Proxy → Prop) (body : DM Result (Result * Ptr)) out d out' d1 :
  dmakes P body → drun_out body out d = Some (SUCCESS, out', d1) →
  out' = Some (next (world d))
  ∧ objects d1 = objects d
  ∧ ∃ p, P p ∧ heap (world d1) = <[next (world d) := p]> (heap (world d)).
Proof.
  intros Hbody Hrun. unfold drun_out in Hrun. specialize (Hbody d).
  destruct (body d) as [|r d'|[r p] d']; [done| |].
  - by injection Hrun as -> _ _.
  - injection Hrun as -> -> ->. by apply Hbody.
Qed.

Lemma drun_out_makes_object (P : Object → Prop) (body : DM Result (Result * Ptr))
    out d out' d1 :
  dmakes_object P body → drun_out body out d = Some (SUCCESS, out', d1) →
  out' = Some (next (world d))
  ∧ heap (world d1) = heap (world d)
  ∧ ∃ o, P o ∧ objects d1 = <[next (world d) := o]> (objects d).
Proof.
  intros Hbody Hrun. unfold drun_out in Hrun. specialize (Hbody d).
  destruct (body d) as [|r d'|[r p] d']; [done| |].
  - by injection Hrun as -> _ _.
  - injection Hrun as -> -> ->. by apply Hbody.
Qed.

Section Wrapped.
Context (K : Constants).
Context (Backend_GetBufferMemoryDesc : BufferDesc → N → MemoryDesc).
Context (Backend_GetTextureMemoryDesc : TextureDesc → N → MemoryDesc).

Lemma BindBufferMemory_never_bindable resource w :
  bound_flag (heap w) resource = Some true →
  never_bindable (BindBufferMemory K Backend_GetBufferMemoryDesc) resource w.
Proof.
  intros Hflag descs backendResult result w' d Hd Hr Hrun.
  unfold BindBufferMemory in Hrun. rewrite BindBufferMemory_body_shape in Hrun.
  eapply (Bind_shape_rebind_refused as_buffer PBuffer BufferVal_SetBoundToMemory
            buffer_isBoundToMemory) in Hrun as (-> & Hheap & _); try done;
    first [ apply as_buffer_Some | apply BindBufferMemory_entry_validates
          | apply BindBufferMemory_entry_kind_heap
          | apply BindBufferMemory_entry_pass_live
          | apply BindBufferMemory_entry_pass_unbound
          | apply BindBufferMemory_entry_length ]; assumption.
Qed.

Lemma BindTextureMemory_never_bindable resource w :
  bound_flag (heap w) resource = Some true →
  never_bindable (BindTextureMemory K Backend_GetTextureMemoryDesc) resource w.
Proof.
  intros Hflag descs backendResult result w' d Hd Hr Hrun.
  unfold BindTextureMemory in Hrun. rewrite BindTextureMemory_body_shape in Hrun.
  eapply (Bind_shape_rebind_refused as_texture PTexture TextureVal_SetBoundToMemory
            texture_isBoundToMemory) in Hrun as (-> & Hheap & _); try done;
    first [ apply as_texture_Some | apply BindTextureMemory_entry_validates
          | apply BindTextureMemory_entry_kind_heap
          | apply BindTextureMemory_entry_pass_live
          | apply BindTextureMemory_entry_pass_unbound
          | apply BindTextureMemory_entry_length ]; assumption.
Qed.

Lemma BindAccelerationStructureMemory_never_bindable resource w :
  bound_flag (heap w) resource = Some true →
  never_bindable BindAccelerationStructureMemory resource w.
Proof.
  intros Hflag descs backendResult result w' d Hd Hr Hrun.
  unfold BindAccelerationStructureMemory in Hrun.
  rewrite BindAccelerationStructureMemory_body_shape in Hrun.
  eapply (Bind_shape_rebind_refused as_accelerationStructure PAccelerationStructure
            AccelerationStructureVal_SetBoundToMemory as_isBoundToMemory)
    in Hrun as (-> & Hheap & _); try done;
    first [ apply as_accelerationStructure_Some
          | apply BindAccelerationStructureMemory_entry_validates
          | apply BindAccelerationStructureMemory_entry_kind_heap
          | apply BindAccelerationStructureMemory_entry_pass_live
          | apply BindAccelerationStructureMemory_entry_pass_unbound
          | apply BindAccelerationStructureMemory_entry_length ]; assumption.
Qed.

(** A creation function that makes a proxy with its bound flag set. *)
Lemma wraps_bound_intro Bind (body : Ptr → DM Result (Result * Ptr)) :
  (∀ resource w, bound_flag (heap w) resource = Some true →
                 never_bindable Bind resource w) →
  (∀ out, dmakes (λ p, proxy_flag p = Some true) (body out)) →
  wraps_bound Bind (λ out, drun_out (body out) out).
Proof.
  intros HBind Hbody out d out' d' Hrun.
  eapply drun_out_makes in Hrun as (-> & _ & p & Hp & Hheap); [|apply Hbody].
  exists (next (world d)). split; [done|].
  assert (bound_flag (heap (world d')) (next (world d)) = Some true) as Hflag.
  { unfold bound_flag. by rewrite Hheap, lookup_insert_eq. }
  split; [done|]. by apply HBind.
Qed.

Lemma BindBufferMemory_entry_unasked (memory resource : addr) (m : MemoryVal) offset w :
  as_memory (heap w !! memory) = Some m →
  memory_location m = MemoryLocation_MAX_NUM K →
  bound_flag (heap w) resource = Some false →
  is_Some (as_buffer (heap w !! resource)) →
  passes_unasked (BindBufferMemory_entry K Backend_GetBufferMemoryDesc)
    {| mb_memory := Some memory; mb_resource := Some resource; mb_offset := offset |} w.
Proof.
  intros Hm Hloc Hflag [b Hb] i impl. unfold BindBufferMemory_entry. cbn [mb_memory mb_resource mb_offset].
  rewrite !bool_decide_eq_true_2 by done. msimpl.
  rewrite bind_deref with (v := m) by done.
  rewrite bind_deref with (v := b) by done. cbn [snd].
  apply as_buffer_Some in Hb. unfold bound_flag in Hflag. rewrite Hb in Hflag.
  injection Hflag as ->. msimpl. cbn [negb]. rewrite Hloc, N.eqb_refl.
  by eexists.
Qed.

Lemma BindTextureMemory_entry_unasked (memory resource : addr) (m : MemoryVal) offset w :
  as_memory (heap w !! memory) = Some m →
  memory_location m = MemoryLocation_MAX_NUM K →
  bound_flag (heap w) resource = Some false →
  is_Some (as_texture (heap w !! resource)) →
  passes_unasked (BindTextureMemory_entry K Backend_GetTextureMemoryDesc)
    {| mb_memory := Some memory; mb_resource := Some resource; mb_offset := offset |} w.
Proof.
  intros Hm Hloc Hflag [t Ht] i impl. unfold BindTextureMemory_entry. cbn [mb_memory mb_resource mb_offset].
  rewrite !bool_decide_eq_true_2 by done. msimpl.
  rewrite bind_deref with (v := m) by done.
  rewrite bind_deref with (v := t) by done. cbn [snd].
  apply as_texture_Some in Ht. unfold bound_flag in Hflag. rewrite Ht in Hflag.
  injection Hflag as ->. msimpl. cbn [negb]. rewrite Hloc, N.eqb_refl.
  by eexists.
Qed.

(** A creation function that makes a Memory with the sentinel location. *)
Lemma wraps_memory_intro impl size (body : Ptr → DM Result (Result * Ptr)) :
  (∀ out, dmakes (λ p, p = new_memory impl size (MemoryLocation_MAX_NUM K)) (body out)) →
  wraps_memory K Backend_GetBufferMemoryDesc Backend_GetTextureMemoryDesc impl size
    (λ out, drun_out (body out) out).
Proof.
  intros Hbody out d out' d' Hrun.
  eapply drun_out_makes in Hrun as (-> & _ & p & Hp & Hheap); [|apply Hbody].
  cbn beta in Hp. subst p.
  exists (next (world d)). split; [done|].
  assert (heap (world d') !! next (world d)
          = Some (new_memory impl size (MemoryLocation_MAX_NUM K))) as Hm.
  { by rewrite Hheap, lookup_insert_eq. }
  split; [done|]. intros resource offset Hflag entry. subst entry. split; intros Hr.
  - eapply BindBufferMemory_entry_unasked; try done; [by rewrite Hm|done].
  - eapply BindTextureMemory_entry_unasked; try done; [by rewrite Hm|done].
Qed.

End Wrapped.

(** X21. The wrappers of native objects. A buffer, a texture or an
    acceleration structure that a wrapper has made (for Vulkan, D3D11 or
    D3D12) has its bound flag set from the start, so every batched bind that
    names it is refused with no proxy changed. A Memory that a wrapper has
    made has the backend handle and the size of the wrapped object, an empty
    bound-set and the sentinel location [MemoryLocation::MAX_NUM], so that an
    unbound buffer or texture passes the validation of a bind to it at any
    offset without the backend being asked for a memory requirement. *)
Theorem X21_wrapped_objects (K : Constants)
    (Backend_GetBufferMemoryDesc : BufferDesc → N → MemoryDesc)
    (Backend_GetTextureMemoryDesc : TextureDesc → N → MemoryDesc)
    (nriConvertVKFormatToNRI : N → N) (GetMemorySizeD3D12 : MemoryD3D12Desc → N)
    (r : Result) (impl : handle) :
  let BindBuffer := BindBufferMemory K Backend_GetBufferMemoryDesc in
  let BindTexture := BindTextureMemory K Backend_GetTextureMemoryDesc in
  let wraps_memory :=
    wraps_memory K Backend_GetBufferMemoryDesc Backend_GetTextureMemoryDesc impl in
  (∀ x desc, wraps_bound BindBuffer (CreateBuffer_VK x r impl desc))
  ∧ (∀ x desc, wraps_bound BindBuffer (CreateBuffer_D3D11 x r impl desc))
  ∧ (∀ x desc, wraps_bound BindBuffer (CreateBuffer_D3D12 x r impl desc))
  ∧ (∀ x desc, wraps_bound BindTexture
                 (CreateTexture_VK K nriConvertVKFormatToNRI x r impl desc))
  ∧ (∀ x desc, wraps_bound BindTexture (CreateTexture_D3D11 x r impl desc))
  ∧ (∀ x desc, wraps_bound BindTexture (CreateTexture_D3D12 x r impl desc))
  ∧ (∀ x, wraps_bound BindAccelerationStructureMemory
            (CreateAccelerationStructure_VK x r impl))
  ∧ (∀ x, wraps_bound BindAccelerationStructureMemory
            (CreateAccelerationStructure_D3D12 x r impl))
  ∧ (∀ x, wraps_memory (mvk_size x) (CreateMemory_VK K x r impl))
  ∧ (∀ x, wraps_memory (GetMemorySizeD3D12 x)
            (CreateMemory_D3D12 K GetMemorySizeD3D12 x r impl)).
Proof.
  intros BindBuffer BindTexture wraps_memory'. subst BindBuffer BindTexture wraps_memory'.
  repeat split; intros;
    first [ apply wraps_memory_intro; intros out
          | apply wraps_bound_intro;
            [first [ apply BindBufferMemory_never_bindable
                   | apply BindTextureMemory_never_bindable
                   | apply BindAccelerationStructureMemory_never_bindable ]
            |intros out] ];
    first [ unfold CreateBuffer_VK_body | unfold CreateTexture_VK_body
          | unfold CreateMemory_VK_body | unfold CreateAccelerationStructure_VK_body
          | unfold CreateBuffer_D3D11_body | unfold CreateTexture_D3D11_body
          | unfold CreateBuffer_D3D12_body | unfold CreateTexture_D3D12_body
          | unfold CreateMemory_D3D12_body
          | unfold CreateAccelerationStructure_D3D12_body ];
    dmakes_tac; done.
Qed.

(** A Vulkan memory of 4096 bytes is wrapped on the device around the
    example world: the unbound buffer at address 1 passes the validation of
    a bind to it at the offset 3, which no alignment allows. *)
Lemma X21_wrapped_objects_witness :
  ∃ d' dest,
    CreateMemory_VK nri {| mvk_vkDeviceMemory := 900; mvk_size := 4096 |} SUCCESS 150 None
      (device_of example_world) = Some (SUCCESS, Some 10, d')
    ∧ BindBufferMemory_entry nri example_GetBufferMemoryDesc 0 (example_binding 10 1 3) []
        (world d') = Normal [dest] (world d').
Proof.
  destruct (CreateMemory_VK nri {| mvk_vkDeviceMemory := 900; mvk_size := 4096 |} SUCCESS
              150 None (device_of example_world)) as [[[r o] d']|] eqn:Hrun;
    [|by vm_compute in Hrun].
  assert (r = SUCCESS ∧ o = Some 10) as [-> ->].
  { vm_compute in Hrun. by injection Hrun as <- <- _. }
  destruct (X21_wrapped_objects nri example_GetBufferMemoryDesc
              example_GetTextureMemoryDesc (λ x, x) (λ _, 0) SUCCESS 150)
    as (_ & _ & _ & _ & _ & _ & _ & _ & Hmemory & _).
  destruct (Hmemory _ _ _ _ _ Hrun) as (a & [= <-] & _ & Hpass).
  destruct (Hpass 1 3) as [Hbuffer _].
  { vm_compute in Hrun. injection Hrun as <-. reflexivity. }
  destruct (Hbuffer ltac:(vm_compute in Hrun; injection Hrun as <-; by eexists) 0 [])
    as (dest & Hentry & _).
  by exists d', dest.
Defined.

(** ** Creation and destruction undo each other, on the device *)

Lemma dfresh_next d :
  dfresh d → heap (world d) !! next (world d) = None ∧ objects d !! next (world d) = None.
Proof.
  intros [Hheap Hobjects]. split; [by apply fresh_next|].
  destruct (objects d !! next (world d)) as [o|] eqn:Ho; [|done].
  assert (next (world d) < next (world d)); [|lia]. apply Hobjects. by eexists.
Qed.

(** A proxy among the objects, destroyed by a function of the device. *)
Lemma dround_trip_object {A} (cast : option Object → option A) (call : A → DeviceCall)
    (c : DeviceCall) (body : Ptr → DM Result (Result * Ptr)) :
  (∀ out, dmakes_object (λ o, ∃ v, cast (Some o) = Some v ∧ call v = c) (body out)) →
  dround_trip (λ out, drun_out (body out) out)
    (λ a, drun (v <== deref_object cast (Some a) ;;
                device_backend (call (snd v)) tt ;;= DestroyObject a))
    (called_device c).
Proof.
  intros Hbody out d out' d1 Hfresh Hrun.
  eapply drun_out_makes_object in Hrun as (-> & Hheap & o & Ho & Hobjects);
    [|apply Hbody].
  cbn beta in Ho. destruct Ho as (v & Hv & Hc).
  destruct (dfresh_next d Hfresh) as [_ Hnext].
  exists (next (world d)). unfold drun.
  rewrite dbind_deref_object with (v := v) by (by rewrite Hobjects, lookup_insert_eq).
  dsimpl. cbn [snd]. eexists. split; [done|]. split; [reflexivity|].
  split; [done|]. split; [|by rewrite Hc].
  cbn. rewrite Hobjects, delete_insert_eq. by apply delete_id.
Qed.

(** A proxy of the heap, destroyed by a function of the device. *)
Lemma dround_trip_proxy {A} (cast : option Proxy → option A) (call : A → DeviceCall)
    (c : DeviceCall) (create : Ptr → Device → option (Result * Ptr * Device)) :
  (∀ out d out' d1,
     create out d = Some (SUCCESS, out', d1) →
     out' = Some (next (world d)) ∧ objects d1 = objects d
     ∧ ∃ p v, cast (Some p) = Some v ∧ call v = c
              ∧ heap (world d1) = <[next (world d) := p]> (heap (world d))) →
  dround_trip create
    (λ a, drun (v <== deref cast (Some a) ;;
                device_backend (call (snd v)) tt ;;= Destroy a))
    (called_device c).
Proof.
  intros Hcreate out d out' d1 Hfresh Hrun.
  apply Hcreate in Hrun as (-> & Hobjects & p & v & Hv & Hc & Hheap).
  destruct (dfresh_next d Hfresh) as [Hnext _].
  exists (next (world d)). unfold drun.
  rewrite dbind_deref with (v := v) by (by rewrite Hheap, lookup_insert_eq).
  dsimpl. cbn [snd]. eexists. split; [done|]. split; [reflexivity|].
  split; [|split; [done|by rewrite Hc]].
  cbn. rewrite Hheap, delete_insert_eq. by apply delete_id.
Qed.

(** A view or sampler, destroyed by [DestroyDescriptor]. *)
Lemma dround_trip_descriptor impl (body : Ptr → DM Result (Result * Ptr)) :
  (∀ out, dmakes (λ p, p = PDescriptor {| descriptor_impl := impl |}) (body out)) →
  dround_trip (λ out, drun_out (body out) out)
    (λ a, on_world (DestroyDescriptor a)) (called_world (Core_DestroyDescriptor impl)).
Proof.
  intros Hbody out d out' d1 Hfresh Hrun.
  eapply drun_out_makes in Hrun as (-> & Hobjects & p & Hp & Hheap); [|apply Hbody].
  cbn beta in Hp. subst p. destruct (dfresh_next d Hfresh) as [Hnext _].
  exists (next (world d)). unfold on_world, DestroyDescriptor, DestroyDescriptor_body, run.
  rewrite bind_deref with (v := {| descriptor_impl := impl |})
    by (by rewrite Hheap, lookup_insert_eq).
  msimpl. cbn [snd]. eexists. split; [done|]. split; [reflexivity|].
  split; [|done]. cbn. rewrite Hheap, delete_insert_eq. by apply delete_id.
Qed.

Lemma makes_on_world (P : Proxy → Prop) (body : M Result (Result * Ptr)) out d out' d1 :
  makes P body → on_world (run_out body out) d = Some (SUCCESS, out', d1) →
  out' = Some (next (world d)) ∧ objects d1 = objects d
  ∧ ∃ p, P p ∧ heap (world d1) = <[next (world d) := p]> (heap (world d)).
Proof.
  intros Hbody Hrun. unfold on_world in Hrun.
  destruct (run_out body out (world d)) as [[[r o] w1]|] eqn:Hw; [|done].
  injection Hrun as -> -> <-.
  eapply run_out_makes in Hw as (-> & p & Hp & Hheap); [|done].
  split; [done|]. split; [done|]. by exists p.
Qed.

(** X23. Creation and destruction undo each other for the rest of the
    device objects too: swap chains, command allocators, descriptor pools,
    query pools, fences, pipeline layouts, graphics, compute and
    ray-tracing pipelines, and the views of buffers and of 1D and 3D
    textures and the samplers. After the creation call has returned
    [SUCCESS], the destruction call on the new handle is defined, passes to
    the backend the very handle the backend gave at creation, and leaves the
    proxies exactly as they were before the creation. *)
Theorem X23_device_round_trips (K : Constants) (E : Enums)
    (isTextureFilterMinMaxSupported : bool) (r : Result) (impl : handle) :
  (∀ x, dround_trip (CreateSwapChain E x r impl) DestroySwapChain
          (called_device (SwapChain_DestroySwapChain impl)))
  ∧ (∀ x, dround_trip (CreateCommandAllocator x r impl) DestroyCommandAllocator
            (called_device (Core_DestroyCommandAllocator impl)))
  ∧ (∀ x, dround_trip (CreateDescriptorPool x r impl) DestroyDescriptorPool
            (called_device (Core_DestroyDescriptorPool impl)))
  ∧ (∀ x, dround_trip (CreateQueryPool E x r impl) DestroyQueryPool
            (called_device (Core_DestroyQueryPool impl)))
  ∧ (∀ x, dround_trip (CreateFence x r impl) DestroyFence
            (called_device (Core_DestroyFence impl)))
  ∧ (∀ x, dround_trip (λ out, on_world (CreatePipelineLayout K x r impl out))
            DestroyPipelineLayout (called_device (Core_DestroyPipelineLayout impl)))
  ∧ (∀ x, dround_trip (λ out, on_world (CreatePipeline_Graphics K x r impl out))
            DestroyPipeline (called_device (Core_DestroyPipeline impl)))
  ∧ (∀ x, dround_trip (CreatePipeline_Compute K x r impl) DestroyPipeline
            (called_device (Core_DestroyPipeline impl)))
  ∧ (∀ x, dround_trip (CreatePipeline_RayTracing K x r impl) DestroyPipeline
            (called_device (Core_DestroyPipeline impl)))
  ∧ (∀ x, dround_trip (CreateDescriptor_BufferView K E x r impl)
            (λ a, on_world (DestroyDescriptor a))
            (called_world (Core_DestroyDescriptor impl)))
  ∧ (∀ x, dround_trip (CreateDescriptor_Texture1DView K E x r impl)
            (λ a, on_world (DestroyDescriptor a))
            (called_world (Core_DestroyDescriptor impl)))
  ∧ (∀ x, dround_trip (CreateDescriptor_Texture3DView K E x r impl)
            (λ a, on_world (DestroyDescriptor a))
            (called_world (Core_DestroyDescriptor impl)))
  ∧ (∀ x, dround_trip (CreateDescriptor_Sampler E isTextureFilterMinMaxSupported x r impl)
            (λ a, on_world (DestroyDescriptor a))
            (called_world (Core_DestroyDescriptor impl))).
Proof.
  split; [|split; [|split; [|split; [|split; [|split; [|split; [|split; [|split;
    [|split; [|split; [|split]]]]]]]]]]]; intros x.
  - apply (dround_trip_object as_swapChain (λ v, SwapChain_DestroySwapChain (swapChain_impl v))).
    intros out. unfold CreateSwapChain_body. dmakes_tac. by eexists.
  - apply (dround_trip_object as_commandAllocator
             (λ v, Core_DestroyCommandAllocator (allocator_impl v))).
    intros out. unfold CreateCommandAllocator_body. dmakes_tac. by eexists.
  - apply (dround_trip_object as_descriptorPool
             (λ v, Core_DestroyDescriptorPool (pool_impl v))).
    intros out. unfold CreateDescriptorPool_body. dmakes_tac. by eexists.
  - apply (dround_trip_object as_queryPool (λ v, Core_DestroyQueryPool (queryPool_impl v))).
    intros out. unfold CreateQueryPool_body. dmakes_tac. by eexists.
  - apply (dround_trip_object as_fence (λ v, Core_DestroyFence (fence_impl v))).
    intros out. unfold CreateFence_body. dmakes_tac. by eexists.
  - apply (dround_trip_proxy as_pipelineLayout
             (λ v, Core_DestroyPipelineLayout (layout_impl v))).
    intros out d out' d1 Hrun.
    eapply (makes_on_world (λ p, ∃ v, as_pipelineLayout (Some p) = Some v
                                      ∧ layout_impl v = impl)) in Hrun
      as (-> & Hobjects & p & (v & Hv & Himpl) & Hheap).
    2:{ unfold CreatePipelineLayout_body. makes_tac. by eexists. }
    split; [done|]. split; [done|]. exists p, v. by rewrite Himpl.
  - apply (dround_trip_proxy as_pipeline (λ v, Core_DestroyPipeline (pipeline_impl v))).
    intros out d out' d1 Hrun.
    eapply (makes_on_world (λ p, ∃ v, as_pipeline (Some p) = Some v
                                      ∧ pipeline_impl v = impl)) in Hrun
      as (-> & Hobjects & p & (v & Hv & Himpl) & Hheap).
    2:{ unfold CreatePipeline_Graphics_body. makes_tac. by eexists. }
    split; [done|]. split; [done|]. exists p, v. by rewrite Himpl.
  - apply (dround_trip_proxy as_pipeline (λ v, Core_DestroyPipeline (pipeline_impl v))).
    intros out d out' d1 Hrun.
    eapply (drun_out_makes (λ p, ∃ v, as_pipeline (Some p) = Some v
                                      ∧ pipeline_impl v = impl)) in Hrun
      as (-> & Hobjects & p & (v & Hv & Himpl) & Hheap).
    2:{ unfold CreatePipeline_Compute_body. dmakes_tac. by eexists. }
    split; [done|]. split; [done|]. exists p, v. by rewrite Himpl.
  - apply (dround_trip_proxy as_pipeline (λ v, Core_DestroyPipeline (pipeline_impl v))).
    intros out d out' d1 Hrun.
    eapply (drun_out_makes (λ p, ∃ v, as_pipeline (Some p) = Some v
                                      ∧ pipeline_impl v = impl)) in Hrun
      as (-> & Hobjects & p & (v & Hv & Himpl) & Hheap).
    2:{ unfold CreatePipeline_RayTracing_body. dmakes_tac;
          [apply RayTracingPipeline_stage_checks_only|by eexists]. }
    split; [done|]. split; [done|]. exists p, v. by rewrite Himpl.
  - apply dround_trip_descriptor. intros out.
    unfold CreateDescriptor_BufferView_body. dmakes_tac. done.
  - apply dround_trip_descriptor. intros out.
    unfold CreateDescriptor_Texture1DView_body. dmakes_tac. done.
  - apply dround_trip_descriptor. intros out.
    unfold CreateDescriptor_Texture3DView_body. dmakes_tac. done.
  - apply dround_trip_descriptor. intros out.
    unfold CreateDescriptor_Sampler_body. dmakes_tac. done.
Qed.

Lemma example_device_fresh : dfresh (device_of example_world).
Proof.
  split; [apply example_world_fresh|].
  intros a [o Ho]. cbn in Ho. by rewrite lookup_empty in Ho.
Qed.

(** A fence is created at address 10 of the device around the example
    world and destroyed again. *)
Lemma X23_device_round_trips_witness :
  ∃ d1 d2,
    CreateFence 0 SUCCESS 160 None (device_of example_world) = Some (SUCCESS, Some 10, d1)
    ∧ DestroyFence 10 d1 = Some (tt, d2)
    ∧ objects d2 = ∅
    ∧ device_calls d2 = device_calls d1 ++ [Core_DestroyFence 160].
Proof.
  destruct (CreateFence 0 SUCCESS 160 None (device_of example_world))
    as [[[r o] d1]|] eqn:Hrun; [|by vm_compute in Hrun].
  assert (r = SUCCESS ∧ o = Some 10) as [-> ->].
  { vm_compute in Hrun. by injection Hrun as <- <- _. }
  destruct (X23_device_round_trips nri nri_enums false SUCCESS 160)
    as (_ & _ & _ & _ & Hfence & _).
  destruct (Hfence 0 None (device_of example_world) (Some 10) d1 example_device_fresh Hrun)
    as (a & d2 & [= <-] & Hdestroy & _ & Hobjects & Hcalls & _).
  by exists d1, d2.
Defined.

(** ** What every call of the surface keeps *)

#[local] Instance next_kept_preorder : PreOrder next_kept.
Proof. split; [intros w|intros w1 w2 w3]; unfold next_kept; lia. Qed.

#[local] Instance next_kept_report_insensitive : ReportInsensitive next_kept.
Proof. intros w r. unfold next_kept. simpl. lia. Qed.

Lemma next_kept_same w w' : next w' = next w → next_kept w w'.
Proof. unfold next_kept. lia. Qed.

Ltac next_tac :=
  triple_tac; try done; try (intros; unfold next_kept; simpl; lia).

Section NextOps.
Context (K : Constants).
Context (Backend_GetBufferMemoryDesc : BufferDesc → N → MemoryDesc).
Context (Backend_GetTextureMemoryDesc : TextureDesc → N → MemoryDesc).

Notation exec := (exec K Backend_GetBufferMemoryDesc Backend_GetTextureMemoryDesc).

Lemma Bind_shape_next {A} (cast : option Proxy → option A) inj setBound entry entryPoint
    nullMessage descs backendResult :
  (∀ i d impl, triple validated (λ r, r = INVALID_ARGUMENT) (entry i d impl)) →
  triple next_kept (λ _ : Result, True)
    (Bind_shape cast inj setBound entry entryPoint nullMessage descs backendResult).
Proof.
  intros Hentry. unfold Bind_shape, bind_one. next_tac.
  eapply triple_weaken; [| |apply Hentry]; [|done].
  intros w w' (_ & _ & Hn & _). by apply next_kept_same.
Qed.

(** No call of the first part lowers the next address. *)
Lemma exec_next op w w' : exec op w = Some w' → next w ≤ next w'.
Proof.
  intros Hexec. change (next_kept w w'). destruct op; cbn [exec] in *;
    apply fmap_snd_Some in Hexec as [res Hexec].
  - unfold run, RegisterMemoryType in Hexec. injection Hexec as _ <-.
    by apply next_kept_same.
  - destruct res as [r0 out']. eapply (triple_run_out _ (λ _, True)); [|exact Hexec].
    unfold CreateBuffer_body. next_tac.
  - destruct res as [r0 out']. eapply (triple_run_out _ (λ _, True)); [|exact Hexec].
    unfold AllocateBuffer_body. next_tac.
  - destruct res as [r0 out']. eapply (triple_run_out _ (λ _, True)); [|exact Hexec].
    unfold CreateTexture_body, TextureDesc_checks. next_tac.
  - destruct res as [r0 out']. eapply (triple_run_out _ (λ _, True)); [|exact Hexec].
    unfold AllocateTexture_body, TextureDesc_checks. next_tac.
  - destruct res as [r0 out']. eapply (triple_run_out _ (λ _, True)); [|exact Hexec].
    unfold CreateDescriptor_Texture2DView_body. next_tac.
  - eapply (triple_run _ (λ _, True)); [|exact Hexec]. unfold DestroyDescriptor_body. next_tac.
  - destruct res as [r0 out']. eapply (triple_run_out _ (λ _, True)); [|exact Hexec].
    unfold CreatePipelineLayout_body, PipelineLayout_stage_checks,
      PipelineLayout_range_checks.
    next_tac.
  - destruct res as [r0 out']. eapply (triple_run_out _ (λ _, True)); [|exact Hexec].
    unfold CreatePipeline_Graphics_body, GraphicsPipeline_stage_checks,
      GraphicsPipeline_shader_checks.
    next_tac.
  - destruct res as [r0 out']. eapply (triple_run_out _ (λ _, True)); [|exact Hexec].
    unfold AllocateMemory_body. next_tac.
  - unfold BindBufferMemory in Hexec. rewrite BindBufferMemory_body_shape in Hexec.
    eapply (triple_run _ (λ _, True)); [|exact Hexec].
    apply Bind_shape_next, BindBufferMemory_entry_validates.
  - unfold BindTextureMemory in Hexec. rewrite BindTextureMemory_body_shape in Hexec.
    eapply (triple_run _ (λ _, True)); [|exact Hexec].
    apply Bind_shape_next, BindTextureMemory_entry_validates.
  - unfold BindAccelerationStructureMemory in Hexec.
    rewrite BindAccelerationStructureMemory_body_shape in Hexec.
    eapply (triple_run _ (λ _, True)); [|exact Hexec].
    apply Bind_shape_next, BindAccelerationStructureMemory_entry_validates.
  - eapply (triple_run _ (λ _, True)); [|exact Hexec].
    unfold FreeMemory_body, ReportBoundResources. next_tac.
  - revert Hexec. unfold AllocateAndBindMemory.
    assert (triple next_kept (λ _ : Result, True)
              (AllocateAndBindMemory_body K d allocationsIsNull number r allocations))
      as Hs.
    { unfold AllocateAndBindMemory_body, AllocateAndBindMemory_record.
      apply triple_bind; [apply _| |intros prepared].
      { eapply triple_weaken; [| |apply AllocateAndBindMemory_prepare_asks]; [|done].
        intros w1 w2 (_ & Hn & _). by apply next_kept_same. }
      next_tac. }
    specialize (Hs w).
    destruct (AllocateAndBindMemory_body K d allocationsIsNull number r allocations w)
      as [|r0 w0|x w0]; [done| |]; intros [= _ <-]; [by destruct Hs|done].
  - destruct res as [r0 out']. eapply (triple_run_out _ (λ _, True)); [|exact Hexec].
    unfold CreateAccelerationStructure_body. next_tac.
  - destruct res as [r0 out']. eapply (triple_run_out _ (λ _, True)); [|exact Hexec].
    unfold AllocateAccelerationStructure_body. next_tac.
  - eapply (triple_run _ (λ _, True)); [|exact Hexec]. unfold DestroyBuffer_body. next_tac.
  - eapply (triple_run _ (λ _, True)); [|exact Hexec]. unfold DestroyTexture_body. next_tac.
  - eapply (triple_run _ (λ _, True)); [|exact Hexec]. unfold DestroyAccelerationStructure_body. next_tac.
Qed.

End NextOps.

Lemma device_sound_same d d' :
  heap (world d') = heap (world d) → next (world d') = next (world d) →
  objects d' = objects d → m_CommandQueues d' = m_CommandQueues d →
  device_sound d → device_sound d'.
Proof.
  unfold device_sound, dfresh, fresh, queues_live, queues_distinct.
  intros Hh Hn Ho Hq. by rewrite Hh, Hn, Ho, Hq.
Qed.

(** A call on the world. *)
Lemma device_sound_world d w :
  sound_kept (world d) w → next (world d) ≤ next w →
  device_sound d → device_sound (set_world w d).
Proof.
  intros Hkept Hnext ([Hfresh Hobjects] & Hsound & Hlive & Hdistinct).
  destruct (Hkept Hfresh Hsound) as [Hfresh' Hsound'].
  split; [split; [done|]|done]. intros a Ha. specialize (Hobjects a Ha).
  cbn [world set_world]. lia.
Qed.

Lemma created_sound d d' : created d d' → device_sound d → device_sound d'.
Proof.
  intros [report|c|c p Hp|c o] Hd.
  - by apply device_sound_same with d.
  - by apply device_sound_same with d.
  - apply (device_sound_world (log_device_call c d)).
    + by apply sound_kept_Allocate.
    + cbn. lia.
    + by apply device_sound_same with d.
  - destruct Hd as ([Hfresh Hobjects] & Hsound & Hlive & Hdistinct).
    assert (objects d !! next (world d) = None) as Hnext.
    { destruct (objects d !! next (world d)) eqn:Ho; [|done].
      assert (next (world d) < next (world d)); [|lia]. apply Hobjects. by eexists. }
    split; [split|split; [done|split; [|done]]].
    + intros a Ha. specialize (Hfresh a Ha). cbn in *. lia.
    + intros a. cbn. destruct (decide (a = next (world d))) as [->|Hne]; [lia|].
      rewrite lookup_insert_ne by done. intros Ha. specialize (Hobjects a Ha). lia.
    + intros t a Ha. cbn in *. specialize (Hlive t a Ha).
      rewrite lookup_insert_ne; [done|]. intros <-. rewrite Hnext in Hlive.
      by destruct Hlive.
Qed.

(** The queue that [GetCommandQueue] makes. *)
Lemma queue_made_sound d c q index :
  m_CommandQueues d !! index = None → device_sound d →
  device_sound
    (set_commandQueues (insert index (next (world d)))
       (set_objects (insert (next (world d)) (OCommandQueue q))
          (set_world (set_next (next (world d) + 1) (world d)) (log_device_call c d)))).
Proof.
  intros Hindex Hd.
  pose proof (created_sound d _ (created_object d c (OCommandQueue q)) Hd)
    as (Hfresh & Hsound & Hlive & Hdistinct).
  destruct Hd as ([_ Hobjects] & _ & Hlive0 & _).
  assert (∀ t, m_CommandQueues d !! t ≠ Some (next (world d))) as Hnew.
  { intros t Ht. destruct (Hlive0 t _ Ht) as [v Hv].
    destruct (objects d !! next (world d)) eqn:Ho; [|done].
    assert (next (world d) < next (world d)); [|lia]. apply Hobjects. by eexists. }
  split; [done|]. split; [done|]. split.
  - intros t a. cbn. destruct (decide (t = index)) as [->|Hne].
    + rewrite lookup_insert_eq. intros [= <-]. rewrite lookup_insert_eq. by eexists.
    + rewrite lookup_insert_ne by done. apply Hlive.
  - intros t1 t2 a. cbn.
    destruct (decide (t1 = index)) as [->|Hne1], (decide (t2 = index)) as [->|Hne2];
      try done.
    + rewrite lookup_insert_eq, lookup_insert_ne by done. intros [= <-] Ht2.
      by destruct (Hnew t2).
    + rewrite lookup_insert_eq, lookup_insert_ne by done. intros Ht1 [= <-].
      by destruct (Hnew t1).
    + rewrite !lookup_insert_ne by done. apply Hdistinct.
Qed.

(** The destruction of an object that is no command queue. *)
Lemma object_destroyed_sound d c a :
  as_commandQueue (objects d !! a) = None → device_sound d →
  device_sound (set_objects (delete a) (log_device_call c d)).
Proof.
  intros Ha ([Hfresh Hobjects] & Hsound & Hlive & Hdistinct).
  split; [split; [done|]|split; [done|split; [|done]]].
  - intros x. cbn. destruct (decide (x = a)) as [->|Hne].
    + rewrite lookup_delete_eq. by intros [].
    + rewrite lookup_delete_ne by done. apply Hobjects.
  - intros t q Hq. cbn in *. specialize (Hlive t q Hq).
    rewrite lookup_delete_ne; [done|]. intros <-. rewrite Ha in Hlive. by destruct Hlive.
Qed.

(** The destruction of a proxy of the heap that is no resource. *)
Lemma proxy_destroyed_sound d c a :
  bound_flag (heap (world d)) a = None → device_sound d →
  device_sound (set_world (set_heap (delete a) (world d)) (log_device_call c d)).
Proof.
  intros Ha Hd. apply (device_sound_world (log_device_call c d)).
  - by apply sound_kept_delete_other.
  - done.
  - by apply device_sound_same with d.
Qed.

Lemma creates_dbind {A B} (m : DM Result A) (k : A → DM Result B) :
  dchecks_only (λ r, r = INVALID_ARGUMENT) m → (∀ a, creates (k a)) →
  creates (dbind m k).
Proof.
  intros Hm Hk d. unfold dbind. specialize (Hm d).
  destruct (m d) as [|r d'|a d'].
  - done.
  - destruct Hm as [_ [report ->]]. apply created_refused.
  - subst d'. apply Hk.
Qed.

Lemma creates_create backendResult c (p : Proxy) (out : Ptr) :
  (∀ m, p = PMemory m → memory_bound m = ∅) →
  creates (result <== device_backend c backendResult ;;
           if decide (result = SUCCESS) then a <== Allocate p ;; dret (result, Some a)
           else dret (result, out)).
Proof.
  intros Hp d. dsimpl. destruct (decide (backendResult = SUCCESS)); dsimpl.
  - exact (created_proxy d c p Hp).
  - apply created_nothing.
Qed.

Lemma creates_create_object backendResult c (o : Object) (out : Ptr) :
  creates (result <== device_backend c backendResult ;;
           if decide (result = SUCCESS) then
             a <== AllocateObject o ;; dret (result, Some a)
           else dret (result, out)).
Proof.
  intros d. dsimpl. destruct (decide (backendResult = SUCCESS)); dsimpl.
  - exact (created_object d c o).
  - apply created_nothing.
Qed.

Lemma drun_out_creates (body : DM Result (Result * Ptr)) out d result out' d' :
  creates body → drun_out body out d = Some (result, out', d') → created d d'.
Proof.
  intros Hbody Hrun. unfold drun_out in Hrun. specialize (Hbody d).
  destruct (body d) as [|r d1|[r p] d1]; [done| |]; by injection Hrun as <- <- <-.
Qed.

Ltac creates_tac :=
  cbv zeta;
  repeat first
    [ apply creates_create_object
    | apply creates_create; [by intros ? [= <-]]
    | apply creates_dbind; [dchecks_tac|intros] ].

Lemma Create_sound tables d result d' :
  Create tables d = Some (result, d') → device_sound d → device_sound d'.
Proof.
  unfold Create, Create_body, drun. dsimpl.
  repeat (match goal with
          | |- context [decide (?x ≠ SUCCESS)] => destruct (decide (x ≠ SUCCESS))
          end; dsimpl);
    intros [= <- <-]; by apply device_sound_same.
Qed.

Lemma GetCommandQueue_sound (E : Enums) t r impl out d result out' d' :
  GetCommandQueue E t r impl out d = Some (result, out', d') →
  device_sound d → device_sound d'.
Proof.
  unfold GetCommandQueue, drun_out, GetCommandQueue_body. dsimpl.
  destruct (t <? CommandQueueType_MAX_NUM E).
  2:{ intros [= <- <- <-]. by apply device_sound_same. }
  destruct (decide (r = SUCCESS)); dsimpl.
  2:{ intros [= <- <- <-]. by apply device_sound_same. }
  cbv zeta. dsimpl. cbn [m_CommandQueues log_device_call].
  destruct (m_CommandQueues d !! u32 t) as [q|] eqn:Hq; dsimpl.
  - intros [= <- <- <-]. by apply device_sound_same.
  - intros [= <- <- <-]. by apply queue_made_sound.
Qed.

Ltac destroy_object_tac cast :=
  let Hv := fresh "Hv" in
  let o := fresh "o" in
  rewrite dbind_deref_object_eq;
  match goal with
  | |- context [cast (objects ?d !! ?a)] =>
      destruct (cast (objects d !! a)) eqn:Hv; [|done];
      dsimpl; intros [= <-]; apply object_destroyed_sound;
      destruct (objects d !! a) as [o|]; [by destruct o|done]
  end.

Section DeviceSteps.

Context (K : Constants) (E : Enums).
Context (isTextureFilterMinMaxSupported : bool).
Context (nriConvertVKFormatToNRI : N → N).
Context (GetMemorySizeD3D12 : MemoryD3D12Desc → N).
Context (Backend_GetBufferMemoryDesc : BufferDesc → N → MemoryDesc).
Context (Backend_GetTextureMemoryDesc : TextureDesc → N → MemoryDesc).

Notation dexec :=
  (dexec K E isTextureFilterMinMaxSupported nriConvertVKFormatToNRI GetMemorySizeD3D12
         Backend_GetBufferMemoryDesc Backend_GetTextureMemoryDesc).
Notation dreachable :=
  (dreachable K E isTextureFilterMinMaxSupported nriConvertVKFormatToNRI
              GetMemorySizeD3D12 Backend_GetBufferMemoryDesc
              Backend_GetTextureMemoryDesc).

Lemma dexec_sound op d d' : dexec op d = Some d' → device_sound d → device_sound d'.
Proof.
  intros Hexec Hd. destruct op; cbn [dexec] in Hexec;
    try (apply fmap_snd_Some in Hexec as [[result out'] Hexec];
         first [ by apply (GetCommandQueue_sound _ _ _ _ _ _ _ _ _ Hexec)
               | eapply created_sound; [|exact Hd];
                 eapply drun_out_creates; [|exact Hexec];
                 first [ unfold CreateSwapChain_body | unfold CreateCommandAllocator_body
                       | unfold CreateDescriptorPool_body | unfold CreateQueryPool_body
                       | unfold CreateFence_body | unfold CreateDescriptor_BufferView_body
                       | unfold CreateDescriptor_Texture1DView_body
                       | unfold CreateDescriptor_Texture3DView_body
                       | unfold CreateDescriptor_Sampler_body
                       | unfold CreatePipeline_Compute_body
                       | unfold CreatePipeline_RayTracing_body | unfold CreateBuffer_VK_body
                       | unfold CreateTexture_VK_body | unfold CreateMemory_VK_body
                       | unfold CreateAccelerationStructure_VK_body
                       | unfold CreateBuffer_D3D11_body | unfold CreateTexture_D3D11_body
                       | unfold CreateBuffer_D3D12_body | unfold CreateTexture_D3D12_body
                       | unfold CreateMemory_D3D12_body
                       | unfold CreateAccelerationStructure_D3D12_body ];
                 creates_tac; try apply RayTracingPipeline_stage_checks_only; fail ]).
  - destruct (exec K Backend_GetBufferMemoryDesc Backend_GetTextureMemoryDesc op (world d))
      as [w|] eqn:Hop; [|done].
    injection Hexec as <-. apply device_sound_world; [|by eapply exec_next|done].
    by eapply exec_sound.
  - apply fmap_snd_Some in Hexec as [result Hexec]. by eapply Create_sound.
  - apply fmap_snd_Some in Hexec as [[] Hexec]. revert Hexec Hd.
    unfold DestroySwapChain, drun, DestroySwapChain_body.
    destroy_object_tac as_swapChain.
  - apply fmap_snd_Some in Hexec as [[] Hexec]. revert Hexec Hd.
    unfold DestroyCommandAllocator, drun, DestroyCommandAllocator_body.
    destroy_object_tac as_commandAllocator.
  - apply fmap_snd_Some in Hexec as [[] Hexec]. revert Hexec Hd.
    unfold DestroyDescriptorPool, drun, DestroyDescriptorPool_body.
    destroy_object_tac as_descriptorPool.
  - apply fmap_snd_Some in Hexec as [[] Hexec]. revert Hexec Hd.
    unfold DestroyPipelineLayout, drun, DestroyPipelineLayout_body.
    rewrite dbind_deref_eq.
    destruct (as_pipelineLayout (heap (world d) !! pipelineLayout)) as [v|] eqn:Hv;
      [|done].
    dsimpl. intros [= <-]. apply proxy_destroyed_sound.
    unfold bound_flag. by destruct (heap (world d) !! pipelineLayout) as [[]|].
  - apply fmap_snd_Some in Hexec as [[] Hexec]. revert Hexec Hd.
    unfold DestroyPipeline, drun, DestroyPipeline_body.
    rewrite dbind_deref_eq.
    destruct (as_pipeline (heap (world d) !! pipeline)) as [v|] eqn:Hv; [|done].
    dsimpl. intros [= <-]. apply proxy_destroyed_sound.
    unfold bound_flag. by destruct (heap (world d) !! pipeline) as [[]|].
  - apply fmap_snd_Some in Hexec as [[] Hexec]. revert Hexec Hd.
    unfold DestroyQueryPool, drun, DestroyQueryPool_body.
    destroy_object_tac as_queryPool.
  - apply fmap_snd_Some in Hexec as [[] Hexec]. revert Hexec Hd.
    unfold DestroyFence, drun, DestroyFence_body.
    destroy_object_tac as_fence.
Qed.

Lemma dreachable_sound d : dreachable d → device_sound d.
Proof.
  induction 1 as [|d op d' _ IH Hexec].
  - split; [split|split; [|split]].
    + intros a. cbn. rewrite lookup_empty. by intros [].
    + intros a. cbn. rewrite lookup_empty. by intros [].
    + intros memory s resource Hset. unfold bound_set in Hset. cbn in Hset.
      by rewrite lookup_empty in Hset.
    + intros t a. cbn. by rewrite lookup_empty.
    + intros t1 t2 a. cbn. by rewrite lookup_empty.
  - by apply (dexec_sound op d d').
Qed.

End DeviceSteps.

Lemma dreachable_dexec_all K E supported convert size
    Backend_GetBufferMemoryDesc Backend_GetTextureMemoryDesc ops :
  ∀ d d',
    dreachable K E supported convert size Backend_GetBufferMemoryDesc
               Backend_GetTextureMemoryDesc d →
    dexec_all K E supported convert size Backend_GetBufferMemoryDesc
              Backend_GetTextureMemoryDesc ops d = Some d' →
    dreachable K E supported convert size Backend_GetBufferMemoryDesc
               Backend_GetTextureMemoryDesc d'.
Proof.
  induction ops as [|op ops IH]; intros d d' Hreach Hexec.
  - by injection Hexec as <-.
  - cbn [dexec_all] in Hexec.
    destruct (dexec K E supported convert size Backend_GetBufferMemoryDesc
                    Backend_GetTextureMemoryDesc op d) as [d1|] eqn:Hop; [|done].
    apply (IH d1); [|done]. by eapply dreachable_step.
Defined.

(** What a successful [GetCommandQueue] yields. *)
Lemma GetCommandQueue_cached (E : Enums) t r impl out d out' d' :
  GetCommandQueue E t r impl out d = Some (SUCCESS, out', d') →
  ∃ a, out' = Some a ∧ m_CommandQueues d' !! u32 t = Some a.
Proof.
  unfold GetCommandQueue, drun_out, GetCommandQueue_body. dsimpl.
  destruct (t <? CommandQueueType_MAX_NUM E); [|done].
  destruct (decide (r = SUCCESS)); dsimpl; [|by intros [= -> _ _]].
  cbv zeta. dsimpl. cbn [m_CommandQueues log_device_call].
  destruct (m_CommandQueues d !! u32 t) as [q|] eqn:Hq; dsimpl.
  - cbn [m_CommandQueues log_device_call]. rewrite Hq. intros [= _ <- <-].
    by exists q.
  - cbn. rewrite lookup_insert_eq. intros [= _ <- <-]. eexists. split; [done|].
    cbn. by rewrite lookup_insert_eq.
Qed.

(** X24. In every state the device reaches by defined calls of the
    modelled surface (those of the first part, [Create], [GetCommandQueue],
    the creation and destruction of swap chains, command allocators,
    descriptor pools, query pools and fences, the creation of views,
    samplers and compute and ray-tracing pipelines, the destruction of
    pipelines and pipeline layouts, and the wrappers of native buffers,
    textures, memories and acceleration structures), in every order and
    with every answer of the backend: every member of the bound-set of a
    live Memory is a live resource whose bound flag is set; every element
    of [m_CommandQueues] that is set is a live command-queue proxy, and no
    two elements are the same proxy; and a [GetCommandQueue] that returns
    [SUCCESS] hands out a live command-queue proxy. *)
Theorem X24_device_invariants (K : Constants) (E : Enums)
    (isTextureFilterMinMaxSupported : bool) (nriConvertVKFormatToNRI : N → N)
    (GetMemorySizeD3D12 : MemoryD3D12Desc → N)
    (Backend_GetBufferMemoryDesc : BufferDesc → N → MemoryDesc)
    (Backend_GetTextureMemoryDesc : TextureDesc → N → MemoryDesc) (d : Device) :
  dreachable K E isTextureFilterMinMaxSupported nriConvertVKFormatToNRI GetMemorySizeD3D12
             Backend_GetBufferMemoryDesc Backend_GetTextureMemoryDesc d →
  bound_sets_sound (heap (world d))
  ∧ queues_live d
  ∧ queues_distinct d
  ∧ ∀ commandQueueType r impl out out' d',
      GetCommandQueue E commandQueueType r impl out d = Some (SUCCESS, out', d') →
      ∃ a, out' = Some a ∧ is_Some (as_commandQueue (objects d' !! a)).
Proof.
  intros Hreach. apply dreachable_sound in Hreach.
  pose proof Hreach as (_ & Hsound & Hlive & Hdistinct).
  split; [done|]. split; [done|]. split; [done|].
  intros t r impl out out' d' Hrun.
  pose proof (GetCommandQueue_sound _ _ _ _ _ _ _ _ _ Hrun Hreach) as (_ & _ & Hlive' & _).
  apply GetCommandQueue_cached in Hrun as (a & -> & Ha).
  exists a. split; [done|]. by apply (Hlive' (u32 t)).
Qed.

(** After the run of the example, the queue of type 0 is the proxy at
    address 4, the invariants hold, and asking for the queue of type 2, for
    the first time, yields a live proxy. *)
Lemma X24_device_invariants_witness :
  ∃ d,
    dexec_all nri nri_enums true id (λ _, 0)
      example_GetBufferMemoryDesc example_GetTextureMemoryDesc
      example_device_ops (device_of empty_world) = Some d
    ∧ m_CommandQueues d !! 0 = Some 4
    ∧ bound_sets_sound (heap (world d))
    ∧ queues_live d
    ∧ queues_distinct d
    ∧ ∃ a d', GetCommandQueue nri_enums 2 SUCCESS 11 None d = Some (SUCCESS, Some a, d')
              ∧ is_Some (as_commandQueue (objects d' !! a)).
Proof.
  destruct (dexec_all nri nri_enums true id (λ _, 0)
              example_GetBufferMemoryDesc example_GetTextureMemoryDesc
              example_device_ops (device_of empty_world)) as [d|] eqn:Hd;
    [|by vm_compute in Hd].
  exists d. split; [done|].
  split; [vm_compute in Hd; by injection Hd as <-|].
  destruct (X24_device_invariants nri nri_enums true id (λ _, 0)
              example_GetBufferMemoryDesc example_GetTextureMemoryDesc d)
    as (Hsound & Hlive & Hdistinct & Hqueue).
  { eapply dreachable_dexec_all; [apply dreachable_empty|exact Hd]. }
  split; [done|]. split; [done|]. split; [done|].
  destruct (GetCommandQueue nri_enums 2 SUCCESS 11 None d) as [[[r out'] d']|] eqn:Hrun.
  2:{ vm_compute in Hd. injection Hd as <-. by vm_compute in Hrun. }
  assert (r = SUCCESS) as ->.
  { vm_compute in Hd. injection Hd as <-. vm_compute in Hrun. by injection Hrun as <- _ _. }
  destruct (Hqueue 2 SUCCESS 11 None out' d' Hrun) as (a & -> & Ha).
  exists a, d'. split; [reflexivity|exact Ha].
Defined.
